(* ===== verification/_CoqProject ===== *)
-Q . S2P
Prelude.v
Js.v
Ipv4.v
Ipv6.v
Punycode.v
Host.v
Uts46.v
Url.v
Store.v
Cache.v
Http.v
World.v
Sha256.v
Tracker.v
Redirect.v
SlugGen.v
Shorten.v
System.v
Coherence.v
Accounting.v
Client.v
View.v
