(* ===== verification/Prelude.v ===== *)
(** * okg.me: a verification development of the URL shortener's core

    ** The program

    okg.me is a Next.js application (sources under src/src).  Two route
    handlers carry its logic:
    - [GET /[slug]] (app/[slug]/route.ts, [GET]) resolves a slug: it
      reads the Redis cache ([link:<slug>]), falls back to the Prisma
      store, writes the URL back to Redis for 24 hours, detaches
      [trackClickAsync] and redirects with 301;
    - [trackClickAsync] (same file) filters bots, hashes the client
      address with SHA-256 and commits one click log plus one counter
      increment in a single transaction;
    - [POST /api/shorten] (app/api/shorten/route.ts, [POST]) validates
      the URL with [isValidUrl] and either checks a custom slug or asks
      [generateUniqueSlug] (lib/utils/url.ts, built on nanoid's
      [customAlphabet]) for a fresh one, then creates the link;
    - lib/redis.ts decides from the environment whether a Redis client
      exists at all;
    - the page app/page.tsx ([Home]) holds the form's state and submits
      it to [POST /api/shorten], then shows the short link, its QR code
      and a copy button; its markup uses the components [Input] and
      [Card] (components/ui) and sits in [RootLayout] (app/layout.tsx).
    The store (lib/prisma, not among the sources), the Redis server, the
    Next.js runtime and Node's crypto are collaborators: they are
    modelled from the spec's description of their contracts.

    ** The files

    - [Prelude] (this file): the [result] type, list and string lemmas,
      the hint databases [okg] and [okg_rw], the [case_if] and
      [cmp_facts] tactics.
    - [Js]: the JavaScript semantics the handlers rely on: truthiness,
      [||], [toLowerCase], [includes], JSON values ([JsVal]), [String()],
      number comparisons on [undefined], property reads.
    - [Ipv4]: the URL Standard's IPv4 parser (radix 10, 8 and 16 parts,
      at most four, the last one filling the remaining bytes), the
      ends-in-a-number checker and the IPv4 serializer.
    - [Ipv6]: the IPv6 parser (hex pieces, [::] compression with its
      swap, an embedded IPv4 tail) and the IPv6 serializer (longest zero
      run as [::], shortest lower-case hex).
    - [Host]: the host parser of a special URL: brackets to [Ipv6],
      otherwise UTF-8 encoding, percent-decoding, domain to ASCII (the
      ASCII fast path; UTS 46 as the parameter [uts46] of a Section), the
      forbidden code point check and [Ipv4] when the domain ends in a
      number; the host serializer.
    - [Punycode]: RFC 3492 Bootstring with its parameters and 32-bit
      overflow checks: [adapt], the encoder ([encode_vli], [encode_pass],
      [encode_loop], [punycode_encode]) and the decoder ([decode_number],
      [decode_loop], [punycode_decode]).
    - [Uts46]: UTS 46 ToASCII as domain to ASCII runs it: the Encoding
      Standard's UTF-8 decoder, mapping by IDNA status, NFC, labels,
      Punycode conversion of [xn--] labels, the validity criteria, and
      ToASCII's Punycode encoding; the Unicode data is the record
      [idna_data], a parameter; [uts46_table] is ToASCII as [Host]'s
      mapping parameter.
    - [Url]: the WHATWG URL parser up to [protocol] and the special
      authority, whose host is run through [Host.host_parse];
      [isValidUrl].
    - [Store]: the Prisma store: [Link], [ClickLog], the unique slug
      index, [find_unique_slug], [create_link], [click_txn]; its
      invariant [db_wf] (index consistent, ids fresh, every counter equal
      to its number of logs), decidable by [db_wf_check]; its growth
      order [db_le] (a [PreOrder]).
    - [Cache]: the Redis server ([redis_get], [redis_set] with expiry)
      and lib/redis.ts ([hasRedisEnvs], [redis_module_init]).
    - [Http]: requests, headers and responses; [next_redirect] as
      [NextResponse.redirect].
    - [World]: the effects ([eff]: store, cache, entropy, detach,
      console, await), the [World] they act on and the freer-monad
      programs [prog] with [exec], [try_catch] and the [x <- m ;; k]
      notation.  A handler is a [prog]; [exec] is total by structural
      recursion, so no fuel is needed for the handlers.
    - [Sha256]: SHA-256 on 32-bit words kept at their width with
      [Z.land] masks, the round constants derived from cube roots as in
      FIPS 180-4, and the hex digest; checked on the standard's vectors.
    - [Tracker]: [trackClickAsync].
    - [Redirect]: [GET /[slug]], the cache invariant [cache_coherent]
      and the resolver's contract [resolve_spec].
    - [SlugGen]: nanoid's mask-and-reject generator and
      [generateUniqueSlug].
    - [Shorten]: [POST /api/shorten].
    - [System]: the server as a step relation interleaving handlers and
      detached tasks at their calls, with arrivals, clock ticks and
      outages, and an executable scheduler [run_sched].
    - [Coherence]: the cache invariant under interleaving: each pending
      handler's remaining writes are justified ([wsafe]) by what it read
      from the store, and the system invariant [sys_safe].
    - [Accounting]: click budgets of programs ([twp], a weakest
      precondition counting click transactions and queued tasks), the
      system relabelled with its arrivals ([lstep], [ltrace]), and the
      invariant relating the click log to the requests received.
    - [Client]: the page ([UiState], [ui_event], [handleSubmit_start]
      and [submit_finish] around the [await fetch], the form's submit
      event [submit_start] guarded by the submit button, [handleCopy],
      the queued QR and copy-reset callbacks) and its composition with
      [POST] ([cstep], with every request in flight, and
      [submit_with_server]).
    - [View]: what the page renders: [render] maps a [UiState] to an
      element tree whose handlers are [Client]'s events, with [Input],
      [Card] and [RootLayout] expanded and the CSS modules' class names
      as parameters; [class_list] reads a [className] as the DOM does.

    ** The theorems

    - Resolver ([Redirect]): the cache-hit and store paths exactly
      ([GET_cache_hit], [GET_store_path]), not-found, outage and
      totality, the empty slug; [GET_resolve_spec]: under a coherent
      cache the response is [resolve_spec] of the store, whatever the
      cache holds.
    - Tracking ([Tracker]): a click adds one log with the digest and one
      increment ([track_counts]); bots change nothing; the task always
      resolves.  [Sha256.sha256_hex_shape]: the digest is 64 hex digits.
    - Shortening ([Shorten]): created, conflict, the length check, a
      body that is not JSON, and the non-string custom slug that
      escapes validation ([POST_custom_number_500]).
    - Generation ([SlugGen]): a returned slug is free, of the promised
      length and alphabet; nanoid returns when its entropy allows, and
      then returns the first accepted characters of the byte stream
      ([nanoid_first_accepted]).  [Cache]: a Redis client exists
      exactly when the environment is configured, and outside
      production the first one is kept.
    - URL validation ([Url]): accepted URLs are http(s) with an
      authority, and a plain http(s) URL is accepted exactly when its
      host parses ([isValidUrl_http_url]).  The platform's parsers
      come with their own results, which no repository code affects:
      hosts ([Host], [Ipv4],
      [Ipv6]): a parsed host is a non-empty domain without forbidden
      code points, a 32-bit IPv4 address or eight 16-bit IPv6 pieces
      ([host_parse_bounds]); a parsed host serializes to a string that
      parses back to it ([host_roundtrip], from [ipv4_roundtrip] and
      [ipv6_roundtrip]) for every mapping table that yields lower-case
      ASCII and is idempotent on punycode results.  Punycode decoding
      inverts encoding for labels of at most 54 code points
      ([punycode_roundtrip]); the bound is needed, as a 1928 code point
      label shows ([punycode_roundtrip_overflow]).  With UTS 46 ToASCII
      as the mapping, the host round trip holds for any Unicode data
      with four ASCII and range facts, for domains whose labels have at
      most 54 code points ([Uts46.host_roundtrip_uts46], from
      [uts46_to_ascii_idem]).
    - The whole server ([System]): every request can be answered; the
      round trip POST-then-GET gives back the URL
      ([Shorten.shorten_then_resolve]); and the custom-slug race is
      exhibited as a reachable schedule.  [Coherence]: every reachable
      state keeps Redis coherent with the store and every stored URL
      valid ([sys_cache_coherent]), so a [GET] in any reachable state
      answers [resolve_spec] ([sys_resolution]).  [Accounting]: in
      every reachable state each click row appended was produced from
      one non-bot request, with the digest of its address
      ([sys_logs_private]); the click log grows by at most one row per
      [GET] received ([sys_clicks_bounded]), which needs the cache to
      be coherent: a cached value the redirect rejects makes one [GET]
      queue two tracking tasks ([GET_double_track]).
    - The page ([Client]): the trim, the well-typed payload, [loading]
      set exactly while a request is in flight and at most one in flight
      ([ui_loading_inflight], which rests on the submit button's guard),
      the end-to-end submission with the server, the error displays,
      [handleCopy], and the stale QR code race as a reachable run.
    - The markup ([View]): the inputs are controlled
      ([controlled_inputs]), the inputs are disabled while loading, [Input]'s field carries the error and icon
      classes exactly when those props are set ([input_class_list]), and
      after the stale QR run the page offers the first link's QR image
      under the second link's file name ([stale_qr_download]).

    ** Bounds and fuel

    Handlers need no fuel.  The Punycode loops run with fuel that is
    always enough: [adapt] and the digit loop [encode_vli] with
    [Z.log2] of the number they divide ([adapt_loop_fuel],
    [vli_fuel_enough]), the encoder's and decoder's main loops with the
    input's length (each round handles a code point or consumes a
    digit; [decode_loop_fuel]).  Their integers are 32-bit signed values
    kept as [Z] with the RFC's overflow checks against 2^31 - 1; under
    54 code points every integer stays below (2^31 - 1) / 35, so no
    check fires.  Nanoid's [while (true)] loop is run with fuel: [nanoid_fuel] = 64 batches of [step] = 10 bytes; with
    the 62-letter alphabet a byte is rejected with probability 2/64,
    so 64 batches cover any request of up to 64 characters whenever
    each batch accepts a byte, which [nanoid_returns] assumes and
    proves sufficient; exhaustion is an explicit [XError], never a
    silent result.  Integers of the store are [nat]; SHA-256 words are
    [Z] masked to 32 bits ([sha256_words_bounded]).

    ** Not modelled

    The stylesheets (globals.css and the CSS modules: their class names
    are parameters of [View.render]); the [Button] component, which the
    page imports from components/ui/Button but the repository does not
    contain (it stays an unexpanded element); React's reconciliation,
    refs and effects (the page has none beyond its state).  The
    browser's own form validation ([type="url"] and [required] on the
    input) is not modelled, so the page model allows more submissions
    than a browser does.  The Prisma client's wire protocol and the
    Upstash REST serialisation (their contracts are modelled instead);
    the Unicode data UTS 46 reads (the IDNA mapping table, NFC,
    General_Category, the ContextJ and Bidi rules): it is the parameter
    [Uts46.idna_data], and [isValidUrl] is modelled with the table that
    maps nothing ([Url.uts46_ascii_only]), which is ToASCII over the
    ASCII rows of the data ([Uts46.ascii_idna_data],
    [Url.host_parse_ascii_data]), so it rejects a non-ASCII or
    [xn--] host that Node may accept; the
    rest of the URL record (path, query, fragment parsing) beyond the
    failures it cannot cause for an http(s) URL;
    the serialisation of [NextResponse.redirect]'s Location header.
    Interleaving is at the granularity of calls, a superset of the
    event loop's schedules. *)

From stdpp Require Export base gmap strings list.
From Stdlib Require Export ZArith Lia.

Declare Scope okg_scope.
Delimit Scope okg_scope with okg.

(** ** Results: the value of a call that may fail *)

Inductive result (A E : Type) : Type :=
| Ok (a : A)
| Err (e : E).
Arguments Ok {A E} a.
Arguments Err {A E} e.

Definition result_bind {A B E} (r : result A E) (f : A -> result B E) : result B E :=
  match r with Ok a => f a | Err e => Err e end.

Notation "'let?' x ':=' r 'in' k" := (result_bind r (fun x => k))
  (at level 10, x name, r at level 100, k at level 200) : okg_scope.

Open Scope okg_scope.

(** ** Counting the elements of a list that satisfy a test *)

Definition count_by {A} (p : A -> bool) (l : list A) : nat :=
  length (List.filter p l).

(** [str_forallb p s]: every character of [s] satisfies [p]. *)
Fixpoint str_forallb (p : Ascii.ascii -> bool) (s : string) : bool :=
  match s with
  | EmptyString => true
  | String c s' => p c && str_forallb p s'
  end.

Lemma forallb_rev {A} (p : A -> bool) (l : list A) : forallb p (rev l) = forallb p l.
Proof.
  induction l as [|x l IH]; [done|]. simpl. rewrite forallb_app, IH. simpl.
  by rewrite andb_true_r, andb_comm.
Qed.

Lemma forallb_imp {A} (p q : A -> bool) (l : list A) :
  (forall x, p x = true -> q x = true) -> forallb p l = true -> forallb q l = true.
Proof. intros Hpq. induction l as [|x l IH]; [done|]. cbn. intros [? ?]%andb_prop. rewrite Hpq, IH; done. Qed.

Lemma existsb_false_forallb {A} (p : A -> bool) (l : list A) :
  existsb p l = false <-> forallb (fun x => negb (p x)) l = true.
Proof. induction l as [|x l IH]; [done|]. cbn. rewrite orb_false_iff, andb_true_iff, negb_true_iff. tauto. Qed.

Lemma count_by_nil {A} (p : A -> bool) : count_by p [] = 0.
Proof. reflexivity. Qed.

Lemma count_by_app {A} (p : A -> bool) (l1 l2 : list A) :
  count_by p (l1 ++ l2) = count_by p l1 + count_by p l2.
Proof. unfold count_by. by rewrite List.filter_app, length_app. Qed.

Lemma count_by_single {A} (p : A -> bool) (x : A) :
  count_by p [x] = if p x then 1 else 0.
Proof. unfold count_by. simpl. by destruct (p x). Qed.

Lemma count_by_ext_in {A} (p q : A -> bool) (l : list A) :
  (forall x, x ∈ l -> p x = q x) -> count_by p l = count_by q l.
Proof.
  unfold count_by. induction l as [|x l IH]; intros Hpq; [done|]. simpl.
  rewrite (Hpq x) by set_solver. destruct (q x); simpl; rewrite IH; set_solver.
Qed.

Lemma count_by_zero {A} (p : A -> bool) (l : list A) :
  (forall x, x ∈ l -> p x = false) -> count_by p l = 0.
Proof.
  unfold count_by. induction l as [|x l IH]; intros Hp; [done|]. simpl.
  rewrite (Hp x) by set_solver. apply IH. set_solver.
Qed.

Lemma count_by_cons_eq {A} (p : A -> bool) (x : A) (l : list A) :
  count_by p (x :: l) = (if p x then 1 else 0) + count_by p l.
Proof. unfold count_by. simpl. by destruct (p x). Qed.

Lemma count_by_rev {A} (p : A -> bool) (l : list A) : count_by p (rev l) = count_by p l.
Proof.
  induction l as [|x l IH]; [done|]. simpl. rewrite count_by_app, count_by_single, count_by_cons_eq, IH.
  lia.
Qed.

Lemma count_by_existsb {A} (p : A -> bool) (l : list A) : existsb p l = true -> 1 <= count_by p l.
Proof.
  induction l as [|x l IH]; [done|]. simpl. rewrite count_by_cons_eq.
  destruct (p x); simpl; [lia|]. intros H. specialize (IH H). lia.
Qed.

(** ** Strings: stdpp makes [String.append] opaque to [simpl]; these are
    its defining equations. *)

Lemma str_app_nil (s : string) : "" +:+ s = s.
Proof. reflexivity. Qed.

Lemma str_app_cons (c : Ascii.ascii) (s1 s2 : string) :
  String c s1 +:+ s2 = String c (s1 +:+ s2).
Proof. reflexivity. Qed.

Lemma str_app_nil_r (s : string) : s +:+ "" = s.
Proof. induction s; [done|]. rewrite str_app_cons. by f_equal. Qed.

Lemma str_app_assoc (s1 s2 s3 : string) : s1 +:+ s2 +:+ s3 = (s1 +:+ s2) +:+ s3.
Proof. induction s1; [done|]. rewrite !str_app_cons. by f_equal. Qed.

Lemma str_forallb_app p s1 s2 :
  str_forallb p (s1 +:+ s2) = str_forallb p s1 && str_forallb p s2.
Proof. induction s1 as [|c s1 IH]; [done|]. rewrite str_app_cons. simpl. rewrite IH. apply andb_assoc. Qed.

Lemma str_length_app (s1 s2 : string) :
  String.length (s1 +:+ s2) = String.length s1 + String.length s2.
Proof. induction s1; [done|]. rewrite str_app_cons. simpl. by f_equal. Qed.

(** ** Automation shared by the components *)

Create HintDb okg discriminated.
Create Rewrite HintDb okg_rw.

(** Split the first [if] or [match] on a boolean in the goal, keeping the
    equation. *)
Ltac case_if :=
  match goal with
  | |- context [if ?b then _ else _] => destruct b eqn:?
  end.

(** Comparison results on [Z] and [nat] as arithmetic facts, for [lia]. *)
Ltac cmp_facts :=
  repeat match goal with
  | H : (_ || _) = false |- _ => apply orb_false_iff in H as [? ?]
  | H : (_ && _) = true |- _ => apply andb_prop in H as [? ?]
  | H : (_ <? _)%nat = false |- _ => apply Nat.ltb_ge in H
  | H : (_ <=? _)%nat = false |- _ => apply Nat.leb_gt in H
  | H : (_ <? _)%nat = true |- _ => apply Nat.ltb_lt in H
  | H : (_ <=? _)%nat = true |- _ => apply Nat.leb_le in H
  | H : (_ =? _)%nat = true |- _ => apply Nat.eqb_eq in H
  | H : (_ =? _)%nat = false |- _ => apply Nat.eqb_neq in H
  | H : (_ <? _)%Z = false |- _ => apply Z.ltb_ge in H
  | H : (_ <=? _)%Z = false |- _ => apply Z.leb_gt in H
  | H : (_ <? _)%Z = true |- _ => apply Z.ltb_lt in H
  | H : (_ <=? _)%Z = true |- _ => apply Z.leb_le in H
  end.

#[export] Hint Rewrite @count_by_app @count_by_single str_app_nil str_app_cons : okg_rw.
