(* ===== verification/Js.v ===== *)
(** * Js: the JavaScript runtime operations the handlers rely on

    Strings are ASCII strings ([String.string]); one character is one
    UTF-16 code unit, so [String.length] is JavaScript's [.length] on the
    strings the model handles.  A request body is a JSON value [JsVal];
    numbers are the integers of [Z] (JSON fractions are not modelled).
    Each definition states the ECMAScript behaviour the source relies on:
    truthiness in [if (x)] and [x || d], [String.prototype.toLowerCase],
    [String.prototype.includes], [String(v)], [ToNumber] in a comparison
    [v < n], and property reads [v.p]. *)

From S2P Require Import Prelude.
From stdpp Require Import pretty.
From Stdlib Require Import Ascii.

#[local] Set Warnings "-register-all".


(** ** Strings *)

(** [toLowerCase] on ASCII: [A]..[Z] map to [a]..[z]. *)
Definition ascii_lower (c : Ascii.ascii) : Ascii.ascii :=
  let n := Ascii.nat_of_ascii c in
  if (65 <=? n) && (n <=? 90) then Ascii.ascii_of_nat (n + 32) else c.

Fixpoint js_to_lower (s : string) : string :=
  match s with
  | EmptyString => EmptyString
  | String c s' => String (ascii_lower c) (js_to_lower s')
  end.

(** [s.includes(sub)]: [sub] occurs at some position of [s]. *)
Fixpoint js_includes (s sub : string) : bool :=
  String.prefix sub s ||
  match s with
  | EmptyString => false
  | String _ s' => js_includes s' sub
  end.

(** A string is truthy iff it is not empty. *)
Definition js_str_truthy (s : string) : bool :=
  negb (String.eqb s "").

(** [x || d] where [x : string | null | undefined] ([None] is null or
    undefined). *)
Definition js_or (x : option string) (d : string) : string :=
  match x with
  | Some s => if js_str_truthy s then s else d
  | None => d
  end.

(** ** JSON values as JavaScript sees them *)

Inductive JsVal : Type :=
| JUndefined
| JNull
| JBool (b : bool)
| JNum (n : Z)
| JStr (s : string)
| JArr (l : list JsVal)
| JObj (fields : list (string * JsVal)).

(** [if (v)] *)
Definition js_truthy (v : JsVal) : bool :=
  match v with
  | JUndefined | JNull => false
  | JBool b => b
  | JNum n => negb (n =? 0)%Z
  | JStr s => js_str_truthy s
  | JArr _ | JObj _ => true
  end.

(** [String(v)]: arrays join their elements with commas, printing null and
    undefined elements as the empty string. *)
Fixpoint js_to_string (v : JsVal) : string :=
  match v with
  | JUndefined => "undefined"
  | JNull => "null"
  | JBool b => if b then "true" else "false"
  | JNum n => pretty n
  | JStr s => s
  | JArr l =>
      (fix join (l : list JsVal) : string :=
         match l with
         | [] => ""
         | x :: l' =>
             let sx := match x with
                       | JUndefined | JNull => ""
                       | _ => js_to_string x
                       end in
             match l' with
             | [] => sx
             | _ => sx +:+ "," +:+ join l'
             end
         end) l
  | JObj _ => "[object Object]"
  end.

(** Decimal digits of a string, as the integer they denote. *)
Fixpoint digits_value (s : string) (acc : Z) : option Z :=
  match s with
  | EmptyString => Some acc
  | String c s' =>
      let n := Ascii.nat_of_ascii c in
      if (48 <=? n) && (n <=? 57)
      then digits_value s' (acc * 10 + Z.of_nat (n - 48))%Z
      else None
  end.

(** [ToNumber] on a string, for the integer forms: the empty string is 0,
    an optional sign followed by decimal digits is that integer, anything
    else is [NaN] ([None]).  Whitespace trimming, fractions, exponents and
    hexadecimal literals are not modelled. *)
Definition str_to_number (s : string) : option Z :=
  match s with
  | EmptyString => Some 0%Z
  | String c s' =>
      if Ascii.eqb c "-"%char then
        match s' with EmptyString => None | _ => option_map Z.opp (digits_value s' 0) end
      else if Ascii.eqb c "+"%char then
        match s' with EmptyString => None | _ => digits_value s' 0 end
      else digits_value s 0
  end.

(** [ToNumber(ToPrimitive(v))]; [None] is [NaN]. *)
Definition js_to_number (v : JsVal) : option Z :=
  match v with
  | JUndefined => None
  | JNull => Some 0%Z
  | JBool b => Some (if b then 1 else 0)%Z
  | JNum n => Some n
  | JStr s => str_to_number s
  | JArr _ => str_to_number (js_to_string v)
  | JObj _ => None
  end.

(** [v < n] and [v > n] for a number literal [n]: a comparison with [NaN]
    is false. *)
Definition js_lt_num (v : JsVal) (n : Z) : bool :=
  match js_to_number v with Some m => (m <? n)%Z | None => false end.

Definition js_gt_num (v : JsVal) (n : Z) : bool :=
  match js_to_number v with Some m => (n <? m)%Z | None => false end.

(** The value of the last field named [k] ([JSON.parse] keeps the last of
    duplicated keys). *)
Fixpoint assoc_last (k : string) (fs : list (string * JsVal)) : option JsVal :=
  match fs with
  | [] => None
  | (k', v) :: fs' =>
      match assoc_last k fs' with
      | Some w => Some w
      | None => if String.eqb k k' then Some v else None
      end
  end.

(** [v.p]: [None] is the [TypeError] of a read on null or undefined.
    Strings and arrays have [length]; an object has its own fields;
    every other read is [undefined] (inherited properties are not
    modelled). *)
Definition js_get_prop (v : JsVal) (p : string) : option JsVal :=
  match v with
  | JUndefined | JNull => None
  | JStr s => Some (if String.eqb p "length" then JNum (Z.of_nat (String.length s)) else JUndefined)
  | JArr l => Some (if String.eqb p "length" then JNum (Z.of_nat (length l)) else JUndefined)
  | JObj fs => Some (default JUndefined (assoc_last p fs))
  | JBool _ | JNum _ => Some JUndefined
  end.

(** ** Lemmas *)

Lemma js_or_truthy x d : js_str_truthy x = true -> js_or (Some x) d = x.
Proof. unfold js_or. by intros ->. Qed.

Lemma js_or_not_truthy x d : js_str_truthy x = false -> js_or (Some x) d = d.
Proof. unfold js_or. by intros ->. Qed.

Lemma js_str_truthy_iff s : js_str_truthy s = true <-> s <> "".
Proof.
  unfold js_str_truthy. rewrite negb_true_iff, String.eqb_neq. done.
Qed.

Lemma js_or_truthy_result x d :
  js_str_truthy d = true -> js_str_truthy (js_or x d) = true.
Proof. unfold js_or. destruct x as [s|]; [destruct (js_str_truthy s) eqn:?|]; done. Qed.

Lemma js_to_lower_length s : String.length (js_to_lower s) = String.length s.
Proof. induction s; simpl; auto. Qed.

Lemma js_to_lower_app s1 s2 :
  js_to_lower (s1 +:+ s2) = js_to_lower s1 +:+ js_to_lower s2.
Proof. induction s1; [done|]. rewrite str_app_cons. simpl. rewrite str_app_cons. by f_equal. Qed.

Lemma js_includes_app_l s1 s2 sub :
  js_includes s2 sub = true -> js_includes (s1 +:+ s2) sub = true.
Proof.
  intros H. induction s1 as [|c s1 IH]; [done|]. rewrite str_app_cons. simpl. rewrite IH. apply orb_true_r.
Qed.

Lemma prefix_app s1 s2 : String.prefix s1 (s1 +:+ s2) = true.
Proof.
  induction s1 as [|c s1 IH]; [by destruct s2|]. rewrite str_app_cons. simpl.
  destruct (ascii_dec c c); [exact IH|done].
Qed.

Lemma prefix_app_r a b c : String.prefix a b = true -> String.prefix a (b +:+ c) = true.
Proof.
  revert b. induction a as [|x a IH]; intros [|y b]; simpl; try done.
  - intros _. by destruct c.
  - destruct (Ascii.ascii_dec x y); [apply IH|done].
Qed.

Lemma js_includes_app_r s1 s2 sub :
  js_includes s1 sub = true -> js_includes (s1 +:+ s2) sub = true.
Proof.
  induction s1 as [|c s1 IH].
  - destruct sub; [intros _; by destruct s2|done].
  - simpl. rewrite ?str_app_cons. simpl. intros [H|H]%orb_true_iff; apply orb_true_iff.
    + left. by apply (prefix_app_r _ (String c s1)).
    + right. by apply IH.
Qed.

Lemma js_includes_prefix s sub : String.prefix sub s = true -> js_includes s sub = true.
Proof. destruct s; simpl; intros ->; done. Qed.

Lemma js_includes_infix s1 s2 sub :
  js_includes (s1 +:+ sub +:+ s2) sub = true.
Proof. apply js_includes_app_l, js_includes_prefix, prefix_app. Qed.

#[export] Hint Resolve js_or_truthy_result js_includes_app_l js_includes_infix : okg.
#[export] Hint Rewrite js_to_lower_app js_to_lower_length : okg_rw.
