(* ===== verification/Ipv4.v ===== *)
(** * Ipv4: the IPv4 parser and serializer of the URL Standard

    [new URL] (behind [isValidUrl], src/src/lib/utils/url.ts) parses a
    host that ends in a number as an IPv4 address (URL Standard 3.5):
    [ipv4_parse] splits on [.], drops a last empty part, parses at most
    four parts with [ipv4_number] (decimal, [0]-prefixed octal,
    [0x]-prefixed hexadecimal, as mathematical integers), and fails when
    a leading part exceeds 255 or the last one reaches [256^(5 - n)];
    [ends_in_a_number] decides whether the IPv4 parser runs at all.
    [ipv4_serialize] is the host serializer's four rounds.

    Theorems: a parsed address is below 2^32 ([ipv4_parse_bounds]) and
    the serializer's output parses back to the address
    ([ipv4_roundtrip]). *)

From S2P Require Import Prelude Js.

(** ** Code points *)

Definition is_digit_cp (c : nat) : bool := (48 <=? c) && (c <=? 57).

(** The value of an ASCII hex digit. *)

Definition hex_val (c : nat) : option nat :=
  if is_digit_cp c then Some (c - 48)
  else if (65 <=? c) && (c <=? 70) then Some (c - 55)
  else if (97 <=? c) && (c <=? 102) then Some (c - 87)
  else None.

(** ** Splitting on [.] *)

(** Strictly splitting on U+002E: never empty. *)

Fixpoint split_dots (l : list nat) : list (list nat) :=
  match l with
  | [] => [[]]
  | c :: l' =>
      let r := split_dots l' in
      if c =? 46 then [] :: r
      else match r with p :: ps => (c :: p) :: ps | [] => [[c]] end
  end.

(** ** The IPv4 number parser *)

Fixpoint radix_value (r : Z) (l : list nat) (acc : Z) : option Z :=
  match l with
  | [] => Some acc
  | c :: l' =>
      match hex_val c with
      | Some d => if (Z.of_nat d <? r)%Z then radix_value r l' (acc * r + Z.of_nat d)%Z else None
      | None => None
      end
  end.

(** A [0x]/[0X] prefix selects radix 16, another leading [0] radix 8;
    the validation error flag is not a failure and is dropped. *)

Definition ipv4_number (s : list nat) : option Z :=
  match s with
  | [] => None
  | c :: x :: rest =>
      if c =? 48 then
        if (x =? 120) || (x =? 88) then
          match rest with [] => Some 0%Z | _ => radix_value 16 rest 0 end
        else radix_value 8 (x :: rest) 0
      else radix_value 10 s 0
  | _ => radix_value 10 s 0
  end.

(** The parts of an IPv4 address: a last empty part is dropped. *)

Definition ipv4_parts (l : list nat) : list (list nat) :=
  let parts := split_dots l in
  match last parts with
  | Some [] => if 1 <? length parts then removelast parts else parts
  | _ => parts
  end.

Fixpoint all_some {A} (l : list (option A)) : option (list A) :=
  match l with
  | [] => Some []
  | Some x :: l' => match all_some l' with Some xs => Some (x :: xs) | None => None end
  | None :: _ => None
  end.

(** [Σ n_i × 256^(3 − i)] over the leading numbers. *)

Fixpoint ipv4_prefix (ns : list Z) (counter : nat) : Z :=
  match ns with
  | [] => 0
  | n :: ns' => (n * 256 ^ Z.of_nat (3 - counter) + ipv4_prefix ns' (S counter))%Z
  end.

Definition ipv4_parse (l : list nat) : option Z :=
  let parts := ipv4_parts l in
  if 4 <? length parts then None
  else
    match all_some (map ipv4_number parts) with
    | None => None
    | Some numbers =>
        if existsb (fun n => 255 <? n)%Z (removelast numbers) then None
        else
          match last numbers with
          | Some lst =>
              if (256 ^ Z.of_nat (5 - length numbers) <=? lst)%Z then None
              else Some (lst + ipv4_prefix (removelast numbers) 0)%Z
          | None => None
          end
    end.

(** The last part looks like a number: all digits, or an IPv4 number. *)

Definition number_like (lst : list nat) : bool :=
  (negb (length lst =? 0) && forallb is_digit_cp lst) || bool_decide (is_Some (ipv4_number lst)).

Definition ends_in_a_number (l : list nat) : bool :=
  let parts := split_dots l in
  match last parts with
  | Some [] =>
      if length parts =? 1 then false
      else match last (removelast parts) with Some lst => number_like lst | None => false end
  | Some lst => number_like lst
  | None => false
  end.

(** ** The IPv4 serializer *)

(** A digit in lower-case hexadecimal. *)

Definition digit_cp (d : Z) : nat :=
  let n := Z.to_nat d in if n <? 10 then 48 + n else 87 + n.

(** [String(m)] for [0 <= m < 1000]. *)

Definition dec_byte (m : Z) : list nat :=
  if (m <? 10)%Z then [digit_cp m]
  else if (m <? 100)%Z then [digit_cp (m / 10); digit_cp (m mod 10)]
  else [digit_cp (m / 100); digit_cp (m / 10 mod 10); digit_cp (m mod 10)].

(** The IPv4 serializer: four rounds, each prepending [n % 256] and,
    but in the last, a [.]. *)

Fixpoint ipv4_ser_loop (i : nat) (n : Z) (out : list nat) : list nat :=
  match i with
  | 0 => out
  | S i' =>
      let out' := dec_byte (n mod 256) ++ out in
      ipv4_ser_loop i' (n / 256) (if i' =? 0 then out' else 46 :: out')
  end.

Definition ipv4_serialize (a : Z) : list nat := ipv4_ser_loop 4 a [].

Definition no_dot (l : list nat) : bool := forallb (fun c => negb (c =? 46)) l.

(** Every byte prints as a decimal [String(m)] that parses back, with
    no [.]: checked on the 256 values. *)

Definition byte_ok (n : nat) : bool :=
  let m := Z.of_nat n in
  bool_decide (ipv4_number (dec_byte m) = Some m) && no_dot (dec_byte m) &&
  negb (length (dec_byte m) =? 0).

(** A dotted-decimal character: a digit or [.]. *)
Definition dotted_cp (c : nat) : bool := is_digit_cp c || (c =? 46).

(** ** Lemmas: splitting *)

Lemma split_dots_no_dot l : no_dot l = true -> split_dots l = [l].
Proof.
  induction l as [|c l IH]; [done|]. simpl. intros [Hc Hl]%andb_prop.
  apply negb_true_iff in Hc. by rewrite Hc, IH.
Qed.

Lemma split_dots_app x y :
  no_dot x = true -> split_dots (x ++ 46 :: y) = x :: split_dots y.
Proof.
  induction x as [|c x IH]; [done|]. simpl. intros [Hc Hx]%andb_prop.
  apply negb_true_iff in Hc. by rewrite Hc, IH.
Qed.

Lemma split_dots_ne l : split_dots l <> [].
Proof. destruct l as [|c l]; simpl; [done|]. destruct (c =? 46); [done|]. by destruct (split_dots l). Qed.

(** ** Lemmas: the IPv4 number parser *)

Lemma radix_value_nonneg r l acc v :
  (0 <= r)%Z -> (0 <= acc)%Z -> radix_value r l acc = Some v -> (0 <= v)%Z.
Proof.
  revert acc. induction l as [|c l IH]; intros acc Hr Ha H; simpl in H; [by injection H as <-|].
  destruct (hex_val c); [|done]. destruct (_ <? _)%Z; [|done].
  eapply IH; [done| |exact H]. nia.
Qed.

Lemma ipv4_number_nonneg s v : ipv4_number s = Some v -> (0 <= v)%Z.
Proof.
  unfold ipv4_number. destruct s as [|c [|x rest]]; [done| |].
  - apply radix_value_nonneg; lia.
  - repeat case_if; first [apply radix_value_nonneg; lia | intros [= <-]; lia].
Qed.

Lemma all_some_map {A B} (f : A -> option B) l ys :
  all_some (map f l) = Some ys -> Forall2 (fun x y => f x = Some y) l ys.
Proof.
  revert ys. induction l as [|x l IH]; intros ys; simpl; [intros [= <-]; constructor|].
  destruct (f x) eqn:Ef; [|done]. destruct (all_some (map f l)) eqn:E; [|done].
  intros [= <-]. constructor; auto.
Qed.

Lemma byte_ok_all : forallb byte_ok (seq 0 256) = true.
Proof. vm_compute. reflexivity. Qed.

Lemma dec_byte_ok m :
  (0 <= m < 256)%Z ->
  ipv4_number (dec_byte m) = Some m /\ no_dot (dec_byte m) = true /\ dec_byte m <> [].
Proof.
  intros Hm. pose proof byte_ok_all as H. rewrite forallb_forall in H.
  specialize (H (Z.to_nat m) ltac:(apply in_seq; lia)). unfold byte_ok in H.
  rewrite Z2Nat.id in H by lia.
  apply andb_prop in H as [[H1 H2]%andb_prop H3]. apply bool_decide_eq_true in H1.
  split; [done|]. split; [done|]. intros E. by rewrite E in H3.
Qed.

Lemma ipv4_serialize_eq a :
  ipv4_serialize a =
  dec_byte (a / 256 / 256 / 256 mod 256) ++ 46 :: dec_byte (a / 256 / 256 mod 256) ++
  46 :: dec_byte (a / 256 mod 256) ++ 46 :: dec_byte (a mod 256).
Proof. unfold ipv4_serialize. simpl. by rewrite ?app_nil_r, <- ?app_assoc. Qed.

Lemma ipv4_parts_ne l : ipv4_parts l <> [].
Proof.
  unfold ipv4_parts. pose proof (split_dots_ne l) as Hne.
  destruct (last (split_dots l)) as [[|x p]|]; try done.
  case_if; [|done]. destruct (split_dots l) as [|x [|y ps]]; simpl in *; try done; lia.
Qed.

(** A parsed IPv4 address is a 32-bit number: at most three leading
    parts of at most 255, and a last part below [256^(5 - n)]. *)

Theorem ipv4_parse_bounds l a : ipv4_parse l = Some a -> (0 <= a < 2 ^ 32)%Z.
Proof.
  unfold ipv4_parse. pose proof (ipv4_parts_ne l) as Hne.
  destruct (4 <? length (ipv4_parts l)) eqn:H4; [done|]. apply Nat.ltb_ge in H4.
  destruct (all_some _) as [numbers|] eqn:Hall; [|done].
  apply all_some_map in Hall.
  pose proof (Forall2_length _ _ _ Hall) as Hlen.
  assert (Forall (fun n => 0 <= n)%Z numbers) as Hpos.
  { clear -Hall. induction Hall; constructor; eauto using ipv4_number_nonneg. }
  destruct (existsb _ _) eqn:Hex; [done|].
  destruct (last numbers) as [lst|] eqn:Hl; [|done].
  destruct (_ <=? _)%Z eqn:Hb; [done|]. intros [= <-].
  destruct (ipv4_parts l) as [|p ps]; [done|].
  destruct numbers as [|n0 [|n1 [|n2 [|n3 [|n4 ns]]]]]; simpl in *; try lia;
    inversion Hl; subst; repeat (match goal with H : Forall _ (_ :: _) |- _ => inversion_clear H end);
    cmp_facts; cbn in *; lia.
Qed.

Lemma byte_ltb t : (255 <? t mod 256)%Z = false.
Proof. apply Z.ltb_ge. pose proof (Z.mod_pos_bound t 256). lia. Qed.

Lemma byte_leb t : (256 <=? t mod 256)%Z = false.
Proof. apply Z.leb_gt. pose proof (Z.mod_pos_bound t 256). lia. Qed.

(** Serializing an IPv4 address and parsing the result gives it back. *)

Theorem ipv4_roundtrip a : (0 <= a < 2 ^ 32)%Z -> ipv4_parse (ipv4_serialize a) = Some a.
Proof.
  intros Ha. rewrite ipv4_serialize_eq.
  destruct (dec_byte_ok (a / 256 / 256 / 256 mod 256) ltac:(apply Z.mod_pos_bound; lia)) as (N3 & D3 & _).
  destruct (dec_byte_ok (a / 256 / 256 mod 256) ltac:(apply Z.mod_pos_bound; lia)) as (N2 & D2 & _).
  destruct (dec_byte_ok (a / 256 mod 256) ltac:(apply Z.mod_pos_bound; lia)) as (N1 & D1 & _).
  destruct (dec_byte_ok (a mod 256) ltac:(apply Z.mod_pos_bound; lia)) as (N0 & D0 & E0).
  unfold ipv4_parse, ipv4_parts. rewrite !split_dots_app, split_dots_no_dot by done.
  destruct (dec_byte (a mod 256)) as [|x d0] eqn:Ed; [done|].
  cbn [last removelast length map].
  rewrite N3, N2, N1, N0. cbn -[Z.mul Z.add Z.div Z.modulo].
  change (Z.of_nat 1) with 1%Z; change (Z.of_nat 2) with 2%Z; change (Z.of_nat 3) with 3%Z.
  change (256 ^ 1)%Z with 256%Z; change (256 ^ 2)%Z with 65536%Z; change (256 ^ 3)%Z with 16777216%Z.
  rewrite !byte_ltb, byte_leb. simpl. f_equal.
  change (2 ^ 32)%Z with 4294967296%Z in Ha.
  pose proof (Z.div_mod a 256 ltac:(lia)) as E1.
  pose proof (Z.div_mod (a / 256) 256 ltac:(lia)) as E2.
  pose proof (Z.div_mod (a / 256 / 256) 256 ltac:(lia)) as E3.
  assert (a / 256 / 256 / 256 < 256)%Z by (rewrite !Z.div_div by lia; apply Z.div_lt_upper_bound; lia).
  assert (0 <= a / 256 / 256 / 256)%Z by (apply Z.div_pos; [apply Z.div_pos; [apply Z.div_pos|]|]; lia).
  rewrite (Z.mod_small (a / 256 / 256 / 256)) by lia.
  lia.
Qed.

Lemma byte_digits_all :
  forallb (fun n => forallb is_digit_cp (dec_byte (Z.of_nat n))) (seq 0 256) = true.
Proof. vm_compute. reflexivity. Qed.

Lemma dec_byte_digits m : (0 <= m < 256)%Z -> forallb is_digit_cp (dec_byte m) = true.
Proof.
  intros Hm. pose proof byte_digits_all as H. rewrite forallb_forall in H.
  specialize (H (Z.to_nat m) ltac:(apply in_seq; lia)). by rewrite Z2Nat.id in H by lia.
Qed.

Lemma digits_dotted l : forallb is_digit_cp l = true -> forallb dotted_cp l = true.
Proof.
  induction l as [|c l IH]; [done|]. cbn [forallb]. intros [Hc Hl]%andb_prop.
  rewrite (IH Hl), andb_true_r. unfold dotted_cp. by rewrite Hc.
Qed.

(** The serializer writes digits and dots, and its last part is a
    non-empty run of digits, so the host parser takes it for IPv4. *)
Lemma ipv4_serialize_dotted a : forallb dotted_cp (ipv4_serialize a) = true.
Proof.
  rewrite ipv4_serialize_eq.
  repeat (rewrite forallb_app, digits_dotted by (apply dec_byte_digits, Z.mod_pos_bound; lia);
          cbn [forallb andb]).
  apply digits_dotted, dec_byte_digits, Z.mod_pos_bound; lia.
Qed.

Lemma ipv4_serialize_ends a : ends_in_a_number (ipv4_serialize a) = true.
Proof.
  destruct (dec_byte_ok (a / 256 / 256 / 256 mod 256) ltac:(apply Z.mod_pos_bound; lia)) as (_ & D3 & _).
  destruct (dec_byte_ok (a / 256 / 256 mod 256) ltac:(apply Z.mod_pos_bound; lia)) as (_ & D2 & _).
  destruct (dec_byte_ok (a / 256 mod 256) ltac:(apply Z.mod_pos_bound; lia)) as (_ & D1 & _).
  destruct (dec_byte_ok (a mod 256) ltac:(apply Z.mod_pos_bound; lia)) as (_ & D0 & E0).
  pose proof (dec_byte_digits (a mod 256) ltac:(apply Z.mod_pos_bound; lia)) as G0.
  unfold ends_in_a_number. rewrite ipv4_serialize_eq, !split_dots_app, split_dots_no_dot by done.
  destruct (dec_byte (a mod 256)) as [|x d0]; [done|]. simpl. unfold number_like.
  simpl in G0 |- *. by rewrite G0.
Qed.

Lemma ipv4_serialize_head a : exists c t, ipv4_serialize a = c :: t /\ is_digit_cp c = true.
Proof.
  rewrite ipv4_serialize_eq.
  pose proof (dec_byte_digits (a / 256 / 256 / 256 mod 256) ltac:(apply Z.mod_pos_bound; lia)) as G.
  destruct (dec_byte_ok (a / 256 / 256 / 256 mod 256) ltac:(apply Z.mod_pos_bound; lia)) as (_ & _ & E).
  destruct (dec_byte (a / 256 / 256 / 256 mod 256)) as [|c t]; [done|].
  simpl in G. apply andb_prop in G as [Gc _]. by eexists _, _.
Qed.
