(* ===== verification/Ipv6.v ===== *)
(** * Ipv6: the IPv6 parser and serializer of the URL Standard

    A host in brackets is parsed by [ipv6_parse] (URL Standard 3.6):
    eight 16-bit pieces written at [pieceIndex], at most one [::]
    compression recorded in [compress] and resolved by moving the pieces
    after it to the end ([v6_swap]), and an embedded dotted IPv4 form for
    the last two pieces ([v4_in_v6]).  The loop is structural: its
    measure is [8 - pieceIndex], as every round moves [pieceIndex] on.
    [ipv6_serialize] is the host serializer: pieces in shortest
    lower-case hexadecimal, the first longest run of at least two zero
    pieces written [::].

    Theorems: a parsed address is eight pieces below 65536
    ([ipv6_parse_bounds]) and the serializer's output parses back to the
    address ([ipv6_roundtrip]). *)

From S2P Require Import Prelude Js Ipv4.

(** ** The IPv6 parser *)

(** Up to [n] hex digits: their value, their number and the rest. *)

Fixpoint hex_group (n : nat) (cs : list nat) (v : Z) : Z * nat * list nat :=
  match n, cs with
  | S n', c :: cs' =>
      match hex_val c with
      | Some d => let '(v', len, rest) := hex_group n' cs' (v * 16 + Z.of_nat d)%Z in (v', S len, rest)
      | None => (v, 0, cs)
      end
  | _, _ => (v, 0, cs)
  end.

(** The digits of an IPv4 piece after its first one: no digit may follow
    a leading zero, and the value stays at most 255. *)

Fixpoint v4_digits (cs : list nat) (piece : Z) : option (Z * list nat) :=
  match cs with
  | c :: cs' =>
      if is_digit_cp c then
        if (piece =? 0)%Z then None
        else
          let p := (piece * 10 + Z.of_nat (c - 48))%Z in
          if (255 <? p)%Z then None else v4_digits cs' p
      else Some (piece, cs)
  | [] => Some (piece, [])
  end.

Definition v4_piece (cs : list nat) : option (Z * list nat) :=
  match cs with
  | c :: cs' => if is_digit_cp c then v4_digits cs' (Z.of_nat (c - 48)) else None
  | [] => None
  end.

(** The IPv4 part of an IPv6 address, [left] = 4 − numbersSeen numbers
    still to read; each is added to [address[pieceIndex]] × 256, and
    [pieceIndex] moves on after the second and the fourth. *)

Fixpoint v4_in_v6 (left : nat) (cs : list nat) (addr : list Z) (i : nat) : option (list Z * nat) :=
  match cs with
  | [] => if left =? 0 then Some (addr, i) else None
  | c :: cs' =>
      match left with
      | 0 => None
      | S left' =>
          let cs1 := if left =? 4 then Some cs else if c =? 46 then Some cs' else None in
          match cs1 with
          | None => None
          | Some cs1 =>
              match v4_piece cs1 with
              | None => None
              | Some (n, rest) =>
                  let addr' := <[i := (addr !!! i * 256 + n)%Z]> addr in
                  v4_in_v6 left' rest addr' (if (left' =? 2) || (left' =? 0) then S i else i)
              end
          end
      end
  end.

(** The main loop, [r] = 8 − pieceIndex: each round moves [pieceIndex]
    on by one or leaves the loop. *)

Fixpoint v6_loop (r : nat) (cs : list nat) (addr : list Z) (compress : option nat)
    : option (list Z * nat * option nat) :=
  match cs with
  | [] => Some (addr, 8 - r, compress)
  | c :: cs' =>
      match r with
      | 0 => None
      | S r' =>
          let i := 8 - r in
          if c =? 58 then
            match compress with
            | Some _ => None
            | None => v6_loop r' cs' addr (Some (S i))
            end
          else
            let '(value, len, rest) := hex_group 4 cs 0%Z in
            match rest with
            | [] => v6_loop r' [] (<[i := value]> addr) compress
            | d :: rest' =>
                if d =? 46 then
                  if len =? 0 then None
                  else if 6 <? i then None
                  else
                    match v4_in_v6 4 cs addr i with
                    | Some (addr', i') => Some (addr', i', compress)
                    | None => None
                    end
                else if d =? 58 then
                  match rest' with
                  | [] => None
                  | _ => v6_loop r' rest' (<[i := value]> addr) compress
                  end
                else None
            end
      end
  end.

(** Moving the pieces after [compress] to the end of the address. *)

Fixpoint v6_swap (swaps pi c : nat) (addr : list Z) : list Z :=
  match swaps with
  | 0 => addr
  | S s' =>
      if pi =? 0 then addr
      else
        let j := c + swaps - 1 in
        v6_swap s' (pi - 1) c (<[pi := addr !!! j]> (<[j := addr !!! pi]> addr))
  end.

(** Steps 7-9: resolve the compression, or demand eight pieces. *)
Definition v6_finish (res : option (list Z * nat * option nat)) : option (list Z) :=
  match res with
  | None => None
  | Some (addr, pi, Some c) => Some (v6_swap (pi - c) 7 c addr)
  | Some (addr, pi, None) => if pi =? 8 then Some addr else None
  end.

(** A leading [::] sets [pieceIndex] and [compress] to 1; a lone leading
    [:] fails. *)
Definition ipv6_parse (cs : list nat) : option (list Z) :=
  match cs with
  | c :: cs' =>
      if c =? 58 then
        match cs' with
        | d :: rest => if d =? 58 then v6_finish (v6_loop 7 rest (repeat 0%Z 8) (Some 1)) else None
        | [] => None
        end
      else v6_finish (v6_loop 8 cs (repeat 0%Z 8) None)
  | [] => v6_finish (v6_loop 8 [] (repeat 0%Z 8) None)
  end.

(** ** The IPv6 serializer *)

(** The shortest lower-case hexadecimal form of [0 <= p < 65536]. *)

Definition hex_piece (p : Z) : list nat :=
  if (p <? 16)%Z then [digit_cp p]
  else if (p <? 256)%Z then [digit_cp (p / 16); digit_cp (p mod 16)]
  else if (p <? 4096)%Z then [digit_cp (p / 256); digit_cp (p / 16 mod 16); digit_cp (p mod 16)]
  else [digit_cp (p / 4096); digit_cp (p / 256 mod 16); digit_cp (p / 16 mod 16); digit_cp (p mod 16)].

(** The first longest run of zero pieces: its start and length. *)

Fixpoint scan_zeros (l : list Z) (i cs cl bs bl : nat) : nat * nat :=
  match l with
  | [] => if bl <? cl then (cs, cl) else (bs, bl)
  | p :: l' =>
      if (p =? 0)%Z then scan_zeros l' (S i) (if cl =? 0 then i else cs) (S cl) bs bl
      else
        let '(bs', bl') := if bl <? cl then (cs, cl) else (bs, bl) in
        scan_zeros l' (S i) (S i) 0 bs' bl'
  end.

(** [compress]: the run, when it is longer than one piece. *)

Definition v6_compress (addr : list Z) : option nat :=
  let '(s, len) := scan_zeros addr 0 0 0 0 0 in if 1 <? len then Some s else None.

Fixpoint v6_ser (l : list Z) (i : nat) (compress : option nat) (ignore0 : bool) : list nat :=
  match l with
  | [] => []
  | p :: l' =>
      if ignore0 && (p =? 0)%Z then v6_ser l' (S i) compress true
      else if bool_decide (compress = Some i) then
        (if i =? 0 then [58; 58] else [58]) ++ v6_ser l' (S i) compress true
      else hex_piece p ++ (if i =? 7 then [] else [58]) ++ v6_ser l' (S i) compress false
  end.

Definition ipv6_serialize (addr : list Z) : list nat := v6_ser addr 0 (v6_compress addr) false.

(** Pieces each followed by a [:]. *)
Definition colons (ps : list Z) : list nat := concat (map (fun p => hex_piece p ++ [58]) ps).

Definition piece_ok (p : Z) : Prop := (0 <= p < 65536)%Z.

(** The number of leading zero pieces. *)
Fixpoint zero_prefix (l : list Z) : nat :=
  match l with
  | p :: l' => if (p =? 0)%Z then S (zero_prefix l') else 0
  | [] => 0
  end.

(** The IPv4 part's invariant, [left] numbers still to read at
    [pieceIndex] = [i]: the slots after [i] are still zero, and [i]'s
    slot is zero before an even count and one byte after an odd one. *)
Definition v4_inv (left : nat) (addr : list Z) (i : nat) : Prop :=
  length addr = 8 /\ Forall piece_ok addr /\ i + Nat.div2 (S left) <= 8 /\
  (forall k, i < k < 8 -> addr !!! k = 0%Z) /\
  (0 < left -> if Nat.even left then addr !!! i = 0%Z else (addr !!! i <= 255)%Z).

(** The main loop's invariant: the slots from [pieceIndex] = [8 - r] on
    are still zero. *)
Definition v6_inv (r : nat) (addr : list Z) : Prop :=
  length addr = 8 /\ Forall piece_ok addr /\ (forall k, 8 - r <= k < 8 -> addr !!! k = 0%Z).

(** ** Lemmas: hexadecimal pieces *)

Lemma div16_eqs p : p = (16 * (p / 16) + p mod 16)%Z /\ (0 <= p mod 16 < 16)%Z.
Proof. split; [apply Z.div_mod; lia | apply Z.mod_pos_bound; lia]. Qed.

Lemma hex_val_digit x : (0 <= x < 16)%Z -> hex_val (digit_cp x) = Some (Z.to_nat x).
Proof.
  intros Hx. rewrite <- (Z2Nat.id x) in * by lia. rewrite Nat2Z.id.
  remember (Z.to_nat x) as n. clear Heqn x.
  do 16 (destruct n as [|n]; [reflexivity|]). lia.
Qed.

Lemma digit_cp_not_colon x : (0 <= x < 16)%Z -> (digit_cp x =? 58) = false.
Proof.
  intros Hx. unfold digit_cp. apply Nat.eqb_neq.
  destruct (Z.to_nat x <? 10) eqn:E; [apply Nat.ltb_lt in E | apply Nat.ltb_ge in E]; lia.
Qed.

(** Reading stops at the end or at a code point that is not hex. *)
Definition hex_stop (rest : list nat) : Prop :=
  match rest with [] => True | d :: _ => hex_val d = None end.

Lemma hex_group_stop n rest v : hex_stop rest -> hex_group n rest v = (v, 0, rest).
Proof. destruct n, rest as [|d rest]; simpl; try done. by intros ->. Qed.

Lemma hex_group_digit n x cs v :
  (0 <= x < 16)%Z ->
  hex_group (S n) (digit_cp x :: cs) v =
  let '(v', len, rest) := hex_group n cs (v * 16 + x)%Z in (v', S len, rest).
Proof. intros Hx. simpl. rewrite hex_val_digit, Z2Nat.id by lia. done. Qed.

Ltac hex_digits p :=
  change 4096%Z with (16 * 16 * 16)%Z in *; change 256%Z with (16 * 16)%Z in *;
  rewrite <- ?Z.div_div in * by lia;
  destruct (div16_eqs p) as [?E1 ?B1]; destruct (div16_eqs (p / 16)) as [?E2 ?B2];
  destruct (div16_eqs (p / 16 / 16)) as [?E3 ?B3].

Lemma hex_group_piece p rest :
  piece_ok p -> hex_stop rest ->
  hex_group 4 (hex_piece p ++ rest) 0 = (p, length (hex_piece p), rest).
Proof.
  unfold piece_ok, hex_piece. intros Hp Hr.
  repeat case_if; cmp_facts; cbn [app length];
    hex_digits p;
    repeat (rewrite hex_group_digit by lia);
    rewrite ?hex_group_stop by done; cbv beta iota zeta;
    f_equal; f_equal; lia.
Qed.

Lemma digit_cp_sep x : (0 <= x < 16)%Z -> (digit_cp x =? 58) = false /\ (digit_cp x =? 46) = false.
Proof.
  intros Hx. unfold digit_cp. split; apply Nat.eqb_neq;
    destruct (Z.to_nat x <? 10) eqn:E; [apply Nat.ltb_lt in E | apply Nat.ltb_ge in E| apply Nat.ltb_lt in E | apply Nat.ltb_ge in E]; lia.
Qed.

(** A piece starts with a hex digit, neither [:] nor [.]. *)
Lemma hex_piece_head p :
  piece_ok p -> exists c t, hex_piece p = c :: t /\ (c =? 58) = false /\ (c =? 46) = false.
Proof.
  unfold piece_ok, hex_piece. intros Hp.
  repeat case_if; cmp_facts; eexists _, _; (split; [reflexivity|]); apply digit_cp_sep;
    hex_digits p; lia.
Qed.

Lemma insert_pre (pre : list Z) x y l : <[length pre := y]> (pre ++ x :: l) = pre ++ y :: l.
Proof. rewrite insert_app_r_alt, Nat.sub_diag by lia. done. Qed.

(** ** Lemmas: the IPv6 loop on well-formed input *)

Lemma v6_loop_end r addr cmp : v6_loop r [] addr cmp = Some (addr, 8 - r, cmp).
Proof. by destruct r. Qed.

Lemma v6_loop_piece_colon r p rest addr cmp :
  piece_ok p -> rest <> [] ->
  v6_loop (S r) (hex_piece p ++ 58 :: rest) addr cmp = v6_loop r rest (<[7 - r := p]> addr) cmp.
Proof.
  intros Hp Hr. pose proof (hex_group_piece p (58 :: rest) Hp eq_refl) as HG.
  destruct (hex_piece_head p Hp) as (c & t & E & Hc & _). rewrite E in HG |- *.
  cbn [app] in HG |- *. cbn [v6_loop]. rewrite Hc, HG.
  destruct rest as [|x rest]; [done|]. done.
Qed.

Lemma v6_loop_piece_end r p addr cmp :
  piece_ok p -> v6_loop (S r) (hex_piece p) addr cmp = Some (<[7 - r := p]> addr, 8 - r, cmp).
Proof.
  intros Hp. pose proof (hex_group_piece p [] Hp I) as HG. rewrite app_nil_r in HG.
  destruct (hex_piece_head p Hp) as (c & t & E & Hc & _). rewrite E in HG |- *.
  cbn [v6_loop]. rewrite Hc, HG, v6_loop_end. done.
Qed.

Lemma v6_loop_compress r rest addr :
  r < 8 -> v6_loop (S r) (58 :: rest) addr None = v6_loop r rest addr (Some (8 - r)).
Proof. intros Hr. simpl. do 2 f_equal. lia. Qed.

Lemma v6_loop_colons ps pre rest r cmp :
  length pre + r = 8 -> length ps <= r -> Forall piece_ok ps -> rest <> [] ->
  v6_loop r (colons ps ++ rest) (pre ++ repeat 0%Z r) cmp =
  v6_loop (r - length ps) rest ((pre ++ ps) ++ repeat 0%Z (r - length ps)) cmp.
Proof.
  revert pre r. induction ps as [|p ps IH]; intros pre r Hl Hps Hok Hr.
  - simpl. by rewrite app_nil_r, Nat.sub_0_r.
  - inversion_clear Hok as [|? ? Hp Hok'].
    destruct r as [|r]; simpl in Hps; [lia|].
    change (colons (p :: ps)) with ((hex_piece p ++ [58]) ++ colons ps).
    rewrite <- !app_assoc. cbn [app length Nat.sub]. rewrite v6_loop_piece_colon by (done || by destruct (colons ps), rest).
    replace (7 - r) with (length pre) by lia. cbn [repeat]. rewrite insert_pre.
    replace (pre ++ p :: repeat 0%Z r) with ((pre ++ [p]) ++ repeat 0%Z r) by by rewrite <- app_assoc.
    rewrite IH by (rewrite ?length_app; simpl; lia || done). by rewrite <- !app_assoc.
Qed.

Lemma lookup_total_pre (pre : list Z) x l : (pre ++ x :: l) !!! length pre = x.
Proof. rewrite lookup_total_app_r, Nat.sub_diag by lia. done. Qed.

Lemma repeat_S_snoc {A} (x : A) m : repeat x (S m) = repeat x m ++ [x].
Proof. induction m as [|m IH]; [done|]. simpl in *. by rewrite IH. Qed.

(** [v6_swap] moves a block of [k] pieces past the [m] zeros that follow
    it, to end at [pi]. *)
Lemma v6_swap_shift pre src m post pi :
  0 < length pre -> pi + 1 = length pre + length src + m ->
  v6_swap (length src) pi (length pre) (pre ++ src ++ repeat 0%Z m ++ post) =
  pre ++ repeat 0%Z m ++ src ++ post.
Proof.
  revert m post pi. induction src as [|x src IH] using rev_ind; intros m post pi Hc Hpi; [done|].
  rewrite length_app in *. simpl length in *. rewrite Nat.add_1_r. cbn [v6_swap].
  rewrite (proj2 (Nat.eqb_neq pi 0)) by lia.
  replace (length pre + S (length src) - 1) with (length (pre ++ src)) by (rewrite length_app; lia).
  destruct m as [|m].
  - replace pi with (length (pre ++ src)) by (rewrite length_app; lia).
    replace (pre ++ (src ++ [x]) ++ repeat 0%Z 0 ++ post) with ((pre ++ src) ++ x :: post)
      by (cbn [repeat app]; by rewrite <- !app_assoc).
    rewrite !lookup_total_pre, !insert_pre.
    replace (length (pre ++ src) - 1) with (length pre + length src - 1) by (rewrite length_app; lia).
    rewrite <- !app_assoc. specialize (IH 0 (x :: post) (length pre + length src - 1) Hc ltac:(lia)).
    cbn [repeat app] in IH |- *. by rewrite IH.
  - set (l1 := pre ++ src).
    replace (pre ++ (src ++ [x]) ++ repeat 0%Z (S m) ++ post)
      with (l1 ++ x :: (repeat 0%Z m ++ 0%Z :: post))
      by (unfold l1; rewrite repeat_S_snoc; by rewrite <- !app_assoc).
    replace pi with (length (l1 ++ x :: repeat 0%Z m)) by (unfold l1; rewrite !length_app; simpl; rewrite repeat_length; lia).
    rewrite lookup_total_pre.
    replace (l1 ++ x :: repeat 0%Z m ++ 0%Z :: post) with ((l1 ++ x :: repeat 0%Z m) ++ 0%Z :: post)
      by by rewrite <- app_assoc.
    rewrite lookup_total_pre, <- app_assoc. cbn [app]. rewrite insert_pre.
    replace (l1 ++ 0%Z :: repeat 0%Z m ++ 0%Z :: post) with ((l1 ++ 0%Z :: repeat 0%Z m) ++ 0%Z :: post)
      by by rewrite <- app_assoc.
    replace (length (l1 ++ x :: repeat 0%Z m)) with (length (l1 ++ 0%Z :: repeat 0%Z m))
      by (rewrite !length_app; done).
    rewrite insert_pre.
    specialize (IH (S m) (x :: post) (length (l1 ++ 0%Z :: repeat 0%Z m) - 1) Hc).
    replace ((l1 ++ 0%Z :: repeat 0%Z m) ++ x :: post) with (pre ++ src ++ repeat 0%Z (S m) ++ x :: post)
      by (unfold l1; cbn [repeat]; by rewrite <- !app_assoc).
    rewrite IH by (unfold l1; rewrite !length_app; simpl; rewrite repeat_length; lia).
    by rewrite <- !app_assoc.
Qed.

(** ** Lemmas: the serializer *)

Lemma v6_ser_app l1 l2 i c :
  (forall j, i <= j < i + length l1 -> c <> Some j) ->
  v6_ser (l1 ++ l2) i c false = v6_ser l1 i None false ++ v6_ser l2 (i + length l1) c false.
Proof.
  revert i. induction l1 as [|p l1 IH]; intros i Hc; simpl in *.
  - by rewrite Nat.add_0_r.
  - rewrite !bool_decide_eq_false_2 by (congruence || (apply Hc; simpl; lia)).
    rewrite IH by (intros j Hj; apply Hc; lia). replace (i + S (length l1)) with (S i + length l1) by lia.
    by rewrite <- !app_assoc.
Qed.

Lemma v6_ser_zeros m l i c : v6_ser (repeat 0%Z m ++ l) i c true = v6_ser l (i + m) c true.
Proof.
  revert i. induction m as [|m IH]; intros i; simpl; [by rewrite Nat.add_0_r|].
  rewrite IH. f_equal. lia.
Qed.

Lemma v6_ser_nonzero p l i c : p <> 0%Z -> v6_ser (p :: l) i c true = v6_ser (p :: l) i c false.
Proof. intros Hp. simpl. by rewrite (proj2 (Z.eqb_neq p 0) Hp). Qed.

Lemma v6_ser_colons l i : i + length l <= 7 -> v6_ser l i None false = colons l.
Proof.
  revert i. induction l as [|p l IH]; intros i Hi; [done|]. simpl in *.
  rewrite (proj2 (Nat.eqb_neq i 7)) by lia. rewrite IH by lia.
  unfold colons. simpl. by rewrite <- app_assoc.
Qed.

Lemma v6_ser_last l p i :
  i + length l = 7 -> v6_ser (l ++ [p]) i None false = colons l ++ hex_piece p.
Proof.
  intros Hi. rewrite v6_ser_app by done. rewrite v6_ser_colons by lia.
  rewrite Hi. simpl. by rewrite !app_nil_r.
Qed.

(** The pieces after a compressed run: the first is not zero. *)
Lemma v6_ser_after l t j s :
  s < j -> j + length l = 7 -> match l ++ [t] with p :: _ => p <> 0%Z | [] => True end ->
  v6_ser (l ++ [t]) j (Some s) true = colons l ++ hex_piece t.
Proof.
  intros Hs Hj Hh. destruct (l ++ [t]) as [|p l'] eqn:E; [by destruct l|].
  rewrite v6_ser_nonzero by done. rewrite <- E.
  rewrite <- (app_nil_r (l ++ [t])), v6_ser_app by (intros k Hk [= ->]; lia).
  rewrite v6_ser_last by done. simpl. by rewrite !app_nil_r.
Qed.

Lemma scan_zeros_spec l i cs cl bs bl s len :
  scan_zeros l i cs cl bs bl = (s, len) -> 0 < len ->
  (s = bs /\ 0 < bl) \/ (s = cs /\ 0 < cl) \/ (i <= s < i + length l /\ l !!! (s - i) = 0%Z).
Proof.
  revert i cs cl bs bl. induction l as [|p l IH]; intros i cs cl bs bl; simpl.
  - case_if; intros [= <- <-]; lia.
  - destruct (p =? 0)%Z eqn:Ep.
    + intros H Hl. destruct (IH _ _ _ _ _ H Hl) as [?|[[-> ?]|[? Hz]]]; [by left| |].
      * destruct (cl =? 0) eqn:Ec; [apply Nat.eqb_eq in Ec|apply Nat.eqb_neq in Ec]; [|lia].
        right; right. rewrite Nat.sub_diag. apply Z.eqb_eq in Ep. simpl. lia.
      * right; right. replace (s - i) with (S (s - S i)) by lia. simpl. lia.
    + destruct (bl <? cl) eqn:Eb; intros H Hl; destruct (IH _ _ _ _ _ H Hl) as [[-> ?]|[[-> ?]|[? Hz]]];
        try lia; apply Nat.ltb_lt in Eb || idtac; try (right; left; lia); try (left; lia);
        right; right; replace (s - i) with (S (s - S i)) by lia; simpl; lia.
Qed.

Lemma v6_compress_zero a s : v6_compress a = Some s -> s < length a /\ a !!! s = 0%Z.
Proof.
  unfold v6_compress. destruct (scan_zeros a 0 0 0 0 0) as [s' len] eqn:E.
  destruct (1 <? len) eqn:El; [|done]. intros [= <-]. apply Nat.ltb_lt in El.
  destruct (scan_zeros_spec _ _ _ _ _ _ _ _ E ltac:(lia)) as [[_ ?]|[[_ ?]|[? Hz]]]; [lia|lia|].
  rewrite Nat.sub_0_r in Hz. lia.
Qed.

Lemma zero_prefix_split l :
  l = repeat 0%Z (zero_prefix l) ++ drop (zero_prefix l) l /\
  match drop (zero_prefix l) l with p :: _ => p <> 0%Z | [] => True end.
Proof.
  induction l as [|p l IH]; [done|]. simpl. destruct (p =? 0)%Z eqn:Ep; simpl.
  - apply Z.eqb_eq in Ep as ->. destruct IH as [IH1 IH2]. split; [by f_equal|done].
  - split; [done|]. by apply Z.eqb_neq.
Qed.

(** ** Lemmas: parsing a serialized address *)

Lemma hex_piece_ne p : piece_ok p -> hex_piece p <> [].
Proof. intros Hp. by destruct (hex_piece_head p Hp) as (c & t & -> & _). Qed.

Lemma colons_head ps rest :
  ps <> [] -> Forall piece_ok ps ->
  match colons ps ++ rest with c :: _ => (c =? 58) = false | [] => True end.
Proof.
  intros Hne Hok. destruct ps as [|p ps]; [done|]. inversion_clear Hok as [|? ? Hp _].
  destruct (hex_piece_head p Hp) as (c & t & E & Hc & _).
  change (colons (p :: ps)) with ((hex_piece p ++ [58]) ++ colons ps). rewrite E. done.
Qed.

Lemma ipv6_parse_plain cs :
  match cs with c :: _ => (c =? 58) = false | [] => True end ->
  ipv6_parse cs = v6_finish (v6_loop 8 cs (repeat 0%Z 8) None).
Proof. destruct cs as [|c cs]; [done|]. unfold ipv6_parse. by intros ->. Qed.

(** The address before a [::] or [:] that starts a compression. *)
Lemma ipv6_parse_compressed ps n x :
  length ps = n -> n < 8 -> Forall piece_ok ps ->
  ipv6_parse (colons ps ++ (if n =? 0 then [58; 58] else [58]) ++ x) =
  v6_finish (v6_loop (7 - n) x ((ps ++ [0%Z]) ++ repeat 0%Z (7 - n)) (Some (S n))).
Proof.
  intros <- Hl Hok. destruct ps as [|p ps']; [done|].
  set (ps := p :: ps') in *.
  replace (length ps =? 0) with false by done.
  change ((if false then [58; 58] else [58]) ++ x) with (58 :: x).
  rewrite ipv6_parse_plain by (apply colons_head; done).
  change (repeat 0%Z 8) with ([] ++ repeat 0%Z 8).
  rewrite v6_loop_colons by (done || lia).
  replace (8 - length ps) with (S (7 - length ps)) by lia.
  cbn [app]. rewrite v6_loop_compress by lia.
  replace (8 - (7 - length ps)) with (S (length ps)) by lia.
  cbn [repeat app]. rewrite <- app_assoc. done.
Qed.

Lemma v6_finish_tail pre t0 t r :
  length pre + r = 8 -> 0 < length pre -> length t0 < r -> Forall piece_ok (t0 ++ [t]) ->
  v6_finish (v6_loop r (colons t0 ++ hex_piece t) (pre ++ repeat 0%Z r) (Some (length pre))) =
  Some (pre ++ repeat 0%Z (r - length t0 - 1) ++ t0 ++ [t]).
Proof.
  intros Hl Hpre Ht Hok. apply Forall_app in Hok as [Hok0 Hokt]. inversion_clear Hokt as [|? ? Hp _].
  rewrite v6_loop_colons by (done || lia || by apply hex_piece_ne).
  replace (r - length t0) with (S (r - length t0 - 1)) by lia.
  rewrite v6_loop_piece_end by done.
  replace (7 - (r - length t0 - 1)) with (length (pre ++ t0)) by (rewrite length_app; lia).
  cbn [repeat]. rewrite insert_pre. cbn [v6_finish].
  replace (8 - (r - length t0 - 1) - length pre) with (length (t0 ++ [t])) by (rewrite length_app; simpl; lia).
  rewrite <- !app_assoc. cbn [app].
  replace (t0 ++ t :: repeat 0%Z (r - length t0 - 1)) with ((t0 ++ [t]) ++ repeat 0%Z (r - length t0 - 1) ++ [])
    by (rewrite app_nil_r; by rewrite <- app_assoc).
  replace (S (r - length t0 - 1) - 1) with (r - length t0 - 1) by lia.
  rewrite v6_swap_shift by (rewrite ?length_app; simpl; lia). by rewrite app_nil_r.
Qed.

Lemma ipv6_roundtrip_plain a :
  length a = 8 -> Forall piece_ok a -> ipv6_parse (v6_ser a 0 None false) = Some a.
Proof.
  intros Hl Hok.
  destruct a as [|a0 [|a1 [|a2 [|a3 [|a4 [|a5 [|a6 [|a7 [|]]]]]]]]]; try discriminate.
  change [a0; a1; a2; a3; a4; a5; a6; a7] with ([a0; a1; a2; a3; a4; a5; a6] ++ [a7]) in *.
  set (ps := [a0; a1; a2; a3; a4; a5; a6]) in *.
  apply Forall_app in Hok as [Hok0 Hok7]. inversion_clear Hok7 as [|? ? H7 _].
  rewrite v6_ser_last by done.
  rewrite ipv6_parse_plain by (apply colons_head; done).
  change (repeat 0%Z 8) with ([] ++ repeat 0%Z 8).
  rewrite v6_loop_colons by (done || (simpl; lia) || by apply hex_piece_ne).
  change (8 - length ps) with 1. rewrite v6_loop_piece_end by done.
  change (7 - 0) with (length ([] ++ ps)). cbn [repeat]. rewrite insert_pre. done.
Qed.

Lemma ipv6_roundtrip_compressed a s :
  length a = 8 -> Forall piece_ok a -> s < 8 -> a !!! s = 0%Z ->
  ipv6_parse (v6_ser a 0 (Some s) false) = Some a.
Proof.
  intros Hl Hok Hs Hz.
  destruct (zero_prefix_split (drop s a)) as [Ed Hh].
  remember (zero_prefix (drop s a)) as z eqn:Ez. remember (drop z (drop s a)) as T eqn:ET.
  assert (Ea : a = take s a ++ repeat 0%Z z ++ T) by (rewrite <- Ed; symmetry; apply take_drop).
  assert (Hlen : s + z + length T = 8).
  { pose proof Hl as Hl'. rewrite Ea, !length_app, repeat_length, length_take in Hl'. lia. }
  assert (HokT : Forall piece_ok T) by (subst T; by apply Forall_drop, Forall_drop).
  assert (Hokp : Forall piece_ok (take s a)) by by apply Forall_take.
  assert (Hps : length (take s a) = s) by (rewrite length_take; lia).
  destruct z as [|z'].
  { exfalso. destruct T as [|t T]; [simpl in Hlen; lia|].
    rewrite Ea, lookup_total_app_r, Hps, Nat.sub_diag in Hz by lia. simpl in Hz, Hh. done. }
  rewrite Ea at 1. cbn [repeat app].
  rewrite v6_ser_app by (intros j Hj [= ->]; lia).
  rewrite v6_ser_colons, Hps by lia. cbn [Nat.add v6_ser andb].
  rewrite bool_decide_eq_true_2 by done. rewrite v6_ser_zeros.
  rewrite ipv6_parse_compressed by done.
  destruct (decide (T = [])) as [->|HT].
  - cbn [v6_ser]. rewrite v6_loop_end. cbn [v6_finish].
    replace (8 - (7 - s) - S s) with 0 by lia. cbn [v6_swap].
    simpl in Hlen. replace z' with (7 - s) in Ea by lia.
    rewrite Ea at 2. by rewrite app_nil_r, <- app_assoc.
  - destruct (exists_last HT) as (T0 & t & ET0). rewrite ET0 in *.
    rewrite length_app in Hlen. simpl in Hlen.
    rewrite v6_ser_after by (done || lia).
    replace (S s) with (length (take s a ++ [0%Z])) by (rewrite length_app, Hps; simpl; lia).
    rewrite v6_finish_tail by (rewrite ?length_app, ?Hps; simpl; lia || done).
    replace (7 - s - length T0 - 1) with z' by lia.
    rewrite Ea at 2. by rewrite <- app_assoc.
Qed.

(** Every IPv6 address, serialized by the host serializer with its
    [::] compression, parses back to itself. *)
Theorem ipv6_roundtrip a :
  length a = 8 -> Forall piece_ok a -> ipv6_parse (ipv6_serialize a) = Some a.
Proof.
  intros Hl Hok. unfold ipv6_serialize. destruct (v6_compress a) as [s|] eqn:E.
  - destruct (v6_compress_zero a s E) as [Hs Hz]. apply ipv6_roundtrip_compressed; auto; lia.
  - by apply ipv6_roundtrip_plain.
Qed.

(** ** Lemmas: bounds *)

Lemma hex_val_lt c d : hex_val c = Some d -> d < 16.
Proof. unfold hex_val, is_digit_cp. repeat case_if; intros [= <-]; apply andb_prop in Heqb as [? ?] || apply andb_prop in Heqb0 as [? ?] || apply andb_prop in Heqb1 as [? ?]; apply Nat.leb_le in H, H0; lia. Qed.

Lemma hex_group_bound n cs v v' len rest :
  hex_group n cs v = (v', len, rest) -> (0 <= v)%Z ->
  (0 <= v' < (v + 1) * 16 ^ Z.of_nat len)%Z /\ len <= n.
Proof.
  revert cs v v' len rest. induction n as [|n IH]; intros cs v v' len rest; simpl.
  - intros [= <- <- <-] Hv. simpl. lia.
  - destruct cs as [|c cs]; [intros [= <- <- <-] Hv; simpl; lia|].
    destruct (hex_val c) as [d|] eqn:Ed; [|intros [= <- <- <-] Hv; simpl; lia].
    destruct (hex_group n cs (v * 16 + Z.of_nat d)%Z) as [[v1 len1] rest1] eqn:E.
    intros [= <- <- <-] Hv. apply hex_val_lt in Ed.
    destruct (IH _ _ _ _ _ E ltac:(lia)) as [[H1 H2] H3].
    pose proof (Z.pow_nonneg 16 (Z.of_nat len1) ltac:(lia)).
    rewrite Nat2Z.inj_succ, Z.pow_succ_r by lia. split; [|lia]. split; [lia|]. nia.
Qed.

Lemma hex_group_piece_ok cs value len rest :
  hex_group 4 cs 0%Z = (value, len, rest) -> piece_ok value.
Proof.
  intros E. destruct (hex_group_bound _ _ _ _ _ _ E ltac:(lia)) as [[H1 H2] H3].
  unfold piece_ok. split; [lia|]. eapply Z.lt_le_trans; [exact H2|].
  change 65536%Z with (1 * 16 ^ Z.of_nat 4)%Z. apply Z.mul_le_mono_nonneg_l; [lia|].
  apply Z.pow_le_mono_r; lia.
Qed.

Lemma v4_digits_bound cs piece n rest :
  v4_digits cs piece = Some (n, rest) -> (0 <= piece <= 255)%Z -> (0 <= n <= 255)%Z.
Proof.
  revert piece. induction cs as [|c cs IH]; intros piece; simpl; [intros [= <- _]; lia|].
  destruct (is_digit_cp c) eqn:Ec; [|intros [= <- _]; lia].
  destruct (piece =? 0)%Z; [done|]. destruct (255 <? _)%Z eqn:E; [done|]. cmp_facts.
  intros H Hp. apply (IH _ H). unfold is_digit_cp in Ec. apply andb_prop in Ec as [_ ?%Nat.leb_le]. lia.
Qed.

Lemma v4_piece_bound cs n rest : v4_piece cs = Some (n, rest) -> (0 <= n <= 255)%Z.
Proof.
  destruct cs as [|c cs]; simpl; [done|]. destruct (is_digit_cp c) eqn:Ec; [|done].
  intros H. apply (v4_digits_bound _ _ _ _ H). unfold is_digit_cp in Ec.
  apply andb_prop in Ec as [_ ?%Nat.leb_le]. lia.
Qed.

Lemma lookup_total_ok addr j : Forall piece_ok addr -> piece_ok (addr !!! j).
Proof.
  intros Hok. destruct (decide (j < length addr)).
  - by apply Forall_lookup_total_1.
  - rewrite list_lookup_total_alt, lookup_ge_None_2 by lia. unfold piece_ok. simpl. lia.
Qed.

Lemma v4_in_v6_bound left cs addr i addr' i' :
  left <= 4 -> v4_inv left addr i -> v4_in_v6 left cs addr i = Some (addr', i') ->
  length addr' = 8 /\ Forall piece_ok addr'.
Proof.
  revert cs addr i. induction left as [|left IH]; intros cs addr i Hl (Hlen & Hok & Hi8 & Hz & Hi);
    destruct cs as [|c cs]; simpl; [intros [= <- _]; done|done|done|].
  destruct (if S left =? 4 then _ else _) as [cs1|]; [|done].
  destruct (v4_piece cs1) as [[n rest]|] eqn:Ep; [|done]. apply v4_piece_bound in Ep.
  intros H. apply (IH _ _ _ ltac:(lia)) in H; [done|].
  specialize (Hi ltac:(lia)). pose proof (lookup_total_ok addr i Hok) as Hpi.
  assert (Hx : forall x, (0 <= x <= 255)%Z -> piece_ok (x * 256 + n)%Z) by (intros; unfold piece_ok; lia).
  destruct left as [|[|[|[|left]]]]; [..|lia]; simpl in Hi, Hi8 |- *; cbn [Nat.div2] in Hi8;
    unfold piece_ok in Hpi;
    (split; [by rewrite length_insert|]);
    (split; [apply Forall_insert; [done|]; apply Hx; lia|]);
    (split; [cbn [Nat.div2] in *; lia|]);
    (split; [intros k Hk; rewrite list_lookup_total_insert_ne by lia; apply Hz; lia|]);
    intros Hlt; rewrite list_lookup_total_insert; case_decide; cbn [Nat.even]; try (apply Hz; lia); lia.
Qed.

Lemma v6_inv_insert r addr v :
  r < 8 -> v6_inv (S r) addr -> piece_ok v -> v6_inv r (<[8 - S r := v]> addr).
Proof.
  intros Hr (Hlen & Hok & Hz) Hv. split; [by rewrite length_insert|].
  split; [by apply Forall_insert|]. intros k Hk.
  rewrite list_lookup_total_insert_ne by lia. apply Hz. lia.
Qed.

Lemma v6_loop_bound r cs addr cmp addr' pi cmp' :
  r <= 8 -> v6_inv r addr -> v6_loop r cs addr cmp = Some (addr', pi, cmp') ->
  length addr' = 8 /\ Forall piece_ok addr'.
Proof.
  revert cs addr cmp. induction r as [|r IH]; intros cs addr cmp Hr Hinv H;
    destruct cs as [|c cs]; cbn [v6_loop] in H;
    try (injection H as <- _ _; by destruct Hinv as (? & ? & _)); [done|].
  destruct (c =? 58).
  - destruct cmp; [done|]. eapply IH; [lia| |exact H]. destruct Hinv as (? & ? & Hz).
    split; [done|]. split; [done|]. intros k Hk. apply Hz. lia.
  - destruct (hex_group 4 (c :: cs) 0%Z) as [[value len] rest] eqn:Eg.
    apply hex_group_piece_ok in Eg.
    destruct rest as [|d rest'].
    { eapply IH; [lia| |exact H]. by apply v6_inv_insert; [lia|..]. }
    destruct (d =? 46).
    + destruct (len =? 0); [done|]. destruct (6 <? 8 - S r) eqn:E6; [done|]. apply Nat.ltb_ge in E6.
      destruct (v4_in_v6 4 (c :: cs) addr (8 - S r)) as [[a2 i2]|] eqn:E4; [|done].
      injection H as <- _ _. eapply (v4_in_v6_bound 4); [lia| |exact E4].
      destruct Hinv as (? & ? & Hz). split; [done|]. split; [done|].
      split; [simpl; lia|]. split; [intros k Hk; apply Hz; lia|]. intros _. simpl. apply Hz. lia.
    + destruct (d =? 58); [|done]. destruct rest'; [done|].
      eapply IH; [lia| |exact H]. by apply v6_inv_insert; [lia|..].
Qed.

Lemma v6_swap_ok k pi c addr :
  length addr = 8 -> Forall piece_ok addr ->
  length (v6_swap k pi c addr) = 8 /\ Forall piece_ok (v6_swap k pi c addr).
Proof.
  revert pi addr. induction k as [|k IH]; intros pi addr Hl Hok; simpl; [done|].
  destruct (pi =? 0); [done|]. apply IH.
  - by rewrite !length_insert.
  - apply Forall_insert; [apply Forall_insert; [done|]|]; by apply lookup_total_ok.
Qed.

Lemma v6_inv_zeros r : r <= 8 -> v6_inv r (repeat 0%Z 8).
Proof.
  intros Hr. split; [done|]. split; [repeat constructor; unfold piece_ok; lia|].
  intros k Hk. do 8 (destruct k as [|k]; [reflexivity|]). lia.
Qed.

Lemma v6_finish_bound r cs cmp a :
  r <= 8 -> v6_finish (v6_loop r cs (repeat 0%Z 8) cmp) = Some a ->
  length a = 8 /\ Forall piece_ok a.
Proof.
  intros Hr. unfold v6_finish.
  destruct (v6_loop r cs (repeat 0%Z 8) cmp) as [[[addr pi] [c|]]|] eqn:E; [| |done];
    apply v6_loop_bound in E as [Hl Hok]; try apply v6_inv_zeros; try lia.
  - intros [= <-]. by apply v6_swap_ok.
  - destruct (pi =? 8); [|done]. by intros [= <-].
Qed.

(** A parsed IPv6 address is eight pieces of 16 bits: hex groups are
    at most four digits, and the embedded IPv4 form fills two pieces
    with two bytes each. *)
Theorem ipv6_parse_bounds cs a :
  ipv6_parse cs = Some a -> length a = 8 /\ Forall piece_ok a.
Proof.
  unfold ipv6_parse. destruct cs as [|c cs]; [apply v6_finish_bound; lia|].
  destruct (c =? 58); [|apply v6_finish_bound; lia].
  destruct cs as [|d rest]; [done|]. destruct (d =? 58); [|done]. apply v6_finish_bound. lia.
Qed.
