(* ===== verification/Punycode.v ===== *)
(** * Punycode: the Bootstring encoding of RFC 3492, as UTS 46 ToASCII
    runs it inside [new URL]

    A label of a domain that is not ASCII is written in the URL's host as
    [xn--] followed by its Punycode encoding, and UTS 46 decodes a label
    that starts with [xn--] to check it.  The parameters are those of
    RFC 3492 section 5 (base 36, tmin 1, tmax 26, skew 38, damp 700,
    initial bias 72, initial n 128); integers are 32-bit signed values
    kept as [Z], with every overflow check of the RFC's sample
    implementation written out against [p_maxint] = 2^31 - 1:
    - [adapt] (section 6.1), its loop run with a [Z.log2] fuel that
      always suffices;
    - [punycode_encode] (section 6.3): the basic code points, a
      delimiter, then for each larger code point in increasing order the
      generalized variable-length integers ([encode_vli]) of the deltas,
      computed by the scan [encode_pass] inside the loop [encode_loop];
    - [punycode_decode] (section 6.2): the basic code points before the
      last delimiter, then [decode_number] reads a delta and
      [decode_loop] inserts the code point it denotes.

    Theorems: decoding inverts encoding for labels of at most 54 code
    points ([punycode_roundtrip]), and the bound matters: a label of 1928
    code points encodes to a string whose decoding overflows
    ([punycode_roundtrip_overflow]). *)

From S2P Require Import Prelude.

#[local] Open Scope Z_scope.

(** ** Parameters (RFC 3492 section 5) *)

Definition p_base : Z := 36.
Definition p_tmin : Z := 1.
Definition p_tmax : Z := 26.
Definition p_skew : Z := 38.
Definition p_damp : Z := 700.
Definition p_initial_bias : Z := 72.
Definition p_initial_n : Z := 128.
Definition p_maxint : Z := 2147483647.

(** ** Bias adaptation (section 6.1) *)

(** [while (d > ((base - tmin) * tmax) / 2) { d /= base - tmin; k += base; }]
    then the final formula. *)
Fixpoint adapt_loop (fuel : nat) (d k : Z) : Z :=
  match fuel with
  | O => k + (p_base - p_tmin + 1) * d / (d + p_skew)
  | S f =>
      if d >? (p_base - p_tmin) * p_tmax / 2 then adapt_loop f (d / (p_base - p_tmin)) (k + p_base)
      else k + (p_base - p_tmin + 1) * d / (d + p_skew)
  end.

Definition adapt (d numpoints : Z) (firsttime : bool) : Z :=
  let d := if firsttime then d / p_damp else d / 2 in
  let d := d + d / numpoints in
  adapt_loop (S (Z.to_nat (Z.log2 d))) d 0.

(** The threshold of digit position [k]. *)
Definition threshold (k bias : Z) : Z :=
  if k <=? bias then p_tmin else if k >=? bias + p_tmax then p_tmax else k - bias.

(** ** Digits *)

(** 0..25 as [a]..[z], 26..35 as [0]..[9]. *)
Definition digit_to_char (d : Z) : Z := if d <? 26 then d + 97 else d + 22.

Definition char_to_digit_value (c : Z) : option Z :=
  if (48 <=? c) && (c <=? 57) then Some (c - 22)
  else if (97 <=? c) && (c <=? 122) then Some (c - 97)
  else if (65 <=? c) && (c <=? 90) then Some (c - 65)
  else None.

(** ** Encoding (section 6.3) *)

(** The generalized variable-length integer of [q]: [for (k = base;; k +=
    base) { t = ...; if (q < t) break; output t + (q - t) % (base - t);
    q = (q - t) / (base - t); } output q].  Each round divides [q] by at
    least 10, so [vli_fuel q] rounds are enough. *)
Fixpoint encode_vli (fuel : nat) (q k bias : Z) : list Z :=
  match fuel with
  | O => [digit_to_char q]
  | S f =>
      let t := threshold k bias in
      if q <? t then [digit_to_char q]
      else digit_to_char (t + (q - t) mod (p_base - t)) ::
           encode_vli f ((q - t) / (p_base - t)) (k + p_base) bias
  end.

Definition vli_fuel (q : Z) : nat := S (Z.to_nat (Z.log2 q)).

(** One scan of the input at code point [n]: [for (c : input) { if (c <
    n) ++d (failing at maxint); if (c == n) { output the integer d; bias =
    adapt(d, h + 1, h == b); d = 0; ++h; } }].  Returns [d], [bias], [h]
    and the output. *)
Fixpoint encode_pass (input : list Z) (n d bias h b : Z) (out : list Z)
    : option (Z * Z * Z * list Z) :=
  match input with
  | [] => Some (d, bias, h, out)
  | c :: cs =>
      if c <? n then
        if d =? p_maxint then None else encode_pass cs n (d + 1) bias h b out
      else if c =? n then
        encode_pass cs n 0 (adapt d (h + 1) (h =? b)) (h + 1) b
          (out ++ encode_vli (vli_fuel d) d p_base bias)
      else encode_pass cs n d bias h b out
  end.

(** The least code point of the input at least [n] (below 0x10FFFF, the
    initial value of [m]). *)
Definition min_ge (input : list Z) (n : Z) : Z :=
  fold_left (fun m c => if (n <=? c) && (c <? m) then c else m) input 1114111.

(** [while (h < input.size()) { m = ...; fail if (m - n) > (maxint - d) /
    (h + 1); d += (m - n) * (h + 1); n = m; scan; ++d; ++n; }].  Every
    round handles at least one code point, so the input's length is
    enough fuel. *)
Fixpoint encode_loop (fuel : nat) (input : list Z) (n d bias h b : Z) (out : list Z)
    : option (list Z) :=
  match fuel with
  | O => None
  | S f =>
      if h <? Z.of_nat (length input) then
        let m := min_ge input n in
        if m - n >? (p_maxint - d) / (h + 1) then None
        else
          match encode_pass input m (d + (m - n) * (h + 1)) bias h b out with
          | None => None
          | Some (d', bias', h', out') => encode_loop f input (m + 1) (d' + 1) bias' h' b out'
          end
      else Some out
  end.

(** Code points above U+10FFFF and surrogates are refused. *)
Definition bad_code_point (c : Z) : bool := (c >? 1114111) || ((55296 <=? c) && (c <? 57344)).

Definition punycode_encode (input : list Z) : option (list Z) :=
  if existsb bad_code_point input then None
  else
    let basic := List.filter (fun c => c <? 128) input in
    let b := Z.of_nat (length basic) in
    let out := if b >? 0 then basic ++ [45] else basic in
    encode_loop (S (length input)) input p_initial_n 0 p_initial_bias b b out.

(** ** Decoding (section 6.2) *)

(** One generalized variable-length integer, added to [i]: [for (k =
    base;; k += base) { fail on end of input; digit = ...; fail if digit
    > (maxint - i) / w; i += digit * w; t = ...; if (digit < t) break;
    fail if w > maxint / (base - t); w *= base - t; }]. *)
Fixpoint decode_number (cs : list Z) (i w k bias : Z) : option (Z * list Z) :=
  match cs with
  | [] => None
  | c :: cs' =>
      match char_to_digit_value c with
      | None => None
      | Some digit =>
          if digit >? (p_maxint - i) / w then None
          else
            let i := i + digit * w in
            let t := threshold k bias in
            if digit <? t then Some (i, cs')
            else if w >? p_maxint / (p_base - t) then None
            else decode_number cs' i (w * (p_base - t)) (k + p_base) bias
      end
  end.

(** [out.insert(out.begin() + i, n)]. *)
Definition insert_at {A} (i : nat) (x : A) (l : list A) : list A := take i l ++ x :: drop i l.

(** [while (!input.empty()) { oldi = i; read an integer into i; bias =
    adapt(i - oldi, out + 1, oldi == 0); fail if i / (out + 1) > maxint -
    n; n += i / (out + 1); i %= out + 1; fail if n is basic; insert n at
    i; ++i; }].  Every round consumes a digit, so the input's length is
    enough fuel. *)
Fixpoint decode_loop (fuel : nat) (cs : list Z) (n i bias : Z) (out : list Z) : option (list Z) :=
  match cs with
  | [] => Some out
  | _ :: _ =>
      match fuel with
      | O => None
      | S f =>
          match decode_number cs i 1 p_base bias with
          | None => None
          | Some (i', cs') =>
              let len := Z.of_nat (length out) + 1 in
              let bias' := adapt (i' - i) len (i =? 0) in
              if i' / len >? p_maxint - n then None
              else
                let n' := n + i' / len in
                let i'' := i' mod len in
                if n' <? p_initial_n then None
                else decode_loop f cs' n' (i'' + 1) bias' (insert_at (Z.to_nat i'') n' out)
          end
      end
  end.

(** The position of the last delimiter [-]. *)
Fixpoint last_dash (l : list Z) : option nat :=
  match l with
  | [] => None
  | c :: l' =>
      match last_dash l' with
      | Some j => Some (S j)
      | None => if c =? 45 then Some O else None
      end
  end.

Definition punycode_decode (input : list Z) : option (list Z) :=
  let '(basic, rest) :=
    match last_dash input with
    | Some j => (take j input, drop (S j) input)
    | None => ([], input)
    end in
  if existsb (fun c => c >=? 128) basic then None
  else decode_loop (length rest) rest p_initial_n 0 p_initial_bias basic.

(** ** Lemmas: digits and thresholds *)

(** A character the encoder writes after the delimiter. *)
Definition digit_char (c : Z) : Prop := (48 <= c <= 57) \/ (97 <= c <= 122).

Lemma digit_to_char_ok d : 0 <= d < 36 ->
  char_to_digit_value (digit_to_char d) = Some d /\ digit_char (digit_to_char d).
Proof.
  intros Hd. unfold digit_to_char, char_to_digit_value, digit_char.
  destruct (d <? 26) eqn:E; cmp_facts.
  - destruct (48 <=? d + 97) eqn:E1, (d + 97 <=? 57) eqn:E2; cmp_facts; try lia.
    all: cbn [andb]; destruct (97 <=? d + 97) eqn:E3, (d + 97 <=? 122) eqn:E4; cmp_facts;
      try lia; split; [f_equal; lia | lia].
  - destruct (48 <=? d + 22) eqn:E1, (d + 22 <=? 57) eqn:E2; cmp_facts; try lia.
    cbn [andb]. split; [f_equal; lia | lia].
Qed.

Lemma digit_char_ascii c : digit_char c -> c <> 45 /\ c < 128.
Proof. unfold digit_char. lia. Qed.

Lemma threshold_bounds k bias : 1 <= threshold k bias <= 26.
Proof. unfold threshold, p_tmin, p_tmax. repeat case_if; cmp_facts; lia. Qed.

(** The [Z.log2] fuel of [adapt] is enough: more fuel gives the same
    result, so [adapt] is the RFC's [while] loop. *)
Lemma adapt_loop_fuel f g d k :
  0 <= d < 2 ^ Z.of_nat f -> (f <= g)%nat -> adapt_loop f d k = adapt_loop g d k.
Proof.
  revert g d k. induction f as [|f IH]; intros g d k Hd Hfg.
  - simpl in Hd. destruct g as [|g]; [done|]. cbn [adapt_loop].
    destruct (d >? _) eqn:E; [|done]. apply Z.gtb_lt in E. change (2 ^ Z.of_nat 0) with 1 in Hd. unfold p_base, p_tmin, p_tmax in *. change ((36 - 1) * 26 / 2) with 455 in E. lia.
  - destruct g as [|g]; [lia|]. cbn [adapt_loop]. case_if; [|done].
    apply IH; [|lia]. rewrite Nat2Z.inj_succ, Z.pow_succ_r in Hd by lia.
    unfold p_base, p_tmin. split; [apply Z.div_pos; lia|]. apply Z.div_lt_upper_bound; lia.
Qed.

(** ** Lemmas: variable-length integers *)

(** The bound under which no overflow check of the decoder fires: 35
    times it is below [p_maxint]. *)
Definition vli_bound : Z := 61356675.

Lemma vli_fuel_enough q : 0 <= q -> q < 2 ^ Z.of_nat (vli_fuel q).
Proof.
  intros Hq. unfold vli_fuel. rewrite Nat2Z.inj_succ, Z2Nat.id by apply Z.log2_nonneg.
  destruct (Z.eq_dec q 0) as [->|Hne]; [reflexivity|].
  by pose proof (Z.log2_spec q ltac:(lia)) as [_ H].
Qed.

(** The facts about one digit round that the arithmetic needs. *)
Lemma vli_round q t :
  1 <= t <= 26 -> t <= q ->
  let d := t + (q - t) mod (p_base - t) in
  let q' := (q - t) / (p_base - t) in
  q = d + (p_base - t) * q' /\ t <= d < 36 /\ d <= q /\ 0 <= q' /\ 10 * q' <= q.
Proof.
  intros Ht Hq d q'. unfold p_base in *.
  pose proof (Z.div_mod (q - t) (36 - t) ltac:(lia)) as Hdm.
  pose proof (Z.mod_pos_bound (q - t) (36 - t) ltac:(lia)) as Hm.
  assert (0 <= q') by (apply Z.div_pos; lia). subst d q'. nia.
Qed.

Lemma encode_vli_chars f q k bias :
  0 <= q < 2 ^ Z.of_nat f -> Forall digit_char (encode_vli f q k bias).
Proof.
  revert q k. induction f as [|f IH]; intros q k Hq; cbn [encode_vli].
  - constructor; [|done]. apply digit_to_char_ok. simpl in Hq. lia.
  - pose proof (threshold_bounds k bias) as Ht. case_if; cmp_facts.
    + constructor; [|done]. apply digit_to_char_ok. lia.
    + destruct (vli_round q (threshold k bias) Ht ltac:(lia)) as (_ & Hd & _ & Hq' & H10).
      constructor; [apply digit_to_char_ok; lia|]. apply IH.
      rewrite Nat2Z.inj_succ, Z.pow_succ_r in Hq by lia. lia.
Qed.

(** Decoding the digits of [q] from [i] with weight [w] adds [w * q]. *)
Lemma decode_encode_vli f q k bias i w rest :
  0 <= q < 2 ^ Z.of_nat f -> 0 <= i -> 1 <= w -> i + w * q <= vli_bound ->
  decode_number (encode_vli f q k bias ++ rest) i w k bias = Some (i + w * q, rest).
Proof.
  unfold vli_bound. revert q k i w. induction f as [|f IH]; intros q k i w Hq Hi Hw Hb.
  - simpl in Hq. assert (q = 0) as -> by lia. cbn [encode_vli app decode_number].
    rewrite (proj1 (digit_to_char_ok 0 ltac:(lia))).
    pose proof (threshold_bounds k bias) as Ht.
    assert (0 <= (p_maxint - i) / w) by (apply Z.div_pos; unfold p_maxint; lia).
    destruct (0 >? _) eqn:E; cmp_facts; [lia|]. rewrite Z.mul_0_l, Z.add_0_r.
    destruct (0 <? _) eqn:E'; cmp_facts; [f_equal; f_equal; lia | lia].
  - pose proof (threshold_bounds k bias) as Ht. cbn [encode_vli].
    destruct (q <? threshold k bias) eqn:Eq; cmp_facts; cbn [app decode_number].
    + rewrite (proj1 (digit_to_char_ok q ltac:(lia))).
      assert (q <= (p_maxint - i) / w) by (apply Z.div_le_lower_bound; unfold p_maxint; lia).
      destruct (q >? _) eqn:E; cmp_facts; [lia|].
      destruct (q <? _) eqn:E'; cmp_facts; [f_equal; f_equal; lia | lia].
    + destruct (vli_round q (threshold k bias) Ht ltac:(lia)) as (Hqd & Hd & Hdq & Hq' & H10).
      set (t := threshold k bias) in *.
      set (d := t + (q - t) mod (p_base - t)) in *. set (q' := (q - t) / (p_base - t)) in *.
      rewrite (proj1 (digit_to_char_ok d ltac:(lia))).
      assert (d <= (p_maxint - i) / w) by (apply Z.div_le_lower_bound; unfold p_maxint; nia).
      destruct (d >? _) eqn:E; cmp_facts; [lia|].
      destruct (d <? t) eqn:E'; cmp_facts; [lia|].
      assert (w <= p_maxint / (p_base - t))
        by (apply Z.div_le_lower_bound; unfold p_base, p_maxint in *; nia).
      destruct (w >? _) eqn:E''; cmp_facts; [lia|].
      rewrite IH; [f_equal; f_equal; unfold p_base in *; nia | | nia | unfold p_base; nia |
        unfold p_base in *; nia].
      rewrite Nat2Z.inj_succ, Z.pow_succ_r in Hq by lia. lia.
Qed.

(** ** Lemmas: the decoder's fuel *)

Lemma decode_number_shorter cs i w k bias i' cs' :
  decode_number cs i w k bias = Some (i', cs') -> (length cs' < length cs)%nat.
Proof.
  revert i w k. induction cs as [|c cs IH]; intros i w k; cbn [decode_number]; [done|].
  destruct (char_to_digit_value c) as [digit|]; [|done].
  repeat case_if; intros H; simplify_eq; simpl; [lia|]. apply IH in H. lia.
Qed.

Lemma decode_loop_fuel f g cs n i bias out :
  (length cs <= f)%nat -> (length cs <= g)%nat ->
  decode_loop f cs n i bias out = decode_loop g cs n i bias out.
Proof.
  revert g cs n i bias out. induction f as [|f IH]; intros g cs n i bias out Hf Hg.
  - destruct cs; [by destruct g | simpl in Hf; lia].
  - destruct cs as [|c cs0]; [by destruct g|]. destruct g as [|g]; [simpl in Hg; lia|].
    cbn [decode_loop]. destruct (decode_number (c :: cs0) i 1 p_base bias) as [[i' cs']|] eqn:E; [|done].
    apply decode_number_shorter in E. simpl in E.
    simpl in Hf, Hg. repeat case_if; try done. apply IH; lia.
Qed.

(** One round of the decoder, with the remaining input's length as fuel. *)
Lemma decode_loop_round cs n i bias out i' cs' :
  decode_number cs i 1 p_base bias = Some (i', cs') ->
  decode_loop (length cs) cs n i bias out =
  let len := Z.of_nat (length out) + 1 in
  if i' / len >? p_maxint - n then None
  else if n + i' / len <? p_initial_n then None
  else decode_loop (length cs') cs' (n + i' / len) (i' mod len + 1) (adapt (i' - i) len (i =? 0))
         (insert_at (Z.to_nat (i' mod len)) (n + i' / len) out).
Proof.
  intros E. pose proof (decode_number_shorter _ _ _ _ _ _ _ E) as Hl.
  destruct cs as [|c cs0]; [done|]. cbn [length decode_loop]. rewrite E. cbv zeta.
  repeat case_if; try done. apply decode_loop_fuel; simpl in Hl; lia.
Qed.

(** ** Lemmas: lists *)

Lemma insert_at_app {A} (l r : list A) (x : A) : insert_at (length l) x (l ++ r) = l ++ x :: r.
Proof. unfold insert_at. by rewrite take_app_length, drop_app_length. Qed.

Lemma filter_full {A} (p : A -> bool) (l : list A) :
  length (List.filter p l) = length l -> List.filter p l = l.
Proof.
  induction l as [|x l IH]; [done|]. cbn [List.filter length].
  pose proof (List.filter_length_le p l) as Hle.
  destruct (p x); cbn [length]; intros H; [f_equal; apply IH; lia | lia].
Qed.

(** [min_ge l n] is the least code point of [l] at least [n], when [l]
    has one and all its code points are at most 0x10FFFF. *)
Lemma min_ge_fold l n acc :
  let r := fold_left (fun m c => if (n <=? c) && (c <? m) then c else m) l acc in
  r <= acc /\ (r = acc \/ In r l) /\ (n <= acc -> n <= r) /\ (forall c, In c l -> n <= c -> r <= c).
Proof.
  revert acc. induction l as [|c l IH]; intros acc; cbn [fold_left].
  - split; [lia|]. split; [by left|]. split; [done|]. by intros ? [].
  - destruct (IH (if (n <=? c) && (c <? acc) then c else acc)) as (H1 & H2 & H3 & H4).
    destruct ((n <=? c) && (c <? acc)) eqn:E; cmp_facts.
    + repeat split; [lia| |lia|].
      * destruct H2 as [->|?]; [right; left|right; right]; done.
      * intros c' [<-|Hc'] Hn; [lia|]. by apply H4.
    + repeat split; [lia| |done|].
      * destruct H2 as [->|?]; [left|right; right]; done.
      * intros c' [<-|Hc'] Hn; [|by apply H4].
        apply andb_false_iff in E as [E|E]; cmp_facts; lia.
Qed.

Lemma min_ge_spec l n c0 :
  In c0 l -> n <= c0 -> Forall (fun c => c <= 1114111) l ->
  In (min_ge l n) l /\ n <= min_ge l n /\ (forall c, In c l -> n <= c -> min_ge l n <= c).
Proof.
  intros Hin Hn Hall. rewrite List.Forall_forall in Hall. unfold min_ge.
  destruct (min_ge_fold l n 1114111) as (H1 & H2 & H3 & H4).
  specialize (Hall c0 Hin). repeat split; [|lia|done].
  destruct H2 as [E|?]; [|done]. specialize (H4 c0 Hin Hn).
  by replace (fold_left _ l 1114111) with c0 by lia.
Qed.

Lemma filter_snoc {A} (p : A -> bool) (l : list A) (c : A) :
  List.filter p (l ++ [c]) = List.filter p l ++ (if p c then [c] else []).
Proof. rewrite List.filter_app. simpl. by destruct (p c). Qed.

Lemma length_filter_le {A} (p : A -> bool) (l : list A) : (length (List.filter p l) <= length l)%nat.
Proof. apply List.filter_length_le. Qed.

(** ** The encoder simulated by the decoder *)

(** The decoder reading the chunk a scan at [m] writes.  The scan has
    read [pre] and has [suf] left; the decoder's output [cur] holds the
    code points of [pre] up to [m] and those of [suf] below [m], and its
    state [(n_dec, i_dec)] is [d] positions before the scan's place in
    [cur], counted as [n * (length cur + 1) + i]. *)
Lemma encode_pass_sim m b suf : forall pre d bias h outE n_dec i_dec,
  let cur := List.filter (fun c => c <=? m) pre ++ List.filter (fun c => c <? m) suf in
  let idx := Z.of_nat (length (List.filter (fun c => c <=? m) pre)) in
  let fin := List.filter (fun c => c <=? m) (pre ++ suf) in
  (length (pre ++ suf) <= 54)%nat ->
  h = Z.of_nat (length cur) ->
  n_dec * (h + 1) + i_dec + d = m * (h + 1) + idx ->
  0 <= i_dec -> 0 <= d -> 128 <= n_dec <= m -> m <= 1114111 -> b <= h -> (i_dec = 0 <-> h = b) ->
  exists d' bias' sigma n' i',
    encode_pass suf m d bias h b outE = Some (d', bias', Z.of_nat (length fin), outE ++ sigma) /\
    Forall digit_char sigma /\
    (forall tau, decode_loop (length (sigma ++ tau)) (sigma ++ tau) n_dec i_dec bias cur =
                 decode_loop (length tau) tau n' i' bias' fin) /\
    n' * (Z.of_nat (length fin) + 1) + i' + d' = m * (Z.of_nat (length fin) + 1) + Z.of_nat (length fin) /\
    0 <= i' /\ 0 <= d' /\ 128 <= n' <= m /\ b <= Z.of_nat (length fin) /\
    (i' = 0 <-> Z.of_nat (length fin) = b).
Proof.
  induction suf as [|c suf IH]; intros pre d bias h outE n_dec i_dec cur idx fin
    Hlen Hh Heq Hi Hd Hn Hm Hb Hib.
  - exists d, bias, [], n_dec, i_dec. subst cur fin. rewrite !app_nil_r in *. cbn [encode_pass].
    subst h. repeat split; try done; lia.
  - assert (Hcur : (length cur <= 54)%nat).
    { subst cur. rewrite !length_app in *. cbn [length] in Hlen.
      pose proof (length_filter_le (fun c => c <=? m) pre).
      pose proof (length_filter_le (fun c => c <? m) (c :: suf)). cbn [length] in *. lia. }
    assert (Hidx : (length (List.filter (fun c => Z.leb c m) pre) <= length cur)%nat)
      by (subst cur; rewrite length_app; lia).
    assert (Hfin : fin = List.filter (fun c => c <=? m) ((pre ++ [c]) ++ suf))
      by (subst fin; by rewrite <- app_assoc).
    assert (Hlen' : (length ((pre ++ [c]) ++ suf) <= 54)%nat)
      by (rewrite <- app_assoc; exact Hlen).
    cbn [encode_pass]. destruct (c <? m) eqn:Ecm; [|destruct (c =? m) eqn:Eeq]; cmp_facts.
    + (* a smaller code point: one more position *)
      destruct (d =? p_maxint) eqn:EM; cmp_facts; [unfold p_maxint in *; nia|].
      assert (Hc : cur = List.filter (fun c => c <=? m) (pre ++ [c]) ++ List.filter (fun c => c <? m) suf).
      { subst cur. rewrite filter_snoc. cbn [List.filter].
        replace (c <? m) with true by (symmetry; apply Z.ltb_lt; lia).
        replace (c <=? m) with true by (symmetry; apply Z.leb_le; lia). by rewrite <- app_assoc. }
      edestruct (IH (pre ++ [c]) (d + 1) bias h outE n_dec i_dec) as
        (d' & bias' & sigma & n' & i' & He & Hs & Hdec & Hrest); try exact Hlen'; try lia.
      { rewrite Hh, Hc. done. }
      { rewrite filter_snoc. replace (c <=? m) with true by (symmetry; apply Z.leb_le; lia).
        rewrite length_app. cbn [length]. subst idx. lia. }
      exists d', bias', sigma, n', i'. rewrite Hfin, Hc. done.
    + (* an occurrence of [m]: write [d], and the decoder inserts [m] *)
      apply Z.eqb_eq in Eeq. subst c.
      set (chunk := encode_vli (vli_fuel d) d p_base bias).
      set (bias1 := adapt d (h + 1) (h =? b)).
      assert (Hc : insert_at (Z.to_nat idx) m cur =
                   List.filter (fun c => c <=? m) (pre ++ [m]) ++ List.filter (fun c => c <? m) suf).
      { subst cur idx. rewrite Nat2Z.id, filter_snoc, Z.leb_refl. cbn [List.filter].
        rewrite Z.ltb_irrefl, insert_at_app. by rewrite <- app_assoc. }
      assert (Hlc : length (List.filter (fun c => c <=? m) (pre ++ [m]) ++
                            List.filter (fun c => c <? m) suf) = S (length cur)).
      { rewrite <- Hc. unfold insert_at. rewrite length_app. cbn [length].
        rewrite length_take, length_drop. lia. }
      edestruct (IH (pre ++ [m]) 0 bias1 (h + 1) (outE ++ chunk) m (idx + 1)) as
        (d' & bias' & sigma & n' & i' & He & Hs & Hdec & Hrest); try exact Hlen'; try lia.
      all: try (rewrite Hlc; lia); try (rewrite filter_snoc, Z.leb_refl, length_app; cbn [length]; subst idx; lia).
      exists d', bias', (chunk ++ sigma), n', i'.
      split; [rewrite He, Hfin; by rewrite <- (app_assoc outE)|].
      split; [apply Forall_app; split; [apply encode_vli_chars; split; [lia|apply vli_fuel_enough; lia]|done]|].
      split; [|rewrite Hfin; exact Hrest].
      intros tau. rewrite <- app_assoc.
      rewrite (decode_loop_round _ _ _ _ _ (i_dec + 1 * d) (sigma ++ tau))
        by (apply decode_encode_vli; [split; [lia|apply vli_fuel_enough; lia]| | |unfold vli_bound]; nia).
      cbv zeta. rewrite <- Hh.
      assert (Hdiv : (i_dec + 1 * d) / (h + 1) = m - n_dec) by (symmetry; apply (Z.div_unique _ _ _ idx); [left|]; lia).
      assert (Hmod : (i_dec + 1 * d) mod (h + 1) = idx) by (symmetry; apply (Z.mod_unique _ _ (m - n_dec)); [left|]; lia).
      rewrite Hdiv, Hmod. replace (n_dec + (m - n_dec)) with m by lia.
      destruct (m - n_dec >? p_maxint - n_dec) eqn:E1; cmp_facts; [unfold p_maxint in *; lia|].
      destruct (m <? p_initial_n) eqn:E2; cmp_facts; [unfold p_initial_n in *; lia|].
      replace (i_dec + 1 * d - i_dec) with d by lia.
      replace (i_dec =? 0) with (h =? b)
        by (destruct (Z.eqb_spec h b), (Z.eqb_spec i_dec 0); tauto).
      rewrite Hc, Hfin. apply Hdec.
    + (* a larger code point: nothing *)
      apply Z.eqb_neq in Eeq.
      assert (Hc : cur = List.filter (fun c => c <=? m) (pre ++ [c]) ++ List.filter (fun c => c <? m) suf).
      { subst cur. rewrite filter_snoc. cbn [List.filter].
        replace (c <? m) with false by (symmetry; apply Z.ltb_ge; lia).
        replace (c <=? m) with false by (symmetry; apply Z.leb_gt; lia). by rewrite app_nil_r. }
      edestruct (IH (pre ++ [c]) d bias h outE n_dec i_dec) as
        (d' & bias' & sigma & n' & i' & He & Hs & Hdec & Hrest); try exact Hlen'; try lia.
      { rewrite Hh, Hc. done. }
      { rewrite filter_snoc. replace (c <=? m) with false by (symmetry; apply Z.leb_gt; lia).
        rewrite app_nil_r. subst idx. lia. }
      exists d', bias', sigma, n', i'. rewrite Hfin, Hc. done.
Qed.

Lemma filter_all {A} (p : A -> bool) (l : list A) :
  (forall a, In a l -> p a = true) -> List.filter p l = l.
Proof.
  induction l as [|a l IH]; intros H; [done|]. cbn [List.filter].
  rewrite (H a (or_introl eq_refl)), IH; [done|]. intros; apply H; by right.
Qed.

Lemma filter_lt_le_length (l : list Z) (m : Z) :
  In m l -> (length (List.filter (fun c => Z.ltb c m) l) < length (List.filter (fun c => Z.leb c m) l))%nat.
Proof.
  induction l as [|c l IH]; intros Hin; [done|]. cbn [List.filter].
  assert (length (List.filter (fun c => Z.ltb c m) l) <= length (List.filter (fun c => Z.leb c m) l))%nat.
  { clear IH Hin. induction l as [|c' l IH']; [done|]. cbn [List.filter].
    destruct (c' <? m) eqn:E1, (c' <=? m) eqn:E2; cmp_facts; cbn [length]; lia. }
  destruct Hin as [<-|Hin].
  - rewrite Z.ltb_irrefl, Z.leb_refl. cbn [length]. lia.
  - specialize (IH Hin). destruct (c <? m) eqn:E1, (c <=? m) eqn:E2; cmp_facts; cbn [length]; lia.
Qed.

(** The main loop, one code point value per round: the decoder's output
    holds the code points below [n], and its state is [d] positions before
    [(n, 0)]. *)
Lemma encode_loop_sim x b :
  (length x <= 54)%nat -> Forall (fun c => 0 <= c <= 1114111) x ->
  forall f n d bias h outE n_dec i_dec,
  let cur := List.filter (fun c => c <? n) x in
  h = Z.of_nat (length cur) ->
  n_dec * (h + 1) + i_dec + d = n * (h + 1) ->
  0 <= i_dec -> 0 <= d -> 128 <= n_dec <= n -> n <= 1114112 -> b <= h -> (i_dec = 0 <-> h = b) ->
  (length x < f + length cur)%nat ->
  exists sigma,
    encode_loop f x n d bias h b outE = Some (outE ++ sigma) /\ Forall digit_char sigma /\
    decode_loop (length sigma) sigma n_dec i_dec bias cur = Some x.
Proof.
  intros Hlen Hx. rewrite List.Forall_forall in Hx.
  induction f as [|f IH]; intros n d bias h outE n_dec i_dec cur Hh Heq Hi Hd Hn Hn' Hb Hib Hf.
  { pose proof (List.filter_length_le (fun c => c <? n) x). subst cur. lia. }
  pose proof (List.filter_length_le (fun c => c <? n) x) as Hcur.
  cbn [encode_loop]. destruct (h <? Z.of_nat (length x)) eqn:Eh; cmp_facts.
  - destruct (existsb (fun c => n <=? c) x) eqn:Ex.
    2:{ exfalso. assert (cur = x) as Hc; [|subst cur; rewrite Hc in Hh; lia].
        apply filter_all. intros a Ha. apply Z.ltb_lt.
        apply existsb_false_forallb in Ex. rewrite forallb_forall in Ex.
        specialize (Ex a Ha). apply negb_true_iff, Z.leb_gt in Ex. done. }
    apply existsb_exists in Ex as (c0 & Hc0 & Hnc0). apply Z.leb_le in Hnc0.
    destruct (min_ge_spec x n c0 Hc0 Hnc0 ltac:(rewrite List.Forall_forall; intros; by apply Hx))
      as (Hmin & Hnm & Hleast).
    set (m := min_ge x n) in *.
    pose proof (Hx m Hmin) as Hmb.
    assert (Hcm : List.filter (fun c => c <? m) x = cur).
    { subst cur. apply List.filter_ext_in. intros a Ha.
      destruct (n <=? a) eqn:E; cmp_facts.
      - specialize (Hleast a Ha ltac:(lia)). destruct (a <? m) eqn:E1, (a <? n) eqn:E2; cmp_facts; lia.
      - destruct (a <? m) eqn:E1, (a <? n) eqn:E2; cmp_facts; lia. }
    assert (m - n <= (p_maxint - d) / (h + 1))
      by (apply Z.div_le_lower_bound; unfold p_maxint; nia).
    destruct (m - n >? _) eqn:Eov; cmp_facts; [lia|].
    assert (H1 : h = Z.of_nat (length (List.filter (fun c => c <=? m) [] ++ List.filter (fun c => c <? m) x)))
      by (cbn [List.filter app]; by rewrite Hcm).
    assert (H2 : n_dec * (h + 1) + i_dec + (d + (m - n) * (h + 1)) =
                 m * (h + 1) + Z.of_nat (length (List.filter (fun c => c <=? m) [])))
      by (cbn [List.filter length]; nia).
    destruct (encode_pass_sim m b x [] (d + (m - n) * (h + 1)) bias h outE n_dec i_dec
                ltac:(cbn [app]; lia) H1 H2 Hi ltac:(nia) ltac:(lia) ltac:(lia) Hb Hib)
      as (d' & bias' & sigma1 & n' & i' & He & Hs & Hdec & Heq' & Hi' & Hd' & Hn'' & Hb' & Hib').
    rewrite He. cbn [app] in *.
    set (fin := List.filter (fun c => c <=? m) x) in *.
    assert (Hfin : List.filter (fun c => c <? m + 1) x = fin).
    { subst fin. apply List.filter_ext. intros a. destruct (a <? m + 1) eqn:E1, (a <=? m) eqn:E2; cmp_facts; lia. }
    pose proof (filter_lt_le_length x m Hmin) as Hgrow. rewrite Hcm in Hgrow.
    change (List.filter (fun c => c <=? m) x) with fin in Hgrow.
    destruct (IH (m + 1) (d' + 1) bias' (Z.of_nat (length fin)) (outE ++ sigma1) n' i'
                ltac:(by rewrite Hfin) ltac:(lia) Hi' ltac:(lia) ltac:(lia) ltac:(lia) Hb' Hib'
                ltac:(rewrite Hfin; fold cur; lia))
      as (sigma2 & He2 & Hs2 & Hdec2).
    exists (sigma1 ++ sigma2). rewrite He2, <- app_assoc.
    split; [done|]. split; [by apply Forall_app|].
    specialize (Hdec sigma2). cbn [List.filter app] in Hdec. rewrite Hcm in Hdec.
    rewrite Hdec. by rewrite Hfin in Hdec2.
  - exists []. rewrite app_nil_r. split; [done|]. split; [done|].
    cbn [decode_loop length]. f_equal. apply filter_full. subst cur. lia.
Qed.

(** The delimiter the decoder finds is the encoder's. *)
Lemma last_dash_digits l sigma :
  Forall digit_char sigma -> last_dash (l ++ sigma) = last_dash l.
Proof.
  intros Hs. induction l as [|c l IH]; cbn [app last_dash].
  - induction Hs as [|c' s Hc Hs IHs]; [done|]. cbn [last_dash]. rewrite IHs.
    destruct (digit_char_ascii c' Hc) as [Hne _]. destruct (c' =? 45) eqn:E; [apply Z.eqb_eq in E; lia|done].
  - by rewrite IH.
Qed.

Lemma last_dash_snoc l : last_dash (l ++ [45]) = Some (length l).
Proof. induction l as [|c l IH]; [done|]. cbn [app last_dash length]. by rewrite IH. Qed.

(** ** Round trip *)

(** The encoder's output, for a label within the bound: the label's basic
    code points, a delimiter, and digit characters; and it decodes back. *)
Lemma punycode_encode_spec x :
  Forall (fun c => 0 <= c /\ bad_code_point c = false) x -> (length x <= 54)%nat ->
  exists y, punycode_encode x = Some y /\ punycode_decode y = Some x /\
    Forall (fun c => (In c x /\ c < 128) \/ c = 45 \/ digit_char c) y.
Proof.
  intros Hx Hlen.
  assert (Hx' : Forall (fun c => 0 <= c <= 1114111) x).
  { eapply Forall_impl; [exact Hx|]. intros c [Hc Hb]. unfold bad_code_point in Hb. cmp_facts. lia. }
  assert (Hnb : existsb bad_code_point x = false).
  { apply existsb_false_forallb, forallb_forall. intros c Hc.
    rewrite List.Forall_forall in Hx. destruct (Hx c Hc) as [_ ->]. done. }
  unfold punycode_encode. rewrite Hnb.
  set (basic := List.filter (fun c => c <? 128) x).
  set (b := Z.of_nat (length basic)).
  set (out0 := if b >? 0 then basic ++ [45] else basic).
  destruct (encode_loop_sim x b Hlen Hx' (S (length x)) 128 0 72 b out0 128 0
              eq_refl ltac:(lia) ltac:(lia) ltac:(lia) ltac:(lia) ltac:(lia) ltac:(lia)
              ltac:(split; done) ltac:(lia))
    as (sigma & He & Hs & Hdec).
  assert (Hbasic' : Forall (fun c => In c x /\ c < 128) basic).
  { apply List.Forall_forall. intros c Hc. apply List.filter_In in Hc as [Hin Hc]. by apply Z.ltb_lt in Hc. }
  exists (out0 ++ sigma). split; [exact He|].
  assert (Hbasic : existsb (fun c => c >=? 128) basic = false).
  { apply existsb_false_forallb, forallb_forall. intros c Hc.
    apply List.filter_In in Hc as [_ Hc]. apply Z.ltb_lt in Hc. apply negb_true_iff. rewrite Z.geb_leb. apply Z.leb_gt. lia. }
  unfold punycode_decode. rewrite last_dash_digits by done.
  subst out0. destruct (b >? 0) eqn:Eb; cmp_facts.
  - assert (Hd : forall l : list Z, drop (S (length l)) (l ++ 45 :: sigma) = sigma)
      by (intros l; induction l; simpl; auto).
    rewrite last_dash_snoc, <- app_assoc, take_app_length. cbn [app].
    rewrite Hd, Hbasic. split; [exact Hdec|].
    apply Forall_app. split; [eapply Forall_impl; [exact Hbasic'|]; by left|].
    constructor; [by right; left|]. eapply Forall_impl; [exact Hs|]. by right; right.
  - assert (basic = []) as Hnil by (apply length_zero_iff_nil; unfold b in Eb; lia).
    change (List.filter (fun c => c <? 128) x) with basic in Hdec.
    rewrite Hnil in Hdec |- *. split; [exact Hdec|].
    eapply Forall_impl; [exact Hs|]. by right; right.
Qed.

(** Punycode decoding inverts encoding: every label of at most 54 Unicode
    scalar values encodes, and its encoding decodes back to it.  The bound
    keeps every integer the decoder forms below [vli_bound], so none of its
    32-bit overflow checks fires. *)
Theorem punycode_roundtrip x :
  Forall (fun c => 0 <= c /\ bad_code_point c = false) x -> (length x <= 54)%nat ->
  exists y, punycode_encode x = Some y /\ punycode_decode y = Some x.
Proof.
  intros Hx Hlen. destruct (punycode_encode_spec x Hx Hlen) as (y & He & Hd & _). by exists y.
Qed.

(** The bound is needed: a label of 1927 times U+0080 then U+10FF70
    encodes (every delta the encoder forms fits in 31 bits), but the
    decoder's running [i], which starts from the previous insertion point,
    passes [p_maxint], so decoding the encoder's output fails. *)
Theorem punycode_roundtrip_overflow :
  let x := repeat 128 1927 ++ [1113968] in
  Forall (fun c => 0 <= c /\ bad_code_point c = false) x /\
  exists y, punycode_encode x = Some y /\ punycode_decode y = None.
Proof.
  intros x. split.
  - assert (H : forallb (fun c => (0 <=? c) && negb (bad_code_point c)) x = true)
      by (vm_compute; reflexivity).
    apply List.Forall_forall. intros c Hc. rewrite forallb_forall in H.
    destruct (andb_prop _ _ (H c Hc)) as [H1 H2]. split; [by apply Z.leb_le|by apply negb_true_iff].
  - eexists. split; [vm_compute; reflexivity|]. vm_compute. reflexivity.
Qed.

Lemma punycode_roundtrip_witness :
  punycode_encode [98; 252; 99; 104; 101; 114] = Some [98; 99; 104; 101; 114; 45; 107; 118; 97] /\
  exists y, punycode_encode [98; 252; 99; 104; 101; 114] = Some y /\
            punycode_decode y = Some [98; 252; 99; 104; 101; 114].
Proof.
  split; [vm_compute; reflexivity|].
  apply punycode_roundtrip; [repeat constructor; lia | simpl; lia].
Defined.
