(* ===== verification/Host.v ===== *)
(** * Host: the WHATWG host parser, as [new URL] runs it on the host of
    a special URL

    [isValidUrl] (src/src/lib/utils/url.ts) is true exactly when
    [new URL(url)] succeeds with an http(s) protocol; for such a URL the
    parse fails in the host parser when the host is not a valid host.
    This file models the URL Standard's host parser for a special URL
    (not opaque), on code points as [nat]:
    - [host_parse]: an input in brackets is an IPv6 address
      ([Ipv6.ipv6_parse]); otherwise the input is UTF-8 encoded,
      percent-decoded, taken to ASCII by [domain_to_ascii], and parsed as
      an IPv4 address ([Ipv4.ipv4_parse]) when it ends in a number;
    - [domain_to_ascii]: for an ASCII domain with no label starting with
      [xn--] the standard's fast path, ASCII lower-casing; otherwise UTS
      46 ToASCII, whose mapping table is the parameter [uts46] of the
      section; then the empty and forbidden-code-point checks;
    - [host_serialize]: the host serializer.

    Theorems, in the section [HostProps]: a parsed host is well formed
    ([host_parse_bounds]), and the serialization of a parsed host parses
    back to the same host ([host_roundtrip]) for any mapping table whose
    results are lower-case ASCII and that maps a result with an [xn--]
    label to itself. *)

From S2P Require Import Prelude Js Ipv4 Ipv6.

(** ** Code points *)

Definition lower_cp (c : nat) : nat := if (65 <=? c) && (c <=? 90) then c + 32 else c.

(** Forbidden host and domain code points (URL Standard 3.1). *)

Definition forbidden_host_cp (c : nat) : bool :=
  existsb (Nat.eqb c) [0; 9; 10; 13; 32; 35; 47; 58; 60; 62; 63; 64; 91; 92; 93; 94; 124].

Definition forbidden_domain_cp (c : nat) : bool :=
  forbidden_host_cp c || (c <=? 31) || (c =? 37) || (c =? 127).

(** The code points of a string of code units below 256. *)

Definition codes (s : string) : list nat := map Ascii.nat_of_ascii (String.list_ascii_of_string s).

(** UTF-8 encoding of code points below 256. *)

Definition utf8_encode (l : list nat) : list nat :=
  flat_map (fun u => if u <? 128 then [u] else [192 + u / 64; 128 + u mod 64]) l.

(** ** Percent-decoding (URL Standard 1.3) *)

Fixpoint percent_decode (l : list nat) : list nat :=
  match l with
  | c :: ((a :: b :: rest2) as rest) =>
      if c =? 37 then
        match hex_val a, hex_val b with
        | Some x, Some y => (16 * x + y) :: percent_decode rest2
        | _, _ => c :: percent_decode rest
        end
      else c :: percent_decode rest
  | c :: rest => c :: percent_decode rest
  | [] => []
  end.

(** A label that starts with an ASCII case-insensitive [xn--]. *)

Definition xn_label (p : list nat) : bool :=
  bool_decide (map lower_cp (take 4 p) = [120; 110; 45; 45]).

(** ** The host parser *)

Inductive Host :=
| HDomain (d : list nat)
| HIPv4 (a : Z)
| HIPv6 (a : list Z).

Section HostParser.

(** UTS 46 ToASCII (CheckHyphens false, CheckBidi and CheckJoiners true,
    no STD3 rules, non-transitional, no DNS length check) of the UTF-8
    decoding of a byte sequence: the IDNA mapping table. *)

Context (uts46 : list nat -> option (list nat)).

Definition domain_to_ascii (domain : list nat) : option (list nat) :=
  let result :=
    if forallb (fun b => b <? 128) domain && negb (existsb xn_label (split_dots domain))
    then Some (map lower_cp domain)
    else uts46 domain in
  match result with
  | None => None
  | Some r => if (length r =? 0) || existsb forbidden_domain_cp r then None else Some r
  end.

Definition host_parse (input : list nat) : option Host :=
  match input with
  | c :: rest =>
      if c =? 91 then
        if bool_decide (last input = Some 93) then option_map HIPv6 (ipv6_parse (removelast rest))
        else None
      else
        match domain_to_ascii (percent_decode (utf8_encode input)) with
        | None => None
        | Some a => if ends_in_a_number a then option_map HIPv4 (ipv4_parse a) else Some (HDomain a)
        end
  | [] => None
  end.

End HostParser.

(** ** The host serializer *)

Definition host_serialize (h : Host) : list nat :=
  match h with
  | HDomain d => d
  | HIPv4 a => ipv4_serialize a
  | HIPv6 a => [91] ++ ipv6_serialize a ++ [93]
  end.

(** ** Lemmas: the character-level passes on clean ASCII *)

(** A code point the host parser leaves alone: ASCII, lower-case and not
    a forbidden domain code point. *)
Definition clean_cp (c : nat) : bool :=
  (c <? 128) && (lower_cp c =? c) && negb (forbidden_domain_cp c).

Lemma utf8_encode_ascii l : forallb (fun c => c <? 128) l = true -> utf8_encode l = l.
Proof.
  induction l as [|c l IH]; [done|]. cbn [forallb]. intros [Hc Hl]%andb_prop.
  simpl. rewrite Hc. simpl. by rewrite IH.
Qed.

Lemma percent_decode_cons c l : (c =? 37) = false -> percent_decode (c :: l) = c :: percent_decode l.
Proof. intros H. destruct l as [|a [|b l]]; simpl; rewrite ?H; reflexivity. Qed.

Lemma percent_decode_id l : forallb (fun c => negb (c =? 37)) l = true -> percent_decode l = l.
Proof.
  induction l as [|c l IH]; [done|]. cbn [forallb]. intros [Hc Hl]%andb_prop.
  rewrite percent_decode_cons by (by destruct (c =? 37)). by rewrite IH.
Qed.

Lemma lower_cp_idem c : lower_cp (lower_cp c) = lower_cp c.
Proof.
  unfold lower_cp. destruct ((65 <=? c) && (c <=? 90)) eqn:E;
    case_if; cmp_facts; lia || (rewrite E in *; done).
Qed.

Lemma lower_cp_dot c : (lower_cp c =? 46) = (c =? 46).
Proof.
  unfold lower_cp. case_if; cmp_facts; [|done].
  destruct (c + 32 =? 46) eqn:E1, (c =? 46) eqn:E2; cmp_facts; lia.
Qed.

Lemma map_lower_id l : forallb (fun c => lower_cp c =? c) l = true -> map lower_cp l = l.
Proof.
  induction l as [|c l IH]; [done|]. cbn [forallb]. intros [Hc Hl]%andb_prop.
  apply Nat.eqb_eq in Hc. simpl. by rewrite Hc, IH.
Qed.

Lemma xn_label_lower p : xn_label (map lower_cp p) = xn_label p.
Proof.
  unfold xn_label. rewrite firstn_map, map_map.
  by rewrite (map_ext (fun x => lower_cp (lower_cp x)) lower_cp) by apply lower_cp_idem.
Qed.

Lemma split_dots_lower l : split_dots (map lower_cp l) = map (map lower_cp) (split_dots l).
Proof.
  induction l as [|c l IH]; [done|]. simpl. rewrite lower_cp_dot, IH.
  destruct (c =? 46); [done|]. by destruct (split_dots l).
Qed.

Lemma xn_labels_lower l :
  existsb xn_label (split_dots (map lower_cp l)) = existsb xn_label (split_dots l).
Proof.
  rewrite split_dots_lower. induction (split_dots l) as [|p ps IH]; [done|].
  simpl. by rewrite xn_label_lower, IH.
Qed.

Lemma xn_label_digit c p : is_digit_cp c = true -> xn_label (c :: p) = false.
Proof.
  unfold is_digit_cp, xn_label. intros Hc. cmp_facts. apply bool_decide_eq_false_2.
  destruct p as [|? [|? [|? ?]]]; simpl; unfold lower_cp at 1; case_if; cmp_facts;
    intros [= E]; lia.
Qed.

(** A dotted-decimal string has no [xn--] label. *)
Lemma dotted_no_xn l : forallb dotted_cp l = true -> existsb xn_label (split_dots l) = false.
Proof.
  induction l as [|c l IH]; [done|]. cbn [forallb]. intros [Hc Hl]%andb_prop.
  specialize (IH Hl). simpl. unfold dotted_cp in Hc.
  destruct (c =? 46) eqn:Ed; [done|]. rewrite orb_false_r in Hc.
  destruct (split_dots l) as [|p ps]; simpl in *; rewrite xn_label_digit by done; cmp_facts; done.
Qed.

Lemma clean_cp_facts c :
  clean_cp c = true -> c < 128 /\ lower_cp c = c /\ forbidden_domain_cp c = false.
Proof.
  unfold clean_cp. intros H. cmp_facts. apply negb_true_iff in H0. done.
Qed.

Lemma dotted_clean_all : forallb (fun c => negb (dotted_cp c) || clean_cp c) (seq 0 128) = true.
Proof. vm_compute. reflexivity. Qed.

Lemma dotted_clean c : dotted_cp c = true -> clean_cp c = true.
Proof.
  intros Hc. assert (c < 128) as Hlt.
  { unfold dotted_cp, is_digit_cp in Hc. destruct (c =? 46) eqn:E; rewrite ?orb_false_r in Hc; cmp_facts; lia. }
  pose proof dotted_clean_all as H. rewrite forallb_forall in H.
  specialize (H c ltac:(apply in_seq; lia)). by rewrite Hc in H.
Qed.

Lemma lower_cp_lt c : c < 128 -> lower_cp c < 128.
Proof. unfold lower_cp. case_if; cmp_facts; lia. Qed.

(** What the host parser needs of a clean string: it is ASCII, it has no
    [%], it is its own lower-casing, and it has no forbidden code point. *)
Lemma clean_forallb l :
  forallb clean_cp l = true ->
  forallb (fun b => b <? 128) l = true /\ forallb (fun c => negb (c =? 37)) l = true /\
  map lower_cp l = l /\ existsb forbidden_domain_cp l = false.
Proof.
  intros H. repeat split.
  - eapply forallb_imp, H. intros x [? _]%clean_cp_facts. by apply Nat.ltb_lt.
  - eapply forallb_imp, H. intros x (_ & _ & Hx)%clean_cp_facts.
    destruct (x =? 37) eqn:E; cmp_facts; [subst x; by compute in Hx|done].
  - apply map_lower_id. eapply forallb_imp, H. intros x (_ & ? & _)%clean_cp_facts. by apply Nat.eqb_eq.
  - apply existsb_false_forallb. eapply forallb_imp, H. by intros x (_ & _ & ->)%clean_cp_facts.
Qed.

Lemma clean_of r :
  forallb (fun c => (c <? 128) && (lower_cp c =? c)) r = true ->
  existsb forbidden_domain_cp r = false -> forallb clean_cp r = true.
Proof.
  induction r as [|c r IH]; [done|]. cbn [forallb existsb].
  intros [[Hc Hl]%andb_prop Hr]%andb_prop [Hf Hfs]%orb_false_iff.
  unfold clean_cp. rewrite Hc, Hl, Hf. by apply IH.
Qed.

Lemma lower_ascii l :
  forallb (fun b => b <? 128) l = true ->
  forallb (fun c => (c <? 128) && (lower_cp c =? c)) (map lower_cp l) = true.
Proof.
  induction l as [|c l IH]; [done|]. cbn [forallb map]. intros [Hc Hl]%andb_prop.
  apply Nat.ltb_lt, lower_cp_lt, Nat.ltb_lt in Hc.
  by rewrite Hc, lower_cp_idem, Nat.eqb_refl, IH.
Qed.

Section HostProps.

Context (uts46 : list nat -> option (list nat)).

Lemma domain_to_ascii_fast l :
  l <> [] -> forallb clean_cp l = true -> existsb xn_label (split_dots l) = false ->
  domain_to_ascii uts46 l = Some l.
Proof.
  intros Hne Hc Hx. destruct (clean_forallb l Hc) as (Ha & _ & Hm & Hf).
  unfold domain_to_ascii. rewrite Ha, Hx. cbn. rewrite Hm, Hf. by destruct l.
Qed.

(** [domain_to_ascii] returns a non-empty string without forbidden code
    points, from the fast path or from the mapping table. *)
Lemma domain_to_ascii_spec l r :
  domain_to_ascii uts46 l = Some r ->
  r <> [] /\ existsb forbidden_domain_cp r = false /\
  ((forallb (fun b => b <? 128) l = true /\ existsb xn_label (split_dots l) = false /\
    r = map lower_cp l) \/ uts46 l = Some r).
Proof.
  unfold domain_to_ascii. intros H.
  destruct (forallb (fun b => b <? 128) l) eqn:Ha, (existsb xn_label (split_dots l)) eqn:Hx;
    cbn [andb negb] in H; try (destruct (uts46 l) as [r0|] eqn:Hu; [|done]);
    match type of H with (if ?b then None else Some _) = Some _ => destruct b eqn:Hc; [done|] end;
    injection H as <-; cmp_facts;
    (split; [intros E; rewrite E in *; simpl in *; lia | split; [done|]]);
    (by right) || (by left).
Qed.

Lemma host_parse_clean r :
  r <> [] -> forallb clean_cp r = true ->
  host_parse uts46 r =
  match domain_to_ascii uts46 r with
  | None => None
  | Some a => if ends_in_a_number a then option_map HIPv4 (ipv4_parse a) else Some (HDomain a)
  end.
Proof.
  intros Hne Hc. destruct (clean_forallb r Hc) as (Ha & Hp & _).
  destruct r as [|c t]; [done|]. unfold host_parse.
  rewrite utf8_encode_ascii, percent_decode_id by done.
  cbn [forallb] in Hc. apply andb_prop in Hc as [(_ & _ & Hf)%clean_cp_facts _].
  destruct (c =? 91) eqn:E; [cmp_facts; subst c; by compute in Hf|done].
Qed.

(** What the host round trip needs of the mapping table at the domain [l]
    a host parser run hands it: its result is lower-case ASCII, and a
    result with an [xn--] label is mapped to itself (UTS 46 ToASCII is
    idempotent there). *)
Definition table_ascii_at (l : list nat) : Prop :=
  forall r, uts46 l = Some r -> forallb (fun c => (c <? 128) && (lower_cp c =? c)) r = true.

Definition table_idem_at (l : list nat) : Prop :=
  forall r, uts46 l = Some r -> existsb xn_label (split_dots r) = true -> uts46 r = Some r.

Lemma domain_result_clean l r :
  table_ascii_at l -> domain_to_ascii uts46 l = Some r -> forallb clean_cp r = true.
Proof.
  intros Hasc H. destruct (domain_to_ascii_spec l r H) as (_ & Hf & [(Ha & _ & ->) | Hu]);
    apply clean_of; [by apply lower_ascii | done | by apply Hasc | done].
Qed.

Lemma domain_reparse l r :
  table_ascii_at l -> table_idem_at l ->
  domain_to_ascii uts46 l = Some r -> domain_to_ascii uts46 r = Some r.
Proof.
  intros Hasc Hidem H. pose proof (domain_result_clean l r Hasc H) as Hc.
  destruct (domain_to_ascii_spec l r H) as (Hne & Hf & Hor).
  destruct (existsb xn_label (split_dots r)) eqn:Hx; [|by apply domain_to_ascii_fast].
  destruct Hor as [(_ & Hx' & ->) | Hu]; [by rewrite xn_labels_lower, Hx' in Hx|].
  unfold domain_to_ascii. rewrite Hx, andb_false_r, (Hidem r Hu Hx), Hf, orb_false_r.
  by destruct r.
Qed.

(** The host round trip at one input, from the table's promises at the
    domain the parser computes from it. *)
Lemma host_roundtrip_at input h :
  table_ascii_at (percent_decode (utf8_encode input)) ->
  table_idem_at (percent_decode (utf8_encode input)) ->
  host_parse uts46 input = Some h -> host_parse uts46 (host_serialize h) = Some h.
Proof.
  intros Hasc Hidem.
  unfold host_parse at 1. destruct input as [|c rest]; [done|]. destruct (c =? 91).
  - destruct (bool_decide _); [|done]. destruct (ipv6_parse _) as [a|] eqn:E; [|done].
    intros [= <-]. destruct (ipv6_parse_bounds _ _ E) as [Hl Hp].
    cbn [host_serialize app host_parse]. rewrite Nat.eqb_refl.
    rewrite bool_decide_eq_true_2 by (by rewrite app_comm_cons, last_snoc).
    by rewrite removelast_last, ipv6_roundtrip.
  - destruct (domain_to_ascii _ _) as [r|] eqn:Ed; [|done].
    destruct (ends_in_a_number r) eqn:En.
    + destruct (ipv4_parse r) as [a|] eqn:E; [|done]. intros [= <-].
      pose proof (ipv4_parse_bounds _ _ E) as Hb. cbn [host_serialize].
      assert (forallb clean_cp (ipv4_serialize a) = true) as Hc
        by (eapply forallb_imp, ipv4_serialize_dotted; apply dotted_clean).
      assert (ipv4_serialize a <> []) as Hne
        by (by destruct (ipv4_serialize_head a) as (? & ? & -> & _)).
      rewrite host_parse_clean, domain_to_ascii_fast by auto using dotted_no_xn, ipv4_serialize_dotted.
      by rewrite ipv4_serialize_ends, ipv4_roundtrip.
    + intros [= <-]. cbn [host_serialize].
      destruct (domain_to_ascii_spec _ _ Ed) as (Hne & _).
      rewrite host_parse_clean by eauto using domain_result_clean.
      by rewrite (domain_reparse _ _ Hasc Hidem Ed), En.
Qed.

(** The mapping table gives lower-case ASCII, and maps a result that has
    an [xn--] label to itself. *)
Hypothesis uts46_ascii :
  forall d r, uts46 d = Some r -> forallb (fun c => (c <? 128) && (lower_cp c =? c)) r = true.
Hypothesis uts46_idem :
  forall d r, uts46 d = Some r -> existsb xn_label (split_dots r) = true -> uts46 r = Some r.

(** A parsed host is well formed: a domain is non-empty and has no
    forbidden domain code point, an IPv4 address is a 32-bit number, and an
    IPv6 address has eight 16-bit pieces. *)
Theorem host_parse_bounds input h :
  host_parse uts46 input = Some h ->
  match h with
  | HDomain d => d <> [] /\ existsb forbidden_domain_cp d = false
  | HIPv4 a => (0 <= a < 2 ^ 32)%Z
  | HIPv6 a => length a = 8 /\ Forall piece_ok a
  end.
Proof.
  unfold host_parse. destruct input as [|c rest]; [done|]. destruct (c =? 91).
  - destruct (bool_decide _); [|done]. destruct (ipv6_parse _) eqn:E; [|done].
    intros [= <-]. by eapply ipv6_parse_bounds.
  - destruct (domain_to_ascii _ _) as [r|] eqn:Ed; [|done]. destruct (ends_in_a_number r).
    + destruct (ipv4_parse r) eqn:E; [|done]. intros [= <-]. by eapply ipv4_parse_bounds.
    + intros [= <-]. by destruct (domain_to_ascii_spec _ _ Ed) as (? & ? & _).
Qed.

(** The serialization of a parsed host parses back to the same host:
    a domain is its own ASCII form, an IPv4 address is written in
    dotted decimal and an IPv6 address in brackets. *)
Theorem host_roundtrip input h :
  host_parse uts46 input = Some h -> host_parse uts46 (host_serialize h) = Some h.
Proof.
  apply host_roundtrip_at; [intros r; apply uts46_ascii | intros r; apply uts46_idem].
Qed.

End HostProps.

(** ** Witnesses *)

(** A mapping table for ASCII domains: ASCII lower-casing. *)
Definition lower_ascii_table (d : list nat) : option (list nat) :=
  if forallb (fun c => c <? 128) d then Some (map lower_cp d) else None.

Lemma lower_ascii_table_ascii d r :
  lower_ascii_table d = Some r -> forallb (fun c => (c <? 128) && (lower_cp c =? c)) r = true.
Proof. unfold lower_ascii_table. destruct (forallb _ d) eqn:E; intros [= <-]. by apply lower_ascii. Qed.

Lemma lower_ascii_table_idem d r :
  lower_ascii_table d = Some r -> existsb xn_label (split_dots r) = true -> lower_ascii_table r = Some r.
Proof.
  unfold lower_ascii_table. destruct (forallb _ d) eqn:E; intros [= <-] _.
  pose proof (lower_ascii d E) as H.
  rewrite (forallb_imp _ (fun c => c <? 128) _ ltac:(by intros x [? _]%andb_prop) H).
  rewrite map_lower_id; [done|]. eapply forallb_imp, H. by intros x [_ ?]%andb_prop.
Qed.

Lemma host_parse_bounds_witness :
  host_parse lower_ascii_table (codes "0x7f.1") = Some (HIPv4 2130706433) /\
  (0 <= 2130706433 < 2 ^ 32)%Z.
Proof.
  split; [vm_compute; reflexivity|].
  exact (host_parse_bounds lower_ascii_table (codes "0x7f.1") (HIPv4 2130706433)
           ltac:(vm_compute; reflexivity)).
Defined.

Lemma host_roundtrip_witness :
  host_parse lower_ascii_table (host_serialize (HDomain (codes "xn--nxa.example"))) =
    Some (HDomain (codes "xn--nxa.example")) /\
  host_parse lower_ascii_table (host_serialize (HIPv6 [65535; 0; 0; 0; 0; 0; 0; 1]%Z)) =
    Some (HIPv6 [65535; 0; 0; 0; 0; 0; 0; 1]%Z).
Proof.
  split.
  - exact (host_roundtrip lower_ascii_table lower_ascii_table_ascii lower_ascii_table_idem
             (codes "Xn--Nxa.Example") _ ltac:(vm_compute; reflexivity)).
  - exact (host_roundtrip lower_ascii_table lower_ascii_table_ascii lower_ascii_table_idem
             (codes "[FFFF::1]") _ ltac:(vm_compute; reflexivity)).
Defined.
