(* ===== verification/Uts46.v ===== *)
(** * Uts46: UTS 46 ToASCII, the mapping the host parser applies to a
    domain that is not plain ASCII

    The URL Standard's domain to ASCII runs UTS 46 ToASCII (revision 31,
    Unicode 15.1) with CheckHyphens false, CheckBidi true, CheckJoiners
    true, UseSTD3ASCIIRules false, Transitional_Processing false and
    VerifyDnsLength false, on the UTF-8 decoding of the percent-decoded
    host.  This file models, on code points as [Z]:
    - [utf8_decode]: the Encoding Standard's UTF-8 decoder, errors
      replaced by U+FFFD;
    - [uts46_process] (UTS 46 section 4): map each code point by its
      status, normalize to NFC, break into labels at U+002E, decode each
      [xn--] label with [Punycode.punycode_decode], and check every label
      against the validity criteria of section 4.1 ([label_valid]);
    - [uts46_to_ascii] (section 4.2): encode every label that is not ASCII
      as [xn--] and its Punycode, and join the labels with dots;
    - [uts46_table]: ToASCII as the table parameter of [Host.host_parse].
    The Unicode data the algorithm reads (the IDNA mapping table with the
    STD3 statuses resolved, NFC, General_Category=Mark, the ContextJ rules
    and the Bidi rule) is the record [idna_data], a parameter.

    Theorems: under four facts of the Unicode data ([data_ok]), ToASCII
    yields lower-case ASCII and is idempotent on domains whose labels have
    at most 54 code points ([uts46_to_ascii_idem]), so the host round trip
    holds for the host parser with UTS 46 ([host_roundtrip_uts46]).  Over
    the ASCII rows of the data ([ascii_idna_data]) ToASCII rejects every
    domain that leaves the fast path ([ascii_data_rejects]): a byte of
    0x80 or more decodes to a code point of 0x80 or more
    ([utf8_dec_nonascii]), and an [xn--] label decodes to a label that is
    not ASCII. *)

From S2P Require Import Prelude Js Ipv4 Punycode Host.

#[local] Open Scope Z_scope.

(** ** UTF-8 decode (Encoding Standard, UTF-8 decoder) *)

(** A byte with no bytes needed: ASCII, a lead byte (with the bounds of
    the next byte), or an error.  Returns the code points emitted and the
    new [(code point, bytes needed, lower boundary, upper boundary)]. *)
Definition utf8_first (b : Z) : list Z * (Z * Z * Z * Z) :=
  if (0 <=? b) && (b <=? 127) then ([b], (0, 0, 128, 191))
  else if (194 <=? b) && (b <=? 223) then ([], (Z.land b 31, 1, 128, 191))
  else if (224 <=? b) && (b <=? 239) then
    ([], (Z.land b 15, 2, if b =? 224 then 160 else 128, if b =? 237 then 159 else 191))
  else if (240 <=? b) && (b <=? 244) then
    ([], (Z.land b 7, 3, if b =? 240 then 144 else 128, if b =? 244 then 143 else 191))
  else ([65533], (0, 0, 128, 191)).

(** A continuation byte out of bounds resets the decoder, is restored to
    the stream and yields U+FFFD; an unfinished sequence at the end yields
    U+FFFD. *)
Fixpoint utf8_dec (bs : list Z) (cp needed seen lower upper : Z) : list Z :=
  match bs with
  | [] => if needed =? 0 then [] else [65533]
  | b :: bs' =>
      if needed =? 0 then
        let '(e, (cp', n', lo, up)) := utf8_first b in e ++ utf8_dec bs' cp' n' 0 lo up
      else if (b <? lower) || (upper <? b) then
        let '(e, (cp', n', lo, up)) := utf8_first b in 65533 :: e ++ utf8_dec bs' cp' n' 0 lo up
      else
        let cp' := Z.lor (Z.shiftl cp 6) (Z.land b 63) in
        if seen + 1 =? needed then cp' :: utf8_dec bs' 0 0 0 128 191
        else utf8_dec bs' cp' needed (seen + 1) 128 191
  end.

Definition utf8_decode (bs : list Z) : list Z := utf8_dec bs 0 0 0 128 191.

(** ** The Unicode data *)

(** The status of a code point in the IDNA mapping table, with
    UseSTD3ASCIIRules false ([disallowed_STD3_valid] is [IValid],
    [disallowed_STD3_mapped] is [IMapped]). *)
Inductive idna_status :=
| IValid
| IIgnored
| IMapped (l : list Z)
| IDeviation
| IDisallowed.

Record idna_data := {
  idna_status_of : Z -> idna_status;
  idna_nfc : list Z -> list Z;
  idna_is_mark : Z -> bool;
  idna_contextj : list Z -> bool;
  (** RFC 5893 section 2 for a label of the domain given by its labels;
      true when the domain is not a Bidi domain name. *)
  idna_bidi : list (list Z) -> list Z -> bool
}.

(** ** Labels *)

Fixpoint split_on_dot (l : list Z) : list (list Z) :=
  match l with
  | [] => [[]]
  | c :: l' =>
      let r := split_on_dot l' in
      if c =? 46 then [] :: r
      else match r with p :: ps => (c :: p) :: ps | [] => [[c]] end
  end.

Fixpoint join_dots (ls : list (list Z)) : list Z :=
  match ls with
  | [] => []
  | [l] => l
  | l :: ls' => l ++ 46 :: join_dots ls'
  end.

Definition is_ascii (l : list Z) : bool := forallb (fun c => (0 <=? c) && (c <? 128)) l.

Definition starts_xn (l : list Z) : bool := bool_decide (take 4 l = [120; 110; 45; 45]).

Section Uts46.

Context (D : idna_data).

(** ** Processing (UTS 46 section 4) *)

(** Step 1, Map: a disallowed code point is an error; with
    nontransitional processing a deviation is kept. *)
Definition map_cp (c : Z) : option (list Z) :=
  match idna_status_of D c with
  | IValid | IDeviation => Some [c]
  | IIgnored => Some []
  | IMapped l => Some l
  | IDisallowed => None
  end.

Fixpoint uts46_map (s : list Z) : option (list Z) :=
  match s with
  | [] => Some []
  | c :: s' =>
      match map_cp c, uts46_map s' with
      | Some l, Some r => Some (l ++ r)
      | _, _ => None
      end
  end.

(** Step 4, Convert: a label starting with [xn--] must be ASCII, its rest
    must decode, and the result must be neither empty nor ASCII. *)
Definition convert_label (l : list Z) : option (list Z) :=
  if starts_xn l then
    if negb (is_ascii l) then None
    else
      match punycode_decode (drop 4 l) with
      | None => None
      | Some u => if (length u =? 0)%nat || is_ascii u then None else Some u
      end
  else Some l.

Definition status_ok (c : Z) : bool :=
  match idna_status_of D c with IValid | IDeviation => true | _ => false end.

(** The validity criteria of section 4.1 for nontransitional processing
    with CheckHyphens false, CheckJoiners and CheckBidi true: NFC, no
    leading [xn--], no U+002E, no leading combining mark, every status
    valid or deviation, ContextJ, and the Bidi rule. *)
Definition label_valid (labels : list (list Z)) (l : list Z) : bool :=
  bool_decide (idna_nfc D l = l) && negb (starts_xn l) && negb (existsb (Z.eqb 46) l) &&
  match l with c :: _ => negb (idna_is_mark D c) | [] => true end &&
  forallb status_ok l && idna_contextj D l && idna_bidi D labels l.

(** Steps 1 to 4: the labels of the domain, in Unicode. *)
Definition uts46_process (domain : list Z) : option (list (list Z)) :=
  match uts46_map domain with
  | None => None
  | Some m =>
      match all_some (map convert_label (split_on_dot (idna_nfc D m))) with
      | None => None
      | Some us => if forallb (label_valid us) us then Some us else None
      end
  end.

(** ** ToASCII (section 4.2) *)

Definition to_ascii_label (u : list Z) : option (list Z) :=
  if is_ascii u then Some u else option_map (fun p => [120; 110; 45; 45] ++ p) (punycode_encode u).

Definition uts46_to_ascii (domain : list Z) : option (list Z) :=
  match uts46_process domain with
  | None => None
  | Some us =>
      match all_some (map to_ascii_label us) with
      | None => None
      | Some ls => Some (join_dots ls)
      end
  end.

End Uts46.

(** ToASCII on the UTF-8 decoding of the bytes [Host.host_parse] hands
    over, as its [uts46] parameter. *)
Definition uts46_table (D : idna_data) (bytes : list nat) : option (list nat) :=
  option_map (map Z.to_nat) (uts46_to_ascii D (utf8_decode (map Z.of_nat bytes))).

(** ** Lemmas: lists of labels *)

Lemma all_some_map_2 {A B} (f : A -> option B) l ys :
  Forall2 (fun x y => f x = Some y) l ys -> all_some (map f l) = Some ys.
Proof. induction 1 as [|x y l ys Hxy _ IH]; [done|]. simpl. by rewrite Hxy, IH. Qed.

Lemma split_on_dot_ne l : split_on_dot l <> [].
Proof. destruct l as [|c l]; simpl; [done|]. destruct (c =? 46); [done|]. by destruct (split_on_dot l). Qed.

Lemma split_on_dot_nodot l : existsb (Z.eqb 46) l = false -> split_on_dot l = [l].
Proof.
  induction l as [|c l IH]; [done|]. cbn [existsb split_on_dot]. intros [Hc Hl]%orb_false_iff.
  rewrite Z.eqb_sym in Hc. by rewrite Hc, IH.
Qed.

Lemma split_on_dot_app l r :
  existsb (Z.eqb 46) l = false -> split_on_dot (l ++ 46 :: r) = l :: split_on_dot r.
Proof.
  induction l as [|c l IH]; [done|]. cbn [existsb app split_on_dot]. intros [Hc Hl]%orb_false_iff.
  rewrite Z.eqb_sym in Hc. by rewrite Hc, IH.
Qed.

Lemma split_on_dot_join ls :
  ls <> [] -> Forall (fun l => existsb (Z.eqb 46) l = false) ls -> split_on_dot (join_dots ls) = ls.
Proof.
  induction ls as [|l ls IH]; intros Hne Hls; [done|]. inversion Hls as [|? ? Hl Hls']; subst.
  destruct ls as [|l' ls'].
  - cbn [join_dots]. by apply split_on_dot_nodot.
  - change (join_dots (l :: l' :: ls')) with (l ++ 46 :: join_dots (l' :: ls')).
    rewrite split_on_dot_app by done. by rewrite IH.
Qed.

Lemma join_dots_chars (P : Z -> Prop) ls :
  Forall (Forall P) ls -> Forall (fun c => P c \/ c = 46) (join_dots ls).
Proof.
  induction 1 as [|l ls Hl Hls IH]; [constructor|].
  destruct ls as [|l' ls'].
  - cbn [join_dots]. eapply Forall_impl; [exact Hl|]. by left.
  - change (join_dots (l :: l' :: ls')) with (l ++ 46 :: join_dots (l' :: ls')).
    apply Forall_app. split; [eapply Forall_impl; [exact Hl|]; by left|]. constructor; [by right|done].
Qed.

Lemma utf8_decode_ascii bs : Forall (fun b => 0 <= b < 128) bs -> utf8_decode bs = bs.
Proof.
  unfold utf8_decode. induction 1 as [|b bs Hb _ IH]; [done|]. cbn [utf8_dec Z.eqb].
  unfold utf8_first. destruct ((0 <=? b) && (b <=? 127)) eqn:E; [by rewrite IH|].
  apply andb_false_iff in E as [E|E]; cmp_facts; lia.
Qed.

(** A character ToASCII writes inside a label: ASCII, not upper-case, not
    a dot. *)
Definition out_ok (c : Z) : Prop := 0 <= c < 128 /\ ~ (65 <= c <= 90) /\ c <> 46.

(** ** The facts of the Unicode data the theorems use *)

(** ASCII upper-case letters map to lower case, every other ASCII code
    point is valid (UseSTD3ASCIIRules false), NFC fixes ASCII strings, and
    a valid or deviation code point is a Unicode scalar value. *)
Definition data_ok (D : idna_data) : Prop :=
  (forall c, 65 <= c <= 90 -> idna_status_of D c = IMapped [c + 32]) /\
  (forall c, 0 <= c < 128 -> ~ (65 <= c <= 90) -> idna_status_of D c = IValid) /\
  (forall s, is_ascii s = true -> idna_nfc D s = s) /\
  (forall c, status_ok D c = true -> 0 <= c /\ bad_code_point c = false).

Section Uts46Props.

Context (D : idna_data) (HD : data_ok D).

Lemma status_ok_facts c : status_ok D c = true -> ~ (65 <= c <= 90) /\ 0 <= c /\ bad_code_point c = false.
Proof.
  destruct HD as (Hup & _ & _ & Hr). intros Hs. split; [|by apply Hr].
  intros Hc. unfold status_ok in Hs. by rewrite (Hup c Hc) in Hs.
Qed.

Lemma map_out_ok s : Forall (fun c => out_ok c \/ c = 46) s -> uts46_map D s = Some s.
Proof.
  destruct HD as (_ & Hasc & _ & _). induction 1 as [|c s Hc _ IH]; [done|]. cbn [uts46_map].
  unfold map_cp. rewrite Hasc by (unfold out_ok in Hc; lia). by rewrite IH.
Qed.

Lemma is_ascii_forall l : is_ascii l = true <-> Forall (fun c => 0 <= c < 128) l.
Proof.
  unfold is_ascii. rewrite forallb_forall, List.Forall_forall.
  split; intros H c Hc; specialize (H c Hc); [apply andb_prop in H as [? ?]; cmp_facts; lia|].
  apply andb_true_iff; split; [apply Z.leb_le|apply Z.ltb_lt]; lia.
Qed.

(** The processing result is a non-empty list of valid labels. *)
Lemma uts46_process_valid x us :
  uts46_process D x = Some us -> forallb (label_valid D us) us = true /\ us <> [].
Proof.
  unfold uts46_process. destruct (uts46_map D x) as [m|]; [|done].
  destruct (all_some _) as [us'|] eqn:E; [|done]. case_if; [|done]. intros [= <-].
  split; [done|]. apply all_some_map, Forall2_length in E.
  intros ->. simpl in E. pose proof (split_on_dot_ne (idna_nfc D m)) as Hne.
  destruct (split_on_dot _); [done|simpl in E; lia].
Qed.

Lemma label_valid_facts labels u :
  label_valid D labels u = true ->
  starts_xn u = false /\ (forall c, In c u -> out_ok c \/ 128 <= c) /\
  Forall (fun c => 0 <= c /\ bad_code_point c = false) u.
Proof.
  unfold label_valid. intros H. rewrite !andb_true_iff in H.
  destruct H as ((((((_ & Hx) & Hd) & _) & Hs) & _) & _).
  rewrite forallb_forall in Hs. apply negb_true_iff in Hx. split; [done|split].
  - apply negb_true_iff, existsb_false_forallb in Hd. rewrite forallb_forall in Hd.
    intros c Hc. destruct (c <? 128) eqn:Ec; cmp_facts; [left|by right].
    destruct (status_ok_facts c (Hs c Hc)) as (Hup & H0 & _).
    specialize (Hd c Hc). apply negb_true_iff, Z.eqb_neq in Hd. unfold out_ok. lia.
  - apply List.Forall_forall. intros c Hc. by apply status_ok_facts, Hs.
Qed.

(** A valid label of at most 54 code points: ToASCII writes it with
    [out_ok] characters, and Convert reads that back to the label. *)
Lemma label_roundtrip labels u l :
  label_valid D labels u = true -> (length u <= 54)%nat -> to_ascii_label u = Some l ->
  Forall out_ok l /\ convert_label l = Some u.
Proof.
  intros Hv Hlen Ht. destruct (label_valid_facts labels u Hv) as (Hxn & Hch & Hsc).
  unfold to_ascii_label in Ht. destruct (is_ascii u) eqn:Ea.
  - injection Ht as <-. apply is_ascii_forall in Ea. split.
    + apply List.Forall_forall. intros c Hc. rewrite List.Forall_forall in Ea.
      destruct (Hch c Hc) as [?|?]; [done|specialize (Ea c Hc); lia].
    + unfold convert_label. by rewrite Hxn.
  - destruct (punycode_encode_spec u Hsc Hlen) as (y & He & Hd & Hy).
    rewrite He in Ht. injection Ht as <-.
    assert (Hl : Forall out_ok ([120; 110; 45; 45] ++ y)).
    { apply Forall_app. split; [repeat constructor; unfold out_ok; lia|].
      eapply Forall_impl; [exact Hy|]. intros c [[Hc Hlt]|[->|Hdg]].
      - destruct (Hch c Hc) as [?|?]; [done|lia].
      - unfold out_ok. lia.
      - unfold digit_char, out_ok in *. lia. }
    split; [exact Hl|]. unfold convert_label. cbn [app] in *.
    assert (Hs : starts_xn (120 :: 110 :: 45 :: 45 :: y) = true) by (by apply bool_decide_eq_true_2).
    assert (Ha : is_ascii (120 :: 110 :: 45 :: 45 :: y) = true)
      by (apply is_ascii_forall; eapply Forall_impl; [exact Hl|]; unfold out_ok; lia).
    rewrite Hs, Ha. cbn [negb]. change (drop 4 (120 :: 110 :: 45 :: 45 :: y)) with y.
    rewrite Hd, Ea, orb_false_r.
    destruct u; [done|]. reflexivity.
Qed.

Lemma labels_roundtrip labels us ls :
  (forall u, In u us -> label_valid D labels u = true) -> Forall (fun u => (length u <= 54)%nat) us ->
  Forall2 (fun u l => to_ascii_label u = Some l) us ls ->
  Forall2 (fun l u => convert_label l = Some u) ls us /\ Forall (Forall out_ok) ls.
Proof.
  intros Hv Hs H. induction H as [|u l us ls Hul _ IH]; [split; constructor|].
  inversion Hs as [|? ? Hu Hs']; subst.
  destruct (label_roundtrip labels u l (Hv u (or_introl eq_refl)) Hu Hul) as [Hl Hc].
  destruct IH as [IH1 IH2]; [intros; apply Hv; by right|done|].
  split; constructor; done.
Qed.

(** UTS 46 ToASCII yields lower-case ASCII (and dots), and running it on
    its own result gives that result again, when every label has at most
    54 code points. *)
Lemma uts46_to_ascii_idem x us r :
  uts46_process D x = Some us -> Forall (fun u => (length u <= 54)%nat) us ->
  uts46_to_ascii D x = Some r ->
  Forall (fun c => out_ok c \/ c = 46) r /\ uts46_to_ascii D r = Some r.
Proof.
  destruct HD as (_ & _ & Hnfc & _). intros Hp Hs. unfold uts46_to_ascii at 1. rewrite Hp.
  destruct (all_some (map (to_ascii_label) us)) as [ls|] eqn:E; [|done]. intros [= <-].
  destruct (uts46_process_valid x us Hp) as [Hv Hne].
  pose proof (all_some_map _ _ _ E) as E2.
  destruct (labels_roundtrip us us ls ltac:(intros u Hu; rewrite forallb_forall in Hv; by apply Hv) Hs E2)
    as [Hconv Hok].
  assert (Hchars : Forall (fun c => out_ok c \/ c = 46) (join_dots ls)) by (by apply join_dots_chars).
  split; [exact Hchars|].
  assert (Hlne : ls <> []) by (intros ->; apply Forall2_length in E2; destruct us; [done|simpl in E2; lia]).
  unfold uts46_to_ascii, uts46_process. rewrite map_out_ok by done.
  rewrite Hnfc by (apply is_ascii_forall; eapply Forall_impl; [exact Hchars|]; unfold out_ok; lia).
  rewrite split_on_dot_join; [|done|].
  - by rewrite (all_some_map_2 _ _ _ Hconv), Hv, E.
  - eapply Forall_impl; [exact Hok|]. intros l Hl. apply existsb_false_forallb, forallb_forall.
    intros c Hc. rewrite List.Forall_forall in Hl. destruct (Hl c Hc) as (_ & _ & H46).
    apply negb_true_iff, Z.eqb_neq. lia.
Qed.

End Uts46Props.

(** ** The host parser with UTS 46 *)

(** [uts46_table] keeps the promises [Host.host_roundtrip_at] needs, at a
    domain whose Unicode labels have at most 54 code points. *)
Lemma uts46_table_promises D bytes :
  data_ok D ->
  (forall us, uts46_process D (utf8_decode (map Z.of_nat bytes)) = Some us ->
              Forall (fun u => (length u <= 54)%nat) us) ->
  table_ascii_at (uts46_table D) bytes /\ table_idem_at (uts46_table D) bytes.
Proof.
  intros HD Hs.
  assert (Key : forall r, uts46_table D bytes = Some r ->
            exists rz, r = map Z.to_nat rz /\ Forall (fun c => out_ok c \/ c = 46) rz /\
                       uts46_to_ascii D rz = Some rz).
  { intros r. unfold uts46_table. destruct (uts46_to_ascii D _) as [rz|] eqn:E; [|done].
    intros [= <-].
    assert (exists us, uts46_process D (utf8_decode (map Z.of_nat bytes)) = Some us) as [us Ep].
    { unfold uts46_to_ascii in E. destruct (uts46_process D _); [by eexists|done]. }
    destruct (uts46_to_ascii_idem D HD _ us rz Ep (Hs us Ep) E) as [Hc Hid]. by exists rz. }
  split.
  - intros r Hr. destruct (Key r Hr) as (rz & -> & Hc & _).
    apply forallb_forall. intros c Hc'. apply in_map_iff in Hc' as (z & <- & Hz).
    rewrite List.Forall_forall in Hc. specialize (Hc z Hz).
    assert (0 <= z < 128 /\ ~ (65 <= z <= 90)) by (destruct Hc as [Hc|Hc]; unfold out_ok in *; lia).
    unfold lower_cp. destruct ((65 <=? Z.to_nat z)%nat && (Z.to_nat z <=? 90)%nat) eqn:E; cmp_facts; [lia|].
    rewrite Nat.eqb_refl, andb_true_r. apply Nat.ltb_lt. lia.
  - intros r Hr _. destruct (Key r Hr) as (rz & -> & Hc & Hid). unfold uts46_table.
    rewrite map_map, (map_ext_in _ (fun x => x)), map_id.
    + rewrite utf8_decode_ascii by (eapply Forall_impl; [exact Hc|]; unfold out_ok; lia).
      by rewrite Hid.
    + intros z Hz. rewrite List.Forall_forall in Hc. specialize (Hc z Hz).
      apply Z2Nat.id. destruct Hc as [Hc|Hc]; unfold out_ok in *; lia.
Qed.

(** The host round trip for the host parser with UTS 46 ToASCII as its
    mapping, for any Unicode data with the four facts [data_ok]: the
    serialization of a parsed host parses back to it, when the domain's
    Unicode labels have at most 54 code points. *)
Theorem host_roundtrip_uts46 D input h :
  data_ok D ->
  (forall us, uts46_process D (utf8_decode (map Z.of_nat (percent_decode (utf8_encode input)))) = Some us ->
              Forall (fun u => (length u <= 54)%nat) us) ->
  host_parse (uts46_table D) input = Some h ->
  host_parse (uts46_table D) (host_serialize h) = Some h.
Proof.
  intros HD Hs. destruct (uts46_table_promises D _ HD Hs) as [Ha Hi]. by apply host_roundtrip_at.
Qed.

(** ** The ASCII part of the Unicode data *)

(** Lemmas on the UTF-8 decoder: a byte of 0x80 or more always yields a
    code point of 0x80 or more. *)
Lemma lor_shiftl_low cp r : 0 <= r < 64 -> Z.lor (Z.shiftl cp 6) r = cp * 64 + r.
Proof.
  intros Hr. rewrite Z.shiftl_mul_pow2 by lia. change (2 ^ 6) with 64.
  assert (Hl : Z.land (cp * 64) r = 0).
  { apply Z.bits_inj'. intros i Hi. rewrite Z.land_spec, Z.bits_0.
    destruct (Z.lt_ge_cases i 6) as [H|H].
    - change 64 with (2 ^ 6). by rewrite Z.mul_pow2_bits_low by lia.
    - destruct (Z.eq_dec r 0) as [->|Hne]; [by rewrite Z.bits_0, andb_false_r|].
      rewrite (Z.bits_above_log2 r i); [apply andb_false_r|lia|].
      apply Z.log2_lt_pow2; [lia|]. apply Z.lt_le_trans with (2 ^ 6); [lia|apply Z.pow_le_mono_r; lia]. }
  by rewrite <- Z.lxor_lor, <- Z.add_nocarry_lxor by exact Hl.
Qed.

Lemma land_mod b k m : 0 <= k -> m = Z.ones k -> Z.land b m = b mod 2 ^ k.
Proof. intros Hk ->. by apply Z.land_ones. Qed.

(** A pending multi-byte sequence: the code point so far and the lower
    boundary of the next byte guarantee a code point of at least 0x80. *)
Definition utf8_pending (cp needed seen lower : Z) : Prop :=
  0 <= seen < needed /\ 128 <= lower /\ 0 <= cp /\
  128 <= (cp * 64 + (lower - 128)) * 64 ^ (needed - seen - 1).

Definition has_nonascii (l : list Z) : bool := existsb (fun c => 128 <=? c) l.

Lemma utf8_dec_pending bs cp needed seen lower upper :
  utf8_pending cp needed seen lower -> upper <= 191 ->
  has_nonascii (utf8_dec bs cp needed seen lower upper) = true.
Proof.
  revert cp seen lower upper. induction bs as [|b bs IH]; intros cp seen lower upper (Hs & Hl & Hc & Hp) Hu.
  - cbn. destruct (needed =? 0) eqn:E; [apply Z.eqb_eq in E; lia|done].
  - cbn [utf8_dec]. destruct (needed =? 0) eqn:E; [apply Z.eqb_eq in E; lia|].
    destruct ((b <? lower) || (upper <? b)) eqn:Eb.
    + destruct (utf8_first b) as [e [[[cp' n'] lo] up]]. done.
    + cmp_facts.
      assert (Hb : Z.land b 63 = b - 128).
      { rewrite (land_mod b 6 63) by (lia || reflexivity). change (2 ^ 6) with 64.
        symmetry. apply Z.mod_unique with 2; [left|]; lia. }
      rewrite Hb, lor_shiftl_low by lia.
      destruct (seen + 1 =? needed) eqn:Es.
      * apply Z.eqb_eq in Es. replace (needed - seen - 1) with 0 in Hp by lia.
        cbn [has_nonascii existsb]. apply orb_true_iff. left. apply Z.leb_le. lia.
      * apply Z.eqb_neq in Es. apply IH; [|lia]. unfold utf8_pending. split; [lia|]. split; [lia|].
        split; [nia|]. replace (needed - seen - 1) with (Z.succ (needed - (seen + 1) - 1)) in Hp by lia.
        rewrite Z.pow_succ_r in Hp by lia.
        assert (0 <= 64 ^ (needed - (seen + 1) - 1)) by (apply Z.pow_nonneg; lia). nia.
Qed.

(** A byte of 0x80 or more gives the UTF-8 decoder's output a code point
    of 0x80 or more. *)
Lemma utf8_dec_nonascii bs seen lower upper :
  has_nonascii bs = true -> has_nonascii (utf8_dec bs 0 0 seen lower upper) = true.
Proof.
  revert seen lower upper. induction bs as [|b bs IH]; intros seen lower upper Hb; [done|].
  cbn [utf8_dec Z.eqb]. unfold utf8_first.
  assert (P2 : forall k, 0 <= k -> 0 <= 64 ^ k) by (intros; apply Z.pow_nonneg; lia).
  destruct ((0 <=? b) && (b <=? 127)) eqn:E0.
  - cmp_facts. cbn [app]. cbn [has_nonascii existsb] in Hb |- *.
    apply orb_true_iff in Hb as [Hb|Hb]; [apply Z.leb_le in Hb; lia|].
    rewrite IH by done. apply orb_true_r.
  - destruct ((194 <=? b) && (b <=? 223)) eqn:E1; [|destruct ((224 <=? b) && (b <=? 239)) eqn:E2;
      [|destruct ((240 <=? b) && (b <=? 244)) eqn:E3]]; simpl; try done; cmp_facts.
    + apply utf8_dec_pending; [|lia]. unfold utf8_pending.
      assert (Z.land b 31 = b - 192) as ->.
      { rewrite (land_mod b 5 31) by (lia || reflexivity). change (2 ^ 5) with 32.
        symmetry. apply Z.mod_unique with 6; [left|]; lia. }
      change (1 - 0 - 1) with 0. simpl. lia.
    + apply utf8_dec_pending; [|destruct (b =? 237); lia]. unfold utf8_pending.
      assert (Z.land b 15 = b - 224) as ->.
      { rewrite (land_mod b 4 15) by (lia || reflexivity). change (2 ^ 4) with 16.
        symmetry. apply Z.mod_unique with 14; [left|]; lia. }
      change (2 - 0 - 1) with 1. rewrite Z.pow_1_r.
      destruct (b =? 224) eqn:E4; [apply Z.eqb_eq in E4|apply Z.eqb_neq in E4]; lia.
    + apply utf8_dec_pending; [|destruct (b =? 244); lia]. unfold utf8_pending.
      assert (Z.land b 7 = b - 240) as ->.
      { rewrite (land_mod b 3 7) by (lia || reflexivity). change (2 ^ 3) with 8.
        symmetry. apply Z.mod_unique with 30; [left|]; lia. }
      change (3 - 0 - 1) with 2. change (64 ^ 2) with 4096.
      destruct (b =? 240) eqn:E4; [apply Z.eqb_eq in E4|apply Z.eqb_neq in E4]; lia.
Qed.

(** The IDNA data of the ASCII code points (upper case mapped to lower
    case, the rest valid), every other code point disallowed. *)
Definition ascii_status (c : Z) : idna_status :=
  if (65 <=? c) && (c <=? 90) then IMapped [c + 32]
  else if (0 <=? c) && (c <? 128) then IValid
  else IDisallowed.

Definition ascii_idna_data : idna_data := {|
  idna_status_of := ascii_status; idna_nfc := fun l => l; idna_is_mark := fun _ => false;
  idna_contextj := fun _ => true; idna_bidi := fun _ _ => true |}.

Lemma uts46_map_none D s c : In c s -> map_cp D c = None -> uts46_map D s = None.
Proof.
  induction s as [|c' s IH]; intros Hin Hc; [done|]. cbn [uts46_map].
  destruct Hin as [<-|Hin]; [by rewrite Hc|]. rewrite (IH Hin Hc). by destruct (map_cp D c').
Qed.

Lemma ascii_map l :
  Forall (fun c => c < 128)%nat l ->
  uts46_map ascii_idna_data (map Z.of_nat l) = Some (map (fun c => Z.of_nat (lower_cp c)) l).
Proof.
  induction 1 as [|c l Hc _ IH]; [done|]. cbn [map uts46_map]. rewrite IH.
  unfold map_cp, lower_cp. cbn [idna_status_of ascii_idna_data]. unfold ascii_status.
  destruct ((65 <=? c)%nat && (c <=? 90)%nat) eqn:E.
  - apply andb_prop in E as [E1 E2]. apply Nat.leb_le in E1, E2.
    replace ((65 <=? Z.of_nat c) && (Z.of_nat c <=? 90)) with true
      by (symmetry; apply andb_true_iff; split; apply Z.leb_le; lia). rewrite Nat2Z.inj_add. reflexivity.
  - apply andb_false_iff in E as [E|E]; apply Nat.leb_gt in E;
      (replace ((65 <=? Z.of_nat c) && (Z.of_nat c <=? 90)) with false
        by (symmetry; apply andb_false_iff; (left + right); apply Z.leb_gt; lia));
      (replace ((0 <=? Z.of_nat c) && (Z.of_nat c <? 128)) with true
        by (symmetry; apply andb_true_iff; split; [apply Z.leb_le|apply Z.ltb_lt]; lia)); done.
Qed.

Lemma split_on_dot_lower l :
  split_on_dot (map (fun c => Z.of_nat (lower_cp c)) l) = map (map (fun c => Z.of_nat (lower_cp c))) (split_dots l).
Proof.
  induction l as [|c l IH]; [done|]. cbn [map split_on_dot split_dots]. rewrite IH.
  replace (Z.of_nat (lower_cp c) =? 46) with (c =? 46)%nat.
  - destruct (c =? 46)%nat; [done|]. by destruct (split_dots l).
  - rewrite <- lower_cp_dot. destruct (lower_cp c =? 46)%nat eqn:E.
    + apply Nat.eqb_eq in E. rewrite E. reflexivity.
    + apply Nat.eqb_neq in E. symmetry. apply Z.eqb_neq. lia.
Qed.

Lemma Forall2_in_l {A B} (R : A -> B -> Prop) l1 l2 x :
  Forall2 R l1 l2 -> In x l1 -> exists y, In y l2 /\ R x y.
Proof.
  induction 1 as [|a b l1 l2 Hab _ IH]; [done|]. intros [<-|Hin].
  - exists b. split; [by left|done].
  - destruct (IH Hin) as (y & Hy & Hr). exists y. split; [by right|done].
Qed.

Lemma has_nonascii_of_nat l :
  forallb (fun b => b <? 128)%nat l = false -> has_nonascii (map Z.of_nat l) = true.
Proof.
  unfold has_nonascii. induction l as [|b l IH]; [done|]. cbn [forallb map existsb].
  intros H. apply andb_false_iff in H as [H|H].
  - apply Nat.ltb_ge in H. apply orb_true_iff. left. apply Z.leb_le. lia.
  - rewrite IH by done. apply orb_true_r.
Qed.

(** With the ASCII part of the data, ToASCII rejects every domain that
    leaves the fast path: a non-ASCII byte decodes to a disallowed code
    point, and an [xn--] label decodes to a label that is empty, ASCII or
    holds a disallowed code point. *)
Lemma ascii_data_rejects l :
  has_nonascii (map Z.of_nat l) = true \/ existsb xn_label (split_dots l) = true ->
  uts46_table ascii_idna_data l = None.
Proof.
  intros Hl. unfold uts46_table, uts46_to_ascii, uts46_process.
  destruct (has_nonascii (map Z.of_nat l)) eqn:Ena.
  - apply utf8_dec_nonascii with (seen := 0) (lower := 128) (upper := 191) in Ena.
    apply existsb_exists in Ena as (c & Hc & Hc128). apply Z.leb_le in Hc128.
    rewrite (uts46_map_none _ _ c Hc); [done|].
    unfold map_cp. cbn [idna_status_of ascii_idna_data]. unfold ascii_status.
    replace ((65 <=? c) && (c <=? 90)) with false by (symmetry; apply andb_false_iff; right; apply Z.leb_gt; lia).
    replace ((0 <=? c) && (c <? 128)) with false by (symmetry; apply andb_false_iff; right; apply Z.ltb_ge; lia).
    done.
  - destruct Hl as [Hl|Hx]; [done|].
    assert (Hasc : Forall (fun c => c < 128)%nat l).
    { apply List.Forall_forall. intros c Hc. destruct (128 <=? c)%nat eqn:E; [|by apply Nat.leb_gt in E].
      apply Nat.leb_le in E. exfalso. assert (has_nonascii (map Z.of_nat l) = true); [|congruence].
      apply existsb_exists. exists (Z.of_nat c). split; [by apply in_map|apply Z.leb_le; lia]. }
    rewrite utf8_decode_ascii.
    2:{ apply List.Forall_forall. intros z Hz. apply in_map_iff in Hz as (c & <- & Hc).
        rewrite List.Forall_forall in Hasc. specialize (Hasc c Hc). lia. }
    rewrite ascii_map by done. cbn [idna_nfc ascii_idna_data]. rewrite split_on_dot_lower.
    destruct (all_some _) as [us|] eqn:E; [|done].
    destruct (forallb _ us) eqn:Ev; [exfalso|done].
    apply existsb_exists in Hx as (p & Hp & Hxp).
    apply all_some_map in E.
    destruct (Forall2_in_l _ _ _ (map (fun c => Z.of_nat (lower_cp c)) p) E) as (u & Hu & Hcu);
      [by apply in_map|].
    assert (Hs : starts_xn (map (fun c => Z.of_nat (lower_cp c)) p) = true).
    { unfold xn_label in Hxp. apply bool_decide_eq_true in Hxp. apply bool_decide_eq_true.
      rewrite firstn_map, <- map_map with (g := Z.of_nat), Hxp. reflexivity. }
    unfold convert_label in Hcu. rewrite Hs in Hcu.
    destruct (negb _); [done|]. destruct (punycode_decode _) as [u'|]; [|done].
    destruct ((length u' =? 0)%nat || is_ascii u') eqn:Eu; [done|]. injection Hcu as ->.
    apply orb_false_iff in Eu as [_ Eu].
    rewrite forallb_forall in Ev. specialize (Ev u Hu).
    unfold label_valid in Ev. rewrite !andb_true_iff in Ev.
    destruct Ev as ((((((_ & _) & _) & _) & Hst) & _) & _).
    assert (is_ascii u = true) as Ha; [|congruence].
    apply is_ascii_forall, List.Forall_forall. intros c Hc. rewrite forallb_forall in Hst.
    specialize (Hst c Hc). unfold status_ok in Hst. cbn [idna_status_of ascii_idna_data] in Hst.
    unfold ascii_status in Hst. destruct ((65 <=? c) && (c <=? 90)) eqn:E1; [done|].
    destruct ((0 <=? c) && (c <? 128)) eqn:E2; [|done]. cmp_facts. lia.
Qed.

(** So host parsing with the table that maps nothing is host parsing
    with UTS 46 ToASCII over the ASCII part of the IDNA data. *)
Lemma ascii_data_domain l :
  domain_to_ascii (uts46_table ascii_idna_data) l = domain_to_ascii (fun _ => None) l.
Proof.
  unfold domain_to_ascii.
  destruct (forallb (fun b => b <? 128)%nat l && negb (existsb xn_label (split_dots l))) eqn:E; [done|].
  rewrite ascii_data_rejects; [done|].
  apply andb_false_iff in E as [E|E]; [left|right; by apply negb_false_iff].
  apply has_nonascii_of_nat, E.
Qed.

(** ** Witnesses *)

(** A sample of the Unicode data: ASCII as in the IDNA table, [Ü] mapped
    to [ü], [ü] valid, everything else disallowed. *)
Definition sample_status (c : Z) : idna_status :=
  if (65 <=? c) && (c <=? 90) then IMapped [c + 32]
  else if (0 <=? c) && (c <? 128) then IValid
  else if c =? 220 then IMapped [252]
  else if c =? 252 then IValid
  else IDisallowed.

Definition sample_data : idna_data := {|
  idna_status_of := sample_status; idna_nfc := fun l => l; idna_is_mark := fun _ => false;
  idna_contextj := fun _ => true; idna_bidi := fun _ _ => true |}.

Lemma sample_data_ok : data_ok sample_data.
Proof.
  unfold data_ok, status_ok, sample_data; cbn [idna_status_of idna_nfc]. unfold sample_status.
  split; [|split; [|split]].
  - intros c Hc. replace ((65 <=? c) && (c <=? 90)) with true; [done|].
    symmetry. apply andb_true_iff. split; [apply Z.leb_le|apply Z.leb_le]; lia.
  - intros c Hc Hu. destruct ((65 <=? c) && (c <=? 90)) eqn:E; [cmp_facts; lia|].
    replace ((0 <=? c) && (c <? 128)) with true; [done|].
    symmetry. apply andb_true_iff. split; [apply Z.leb_le|apply Z.ltb_lt]; lia.
  - intros s _. reflexivity.
  - intros c. destruct ((65 <=? c) && (c <=? 90)) eqn:E1; [done|].
    destruct ((0 <=? c) && (c <? 128)) eqn:E2.
    + intros _. cmp_facts. unfold bad_code_point. split; [lia|].
      rewrite Z.gtb_ltb. replace (1114111 <? c) with false by (symmetry; apply Z.ltb_ge; lia).
      replace (55296 <=? c) with false by (symmetry; apply Z.leb_gt; lia). done.
    + destruct (c =? 220) eqn:E3; [done|]. destruct (c =? 252) eqn:E4; [|done].
      intros _. apply Z.eqb_eq in E4. subst. split; [lia|reflexivity].
Qed.

Lemma host_roundtrip_uts46_witness :
  host_parse (uts46_table sample_data) (codes "b%C3%9Ccher.COM") =
    Some (HDomain (codes "xn--bcher-kva.com")) /\
  host_parse (uts46_table sample_data) (host_serialize (HDomain (codes "xn--bcher-kva.com"))) =
    Some (HDomain (codes "xn--bcher-kva.com")).
Proof.
  split; [vm_compute; reflexivity|].
  apply (host_roundtrip_uts46 sample_data (codes "b%C3%9Ccher.COM")).
  - exact sample_data_ok.
  - intros us Hus. vm_compute in Hus. injection Hus as <-.
    repeat (constructor; [simpl; lia|]). constructor.
  - vm_compute. reflexivity.
Defined.
