(* ===== verification/Url.v ===== *)
(** * Url: [isValidUrl] (src/src/lib/utils/url.ts) and the part of the
    WHATWG URL parser ([new URL(input)], no base) that decides it

    [isValidUrl] returns [true] iff [new URL(url)] does not throw and the
    parsed [protocol] is ["http:"] or ["https:"].  The parser is the
    platform's; [url_protocol] models the states of the WHATWG basic URL
    parser that decide success and [protocol] for such inputs:
    - input preprocessing: leading and trailing C0-control-or-space code
      points are stripped, ASCII tab and newline are removed;
    - scheme start and scheme states: an ASCII letter, then letters,
      digits, [+], [-], [.], lower-cased, ended by [:] (no [:] is a
      failure, as there is no base URL);
    - for the special schemes other than [file]: the slashes after the
      scheme are skipped, the authority runs to the first [/], [\], [?]
      or [#], the host-and-port follow its last [@], the port follows the
      first [:] outside brackets; an empty host fails, a port that is not
      all digits or exceeds 65535 fails.
    - the host is parsed by [Host.host_parse]: percent-decoding, the
      ASCII fast path of domain-to-ASCII, the forbidden code points, and
      the IPv4 and IPv6 parsers; the table [uts46_ascii_only] rejects the
      domains that leave the fast path, which is UTS 46 ToASCII over the
      ASCII part of the IDNA data ([host_parse_ascii_data]).
    Non-special schemes and [file] always parse. *)

From S2P Require Import Prelude Js Host Uts46.
From Stdlib Require Import Ascii.

#[local] Set Warnings "-clear-no-such-hyp".

(** ** Character classes *)

Definition code (c : ascii) : nat := Ascii.nat_of_ascii c.

Definition is_c0_or_space (c : ascii) : bool := code c <=? 32.
Definition is_tab_or_newline (c : ascii) : bool :=
  (code c =? 9) || (code c =? 10) || (code c =? 13).
Definition is_alpha (c : ascii) : bool :=
  ((65 <=? code c) && (code c <=? 90)) || ((97 <=? code c) && (code c <=? 122)).
Definition is_digit (c : ascii) : bool := (48 <=? code c) && (code c <=? 57).
Definition is_scheme_char (c : ascii) : bool :=
  is_alpha c || is_digit c || Ascii.eqb c "+" || Ascii.eqb c "-" || Ascii.eqb c ".".
(** The code points that end the authority of a special URL. *)
Definition is_auth_delim (c : ascii) : bool :=
  Ascii.eqb c "/" || Ascii.eqb c "\" || Ascii.eqb c "?" || Ascii.eqb c "#".

(** ** Preprocessing *)

Fixpoint strip_leading (s : string) : string :=
  match s with
  | EmptyString => EmptyString
  | String c s' => if is_c0_or_space c then strip_leading s' else s
  end.

Fixpoint strip_trailing (s : string) : string :=
  match s with
  | EmptyString => EmptyString
  | String c s' =>
      let t := strip_trailing s' in
      if String.eqb t "" && is_c0_or_space c then EmptyString else String c t
  end.

Fixpoint remove_tab_newline (s : string) : string :=
  match s with
  | EmptyString => EmptyString
  | String c s' =>
      if is_tab_or_newline c then remove_tab_newline s' else String c (remove_tab_newline s')
  end.

Definition url_preprocess (s : string) : string :=
  remove_tab_newline (strip_trailing (strip_leading s)).

(** ** Scheme *)

(** The scheme state after its first letter: the rest of the scheme,
    lower-cased, and what follows the [:]. *)
Fixpoint scheme_tail (s : string) : option (string * string) :=
  match s with
  | EmptyString => None
  | String c s' =>
      if Ascii.eqb c ":" then Some (EmptyString, s')
      else if is_scheme_char c then
        match scheme_tail s' with
        | Some (sch, rest) => Some (String (ascii_lower c) sch, rest)
        | None => None
        end
      else None
  end.

Definition url_scheme (s : string) : option (string * string) :=
  match s with
  | String c s' =>
      if is_alpha c then
        match scheme_tail s' with
        | Some (sch, rest) => Some (String (ascii_lower c) sch, rest)
        | None => None
        end
      else None
  | EmptyString => None
  end.

Definition special_schemes : list string := ["ftp"; "file"; "http"; "https"; "ws"; "wss"].

Definition is_special (sch : string) : bool :=
  existsb (String.eqb sch) special_schemes.

(** ** Authority of a special URL *)

Fixpoint skip_slashes (s : string) : string :=
  match s with
  | String c s' => if Ascii.eqb c "/" || Ascii.eqb c "\" then skip_slashes s' else s
  | EmptyString => EmptyString
  end.

Fixpoint take_authority (s : string) : string :=
  match s with
  | String c s' => if is_auth_delim c then EmptyString else String c (take_authority s')
  | EmptyString => EmptyString
  end.

(** What follows the last [@]. *)
Fixpoint after_last_at (s : string) : string :=
  match s with
  | String c s' =>
      if existsb (fun d => Ascii.eqb d "@") (String.list_ascii_of_string s') then after_last_at s'
      else if Ascii.eqb c "@" then s' else s
  | EmptyString => EmptyString
  end.

(** Host and port: the port follows the first [:] outside brackets. *)
Fixpoint split_host_port (s : string) (in_brackets : bool) : string * option string :=
  match s with
  | EmptyString => (EmptyString, None)
  | String c s' =>
      if Ascii.eqb c ":" && negb in_brackets then (EmptyString, Some s')
      else
        let br := if Ascii.eqb c "[" then true else if Ascii.eqb c "]" then false else in_brackets in
        let '(h, p) := split_host_port s' br in (String c h, p)
  end.

Definition port_ok (p : option string) : bool :=
  match p with
  | None => true
  | Some EmptyString => true
  | Some ps =>
      str_forallb is_digit ps &&
      match digits_value ps 0 with Some n => (n <=? 65535)%Z | None => false end
  end.

(** The domain-to-ASCII table used by [isValidUrl]: a domain that leaves
    the fast path (a code point above U+007F after percent-decoding, or
    a label starting with [xn--]) is rejected.  This is [Uts46]'s ToASCII
    over the ASCII part of the IDNA data ([host_parse_ascii_data]); the
    theorems of [Host] hold for any table, and with this one the model
    accepts only hosts Node accepts. *)
Definition uts46_ascii_only (domain : list nat) : option (list nat) := None.

(** The host state: an empty host fails, then the host parser runs on
    it; the port state checks the port. *)
Definition special_authority_ok (rest : string) : bool :=
  let '(host, port) := split_host_port (after_last_at (take_authority (skip_slashes rest))) false in
  js_str_truthy host && bool_decide (is_Some (host_parse uts46_ascii_only (codes host))) &&
  port_ok port.

(** ** [new URL(s).protocol] *)

(** [Some p] when [new URL(s)] succeeds, [p] being its [protocol]; [None]
    when it throws. *)
Definition url_protocol (s : string) : option string :=
  match url_scheme (url_preprocess s) with
  | None => None
  | Some (sch, rest) =>
      if is_special sch && negb (String.eqb sch "file") && negb (special_authority_ok rest)
      then None
      else Some (sch +:+ ":")
  end.

(** url.ts lines 29-35:
    [try { const parsed = new URL(url);
           return ['http:', 'https:'].includes(parsed.protocol) }
     catch { return false }] *)
Definition isValidUrl (url : string) : bool :=
  match url_protocol url with
  | Some p => existsb (String.eqb p) ["http:"; "https:"]
  | None => false
  end.

(** ** Lemmas *)

Definition not_c0 (c : ascii) : bool := negb (is_c0_or_space c).

Lemma strip_trailing_id s : str_forallb not_c0 s = true -> strip_trailing s = s.
Proof.
  induction s as [|c s IH]; [done|]. simpl. intros [Hc Hs]%andb_prop.
  rewrite IH by done. unfold not_c0 in Hc. apply negb_true_iff in Hc. rewrite Hc, andb_false_r. done.
Qed.

Lemma remove_tab_newline_id s : str_forallb not_c0 s = true -> remove_tab_newline s = s.
Proof.
  induction s as [|c s IH]; [done|]. simpl. intros [Hc Hs]%andb_prop.
  rewrite IH by done. unfold not_c0, is_c0_or_space, is_tab_or_newline in *.
  apply negb_true_iff, Nat.leb_gt in Hc.
  destruct (code c =? 9) eqn:E1; [apply Nat.eqb_eq in E1; lia|].
  destruct (code c =? 10) eqn:E2; [apply Nat.eqb_eq in E2; lia|].
  destruct (code c =? 13) eqn:E3; [apply Nat.eqb_eq in E3; lia|]. done.
Qed.

(** A string without C0 controls or spaces is left alone by preprocessing. *)
Lemma url_preprocess_id s : str_forallb not_c0 s = true -> url_preprocess s = s.
Proof.
  intros H. unfold url_preprocess.
  assert (strip_leading s = s) as ->.
  { destruct s as [|c s]; [done|]. simpl in *. apply andb_prop in H as [Hc _].
    unfold not_c0 in Hc. apply negb_true_iff in Hc. by rewrite Hc. }
  rewrite strip_trailing_id by done. by apply remove_tab_newline_id.
Qed.

Lemma scheme_tail_shape s sch rest :
  scheme_tail s = Some (sch, rest) ->
  exists p, s = p +:+ String ":" rest /\ js_to_lower p = sch.
Proof.
  revert sch. induction s as [|c s IH]; intros sch; [done|]. simpl.
  destruct (Ascii.eqb c ":") eqn:Ec.
  - intros [= <- <-]. apply Ascii.eqb_eq in Ec as ->. by exists "".
  - destruct (is_scheme_char c); [|done].
    destruct (scheme_tail s) as [[sch' rest']|] eqn:Et; [|done]. intros [= <- ->].
    destruct (IH sch' eq_refl) as (p & -> & <-). by exists (String c p).
Qed.

Lemma url_scheme_shape s sch rest :
  url_scheme s = Some (sch, rest) ->
  exists p, s = p +:+ String ":" rest /\ js_to_lower p = sch.
Proof.
  destruct s as [|c s]; [done|]. simpl. destruct (is_alpha c); [|done].
  destruct (scheme_tail s) as [[sch' rest']|] eqn:Et; [|done]. intros [= <- ->].
  destruct (scheme_tail_shape _ _ _ Et) as (p & -> & <-). by exists (String c p).
Qed.

Lemma isValidUrl_protocol u :
  isValidUrl u = true <-> url_protocol u = Some "http:" \/ url_protocol u = Some "https:".
Proof.
  unfold isValidUrl. destruct (url_protocol u) as [p|]; [|naive_solver].
  simpl. rewrite orb_false_r, orb_true_iff, !String.eqb_eq. naive_solver.
Qed.

Lemma append_colon_inj a b : a +:+ ":" = b +:+ ":" -> a = b.
Proof.
  revert b. induction a as [|x a IH]; intros [|y b] H; rewrite ?str_app_cons in H; [done|..].
  - injection H as _ H. destruct b; discriminate.
  - injection H as _ H. destruct a; discriminate.
  - injection H as -> H. f_equal. by apply IH.
Qed.

(** C33: a URL [isValidUrl] accepts is, after preprocessing, a scheme that
    lower-cases to [http] or [https], a colon, and a rest whose authority
    has a non-empty host and a well-formed port. *)
Theorem isValidUrl_scheme u :
  isValidUrl u = true ->
  exists p rest,
    url_preprocess u = p +:+ String ":" rest /\
    (js_to_lower p = "http" \/ js_to_lower p = "https") /\
    special_authority_ok rest = true.
Proof.
  intros Hv. apply isValidUrl_protocol in Hv. unfold url_protocol in Hv.
  destruct (url_scheme (url_preprocess u)) as [[sch rest]|] eqn:Es; [|naive_solver].
  destruct (url_scheme_shape _ _ _ Es) as (p & Hu & Hp).
  assert (sch = "http" \/ sch = "https") as Hsch.
  { destruct (_ && _ && _); [naive_solver|].
    destruct Hv as [[= H]|[= H]]; [left|right]; apply append_colon_inj; exact H. }
  exists p, rest. split; [done|]. split; [congruence|].
  destruct Hsch as [->| ->]; simpl in Hv; destruct (special_authority_ok rest); naive_solver.
Qed.

(** The code points a host between [//] and [/] may hold without ending
    the authority or starting credentials or a port. *)
Definition authority_char (c : ascii) : bool :=
  not_c0 c && negb (is_auth_delim c) && negb (Ascii.eqb c "@") && negb (Ascii.eqb c ":").

Lemma authority_char_facts c :
  authority_char c = true ->
  not_c0 c = true /\ is_auth_delim c = false /\ Ascii.eqb c "@" = false /\
  Ascii.eqb c ":" = false /\ (Ascii.eqb c "/" || Ascii.eqb c "\") = false.
Proof.
  destruct c as [[] [] [] [] [] [] [] []]; vm_compute; naive_solver.
Qed.

Lemma authority_not_c0 h : str_forallb authority_char h = true -> str_forallb not_c0 h = true.
Proof.
  induction h as [|c h IH]; [done|]. simpl. intros [Hc Hh]%andb_prop.
  rewrite (proj1 (authority_char_facts c Hc)). by apply IH.
Qed.

Lemma take_authority_host h rest :
  str_forallb authority_char h = true -> take_authority (h +:+ String "/" rest) = h.
Proof.
  induction h as [|c h IH]; [done|]. rewrite str_app_cons. simpl. intros [Hc Hh]%andb_prop.
  destruct (authority_char_facts c Hc) as (_ & -> & _). by rewrite IH.
Qed.

Lemma no_at_existsb h :
  str_forallb authority_char h = true ->
  existsb (fun d => Ascii.eqb d "@") (String.list_ascii_of_string h) = false.
Proof.
  induction h as [|c h IH]; [done|]. simpl. intros [Hc Hh]%andb_prop.
  destruct (authority_char_facts c Hc) as (_ & _ & -> & _). by apply IH.
Qed.

Lemma after_last_at_host h : str_forallb authority_char h = true -> after_last_at h = h.
Proof.
  destruct h as [|c h]; [done|]. simpl. intros [Hc Hh]%andb_prop.
  rewrite no_at_existsb by done. by destruct (authority_char_facts c Hc) as (_ & _ & -> & _).
Qed.

Lemma split_host_port_host h b :
  str_forallb authority_char h = true -> split_host_port h b = (h, None).
Proof.
  revert b. induction h as [|c h IH]; intros b; [done|]. simpl. intros [Hc Hh]%andb_prop.
  destruct (authority_char_facts c Hc) as (_ & _ & _ & -> & _). simpl. by rewrite IH.
Qed.

Lemma special_authority_ok_host h path :
  h <> "" -> str_forallb authority_char h = true ->
  special_authority_ok (String "/" (String "/" (h +:+ String "/" path))) =
  bool_decide (is_Some (host_parse uts46_ascii_only (codes h))).
Proof.
  intros Hne Hh. unfold special_authority_ok. simpl.
  assert (skip_slashes (h +:+ String "/" path) = h +:+ String "/" path) as ->.
  { destruct h as [|c h]; [done|]. rewrite str_app_cons. simpl in *.
    apply andb_prop in Hh as [Hc _]. by destruct (authority_char_facts c Hc) as (_ & _ & _ & _ & ->). }
  rewrite take_authority_host, after_last_at_host, split_host_port_host by done.
  simpl. rewrite andb_true_r. destruct h as [|c h]; [done|]. done.
Qed.

(** C34: for an [http] or [https] URL whose non-empty host holds no code
    point that ends the authority and whose path holds no control or space,
    [isValidUrl] is exactly the success of the host parser on the
    host. *)
Theorem isValidUrl_http_url sch h path :
  (sch = "http" \/ sch = "https") -> h <> "" ->
  str_forallb authority_char h = true -> str_forallb not_c0 path = true ->
  isValidUrl (sch +:+ "://" +:+ h +:+ "/" +:+ path) =
  bool_decide (is_Some (host_parse uts46_ascii_only (codes h))).
Proof.
  intros Hsch Hne Hh Hp. unfold isValidUrl, url_protocol.
  rewrite url_preprocess_id.
  2:{ destruct Hsch as [-> | ->]; rewrite !str_forallb_app, (authority_not_c0 h Hh), Hp; done. }
  change ("/" +:+ path) with (String "/" path).
  destruct Hsch as [-> | ->]; rewrite !str_app_cons, !str_app_nil; simpl;
    rewrite special_authority_ok_host by done;
    by destruct (bool_decide _).
Qed.

(** The table that maps nothing is UTS 46 over the ASCII data. *)
Lemma host_parse_ascii_data input :
  host_parse uts46_ascii_only input = host_parse (uts46_table ascii_idna_data) input.
Proof.
  unfold host_parse. destruct input as [|c rest]; [done|]. destruct (c =? 91)%nat; [done|].
  rewrite ascii_data_domain. reflexivity.
Qed.

(** ** Witnesses *)

Lemma isValidUrl_scheme_witness :
  exists p rest,
    url_preprocess "https://example.com" = p +:+ String ":" rest /\
    (js_to_lower p = "http" \/ js_to_lower p = "https") /\ special_authority_ok rest = true.
Proof. apply isValidUrl_scheme. reflexivity. Defined.

Lemma isValidUrl_http_url_witness :
  isValidUrl ("https" +:+ "://" +:+ "Example.COM" +:+ "/" +:+ "a?b=1") = true /\
  isValidUrl ("http" +:+ "://" +:+ "1.2.3.256" +:+ "/" +:+ "") = false /\
  isValidUrl ("http" +:+ "://" +:+ "0x7f.1" +:+ "/" +:+ "") = true.
Proof.
  split; [|split]; rewrite isValidUrl_http_url;
    first [left; reflexivity | right; reflexivity | discriminate | reflexivity].
Defined.
