(* ===== verification/Store.v ===== *)
(** * Store: the PersistentStore collaborator (Prisma, [@/lib/prisma])

    [@/lib/prisma] and the Prisma schema are not among the sources; this
    file models the contract the handlers rely on (spec section 6):
    [Link] rows keyed by an id, a unique index on [slug], [ClickLog] rows,
    and the calls the code makes: [link.findUnique({where:{slug}})],
    [link.create], and the two-statement [$transaction] of
    [clickLog.create] and [link.update] with [totalClicks: {increment: 1}].
    Ids are allocated from a counter (the schema's default id); a store
    that is down ([db_online = false]) rejects every call.

    The invariant [db_wf] says the slug index is exactly the slugs of the
    rows, ids are the keys of their rows and below the counter, every
    click log names an existing link, and every link's [totalClicks] is
    the number of its click logs.  [db_le] is the way the store evolves:
    rows are never deleted, [slug], [originalUrl] and [createdAt] never
    change, counters never decrease and click logs are only appended. *)

From S2P Require Import Prelude.

Record Link := mkLink {
  link_id : nat;
  slug : string;
  originalUrl : string;
  totalClicks : nat;
  createdAt : Z
}.

Record ClickLog := mkClickLog {
  click_id : nat;
  linkId : nat;
  ipHash : string;
  userAgent : string;
  timestamp : Z
}.

#[export] Instance link_eq_dec : EqDecision Link.
Proof. solve_decision. Defined.
#[export] Instance click_log_eq_dec : EqDecision ClickLog.
Proof. solve_decision. Defined.

Record Db := mkDb {
  links : gmap nat Link;
  slug_index : gmap string nat;
  click_logs : list ClickLog;
  next_id : nat;
  db_online : bool
}.

(** The errors a Prisma call rejects with. *)
Inductive DbError :=
| DbUnavailable      (** connection failure *)
| UniqueViolation    (** P2002: the slug is taken *)
| RecordNotFound.    (** P2025 / P2003: the link of a click is missing *)

Definition empty_db : Db := mkDb ∅ ∅ [] 1 true.

(** ** Operations *)

(** [prisma.link.findUnique({ where: { slug } })] *)
Definition find_unique_slug (db : Db) (s : string) : result (option Link) DbError :=
  if db_online db then Ok (slug_index db !! s ≫= fun id => links db !! id)
  else Err DbUnavailable.

(** [prisma.link.create({ data: { originalUrl, slug } })]: the unique
    constraint on [slug] rejects a taken slug. *)
Definition create_link (db : Db) (s url : string) (now : Z) : result (Link * Db) DbError :=
  if negb (db_online db) then Err DbUnavailable
  else match slug_index db !! s with
       | Some _ => Err UniqueViolation
       | None =>
           let id := next_id db in
           let l := mkLink id s url 0 now in
           Ok (l, mkDb (<[id := l]> (links db)) (<[s := id]> (slug_index db))
                       (click_logs db) (S id) true)
       end.

Definition bump_clicks (l : Link) : Link :=
  mkLink (link_id l) (slug l) (originalUrl l) (S (totalClicks l)) (createdAt l).

(** [prisma.$transaction([clickLog.create(...), link.update({ where: { id },
    data: { totalClicks: { increment: 1 } } })])]: both writes or none. *)
Definition click_txn (db : Db) (id : nat) (iph ua : string) (now : Z) : result Db DbError :=
  if negb (db_online db) then Err DbUnavailable
  else match links db !! id with
       | None => Err RecordNotFound
       | Some l =>
           Ok (mkDb (<[id := bump_clicks l]> (links db)) (slug_index db)
                    (click_logs db ++ [mkClickLog (next_id db) id iph ua now])
                    (S (next_id db)) true)
       end.

(** The store going down or coming back. *)
Definition set_online (db : Db) (b : bool) : Db :=
  mkDb (links db) (slug_index db) (click_logs db) (next_id db) b.

(** The number of click logs of link [id]. *)
Definition clicks_of (db : Db) (id : nat) : nat :=
  count_by (fun c => linkId c =? id) (click_logs db).

(** ** Invariant *)

Record db_wf (db : Db) : Prop := {
  wf_index : forall s id,
    slug_index db !! s = Some id <-> exists l, links db !! id = Some l /\ slug l = s;
  wf_ids : forall id l, links db !! id = Some l -> link_id l = id /\ id < next_id db;
  wf_logs : forall c, c ∈ click_logs db -> is_Some (links db !! linkId c);
  wf_clicks : forall id l, links db !! id = Some l -> totalClicks l = clicks_of db id
}.

(** The store only grows. *)
Definition db_le (db db' : Db) : Prop :=
  (forall id l, links db !! id = Some l ->
     exists l', links db' !! id = Some l' /\ slug l' = slug l /\
                originalUrl l' = originalUrl l /\ createdAt l' = createdAt l /\
                totalClicks l <= totalClicks l') /\
  click_logs db `prefix_of` click_logs db' /\
  next_id db <= next_id db'.

(** ** Lemmas *)

#[export] Instance db_le_preorder : PreOrder db_le.
Proof.
  split.
  - intros db. split; [|split; [done|lia]]. intros id l Hl. exists l. naive_solver.
  - intros db1 db2 db3 (H12 & P12 & N12) (H23 & P23 & N23).
    split; [|split; [by trans (click_logs db2)|lia]].
    intros id l Hl. destruct (H12 id l Hl) as (l2 & Hl2 & ? & ? & ? & ?).
    destruct (H23 id l2 Hl2) as (l3 & Hl3 & ? & ? & ? & ?).
    exists l3. split; [done|]. repeat split; congruence || lia.
Qed.

(** A store holding one link, for the witnesses. *)
Definition sample_link : Link := mkLink 1 "abc" "https://example.com" 0 0.
Definition sample_db : Db := mkDb {[1 := sample_link]} {["abc" := 1]} [] 2 true.

(** The abstract store the spec describes: a finite map from slug to
    URL.  [Db] refines it through [abs_db]. *)
Definition abs_db (db : Db) : gmap string string :=
  omap (fun id => originalUrl <$> links db !! id) (slug_index db).

(** [db_wf] as a decidable check over the two maps and the log. *)
Definition db_wf_check (db : Db) : Prop :=
  map_Forall (fun s id => slug <$> links db !! id = Some s) (slug_index db) /\
  map_Forall (fun id l => slug_index db !! slug l = Some id /\ link_id l = id /\
                          id < next_id db /\ totalClicks l = clicks_of db id) (links db) /\
  Forall (fun c => is_Some (links db !! linkId c)) (click_logs db).

#[export] Instance db_wf_check_dec db : Decision (db_wf_check db).
Proof. unfold db_wf_check. apply _. Defined.

Lemma create_link_ok db s url now l db' :
  create_link db s url now = Ok (l, db') ->
  db_online db = true /\ slug_index db !! s = None /\
  l = mkLink (next_id db) s url 0 now /\
  db' = mkDb (<[next_id db := l]> (links db)) (<[s := next_id db]> (slug_index db))
             (click_logs db) (S (next_id db)) true.
Proof.
  unfold create_link. destruct (db_online db); [|done]. simpl.
  destruct (slug_index db !! s); [done|]. intros [= <- <-]. done.
Qed.

Lemma click_txn_ok db id iph ua now db' :
  click_txn db id iph ua now = Ok db' ->
  db_online db = true /\ exists l, links db !! id = Some l /\
  db' = mkDb (<[id := bump_clicks l]> (links db)) (slug_index db)
             (click_logs db ++ [mkClickLog (next_id db) id iph ua now])
             (S (next_id db)) true.
Proof.
  unfold click_txn. destruct (db_online db); [|done]. simpl.
  destruct (links db !! id) as [l|]; [|done]. intros [= <-]. eauto.
Qed.

Lemma wf_fresh_id db : db_wf db -> links db !! next_id db = None.
Proof.
  intros Hwf. destruct (links db !! next_id db) as [l|] eqn:E; [|done].
  apply (wf_ids _ Hwf) in E. lia.
Qed.

Lemma create_link_wf db s url now l db' :
  db_wf db -> create_link db s url now = Ok (l, db') -> db_wf db'.
Proof.
  intros Hwf (_ & Hs & -> & ->)%create_link_ok.
  pose proof (wf_fresh_id db Hwf) as Hfresh.
  constructor; simpl.
  - intros s' id'. rewrite lookup_insert. case_decide as Hss; [subst s'|].
    + split; [intros [= <-]; exists (mkLink (next_id db) s url 0 now); by rewrite lookup_insert_eq|].
      intros (l' & Hl' & Hsl'). rewrite lookup_insert in Hl'. case_decide; [congruence|].
      exfalso. assert (slug_index db !! slug l' = Some id') by (apply (wf_index _ Hwf); eauto).
      congruence.
    + rewrite (wf_index _ Hwf). split.
      * intros (l' & Hl' & <-). exists l'. rewrite lookup_insert_ne; [done|].
        intros <-. congruence.
      * intros (l' & Hl' & <-). rewrite lookup_insert in Hl'.
        case_decide; [simplify_eq; done|]. eauto.
  - intros id' l'. rewrite lookup_insert. case_decide; [intros [= <-]; simpl; lia|].
    intros Hl'. destruct (wf_ids _ Hwf id' l' Hl'). lia.
  - intros c Hc. rewrite lookup_insert. case_decide; [done|]. by apply (wf_logs _ Hwf).
  - intros id' l'. unfold clicks_of. simpl. rewrite lookup_insert. case_decide as Hid; subst.
    + intros [= <-]. simpl. symmetry. apply count_by_zero. intros c Hc.
      apply Nat.eqb_neq. intros Heq. destruct (wf_logs _ Hwf c Hc) as [lc Hlc].
      rewrite Heq in Hlc. congruence.
    + apply (wf_clicks _ Hwf).
Qed.

Lemma clicks_of_txn db id id' iph ua now :
  count_by (fun c => linkId c =? id') (click_logs db ++ [mkClickLog (next_id db) id iph ua now]) =
  clicks_of db id' + (if id =? id' then 1 else 0).
Proof. rewrite count_by_app, count_by_single. reflexivity. Qed.

Lemma click_txn_wf db id iph ua now db' :
  db_wf db -> click_txn db id iph ua now = Ok db' -> db_wf db'.
Proof.
  intros Hwf (_ & l & Hl & ->)%click_txn_ok.
  destruct (wf_ids _ Hwf id l Hl) as [Hlid Hlt].
  constructor; simpl.
  - intros s id'. rewrite (wf_index _ Hwf). rewrite lookup_insert.
    case_decide; [subst id'|done]. split; intros (l' & Hl' & <-).
    + exists (bump_clicks l). naive_solver.
    + exists l. simplify_eq. done.
  - intros id' l'. rewrite lookup_insert. case_decide; [subst id'; intros [= <-]; simpl; lia|].
    intros Hl'. destruct (wf_ids _ Hwf id' l' Hl'). lia.
  - intros c Hc. rewrite lookup_insert. case_decide; [done|].
    apply elem_of_app in Hc as [Hc| ->%list_elem_of_singleton]; [by apply (wf_logs _ Hwf)|].
    simpl in *. congruence.
  - intros id' l'. unfold clicks_of. simpl. rewrite clicks_of_txn. rewrite lookup_insert.
    case_decide as Hid; [subst id'; intros [= <-]|intros Hl'].
    + simpl. rewrite Nat.eqb_refl, (wf_clicks _ Hwf id l Hl). lia.
    + apply Nat.eqb_neq in Hid. rewrite Hid, (wf_clicks _ Hwf id' l' Hl'). lia.
Qed.

Lemma set_online_wf db b : db_wf db -> db_wf (set_online db b).
Proof. intros []. by constructor. Qed.

Lemma create_link_le db s url now l db' :
  db_wf db -> create_link db s url now = Ok (l, db') -> db_le db db'.
Proof.
  intros Hwf (_ & _ & -> & ->)%create_link_ok. pose proof (wf_fresh_id db Hwf).
  split; [|simpl; split; [done|lia]].
  intros id l' Hl'. exists l'. simpl. rewrite lookup_insert_ne by congruence. naive_solver.
Qed.

Lemma click_txn_le db id iph ua now db' :
  click_txn db id iph ua now = Ok db' -> db_le db db'.
Proof.
  intros (_ & l & Hl & ->)%click_txn_ok. split; [|simpl; split; [by eexists|lia]].
  intros id' l' Hl'. simpl. rewrite lookup_insert. case_decide; [subst id'|naive_solver].
  eexists; split; [done|]. simplify_eq. simpl. repeat split; lia.
Qed.

Lemma set_online_le db b : db_le db (set_online db b).
Proof. split; [|split; [done|simpl; lia]]. intros id l Hl. exists l. naive_solver. Qed.

(** A found link is the row of its id, with the slug asked for. *)
Lemma find_unique_slug_sound db s l :
  db_wf db -> find_unique_slug db s = Ok (Some l) ->
  slug l = s /\ links db !! link_id l = Some l.
Proof.
  intros Hwf. unfold find_unique_slug. destruct (db_online db); [|done].
  intros [= Hf]. apply bind_Some in Hf as (id & Hid & Hl).
  apply (wf_index _ Hwf) in Hid as (l' & Hl' & Hs). rewrite Hl in Hl'. simplify_eq.
  destruct (wf_ids _ Hwf id l' Hl). by subst.
Qed.

(** A link of the store is found by its slug. *)
Lemma find_unique_slug_complete db l :
  db_wf db -> db_online db = true -> links db !! link_id l = Some l ->
  find_unique_slug db (slug l) = Ok (Some l).
Proof.
  intros Hwf Hon Hl. unfold find_unique_slug. rewrite Hon.
  assert (slug_index db !! slug l = Some (link_id l)) as -> by (apply (wf_index _ Hwf); eauto).
  simpl. by rewrite Hl.
Qed.

(** The unique index: two links with the same slug are the same link. *)
Lemma wf_slug_unique db id1 id2 l1 l2 :
  db_wf db -> links db !! id1 = Some l1 -> links db !! id2 = Some l2 -> slug l1 = slug l2 -> id1 = id2.
Proof.
  intros Hwf H1 H2 Hs.
  assert (A1 : slug_index db !! slug l1 = Some id1) by (apply (wf_index _ Hwf); eauto).
  assert (A2 : slug_index db !! slug l1 = Some id2) by (apply (wf_index _ Hwf); eauto).
  congruence.
Qed.

(** A created link is found by its slug. *)
Lemma create_link_find db s url now l db' :
  create_link db s url now = Ok (l, db') -> find_unique_slug db' s = Ok (Some l).
Proof.
  intros Hc. apply create_link_ok in Hc as (_ & _ & -> & ->). unfold find_unique_slug. cbn.
  rewrite lookup_insert_eq. simpl. by rewrite lookup_insert_eq.
Qed.

(** A slug the store does not find is not in its index. *)
Lemma find_unique_slug_none db s :
  db_wf db -> find_unique_slug db s = Ok None -> slug_index db !! s = None.
Proof.
  intros Hwf. unfold find_unique_slug. destruct (db_online db); [|done]. intros [= Hf].
  destruct (slug_index db !! s) as [id|] eqn:Hi; [|done]. simpl in Hf.
  apply (wf_index _ Hwf) in Hi as (l & Hl & _). congruence.
Qed.

(** What a found slug resolves to is preserved as the store grows. *)
Lemma find_unique_slug_le db db' s l :
  db_wf db -> db_wf db' -> db_le db db' -> db_online db' = true ->
  find_unique_slug db s = Ok (Some l) ->
  exists l', find_unique_slug db' s = Ok (Some l') /\ link_id l' = link_id l /\
             originalUrl l' = originalUrl l.
Proof.
  intros Hwf Hwf' [Hle _] Hon Hf.
  destruct (find_unique_slug_sound db s l Hwf Hf) as [<- Hl].
  destruct (Hle _ _ Hl) as (l' & Hl' & Hs & Hu & _).
  destruct (wf_ids _ Hwf' _ _ Hl') as [Hid _].
  exists l'. rewrite <- Hs. rewrite <- Hid in Hl' at 1.
  rewrite find_unique_slug_complete by done. done.
Qed.

#[export] Hint Resolve create_link_wf click_txn_wf set_online_wf
  create_link_le click_txn_le set_online_le : okg.

(** ** The invariant, decided *)

Lemma db_wf_check_sound db : db_wf_check db -> db_wf db.
Proof.
  intros (Hidx & Hl & Hlogs). constructor.
  - intros s id. split.
    + intros Hi. pose proof (map_Forall_lookup_1 _ _ _ _ Hidx Hi) as Hs.
      rewrite fmap_Some in Hs. destruct Hs as (l & Hl' & ->). eauto.
    + intros (l & Hli & <-). destruct (map_Forall_lookup_1 _ _ _ _ Hl Hli) as [H _]. exact H.
  - intros id l Hli. destruct (map_Forall_lookup_1 _ _ _ _ Hl Hli) as (_ & ? & ? & _). done.
  - intros c Hc. rewrite Forall_forall in Hlogs. by apply Hlogs.
  - intros id l Hli. by destruct (map_Forall_lookup_1 _ _ _ _ Hl Hli) as (_ & _ & _ & ?).
Qed.

(** Decide [db_wf] of a concrete store by evaluation. *)
Ltac decide_db_wf := apply db_wf_check_sound, (bool_decide_eq_true_1 _); vm_compute; reflexivity.

Lemma empty_db_wf : db_wf empty_db.
Proof. decide_db_wf. Qed.

Lemma sample_db_wf : db_wf sample_db.
Proof. decide_db_wf. Qed.

(** ** The store refines a map from slugs to URLs *)

Lemma abs_db_lookup db s : abs_db db !! s = slug_index db !! s ≫= fun id => originalUrl <$> links db !! id.
Proof. unfold abs_db. by rewrite lookup_omap. Qed.

(** refinement of the abstract store: on a well-formed store,
    [findUnique] reads the abstract map, [create] inserts the new slug
    (which was absent) with its URL, and the click transaction leaves
    the map unchanged: links are write-once and only their counters
    move. *)
Theorem store_refines_map db :
  db_wf db ->
  (forall s r, find_unique_slug db s = Ok r -> originalUrl <$> r = abs_db db !! s) /\
  (forall s u now l db', create_link db s u now = Ok (l, db') ->
     abs_db db !! s = None /\ abs_db db' = <[s := u]> (abs_db db)) /\
  (forall id iph ua now db', click_txn db id iph ua now = Ok db' -> abs_db db' = abs_db db).
Proof.
  intros Hwf. split; [|split].
  - intros s r. unfold find_unique_slug. destruct (db_online db); [|done].
    intros [= <-]. rewrite abs_db_lookup. by destruct (slug_index db !! s).
  - intros s u now l db' Hc. apply create_link_ok in Hc as (_ & Hfree & -> & ->).
    rewrite abs_db_lookup, Hfree. split; [done|]. apply map_eq. intros k.
    rewrite !abs_db_lookup. cbn [slug_index links].
    destruct (decide (k = s)) as [->|Hne].
    + rewrite !lookup_insert_eq. simpl. by rewrite lookup_insert_eq.
    + rewrite !lookup_insert_ne by done. rewrite abs_db_lookup.
      destruct (slug_index db !! k) as [id|] eqn:Hk; [|done]. simpl.
      apply (wf_index _ Hwf) in Hk as (l' & Hl' & _).
      destruct (wf_ids _ Hwf _ _ Hl') as [_ Hlt]. by rewrite lookup_insert_ne by lia.
  - intros id iph ua now db' Hc. apply click_txn_ok in Hc as (_ & l & Hl & ->).
    apply map_eq. intros k. rewrite !abs_db_lookup. cbn [slug_index links].
    destruct (slug_index db !! k) as [id'|]; [|done]. simpl.
    destruct (decide (id' = id)) as [->|Hne].
    + by rewrite lookup_insert_eq, Hl.
    + by rewrite lookup_insert_ne.
Qed.

Lemma store_refines_map_witness :
  (forall s r, find_unique_slug sample_db s = Ok r -> originalUrl <$> r = abs_db sample_db !! s) /\
  (forall s u now l db', create_link sample_db s u now = Ok (l, db') ->
     abs_db sample_db !! s = None /\ abs_db db' = <[s := u]> (abs_db sample_db)) /\
  (forall id iph ua now db', click_txn sample_db id iph ua now = Ok db' -> abs_db db' = abs_db sample_db).
Proof. apply store_refines_map. exact sample_db_wf. Defined.
