(* ===== verification/Cache.v ===== *)
(** * Cache: the Cache collaborator (Upstash Redis) and its configuration
    (src/src/lib/redis.ts)

    The Redis server is a map from keys to a value and an expiry instant
    (seconds): [GET] returns a value strictly before its expiry,
    [SET key value EX n] stores it until [now + n].  A server that is
    down rejects every call (the client's [await] throws).  The client
    library and the server are not among the sources; [redis_get] and
    [redis_set] model their contract (spec sections 3 and 6).

    [redis.ts] decides whether a client exists at all: both
    [UPSTASH_REDIS_REST_URL] and [UPSTASH_REDIS_REST_TOKEN] must be set,
    non-empty, and not the template placeholders containing
    ["upstash-redis-"]; outside production the client is kept in a
    process-global slot and reused on the next module evaluation. *)

From S2P Require Import Prelude Js.

Record Redis := mkRedis {
  r_data : gmap string (string * Z);
  r_online : bool
}.

Definition empty_redis : Redis := mkRedis ∅ true.

(** [GET key]; the error is the client's rejection. *)
Definition redis_get (r : Redis) (now : Z) (k : string) : result (option string) unit :=
  if r_online r then
    Ok (match r_data r !! k with
        | Some (v, exp) => if (now <? exp)%Z then Some v else None
        | None => None
        end)
  else Err tt.

(** [SET key value EX ex] *)
Definition redis_set (r : Redis) (now : Z) (k v : string) (ex : Z) : result Redis unit :=
  if r_online r then Ok (mkRedis (<[k := (v, (now + ex)%Z)]> (r_data r)) true)
  else Err tt.

Definition redis_set_online (r : Redis) (b : bool) : Redis := mkRedis (r_data r) b.

(** ** Configuration: src/src/lib/redis.ts *)

Definition required_envs : list string :=
  ["UPSTASH_REDIS_REST_URL"; "UPSTASH_REDIS_REST_TOKEN"].

(** [Boolean(process.env[env]) && !process.env[env]?.includes('upstash-redis-')] *)
Definition env_ok (env : gmap string string) (k : string) : bool :=
  match env !! k with
  | Some v => js_str_truthy v && negb (js_includes v "upstash-redis-")
  | None => false
  end.

(** [const hasRedisEnvs = requiredEnvs.every(...)] *)
Definition hasRedisEnvs (env : gmap string string) : bool :=
  forallb (env_ok env) required_envs.

(** A client handle: [new Redis({ url, token })]. *)
Record RedisClient := mkRedisClient { rc_url : string; rc_token : string }.

#[export] Instance redis_client_eq_dec : EqDecision RedisClient.
Proof. solve_decision. Defined.

(** One evaluation of the module: given the process-global slot
    [globalForRedis.redis] and the environment, the exported [redis] and
    the slot afterwards. *)
Definition redis_module_init (global : option RedisClient) (env : gmap string string)
    : option RedisClient * option RedisClient :=
  let redis :=
    match global with
    | Some c => Some c
    | None =>
        if hasRedisEnvs env
        then Some (mkRedisClient (default "" (env !! "UPSTASH_REDIS_REST_URL"))
                                 (default "" (env !! "UPSTASH_REDIS_REST_TOKEN")))
        else None
    end in
  let global' :=
    if String.eqb (default "" (env !! "NODE_ENV")) "production" then global else redis in
  (redis, global').

Definition dev_env : gmap string string :=
  {[ "UPSTASH_REDIS_REST_URL" := "https://eu1.upstash.io"; "UPSTASH_REDIS_REST_TOKEN" := "tok";
     "NODE_ENV" := "development" ]}.

(** ** Lemmas *)

Lemma redis_get_set r r' now now' k v ex :
  redis_set r now k v ex = Ok r' -> r_online r' = true ->
  redis_get r' now' k = Ok (if (now' <? now + ex)%Z then Some v else None).
Proof.
  unfold redis_set, redis_get. destruct (r_online r); [|done]. intros [= <-] _. simpl.
  by rewrite lookup_insert_eq.
Qed.

Lemma redis_get_set_ne r r' now now' k k' v ex :
  k <> k' -> redis_set r now k v ex = Ok r' ->
  redis_get r' now' k' = redis_get r now' k'.
Proof.
  unfold redis_set, redis_get. intros Hk. destruct (r_online r) eqn:Hon; [|done]. intros [= <-].
  simpl. by rewrite lookup_insert_ne.
Qed.

Lemma hasRedisEnvs_iff env :
  hasRedisEnvs env = true <->
  forall k, k ∈ required_envs ->
    exists v, env !! k = Some v /\ v <> "" /\ js_includes v "upstash-redis-" = false.
Proof.
  unfold hasRedisEnvs. rewrite forallb_forall. split.
  - intros H k Hk. apply list_elem_of_In in Hk. specialize (H k Hk). unfold env_ok in H.
    destruct (env !! k) as [v|]; [|done]. apply andb_prop in H as [Ht Hi].
    exists v. rewrite <- js_str_truthy_iff. by destruct (js_includes v _).
  - intros H k Hk. apply list_elem_of_In in Hk. destruct (H k Hk) as (v & Hv & Hne & Hi).
    unfold env_ok. rewrite Hv, Hi. apply js_str_truthy_iff in Hne. by rewrite Hne.
Qed.

(** C24: Outside production the first client is reused whatever the
    environment becomes. *)
Theorem redis_init_sticky env env' c :
  fst (redis_module_init None env) = Some c ->
  default "" (env !! "NODE_ENV") <> "production" ->
  redis_module_init (snd (redis_module_init None env)) env' = (Some c, Some c).
Proof.
  intros Hc Hdev. unfold redis_module_init in *. simpl in *.
  apply String.eqb_neq in Hdev. rewrite Hdev, Hc. simpl. by case_if.
Qed.

(** C40: In a fresh process (empty global slot) [redis] is a client iff both
    variables are set, non-empty and not template placeholders. *)
Theorem redis_configured_iff env :
  is_Some (fst (redis_module_init None env)) <->
  forall k, k ∈ required_envs ->
    exists v, env !! k = Some v /\ v <> "" /\ js_includes v "upstash-redis-" = false.
Proof.
  rewrite <- hasRedisEnvs_iff. simpl. destruct (hasRedisEnvs env); [|split; [by intros []|done]].
  split; [done|by eexists].
Qed.

Lemma redis_init_sticky_witness :
  redis_module_init (snd (redis_module_init None dev_env)) ∅ =
  (Some (mkRedisClient "https://eu1.upstash.io" "tok"), Some (mkRedisClient "https://eu1.upstash.io" "tok")).
Proof. apply redis_init_sticky; [reflexivity|discriminate]. Defined.
