(* ===== verification/Http.v ===== *)
(** * Http: the Next.js request and response objects the handlers use

    A [Request] carries what the handlers read of a [NextRequest]: its
    URL, its headers (by lower-case name, as [Headers.get] is
    case-insensitive), [req.ip], and its JSON body ([None] when
    [req.json()] rejects a malformed body).  A [Response] is what a
    handler returns: a redirect ([NextResponse.redirect]), a plain-text
    response, or a JSON response ([NextResponse.json]).

    [NextResponse.redirect(url, init)] validates [url] with [new URL]
    (throwing on an invalid URL) and defaults to status 307; a redirect
    to [new URL(path, req.url)] is kept as a path relative to the request
    URL ([LocRel]), which Next.js always resolves. *)

From S2P Require Import Prelude Js Url.

Record Request := mkRequest {
  req_url : string;
  req_headers : gmap string string;
  req_ip : option string;
  req_body : option JsVal
}.

(** [req.headers.get(name)] *)
Definition header_get (r : Request) (name : string) : option string :=
  req_headers r !! js_to_lower name.

Inductive Location :=
| LocAbs (url : string)
| LocRel (path : string).

Inductive JsonBody :=
| JBError (msg : string)
| JBShortened (shortUrl slug originalUrl : string).

Inductive Response :=
| RRedirect (status : Z) (loc : Location)
| RText (status : Z) (body : string)
| RJson (status : Z) (body : JsonBody).

(** The status of [NextResponse.redirect(url)] without an explicit one. *)
Definition redirect_default_status : Z := 307.

(** [NextResponse.redirect(url, status)] for an absolute URL string:
    [None] is the exception [validateURL] throws. *)
Definition next_redirect (url : string) (status : Z) : option Response :=
  match url_protocol url with
  | Some _ => Some (RRedirect status (LocAbs url))
  | None => None
  end.

Definition response_status (r : Response) : Z :=
  match r with RRedirect s _ | RText s _ | RJson s _ => s end.

Lemma next_redirect_valid url status :
  isValidUrl url = true -> next_redirect url status = Some (RRedirect status (LocAbs url)).
Proof.
  unfold next_redirect. intros [H|H]%isValidUrl_protocol; by rewrite H.
Qed.
