(* ===== verification/World.v ===== *)
(** * World: the effects the handlers perform, and their interpreter

    The handlers are [async] functions.  Each is modelled as a [prog]: a
    finite tree whose nodes are the calls it awaits ([eff]) and whose
    branches are the continuations on each possible answer, an answer
    being a value or the exception the awaited promise rejects with.  A
    [prog] is an inductive (freer-monad) term, so its interpreter [exec]
    is total by structural recursion: no fuel is needed for the handlers.

    [World] is everything the calls act on: the store ([Store.Db]), the
    Redis server ([Cache.Redis]), the clock (seconds), the entropy source
    read by the random generator (a byte stream and a cursor), the queue
    of detached background tasks ([trackClickAsync] calls that were not
    awaited), and the log of performed calls.  [handle] performs one
    call; [exec] runs a whole [prog] to completion without interleaving
    (System.v interleaves several [prog]s at their calls).

    [M A] is a [prog] returning a value or an exception; [try_catch] is
    JavaScript's [try]/[catch]. *)

From S2P Require Import Prelude Js Url Store Cache Http.

(** ** Exceptions *)

Inductive exn :=
| XPrisma (e : DbError)        (** a rejected Prisma call *)
| XPrismaValidation            (** a Prisma argument of the wrong type *)
| XRedis                       (** a rejected Redis call *)
| XTypeError                   (** a property read on null or undefined *)
| XJson                        (** [req.json()] on a malformed body *)
| XRedirect                    (** [NextResponse.redirect] on an invalid URL *)
| XError (msg : string).       (** [throw new Error(msg)] *)

(** A detached call [trackClickAsync(slug, req, linkId)]. *)
Inductive Task := TrackClick (slug : string) (req : Request) (linkId : option nat).

(** ** Calls *)

Inductive eff : Type -> Type :=
| DbFindSlug (s : string) : eff (option Link)
| DbCreate (s url : string) : eff Link
| DbClickTxn (id : nat) (iph ua : string) : eff unit
| CacheGet (k : string) : eff (option string)
| CacheSet (k v : string) (ex : Z) : eff unit
| RandomBytes (n : nat) : eff (list Z)
| Spawn (t : Task) : eff unit
| Console (msg : string) : eff unit
| Yield : eff unit.   (** an [await] of a promise with no effect on the world *)

Inductive Event :=
| EvDbFind (s : string)
| EvDbCreate (s : string)
| EvDbClick (id : nat)
| EvCacheGet (k : string)
| EvCacheSet (k : string)
| EvRandom (n : nat)
| EvSpawn (t : Task)
| EvConsole (msg : string)
| EvYield.

Definition event_of {R} (e : eff R) : Event :=
  match e with
  | DbFindSlug s => EvDbFind s
  | DbCreate s _ => EvDbCreate s
  | DbClickTxn id _ _ => EvDbClick id
  | CacheGet k => EvCacheGet k
  | CacheSet k _ _ => EvCacheSet k
  | RandomBytes n => EvRandom n
  | Spawn t => EvSpawn t
  | Console m => EvConsole m
  | Yield => EvYield
  end.

Record World := mkWorld {
  w_db : Db;
  w_redis : Redis;
  w_now : Z;
  w_entropy : nat -> Z;
  w_rpos : nat;
  w_tasks : list Task;
  w_log : list Event
}.

Definition with_db (w : World) (db : Db) : World :=
  mkWorld db (w_redis w) (w_now w) (w_entropy w) (w_rpos w) (w_tasks w) (w_log w).
Definition with_redis (w : World) (r : Redis) : World :=
  mkWorld (w_db w) r (w_now w) (w_entropy w) (w_rpos w) (w_tasks w) (w_log w).
Definition with_rpos (w : World) (n : nat) : World :=
  mkWorld (w_db w) (w_redis w) (w_now w) (w_entropy w) n (w_tasks w) (w_log w).
Definition with_tasks (w : World) (ts : list Task) : World :=
  mkWorld (w_db w) (w_redis w) (w_now w) (w_entropy w) (w_rpos w) ts (w_log w).
Definition log_event (w : World) (ev : Event) : World :=
  mkWorld (w_db w) (w_redis w) (w_now w) (w_entropy w) (w_rpos w) (w_tasks w) (w_log w ++ [ev]).

(** [n] bytes of the entropy stream from the cursor on, as a
    [Uint8Array] holds them. *)
Definition random_bytes (w : World) (n : nat) : list Z :=
  map (fun i => Z.land (w_entropy w (w_rpos w + i)) 255) (seq 0 n).

Definition lift_db {A} (r : result A DbError) : result A exn :=
  match r with Ok a => Ok a | Err e => Err (XPrisma e) end.

(** Performing one call: its answer and the world after it. *)
Definition perform {R} (e : eff R) (w : World) : result R exn * World :=
  match e in eff R return result R exn * World with
  | DbFindSlug s => (lift_db (find_unique_slug (w_db w) s), w)
  | DbCreate s url =>
      match create_link (w_db w) s url (w_now w) with
      | Ok (l, db') => (Ok l, with_db w db')
      | Err err => (Err (XPrisma err), w)
      end
  | DbClickTxn id iph ua =>
      match click_txn (w_db w) id iph ua (w_now w) with
      | Ok db' => (Ok tt, with_db w db')
      | Err err => (Err (XPrisma err), w)
      end
  | CacheGet k =>
      match redis_get (w_redis w) (w_now w) k with
      | Ok v => (Ok v, w)
      | Err _ => (Err XRedis, w)
      end
  | CacheSet k v ex =>
      match redis_set (w_redis w) (w_now w) k v ex with
      | Ok r' => (Ok tt, with_redis w r')
      | Err _ => (Err XRedis, w)
      end
  | RandomBytes n => (Ok (random_bytes w n), with_rpos w (w_rpos w + n))
  | Spawn t => (Ok tt, with_tasks w (w_tasks w ++ [t]))
  | Console _ => (Ok tt, w)
  | Yield => (Ok tt, w)
  end.

(** [perform], and the call recorded in the log. *)
Definition handle {R} (e : eff R) (w : World) : result R exn * World :=
  let '(r, w') := perform e w in (r, log_event w' (event_of e)).

(** ** Programs *)

Inductive prog (A : Type) : Type :=
| Ret (a : A)
| Vis {R : Type} (e : eff R) (k : result R exn -> prog A).
Arguments Ret {A} a.
Arguments Vis {A R} e k.

Fixpoint exec {A} (p : prog A) (w : World) : A * World :=
  match p with
  | Ret a => (a, w)
  | Vis e k => let '(r, w') := handle e w in exec (k r) w'
  end.

Fixpoint pbind {A B} (p : prog A) (f : A -> prog B) : prog B :=
  match p with
  | Ret a => f a
  | Vis e k => Vis e (fun r => pbind (k r) f)
  end.

Definition M (A : Type) : Type := prog (result A exn).

Definition ret {A} (a : A) : M A := Ret (Ok a).
Definition throw {A} (x : exn) : M A := Ret (Err x).
Definition call {R} (e : eff R) : M R := Vis e Ret.

Definition mbind {A B} (m : M A) (f : A -> M B) : M B :=
  pbind m (fun r => match r with Ok a => f a | Err x => Ret (Err x) end).

(** [try { m } catch (x) { h(x) }] *)
Definition try_catch {A} (m : M A) (h : exn -> M A) : M A :=
  pbind m (fun r => match r with Ok a => Ret (Ok a) | Err x => h x end).

(** A value that may be missing, as an exception when it is. *)
Definition of_option {A} (o : option A) (x : exn) : M A :=
  match o with Some a => ret a | None => throw x end.

Declare Scope prog_scope.
Delimit Scope prog_scope with prog.
Notation "x <- m ;; k" := (mbind m (fun x => k))
  (at level 100, m at next level, right associativity) : prog_scope.
Notation "m ;;; k" := (mbind m (fun _ => k))
  (at level 100, right associativity) : prog_scope.
Open Scope prog_scope.

Definition sample_entropy (i : nat) : Z := Z.of_nat (i * 37 + 11).
Definition sample_world : World := mkWorld sample_db empty_redis 0 sample_entropy 0 [] [].
Definition sample_req : Request :=
  mkRequest "http://localhost:3000/abc" {["user-agent" := "Mozilla/5.0"]} None None.

Definition bot_req : Request :=
  mkRequest "http://localhost:3000/abc" {["user-agent" := "Mozilla/5.0 (compatible; Googlebot/2.1)"]} None None.


(** ** The interpreter's equations *)

Lemma exec_pbind {A B} (p : prog A) (f : A -> prog B) w :
  exec (pbind p f) w = let '(a, w') := exec p w in exec (f a) w'.
Proof.
  revert w. induction p as [a|R e k IH]; intros w; [done|]. simpl.
  destruct (handle e w) as [r w']. apply IH.
Qed.

Lemma exec_ret {A} (a : A) w : exec (ret a) w = (Ok a, w).
Proof. reflexivity. Qed.

Lemma exec_throw {A} (x : exn) w : exec (@throw A x) w = (Err x, w).
Proof. reflexivity. Qed.

Lemma exec_call {R} (e : eff R) w : exec (call e) w = handle e w.
Proof. unfold call. simpl. by destruct (handle e w). Qed.

Lemma exec_mbind {A B} (m : M A) (f : A -> M B) w :
  exec (mbind m f) w =
  let '(r, w') := exec m w in
  match r with Ok a => exec (f a) w' | Err x => (Err x, w') end.
Proof. unfold mbind. rewrite exec_pbind. destruct (exec m w) as [[a|x] w']; done. Qed.

Lemma exec_try_catch {A} (m : M A) (h : exn -> M A) w :
  exec (try_catch m h) w =
  let '(r, w') := exec m w in
  match r with Ok a => (Ok a, w') | Err x => exec (h x) w' end.
Proof. unfold try_catch. rewrite exec_pbind. destruct (exec m w) as [[a|x] w']; done. Qed.

Lemma mbind_ret {A B} (a : A) (f : A -> M B) : mbind (ret a) f = f a.
Proof. reflexivity. Qed.

Create Rewrite HintDb exec_rw.
#[export] Hint Rewrite @exec_mbind @exec_try_catch @exec_call @exec_ret @exec_throw : exec_rw.

(** ** Every call keeps the store well formed, and only lets it grow *)

Lemma handle_db {R} (e : eff R) w :
  w_db (snd (handle e w)) = w_db w \/
  (exists s url l, create_link (w_db w) s url (w_now w) = Ok (l, w_db (snd (handle e w)))) \/
  (exists id iph ua, click_txn (w_db w) id iph ua (w_now w) = Ok (w_db (snd (handle e w)))).
Proof.
  unfold handle. destruct e; simpl; try (left; done).
  - destruct (create_link _ _ _ _) as [[l db']|] eqn:E; simpl; [|by left]. right; left; eauto.
  - destruct (click_txn _ _ _ _ _) as [db'|] eqn:E; simpl; [|by left]. right; right; eauto.
  - destruct (redis_get _ _ _); by left.
  - destruct (redis_set _ _ _ _ _); by left.
Qed.

Lemma handle_db_wf {R} (e : eff R) w : db_wf (w_db w) -> db_wf (w_db (snd (handle e w))).
Proof.
  intros Hwf. destruct (handle_db e w) as [->|[(? & ? & ? & E)|(? & ? & ? & E)]];
    eauto using create_link_wf, click_txn_wf.
Qed.

Lemma handle_db_le {R} (e : eff R) w : db_wf (w_db w) -> db_le (w_db w) (w_db (snd (handle e w))).
Proof.
  intros Hwf. destruct (handle_db e w) as [->|[(? & ? & ? & E)|(? & ? & ? & E)]];
    [reflexivity|eauto using create_link_le, click_txn_le..].
Qed.

(** Structural induction over a program, for a property of worlds kept by
    every call. *)
Lemma exec_preserves {A} (P : World -> Prop) (p : prog A) w :
  (forall R (e : eff R) w, P w -> P (snd (handle e w))) -> P w -> P (snd (exec p w)).
Proof.
  intros Hstep. revert w. induction p as [a|R e k IH]; intros w Hw; [done|]. simpl.
  pose proof (Hstep R e w Hw) as Hw'. destruct (handle e w) as [r w']. by apply IH.
Qed.

Lemma exec_db_wf {A} (p : prog A) w : db_wf (w_db w) -> db_wf (w_db (snd (exec p w))).
Proof. apply (exec_preserves (fun w => db_wf (w_db w))). intros R e w'. apply handle_db_wf. Qed.

Lemma exec_db_le {A} (p : prog A) w : db_wf (w_db w) -> db_le (w_db w) (w_db (snd (exec p w))).
Proof.
  revert w. induction p as [a|R e k IH]; intros w Hw; [reflexivity|]. simpl.
  pose proof (handle_db_le e w Hw) as Hle. pose proof (handle_db_wf e w Hw) as Hw'.
  destruct (handle e w) as [r w']. simpl in *. etrans; [exact Hle|]. by apply IH.
Qed.

(** [try_catch] with a handler that cannot fail never fails. *)
Lemma exec_try_catch_total {A} (m : M A) (h : exn -> M A) w :
  (forall x w', exists a w'', exec (h x) w' = (Ok a, w'')) ->
  exists a w', exec (try_catch m h) w = (Ok a, w').
Proof.
  intros Hh. rewrite exec_try_catch. destruct (exec m w) as [[a|x] w']; eauto.
Qed.

(** Unfold the world updates and project their fields. *)
Ltac world_simpl :=
  unfold log_event, with_db, with_redis, with_rpos, with_tasks in *;
  cbn [w_db w_redis w_now w_entropy w_rpos w_tasks w_log] in *.

(** ** A concrete world for the witnesses *)

