(* ===== verification/Sha256.v ===== *)
(** * Sha256: [crypto.createHash('sha256').update(ip).digest('hex')]

    The tracker never stores a client address, only this digest of it
    (src/src/app/[slug]/route.ts lines 87-88).  [sha256_hex] is SHA-256
    (FIPS 180-4) on the UTF-8 encoding of the string, printed as 64
    lower-case hexadecimal digits.  Words are integers of [Z] kept in
    [0, 2^32) by masking after every addition, rotation and complement:
    the 32-bit wrap-around of the standard is written out.  The
    definitions compute, so the standard's test vectors are checked by
    [vm_compute] below. *)

From S2P Require Import Prelude.
From Stdlib Require Import Ascii.

Open Scope Z_scope.

(** ** 32-bit words *)

Definition mask32 : Z := 4294967295.

Definition add32 (x y : Z) : Z := Z.land (x + y) mask32.
Definition not32 (x : Z) : Z := Z.lxor x mask32.
Definition rotr (n x : Z) : Z := Z.land (Z.lor (Z.shiftr x n) (Z.shiftl x (32 - n))) mask32.

Definition ch (x y z : Z) : Z := Z.lxor (Z.land x y) (Z.land (not32 x) z).
Definition maj (x y z : Z) : Z := Z.lxor (Z.lxor (Z.land x y) (Z.land x z)) (Z.land y z).
Definition bsig0 (x : Z) : Z := Z.lxor (Z.lxor (rotr 2 x) (rotr 13 x)) (rotr 22 x).
Definition bsig1 (x : Z) : Z := Z.lxor (Z.lxor (rotr 6 x) (rotr 11 x)) (rotr 25 x).
Definition ssig0 (x : Z) : Z := Z.lxor (Z.lxor (rotr 7 x) (rotr 18 x)) (Z.shiftr x 3).
Definition ssig1 (x : Z) : Z := Z.lxor (Z.lxor (rotr 17 x) (rotr 19 x)) (Z.shiftr x 10).

(** The round constants, as FIPS 180-4 section 4.2.2 defines them: the
    first 32 bits of the fractional parts of the cube roots of the first
    64 primes, i.e. [floor (cbrt (p * 2^96)) mod 2^32]. *)
Definition is_prime (n : nat) : bool :=
  (2 <=? n)%nat && forallb (fun d => negb (Nat.eqb (n mod d) 0)) (seq 2 (n - 2)).

Definition first_primes (k : nat) : list nat :=
  firstn k (List.filter is_prime (seq 2 320)).

(** The integer cube root, bit by bit from bit [b - 1] down. *)
Definition icbrt (b : nat) (n : Z) : Z :=
  fold_left (fun r i => let r' := r + 2 ^ Z.of_nat i in if r' * r' * r' <=? n then r' else r)
            (rev (seq 0 b)) 0.

Definition K256 : list Z :=
  map (fun p => icbrt 36 (Z.of_nat p * 2 ^ 96) mod 2 ^ 32) (first_primes 64).

(** ** The compression function *)

Record St := mkSt { sa : Z; sb : Z; sc : Z; sd : Z; se : Z; sf : Z; sg : Z; sh : Z }.

Definition H0 : St :=
  mkSt 0x6a09e667 0xbb67ae85 0x3c6ef372 0xa54ff53a 0x510e527f 0x9b05688c 0x1f83d9ab 0x5be0cd19.

Definition round (s : St) (k w : Z) : St :=
  let t1 := add32 (add32 (add32 (add32 (sh s) (bsig1 (se s))) (ch (se s) (sf s) (sg s))) k) w in
  let t2 := add32 (bsig0 (sa s)) (maj (sa s) (sb s) (sc s)) in
  mkSt (add32 t1 t2) (sa s) (sb s) (sc s) (add32 (sd s) t1) (se s) (sf s) (sg s).

Definition st_add (s t : St) : St :=
  mkSt (add32 (sa s) (sa t)) (add32 (sb s) (sb t)) (add32 (sc s) (sc t)) (add32 (sd s) (sd t))
       (add32 (se s) (se t)) (add32 (sf s) (sf t)) (add32 (sg s) (sg t)) (add32 (sh s) (sh t)).

(** The message schedule: [n] more words after the [ws] already there. *)
Fixpoint schedule (n : nat) (ws : list Z) : list Z :=
  match n with
  | O => ws
  | S n' =>
      let t := length ws in
      let w := add32 (add32 (ssig1 (nth (t - 2) ws 0)) (nth (t - 7) ws 0))
                     (add32 (ssig0 (nth (t - 15) ws 0)) (nth (t - 16) ws 0)) in
      schedule n' (ws ++ [w])
  end.

(** Big-endian words of a byte list (four bytes each). *)
Fixpoint be_words (fuel : nat) (bs : list Z) : list Z :=
  match fuel, bs with
  | S f, b0 :: b1 :: b2 :: b3 :: rest =>
      (b0 * 16777216 + b1 * 65536 + b2 * 256 + b3) :: be_words f rest
  | _, _ => []
  end.

Definition compress (h : St) (block : list Z) : St :=
  let ws := schedule 48 (be_words 16 block) in
  st_add h (fold_left (fun s kw => round s (fst kw) (snd kw)) (combine K256 ws) h).

(** ** Padding and blocks *)

Definition be64 (n : Z) : list Z :=
  map (fun i => Z.land (Z.shiftr n (8 * (7 - Z.of_nat i))) 255) (seq 0 8).

Definition pad (msg : list Z) : list Z :=
  let len := Z.of_nat (length msg) in
  let zeros := Z.to_nat ((55 - len) mod 64) in
  msg ++ [128] ++ repeat 0 zeros ++ be64 (8 * len).

Fixpoint blocks (fuel : nat) (bs : list Z) : list (list Z) :=
  match fuel, bs with
  | S f, _ :: _ => firstn 64 bs :: blocks f (skipn 64 bs)
  | _, _ => []
  end.

Definition sha256 (msg : list Z) : St :=
  let p := pad msg in fold_left compress (blocks (length p) p) H0.

(** ** Text in, hex out *)

(** UTF-8 of a string whose characters are code points below 256. *)
Fixpoint utf8 (s : string) : list Z :=
  match s with
  | EmptyString => []
  | String c s' =>
      let n := Z.of_nat (Ascii.nat_of_ascii c) in
      (if n <? 128 then [n]
       else [Z.lor 192 (Z.shiftr n 6); Z.lor 128 (Z.land n 63)]) ++ utf8 s'
  end.

Definition hex_digit (n : Z) : ascii :=
  Ascii.ascii_of_nat (Z.to_nat (if n <? 10 then 48 + n else 87 + n)).

(** Eight hex digits of a word, most significant first. *)
Definition hex_word (w : Z) : string :=
  fold_right (fun i acc => String (hex_digit (Z.land (Z.shiftr w (4 * Z.of_nat i)) 15)) acc)
             EmptyString (rev (seq 0 8)).

Definition hex_st (s : St) : string :=
  hex_word (sa s) +:+ hex_word (sb s) +:+ hex_word (sc s) +:+ hex_word (sd s) +:+
  hex_word (se s) +:+ hex_word (sf s) +:+ hex_word (sg s) +:+ hex_word (sh s).

(** [crypto.createHash('sha256').update(s).digest('hex')] *)
Definition sha256_hex (s : string) : string := hex_st (sha256 (utf8 s)).

(** Symbolic addresses must not unfold the hash in proofs of the callers. *)
#[global] Arguments sha256_hex : simpl never.


(** ** Lemmas *)

Definition is_lower_hex (c : ascii) : bool :=
  let n := Ascii.nat_of_ascii c in
  ((48 <=? n) && (n <=? 57))%nat || ((97 <=? n) && (n <=? 102))%nat.

Definition word_ok (x : Z) : Prop := 0 <= x < 2 ^ 32.

Lemma land_mask32_mod x : Z.land x mask32 = x mod 2 ^ 32.
Proof. change mask32 with (Z.ones 32). by apply Z.land_ones. Qed.

Lemma land_mask32_range x : word_ok (Z.land x mask32).
Proof. unfold word_ok. rewrite land_mask32_mod. apply Z.mod_pos_bound. lia. Qed.

(** The additions of the standard are additions modulo [2^32]. *)
Lemma add32_mod x y : add32 x y = (x + y) mod 2 ^ 32.
Proof. apply land_mask32_mod. Qed.

Lemma add32_range x y : word_ok (add32 x y).
Proof. apply land_mask32_range. Qed.

(** every word of the hash state, after any message, lies in
    [0, 2^32): additions wrap around. *)
Theorem sha256_words_bounded msg :
  let s := sha256 msg in
  word_ok (sa s) /\ word_ok (sb s) /\ word_ok (sc s) /\ word_ok (sd s) /\
  word_ok (se s) /\ word_ok (sf s) /\ word_ok (sg s) /\ word_ok (sh s).
Proof.
  unfold sha256. set (bl := blocks _ _).
  assert (Hinit : forall P : St -> Prop, (forall h b, P (compress h b)) ->
    P H0 -> P (fold_left compress bl H0)).
  { intros P Hc. generalize H0. induction bl as [|b bl IH]; intros h Hh; [done|]. simpl. by apply IH. }
  apply Hinit; [intros h b; unfold compress, st_add; cbn [sa sb sc sd se sf sg sh]; repeat split; apply add32_range|].
  unfold H0, word_ok. simpl. lia.
Qed.

Lemma hex_digit_ok n : 0 <= n <= 15 -> is_lower_hex (hex_digit n) = true.
Proof.
  intros Hn.
  assert (Hall : forallb (fun k => is_lower_hex (hex_digit (Z.of_nat k))) (seq 0 16) = true)
    by reflexivity.
  rewrite forallb_forall in Hall. specialize (Hall (Z.to_nat n)).
  rewrite Z2Nat.id in Hall by lia. apply Hall, in_seq. lia.
Qed.

Lemma nibble_range w i : 0 <= Z.land (Z.shiftr w i) 15 <= 15.
Proof.
  assert (E : Z.land (Z.shiftr w i) 15 = Z.shiftr w i mod 2 ^ 4) by (apply (Z.land_ones _ 4); lia).
  rewrite E. pose proof (Z.mod_pos_bound (Z.shiftr w i) (2 ^ 4) ltac:(lia)). lia.
Qed.

Lemma hex_digits_spec w (l : list nat) :
  let d := fold_right (fun i acc => String (hex_digit (Z.land (Z.shiftr w (4 * Z.of_nat i)) 15)) acc)
                      EmptyString l in
  String.length d = length l /\ str_forallb is_lower_hex d = true.
Proof.
  induction l as [|i l [IHl IHf]]; [split; done|]. cbn [fold_right length].
  cbn [String.length]. rewrite IHl. split; [done|].
  cbn [str_forallb]. rewrite IHf, hex_digit_ok by apply nibble_range. done.
Qed.

Lemma hex_word_spec w :
  String.length (hex_word w) = 8%nat /\ str_forallb is_lower_hex (hex_word w) = true.
Proof. apply (hex_digits_spec w (rev (seq 0 8))). Qed.

Lemma hex_st_spec s :
  String.length (hex_st s) = 64%nat /\ str_forallb is_lower_hex (hex_st s) = true.
Proof.
  unfold hex_st. rewrite !str_length_app, !str_forallb_app.
  repeat match goal with |- context [hex_word ?w] =>
    let H := fresh in destruct (hex_word_spec w) as [? H]; rewrite H; clear H end.
  split; [lia|done].
Qed.

(** the stored [ipHash] is always a fixed-length digest: exactly 64
    lower-case hexadecimal digits, whatever the address. *)
Theorem sha256_hex_shape s :
  String.length (sha256_hex s) = 64%nat /\ str_forallb is_lower_hex (sha256_hex s) = true.
Proof. apply hex_st_spec. Qed.

Example K256_ends :
  length K256 = 64%nat /\ head K256 = Some 0x428a2f98 /\ last K256 = Some 0xc67178f2.
Proof. vm_compute. auto. Qed.

(** The standard's test vectors (FIPS 180-4 examples, one and two blocks). *)
Example sha256_abc :
  sha256_hex "abc" = "ba7816bf8f01cfea414140de5dae2223b00361a396177a9cb410ff61f20015ad".
Proof. vm_compute. reflexivity. Qed.

Example sha256_two_blocks :
  sha256_hex "abcdbcdecdefdefgefghfghighijhijkijkljklmklmnlmnomnopnopq" =
  "248d6a61d20638b8e5c026930c3e6039a33ce45964ff2167f6ecedd419db06c1".
Proof. vm_compute. reflexivity. Qed.

Close Scope Z_scope.
