(* ===== verification/Tracker.v ===== *)
(** * Tracker: ClickTracker, [trackClickAsync] (src/src/app/[slug]/route.ts
    lines 62-108)

    [trackClickAsync(slug, req, linkId?)] is called without [await] by the
    redirect handler: it reads the user agent (["Unknown"] when missing or
    empty) and returns at once for an agent containing ["bot"] or
    ["crawl"] in any case; it takes the client address from
    [x-forwarded-for], then [req.ip], then ["0.0.0.0"]; without a link id
    (the cache path) it looks the slug up again and returns when it is
    gone; it hashes the address with SHA-256 and commits the click log and
    the counter increment in one transaction.  Every exception is caught
    and logged: the call always resolves.

    The theorems: the task always resolves ([track_resolves]); a bot
    changes nothing at all ([track_bot_noop]); a counted click adds
    exactly one click log carrying the digest of the address and
    increments exactly that link's counter ([track_counts]). *)

From S2P Require Import Prelude Js Url Store Cache Http World Sha256.

(** [userAgent.toLowerCase().includes('bot') || ...includes('crawl')] *)
Definition is_bot (ua : string) : bool :=
  js_includes (js_to_lower ua) "bot" || js_includes (js_to_lower ua) "crawl".

(** [req.headers.get('user-agent') || 'Unknown'] *)
Definition user_agent (req : Request) : string :=
  js_or (header_get req "user-agent") "Unknown".

(** [req.headers.get('x-forwarded-for') || req.ip || '0.0.0.0'] *)
Definition client_ip (req : Request) : string :=
  js_or (header_get req "x-forwarded-for") (js_or (req_ip req) "0.0.0.0").

(** [let targetLinkId = linkId; if (!targetLinkId) { ... }]: a missing id,
    or the falsy id 0, is looked up again by slug; [None] is the early
    [return] of [if (!link) return]. *)
Definition target_link_id (slug : string) (linkId : option nat) : M (option nat) :=
  match linkId with
  | Some id =>
      if Nat.eqb id 0 then
        l <- call (DbFindSlug slug) ;; ret (option_map link_id l)
      else ret (Some id)
  | None => l <- call (DbFindSlug slug) ;; ret (option_map link_id l)
  end.

(** The body of the [try] block. *)
Definition track_body (slug : string) (req : Request) (linkId : option nat) : M unit :=
  let ua := user_agent req in
  if is_bot ua then ret tt
  else
    let ip := client_ip req in
    target <- target_link_id slug linkId ;;
    match target with
    | None => ret tt
    | Some id =>
        call Yield ;;;                       (* await import('crypto') *)
        let iph := sha256_hex ip in
        call (DbClickTxn id iph ua)
    end.

Definition trackClickAsync (slug : string) (req : Request) (linkId : option nat) : M unit :=
  try_catch (track_body slug req linkId)
            (fun _ => call (Console "Failed to log click asynchronously:") ;;; ret tt).

(** The store after a counted click on link [l]. *)
Definition db_after_click (db : Db) (l : Link) (iph ua : string) (now : Z) : Db :=
  mkDb (<[link_id l := bump_clicks l]> (links db)) (slug_index db)
       (click_logs db ++ [mkClickLog (next_id db) (link_id l) iph ua now])
       (S (next_id db)) true.

(** ** Theorems *)

(** C5: failure isolation: whatever the store does, the detached task
    resolves; no exception escapes it. *)
Theorem track_resolves sl req linkId w :
  fst (exec (trackClickAsync sl req linkId) w) = Ok tt.
Proof.
  unfold trackClickAsync. rewrite exec_try_catch.
  destruct (exec (track_body sl req linkId) w) as [[[]|x] w']; [done|].
  by autorewrite with exec_rw.
Qed.

(** C4: bot filtering: a request whose user agent contains "bot" or
    "crawl" (any case) leaves the world exactly as it was: no click log,
    no counter change, not even a store call. *)
Theorem track_bot_noop sl req linkId w :
  is_bot (user_agent req) = true ->
  exec (trackClickAsync sl req linkId) w = (Ok tt, w).
Proof.
  intros Hbot. unfold trackClickAsync, track_body. rewrite Hbot. reflexivity.
Qed.

Example googlebot_is_bot :
  is_bot "Mozilla/5.0 (compatible; Googlebot/2.1; +http://www.google.com/bot.html)" = true.
Proof. reflexivity. Qed.

Example missing_agent_counts : is_bot "Unknown" = false.
Proof. reflexivity. Qed.

Lemma target_link_id_found sl linkId w l :
  db_wf (w_db w) -> db_online (w_db w) = true -> links (w_db w) !! link_id l = Some l ->
  (linkId = Some (link_id l) /\ link_id l <> 0 \/ linkId = None /\ slug l = sl) ->
  exists w', exec (target_link_id sl linkId) w = (Ok (Some (link_id l)), w') /\
             w_db w' = w_db w /\ w_now w' = w_now w.
Proof.
  intros Hwf Hon Hl [[-> Hid]|[-> <-]].
  - apply Nat.eqb_neq in Hid. unfold target_link_id. rewrite Hid. eauto.
  - unfold target_link_id. rewrite exec_mbind, exec_call. unfold handle. simpl.
    rewrite find_unique_slug_complete by done. simpl. eauto.
Qed.

(** C3: click accounting of one click: a click that is not a bot's, on a
    link the store holds (by its id on the store path, by its slug on the
    cache path), appends exactly one click log, carrying the link's id,
    the SHA-256 digest of the client address (never the address) and the
    user agent, and increments exactly that link's counter. *)
Theorem track_counts sl req linkId w l :
  is_bot (user_agent req) = false ->
  db_wf (w_db w) -> db_online (w_db w) = true -> links (w_db w) !! link_id l = Some l ->
  (linkId = Some (link_id l) /\ link_id l <> 0 \/ linkId = None /\ slug l = sl) ->
  w_db (snd (exec (trackClickAsync sl req linkId) w)) =
  db_after_click (w_db w) l (sha256_hex (client_ip req)) (user_agent req) (w_now w).
Proof.
  intros Hbot Hwf Hon Hl Hcase.
  destruct (target_link_id_found sl linkId w l Hwf Hon Hl Hcase) as (w1 & Ht & Hdb & Hnow).
  unfold trackClickAsync, track_body. rewrite Hbot.
  rewrite exec_try_catch, exec_mbind, Ht, exec_mbind, exec_call. simpl.
  unfold handle, perform. simpl. rewrite Hdb, Hnow.
  unfold click_txn. rewrite Hon, Hl. reflexivity.
Qed.

Lemma track_bot_noop_witness :
  exec (trackClickAsync "abc" bot_req None) sample_world = (Ok tt, sample_world).
Proof. apply track_bot_noop. reflexivity. Defined.

Lemma track_counts_witness :
  w_db (snd (exec (trackClickAsync "abc" sample_req None) sample_world)) =
  db_after_click sample_db sample_link (sha256_hex (client_ip sample_req)) (user_agent sample_req) 0.
Proof.
  apply (track_counts "abc" sample_req None sample_world sample_link);
    [reflexivity|exact sample_db_wf|reflexivity|reflexivity|right; split; reflexivity].
Defined.
