(* ===== verification/Redirect.v ===== *)
(** * Redirect: SlugResolver, [GET /[slug]] (src/src/app/[slug]/route.ts
    lines 5-60)

    The handler awaits its route parameters; an empty slug redirects to
    [/].  When a Redis client is configured ([redis_on], from redis.ts) it
    reads [link:<slug>]: a non-empty cached URL detaches
    [trackClickAsync(slug, req)] and redirects to it with status 301; a
    Redis error is logged and treated as a miss.  Otherwise the store is
    asked; an unknown slug redirects to [/?error=not-found] (Next.js's
    default status, 307); a known slug is written back to Redis for 24
    hours (a write error is logged and ignored), [trackClickAsync(slug,
    req, link.id)] is detached, and the response redirects to the stored
    URL with status 301.  Any other exception gives a 500 text response.

    Detaching a task is [Spawn]: the body of [trackClickAsync] runs
    synchronously only up to its first [await], and that prefix reads the
    request and nothing else, so queueing the whole call is equivalent.

    [cache_coherent] is the cache invariant of spec section 3: a cached
    [link:<s>] holds the [originalUrl] of the stored link with slug [s].
    [urls_valid] says every stored URL passes [isValidUrl]. *)

From S2P Require Import Prelude Js Url Store Cache Http World Sha256 Tracker.

Definition cache_key (slug : string) : string := "link:" +:+ slug.

(** [{ ex: 60 * 60 * 24 }] *)
Definition cache_ttl : Z := 60 * 60 * 24.

(** Lines 17-29: the cache read. [Some r] is the early [return] of a hit. *)
Definition cache_lookup (redis_on : bool) (slug : string) (req : Request) : M (option Response) :=
  if redis_on then
    try_catch
      (cachedUrl <- call (CacheGet (cache_key slug)) ;;
       match cachedUrl with
       | Some u =>
           if js_str_truthy u then
             call (Spawn (TrackClick slug req None)) ;;;
             r <- of_option (next_redirect u 301) XRedirect ;;
             ret (Some r)
           else ret None
       | None => ret None
       end)
      (fun _ => call (Console "Redis Cache Error (falling back to DB):") ;;; ret None)
  else ret None.

(** Lines 42-48: the write-back, whose failure is only logged. *)
Definition cache_fill (redis_on : bool) (slug url : string) : M unit :=
  if redis_on then
    try_catch (call (CacheSet (cache_key slug) url cache_ttl))
              (fun _ => call (Console "Redis Set Error:"))
  else ret tt.

(** Lines 41-54: a link found in the store. *)
Definition serve_link (redis_on : bool) (slug : string) (req : Request) (l : Link) : M Response :=
  cache_fill redis_on slug (originalUrl l) ;;;
  call (Spawn (TrackClick slug req (Some (link_id l)))) ;;;
  of_option (next_redirect (originalUrl l) 301) XRedirect.

(** Lines 17-54: cache, store, write-back, tracking, redirect. *)
Definition resolve_slug (redis_on : bool) (slug : string) (req : Request) : M Response :=
  cached <- cache_lookup redis_on slug req ;;
  match cached with
  | Some r => ret r
  | None =>
      link <- call (DbFindSlug slug) ;;
      match link with
      | None => ret (RRedirect redirect_default_status (LocRel "/?error=not-found"))
      | Some l => serve_link redis_on slug req l
      end
  end.

(** Lines 9-55: the body of the [try] block. *)
Definition get_body (redis_on : bool) (slug : string) (req : Request) : M Response :=
  call Yield ;;;
  if negb (js_str_truthy slug) then ret (RRedirect redirect_default_status (LocRel "/"))
  else resolve_slug redis_on slug req.

Definition GET (redis_on : bool) (slug : string) (req : Request) : M Response :=
  try_catch (get_body redis_on slug req)
            (fun _ => call (Console "[Redirect Error]") ;;; ret (RText 500 "Internal Server Error")).

(** ** Invariants the resolver relies on *)

(** [v] is the URL the store holds for slug [s]. *)
Definition url_of (db : Db) (s v : string) : Prop :=
  exists l, slug_index db !! s = Some (link_id l) /\ links db !! link_id l = Some l /\ originalUrl l = v.

Definition cache_coherent (w : World) : Prop :=
  forall s v exp, r_data (w_redis w) !! cache_key s = Some (v, exp) -> url_of (w_db w) s v.

Definition urls_valid (db : Db) : Prop :=
  forall id l, links db !! id = Some l -> isValidUrl (originalUrl l) = true.

(** The resolver's contract (spec section 4): a stored slug redirects
    permanently to its URL, an unknown one to the not-found page, a store
    failure is a 500. The cache does not appear in it. *)
Definition resolve_spec (db : Db) (slug : string) : Response :=
  match find_unique_slug db slug with
  | Ok (Some l) => RRedirect 301 (LocAbs (originalUrl l))
  | Ok None => RRedirect redirect_default_status (LocRel "/?error=not-found")
  | Err _ => RText 500 "Internal Server Error"
  end.

(** A live cache entry for [slug] at time [now]. *)
Definition cache_live (w : World) (slug : string) : option string :=
  match r_data (w_redis w) !! cache_key slug with
  | Some (v, exp) => if (w_now w <? exp)%Z then Some v else None
  | None => None
  end.

(** The cache path is taken: Redis configured, up, and holding a live
    non-empty value. *)
Definition cache_hits (redis_on : bool) (w : World) (slug : string) : option string :=
  if redis_on && r_online (w_redis w) then
    match cache_live w slug with
    | Some u => if js_str_truthy u then Some u else None
    | None => None
    end
  else None.

(** The Redis server after the write-back of a found link. *)
Definition redis_after_fill (redis_on : bool) (w : World) (slug url : string) : Redis :=
  if redis_on && r_online (w_redis w)
  then mkRedis (<[cache_key slug := (url, (w_now w + cache_ttl)%Z)]> (r_data (w_redis w))) true
  else w_redis w.

Definition cached_world : World :=
  mkWorld sample_db (mkRedis {[cache_key "abc" := ("https://example.com", cache_ttl)]} true)
          0 sample_entropy 0 [] [].

(** ** The phases of the handler *)

Lemma cache_hits_log redis_on w ev slug :
  cache_hits redis_on (log_event w ev) slug = cache_hits redis_on w slug.
Proof. reflexivity. Qed.

(** A miss (or no client, or a Redis error) changes nothing but the log. *)
Lemma cache_lookup_miss redis_on slug req w :
  cache_hits redis_on w slug = None ->
  exists w', exec (cache_lookup redis_on slug req) w = (Ok None, w') /\
    w_db w' = w_db w /\ w_redis w' = w_redis w /\ w_tasks w' = w_tasks w /\
    w_now w' = w_now w /\ w_rpos w' = w_rpos w.
Proof.
  intros Hmiss. destruct redis_on; [|by eexists]. unfold cache_lookup.
  rewrite exec_try_catch, exec_mbind, exec_call. unfold handle, perform, redis_get.
  unfold cache_hits, cache_live in Hmiss. simpl in Hmiss.
  destruct (r_online (w_redis w)); simpl; [|by eexists].
  destruct (r_data (w_redis w) !! cache_key slug) as [[v exp]|]; simpl; [|by eexists].
  destruct (w_now w <? exp)%Z; simpl; [|by eexists].
  destruct (js_str_truthy v); [done|]. by eexists.
Qed.

(** A hit detaches the tracking task and redirects, without any store call. *)
Lemma cache_lookup_hit redis_on slug req w u :
  cache_hits redis_on w slug = Some u -> isValidUrl u = true ->
  exec (cache_lookup redis_on slug req) w =
  (Ok (Some (RRedirect 301 (LocAbs u))),
   mkWorld (w_db w) (w_redis w) (w_now w) (w_entropy w) (w_rpos w)
           (w_tasks w ++ [TrackClick slug req None])
           (w_log w ++ [EvCacheGet (cache_key slug); EvSpawn (TrackClick slug req None)])).
Proof.
  intros Hhit Hvalid. destruct redis_on; [|done]. unfold cache_hits, cache_live in Hhit.
  simpl in Hhit. destruct (r_online (w_redis w)) eqn:Hon; [|done].
  destruct (r_data (w_redis w) !! cache_key slug) as [[v exp]|] eqn:Hv; [|done].
  destruct (w_now w <? exp)%Z eqn:Hexp; [|done].
  destruct (js_str_truthy v) eqn:Ht; [|done]. injection Hhit as <-.
  unfold cache_lookup. rewrite exec_try_catch, exec_mbind, exec_call.
  unfold handle, perform, redis_get. rewrite Hon, Hv, Hexp. simpl. rewrite Ht.
  rewrite exec_mbind, exec_call. simpl. rewrite exec_mbind.
  rewrite (next_redirect_valid v 301 Hvalid). simpl. world_simpl. by rewrite <- app_assoc.
Qed.

Lemma cache_fill_spec redis_on slug url w :
  exists w', exec (cache_fill redis_on slug url) w = (Ok tt, w') /\
    w_db w' = w_db w /\ w_redis w' = redis_after_fill redis_on w slug url /\
    w_tasks w' = w_tasks w /\ w_now w' = w_now w /\ w_rpos w' = w_rpos w.
Proof.
  unfold cache_fill, redis_after_fill. destruct redis_on; [|by eexists].
  rewrite exec_try_catch, exec_call. unfold handle, perform, redis_set.
  destruct (r_online (w_redis w)); simpl; by eexists.
Qed.

Lemma serve_link_spec redis_on slug req l w :
  isValidUrl (originalUrl l) = true ->
  exists w', exec (serve_link redis_on slug req l) w =
             (Ok (RRedirect 301 (LocAbs (originalUrl l))), w') /\
    w_db w' = w_db w /\ w_redis w' = redis_after_fill redis_on w slug (originalUrl l) /\
    w_tasks w' = w_tasks w ++ [TrackClick slug req (Some (link_id l))] /\
    w_now w' = w_now w /\ w_rpos w' = w_rpos w.
Proof.
  intros Hvalid. unfold serve_link. rewrite exec_mbind.
  destruct (cache_fill_spec redis_on slug (originalUrl l) w) as (w1 & -> & Hdb & Hr & Hts & Hnow & Hrpos).
  rewrite exec_mbind, exec_call. simpl. rewrite (next_redirect_valid _ 301 Hvalid). simpl.
  eexists. split; [reflexivity|]. world_simpl. rewrite Hdb, Hts, Hnow, Hrpos, Hr. done.
Qed.

(** ** The handler *)

Lemma truthy_slug slug : slug <> "" -> negb (js_str_truthy slug) = false.
Proof. intros H. apply js_str_truthy_iff in H. by rewrite H. Qed.

(** Running the handler up to the cache read. *)
Lemma GET_unfold redis_on slug req w :
  slug <> "" ->
  exec (GET redis_on slug req) w =
  exec (try_catch (resolve_slug redis_on slug req)
          (fun _ => call (Console "[Redirect Error]") ;;; ret (RText 500 "Internal Server Error")))
       (log_event w EvYield).
Proof.
  intros Hs. unfold GET, get_body. rewrite !exec_try_catch, exec_mbind, exec_call.
  simpl. by rewrite truthy_slug.
Qed.

(** C2: cache hit: a live non-empty cached URL is served with status 301,
    the click is tracked on the cache path (no link id), and the store
    is not called at all: the calls made are the await, the Redis read
    and the detach. *)
Theorem GET_cache_hit redis_on slug req w u :
  slug <> "" -> cache_hits redis_on w slug = Some u -> isValidUrl u = true ->
  exec (GET redis_on slug req) w =
  (Ok (RRedirect 301 (LocAbs u)),
   mkWorld (w_db w) (w_redis w) (w_now w) (w_entropy w) (w_rpos w)
           (w_tasks w ++ [TrackClick slug req None])
           (w_log w ++ [EvYield; EvCacheGet (cache_key slug); EvSpawn (TrackClick slug req None)])).
Proof.
  intros Hs Hhit Hvalid. rewrite GET_unfold by done; unfold resolve_slug.
  rewrite exec_try_catch, exec_mbind, (cache_lookup_hit redis_on slug req _ u) by done.
  simpl. world_simpl. by rewrite <- app_assoc.
Qed.

(** C1: store path: on a cache miss (no client, Redis down, no live
    entry), a slug of the store is served with status 301 to its stored
    URL, written back to Redis for 24 hours when a client is configured
    and Redis is up, and its click is tracked with the link's id. *)
Theorem GET_store_path redis_on s req w l :
  s <> "" -> cache_hits redis_on w s = None ->
  db_wf (w_db w) -> db_online (w_db w) = true ->
  links (w_db w) !! link_id l = Some l -> slug l = s -> isValidUrl (originalUrl l) = true ->
  exists w', exec (GET redis_on s req) w = (Ok (RRedirect 301 (LocAbs (originalUrl l))), w') /\
    w_db w' = w_db w /\ w_redis w' = redis_after_fill redis_on w s (originalUrl l) /\
    w_tasks w' = w_tasks w ++ [TrackClick s req (Some (link_id l))] /\ w_now w' = w_now w.
Proof.
  intros Hs Hmiss Hwf Hon Hl Hsl Hvalid. rewrite GET_unfold by done; unfold resolve_slug.
  destruct (cache_lookup_miss redis_on s req (log_event w EvYield)) as
    (w1 & Hc & Hdb & Hr & Hts & Hnow & _); [by rewrite cache_hits_log|].
  rewrite exec_try_catch, exec_mbind, Hc, exec_mbind, exec_call.
  unfold handle, perform. rewrite Hdb. simpl. rewrite <- Hsl, find_unique_slug_complete by done.
  simpl. rewrite Hsl.
  destruct (serve_link_spec redis_on s req l (log_event w1 (EvDbFind s)) Hvalid) as
    (w2 & Hsv & Hdb2 & Hr2 & Hts2 & Hnow2 & _).
  rewrite Hsv. exists w2. split; [done|].
  unfold redis_after_fill in *. world_simpl.
  repeat split; [congruence|by rewrite Hr2, Hr, Hnow|congruence|congruence].
Qed.

(** Under [cache_coherent] an unknown slug has no cache entry. *)
Lemma coherent_unknown_miss redis_on w slug :
  cache_coherent w -> slug_index (w_db w) !! slug = None -> cache_hits redis_on w slug = None.
Proof.
  intros Hcoh Hidx. unfold cache_hits, cache_live.
  destruct (r_data (w_redis w) !! cache_key slug) as [[v exp]|] eqn:Hv.
  - destruct (Hcoh slug v exp Hv) as (l & Hi & _). congruence.
  - by destruct (_ && _).
Qed.

(** Under [cache_coherent] a cache hit is the stored URL. *)
Lemma coherent_hit_url redis_on w s l u :
  cache_coherent w -> db_wf (w_db w) -> find_unique_slug (w_db w) s = Ok (Some l) ->
  cache_hits redis_on w s = Some u -> u = originalUrl l.
Proof.
  intros Hcoh Hwf Hf Hhit. destruct (find_unique_slug_sound _ _ _ Hwf Hf) as [<- Hl].
  unfold cache_hits, cache_live in Hhit.
  destruct (redis_on && r_online (w_redis w)); [|done].
  destruct (r_data (w_redis w) !! cache_key (slug l)) as [[v exp]|] eqn:Hv; [|done].
  destruct (Hcoh _ _ _ Hv) as (l' & Hi & Hl' & <-).
  assert (slug_index (w_db w) !! slug l = Some (link_id l)) as Hi' by (apply (wf_index _ Hwf); eauto).
  rewrite Hi' in Hi. injection Hi as Hid. rewrite <- Hid, Hl in Hl'. injection Hl' as <-.
  destruct (w_now w <? exp)%Z, (js_str_truthy (originalUrl l)); by simplify_eq.
Qed.

(** A stored slug is answered with its URL, from the cache or from the
    store: under the invariants the two paths agree. *)
Lemma GET_found_response redis_on s req w l :
  s <> "" -> cache_coherent w -> db_wf (w_db w) -> urls_valid (w_db w) ->
  find_unique_slug (w_db w) s = Ok (Some l) ->
  fst (exec (GET redis_on s req) w) = Ok (RRedirect 301 (LocAbs (originalUrl l))).
Proof.
  intros Hs Hcoh Hwf Hval Hf. destruct (find_unique_slug_sound _ _ _ Hwf Hf) as [Hsl Hl].
  rewrite GET_unfold by done; unfold resolve_slug. rewrite exec_try_catch, exec_mbind.
  destruct (cache_hits redis_on w s) as [u|] eqn:Hhit.
  - rewrite (coherent_hit_url _ _ _ _ _ Hcoh Hwf Hf Hhit) in Hhit.
    rewrite (cache_lookup_hit redis_on s req _ (originalUrl l)) by (by eauto || by rewrite cache_hits_log).
    done.
  - destruct (cache_lookup_miss redis_on s req (log_event w EvYield)) as
      (w1 & Hc & Hdb & _); [by rewrite cache_hits_log|].
    rewrite Hc, exec_mbind, exec_call. unfold handle, perform. rewrite Hdb. simpl. rewrite Hf. simpl.
    destruct (serve_link_spec redis_on s req l (log_event w1 (EvDbFind s))) as (w2 & -> & _);
      [by eapply Hval|done].
Qed.

(** C28: an unknown slug is answered with the default redirect (307) to
    [/?error=not-found], and no tracking task is detached, so no click
    log can be written. *)
Theorem GET_not_found redis_on slug req w :
  slug <> "" -> cache_coherent w -> db_online (w_db w) = true ->
  slug_index (w_db w) !! slug = None ->
  exists w', exec (GET redis_on slug req) w =
             (Ok (RRedirect 307 (LocRel "/?error=not-found")), w') /\
    w_db w' = w_db w /\ w_tasks w' = w_tasks w.
Proof.
  intros Hs Hcoh Hon Hidx. rewrite GET_unfold by done; unfold resolve_slug.
  destruct (cache_lookup_miss redis_on slug req (log_event w EvYield)) as
    (w1 & Hc & Hdb & _ & Hts & _); [by rewrite cache_hits_log; apply coherent_unknown_miss|].
  rewrite exec_try_catch, exec_mbind, Hc, exec_mbind, exec_call.
  unfold handle, perform. rewrite Hdb. simpl. unfold find_unique_slug. rewrite Hon, Hidx.
  simpl. eexists. split; [reflexivity|]. world_simpl. by rewrite Hdb, Hts.
Qed.

(** The resolver refines its contract: with the store up, a coherent
    cache (whatever it holds, expired, missing, or Redis down) and valid
    stored URLs, the response of [GET] for a non-empty slug is exactly
    [resolve_spec] of the store: the cache is transparent. *)
Lemma GET_resolve_spec redis_on s req w :
  s <> "" -> cache_coherent w -> db_wf (w_db w) -> urls_valid (w_db w) ->
  db_online (w_db w) = true ->
  fst (exec (GET redis_on s req) w) = Ok (resolve_spec (w_db w) s).
Proof.
  intros Hs Hcoh Hwf Hval Hon. unfold resolve_spec.
  destruct (find_unique_slug (w_db w) s) as [[l|]|e] eqn:Hf.
  - by apply GET_found_response.
  - apply find_unique_slug_none in Hf as Hidx; [|done]. rewrite GET_unfold by done; unfold resolve_slug.
    destruct (cache_lookup_miss redis_on s req (log_event w EvYield)) as
      (w1 & Hc & Hdb & _); [by rewrite cache_hits_log; apply coherent_unknown_miss|].
    rewrite exec_try_catch, exec_mbind, Hc, exec_mbind, exec_call.
    unfold handle, perform. rewrite Hdb. simpl. by rewrite Hf.
  - unfold find_unique_slug in Hf. by rewrite Hon in Hf.
Qed.

(** C29: a store outage on the critical path becomes the plain-text 500
    response; no detail of the failure reaches the client. *)
Theorem GET_db_down redis_on slug req w :
  slug <> "" -> cache_hits redis_on w slug = None -> db_online (w_db w) = false ->
  fst (exec (GET redis_on slug req) w) = Ok (RText 500 "Internal Server Error").
Proof.
  intros Hs Hmiss Hoff. rewrite GET_unfold by done; unfold resolve_slug.
  destruct (cache_lookup_miss redis_on slug req (log_event w EvYield)) as
    (w1 & Hc & Hdb & _); [by rewrite cache_hits_log|].
  rewrite exec_try_catch, exec_mbind, Hc, exec_mbind, exec_call.
  unfold handle, perform. rewrite Hdb. simpl. unfold find_unique_slug. rewrite Hoff. done.
Qed.


(** C30: the handler always produces a response: no exception escapes it. *)
Theorem GET_responds redis_on slug req w :
  exists r w', exec (GET redis_on slug req) w = (Ok r, w').
Proof.
  apply exec_try_catch_total. intros x w'. autorewrite with exec_rw. simpl. eauto.
Qed.

(** ** The invariants are kept by the store's growth *)

Lemma cache_key_inj s s' : cache_key s = cache_key s' -> s = s'.
Proof. unfold cache_key. cbv [String.append]. by intros [=]. Qed.

(** A store that grows under an unchanged Redis keeps the cache coherent:
    links are never removed and their URLs never change. *)
(** What the store says of a slug stays true as it grows: links are
    never removed and their URLs never change. *)
Lemma url_of_grow db db' s v :
  db_wf db -> db_wf db' -> db_le db db' -> url_of db s v -> url_of db' s v.
Proof.
  intros Hwf Hwf' [Hle _] (l & Hi & Hl & Hu).
  destruct (proj1 (wf_index _ Hwf s _) Hi) as (l0 & Hl0 & Hs). rewrite Hl in Hl0. injection Hl0 as <-.
  destruct (Hle _ _ Hl) as (l' & Hl' & Hs' & Hu' & _).
  destruct (wf_ids _ Hwf' _ _ Hl') as [Hid _].
  exists l'. rewrite Hid. repeat split; [|done|congruence].
  apply (wf_index _ Hwf'). exists l'. split; [done|congruence].
Qed.

(** A store that grows under an unchanged Redis keeps the cache coherent. *)
Lemma coherent_grow w w' :
  cache_coherent w -> db_wf (w_db w) -> db_wf (w_db w') -> db_le (w_db w) (w_db w') ->
  w_redis w' = w_redis w -> cache_coherent w'.
Proof.
  intros Hcoh Hwf Hwf' Hle Hr s v exp Hv. rewrite Hr in Hv.
  apply (url_of_grow (w_db w)); [done|done|done|]. by eapply Hcoh.
Qed.

Lemma create_urls_valid db s u now l db' :
  urls_valid db -> isValidUrl u = true -> create_link db s u now = Ok (l, db') -> urls_valid db'.
Proof.
  intros Hval Hu Hc. apply create_link_ok in Hc as (_ & _ & -> & ->). intros id l'. simpl.
  destruct (decide (id = next_id db)) as [->|Hne].
  - rewrite lookup_insert_eq. by intros [= <-].
  - rewrite lookup_insert_ne by done. apply Hval.
Qed.

Lemma click_txn_urls_valid db id iph ua now db' :
  urls_valid db -> click_txn db id iph ua now = Ok db' -> urls_valid db'.
Proof.
  intros Hval Hc. apply click_txn_ok in Hc as (_ & l & Hl & ->). intros id' l'. simpl.
  destruct (decide (id' = id)) as [->|Hne].
  - rewrite lookup_insert_eq. intros [= <-]. exact (Hval id l Hl).
  - rewrite lookup_insert_ne by done. apply Hval.
Qed.

Lemma cached_world_coherent : cache_coherent cached_world.
Proof.
  intros s v exp Hv. cbn [cached_world w_redis r_data] in Hv. apply lookup_singleton_Some in Hv as [Hk [= <- _]].
  apply cache_key_inj in Hk as <-. exists sample_link. by split.
Qed.

Lemma sample_world_coherent : cache_coherent sample_world.
Proof. intros s v exp Hv. vm_compute in Hv. discriminate Hv. Qed.

Lemma sample_urls_valid : urls_valid sample_db.
Proof. intros id l Hl. cbn [sample_db links] in Hl. apply lookup_singleton_Some in Hl as [_ <-]. reflexivity. Qed.

(** ** Witnesses on the sample world *)

Lemma GET_cache_hit_witness :
  exec (GET true "abc" sample_req) cached_world =
  (Ok (RRedirect 301 (LocAbs "https://example.com")),
   mkWorld sample_db (w_redis cached_world) 0 sample_entropy 0
           [TrackClick "abc" sample_req None]
           [EvYield; EvCacheGet (cache_key "abc"); EvSpawn (TrackClick "abc" sample_req None)]).
Proof. apply GET_cache_hit; [discriminate|reflexivity|reflexivity]. Defined.

Lemma GET_store_path_witness :
  exists w', exec (GET true "abc" sample_req) sample_world =
             (Ok (RRedirect 301 (LocAbs "https://example.com")), w') /\
    w_db w' = sample_db /\ w_redis w' = redis_after_fill true sample_world "abc" "https://example.com" /\
    w_tasks w' = [TrackClick "abc" sample_req (Some 1)] /\ w_now w' = 0%Z.
Proof.
  apply (GET_store_path true "abc" sample_req sample_world sample_link);
    [discriminate|reflexivity|exact sample_db_wf|reflexivity|reflexivity|reflexivity|reflexivity].
Defined.

Lemma GET_not_found_witness :
  exists w', exec (GET true "nope" sample_req) sample_world =
             (Ok (RRedirect 307 (LocRel "/?error=not-found")), w') /\
    w_db w' = sample_db /\ w_tasks w' = [].
Proof.
  apply GET_not_found; [discriminate| |reflexivity|reflexivity].
  intros s v e H. vm_compute in H. discriminate H.
Defined.

Lemma GET_db_down_witness :
  fst (exec (GET true "abc" sample_req) (with_db sample_world (set_online sample_db false))) =
  Ok (RText 500 "Internal Server Error").
Proof. apply GET_db_down; [discriminate|reflexivity|reflexivity]. Defined.

