(* ===== verification/SlugGen.v ===== *)
(** * SlugGen: SlugGenerator, [generateUniqueSlug] (src/src/lib/utils/url.ts
    lines 1-27) and the nanoid generator it calls

    [generateSlugAlphabet = customAlphabet(alphabet, 6)] is nanoid's
    [customRandom(alphabet, 6, random)]: with [mask = (2 << log2(61)) - 1
    = 63] and [step = -~(1.6 * mask * 6 / 62) = 10], a call with [size]
    draws [step] random bytes at a time and reads them from the last to
    the first, appending [alphabet[byte & mask]] when that index exists
    (62 and 63 do not), until the id has [size] characters.  The outer
    [while (true)] only ends when enough bytes are accepted; [nanoid] runs
    it for at most [fuel] batches and [nanoid_returns] shows that
    [size] batches suffice when each batch has an accepted byte (a batch
    of ten bytes has none with probability (2/64)^10).  The random bytes
    come from the world's entropy stream ([RandomBytes]).

    [generateUniqueSlug(length, retries)] tries [retries] candidates, of
    length [length + floor(i / 2)] for try [i], returning the first that
    the store does not hold, and throws ["Failed to generate a unique
    slug."] when all are taken. *)

From S2P Require Import Prelude Js Url Store Cache Http World.

Definition alphabet : string :=
  "0123456789ABCDEFGHIJKLMNOPQRSTUVWXYZabcdefghijklmnopqrstuvwxyz".

Definition alphabet_len : Z := Z.of_nat (String.length alphabet).

(** [(2 << Math.log2(alphabet.length - 1)) - 1] *)
Definition nanoid_mask : Z := Z.shiftl 2 (Z.log2 (alphabet_len - 1)) - 1.

(** [-~((1.6 * mask * defaultSize) / alphabet.length)], i.e. the floor
    plus one, computed exactly in tenths. *)
Definition nanoid_step (default_size : Z) : nat :=
  Z.to_nat ((16 * nanoid_mask * default_size) / (10 * alphabet_len) + 1).

Definition default_size : Z := 6.

(** [alphabet[bytes[j] & mask] || ''] *)
Definition pick (b : Z) : option Ascii.ascii :=
  String.get (Z.to_nat (Z.land b nanoid_mask)) alphabet.

(** The inner [while (j--)] over one batch, read from its last byte:
    [Some id] is the [return id] once [id.length >= size]. *)
Fixpoint fill (bs : list Z) (id : string) (size : nat) : option string * string :=
  match bs with
  | [] => (None, id)
  | b :: bs' =>
      let id' := match pick b with Some c => id +:+ String c "" | None => id end in
      if size <=? String.length id' then (Some id', id') else fill bs' id' size
  end.

(** The outer [while (true)], for at most [fuel] batches. *)
Fixpoint nanoid_loop (fuel size : nat) (id : string) : M string :=
  match fuel with
  | O => throw (XError "nanoid: entropy exhausted")
  | S f =>
      bytes <- call (RandomBytes (nanoid_step default_size)) ;;
      match fill (rev bytes) id size with
      | (Some r, _) => ret r
      | (None, id') => nanoid_loop f size id'
      end
  end.

(** Enough batches for the sizes [generateUniqueSlug] asks for. *)
Definition nanoid_fuel : nat := 64.

(** [generateSlugAlphabet(size)] *)
Definition nanoid (size : nat) : M string := nanoid_loop nanoid_fuel size "".

(** The loop of [generateUniqueSlug]: try [i], [n] tries left. *)
Fixpoint gus_loop (length i n : nat) : M string :=
  match n with
  | O => throw (XError "Failed to generate a unique slug.")
  | S n' =>
      slug <- nanoid (length + Nat.div i 2) ;;
      existing <- call (DbFindSlug slug) ;;
      match existing with
      | None => ret slug
      | Some _ => gus_loop length (S i) n'
      end
  end.

Definition generateUniqueSlug (length retries : nat) : M string := gus_loop length 0 retries.

Definition in_alphabet (c : Ascii.ascii) : bool :=
  existsb (Ascii.eqb c) (String.list_ascii_of_string alphabet).

(** A byte nanoid keeps ([alphabet[b & 63]] is defined). *)
Definition accepted (b : Z) : bool := match pick b with Some _ => true | None => false end.

(** Only the entropy cursor and the log change. *)
Definition same_but_entropy (w w' : World) : Prop :=
  w_db w' = w_db w /\ w_redis w' = w_redis w /\ w_tasks w' = w_tasks w /\ w_now w' = w_now w /\
  w_entropy w' = w_entropy w.

(** The [k]-th batch of bytes from the cursor of [w]. *)
Definition batch (w : World) (k : nat) : list Z :=
  map (fun i => Z.land (w_entropy w (w_rpos w + k * nanoid_step default_size + i)) 255)
      (seq 0 (nanoid_step default_size)).

Example nanoid_constants : nanoid_mask = 63%Z /\ nanoid_step default_size = 10.
Proof. split; reflexivity. Qed.

(** ** A declarative reference for nanoid *)

(** The characters the accepted bytes of [bs] give. *)
Definition picks (bs : list Z) : list Ascii.ascii := omap pick bs.

(** The bytes nanoid scans in [n] batches: each batch from its last byte. *)
Definition stream (w : World) (n : nat) : list Z := concat (map (fun k => rev (batch w k)) (seq 0 n)).

(** ** The generated characters *)

Lemma get_in_list n s c :
  String.get n s = Some c -> existsb (Ascii.eqb c) (String.list_ascii_of_string s) = true.
Proof.
  revert n. induction s as [|x s IH]; intros [|n]; simpl; try done.
  - intros [= ->]. by rewrite Ascii.eqb_refl.
  - intros H. rewrite (IH n H). apply orb_true_r.
Qed.

Lemma pick_in_alphabet b c : pick b = Some c -> in_alphabet c = true.
Proof. apply get_in_list. Qed.

Lemma fill_length bs id size r id' :
  String.length id < size -> fill bs id size = (r, id') ->
  match r with
  | Some x => x = id' /\ String.length x = size
  | None => String.length id' < size /\ String.length id + count_by accepted bs <= String.length id'
  end.
Proof.
  revert id. induction bs as [|b bs IH]; intros id Hlt; simpl.
  - intros [= <- <-]. rewrite count_by_nil. lia.
  - assert (Hl : String.length (match pick b with Some c => id +:+ String c "" | None => id end) =
                 String.length id + (if accepted b then 1 else 0)).
    { unfold accepted. destruct (pick b); [rewrite str_length_app; simpl; lia|lia]. }
    rewrite count_by_cons_eq.
    destruct (size <=? String.length _) eqn:Hs.
    + intros [= <- <-]. apply Nat.leb_le in Hs. split; [done|]. destruct (accepted b); lia.
    + apply Nat.leb_gt in Hs. intros Hf. specialize (IH _ Hs Hf).
      destruct r; [done|]. lia.
Qed.

Lemma fill_alphabet bs id size r id' :
  str_forallb in_alphabet id = true -> fill bs id size = (r, id') ->
  str_forallb in_alphabet id' = true.
Proof.
  revert id. induction bs as [|b bs IH]; intros id Hok; simpl; [by intros [= _ <-]|].
  assert (Hok1 : str_forallb in_alphabet
    (match pick b with Some c => id +:+ String c "" | None => id end) = true).
  { destruct (pick b) as [c|] eqn:Hp; [|done].
    rewrite str_forallb_app, Hok. simpl. by rewrite (pick_in_alphabet b c Hp). }
  destruct (size <=? String.length _); [by intros [= _ <-]|]. by apply IH.
Qed.

(** ** The generator loop *)

Lemma nanoid_loop_spec fuel size id w r w' :
  String.length id < size -> str_forallb in_alphabet id = true ->
  exec (nanoid_loop fuel size id) w = (r, w') ->
  same_but_entropy w w' /\
  (forall x, r = Ok x -> String.length x = size /\ str_forallb in_alphabet x = true).
Proof.
  revert id w. induction fuel as [|f IH]; intros id w Hlt Hok; cbn [nanoid_loop].
  - intros [= <- <-]. split; [repeat split|done].
  - rewrite exec_mbind, exec_call. cbn [handle perform].
    destruct (fill (rev (random_bytes w (nanoid_step default_size))) id size) as [[x|] id'] eqn:Hf.
    + intros [= <- <-]. split; [repeat split|]. intros ? [= <-].
      pose proof (fill_length _ _ _ _ _ Hlt Hf) as [-> Hl]. split; [done|].
      by apply (fill_alphabet _ _ _ _ _ Hok Hf).
    + pose proof (fill_length _ _ _ _ _ Hlt Hf) as [Hlt' _].
      pose proof (fill_alphabet _ _ _ _ _ Hok Hf) as Hok'.
      intros Hex. destruct (IH id' _ Hlt' Hok' Hex) as [(H1 & H2 & H3 & H4 & H5) Hr].
      split; [|done]. world_simpl. repeat split; congruence.
Qed.

(** A batch is what [RandomBytes] reads at the cursor. *)
Lemma random_bytes_batch0 w : random_bytes w (nanoid_step default_size) = batch w 0.
Proof. unfold random_bytes, batch. apply map_ext. intros i. by rewrite Nat.add_0_r. Qed.

(** After a batch is read, the next batches are the later ones. *)
Lemma batch_shift w k ev :
  batch (log_event (with_rpos w (w_rpos w + nanoid_step default_size)) ev) k = batch w (S k).
Proof. unfold batch. world_simpl. apply map_ext. intros i. f_equal. f_equal. lia. Qed.

Lemma nanoid_loop_returns fuel size id w :
  String.length id < size ->
  (forall k, k < size - String.length id -> existsb accepted (batch w k) = true) ->
  size - String.length id <= fuel ->
  exists x w', exec (nanoid_loop fuel size id) w = (Ok x, w').
Proof.
  revert id w. induction fuel as [|f IH]; intros id w Hlt Hacc Hfuel; [lia|]. cbn [nanoid_loop].
  rewrite exec_mbind, exec_call. cbn [handle perform].
  rewrite random_bytes_batch0. destruct (fill (rev (batch w 0)) id size) as [[x|] id'] eqn:Hf; [by eauto|].
  pose proof (fill_length _ _ _ _ _ Hlt Hf) as [Hlt' Hgrow].
  rewrite count_by_rev in Hgrow.
  pose proof (count_by_existsb _ _ (Hacc 0 ltac:(lia))) as Hone.
  apply IH; [done| |lia].
  intros k Hk. rewrite batch_shift. apply Hacc. lia.
Qed.

(** C25: termination of nanoid's [while (true)]: when each of the next
    [size] batches of random bytes has a byte that indexes the alphabet,
    [size] batches of fuel suffice and the generator returns an id; every
    id it returns has exactly [size] characters, all from the 62-letter
    alphabet. *)
Theorem nanoid_returns size w :
  0 < size <= nanoid_fuel ->
  (forall k, k < size -> existsb accepted (batch w k) = true) ->
  exists x w', exec (nanoid size) w = (Ok x, w') /\
    String.length x = size /\ str_forallb in_alphabet x = true.
Proof.
  intros Hsize Hacc.
  destruct (nanoid_loop_returns nanoid_fuel size "" w) as (x & w' & Hx); simpl; try lia.
  { intros k Hk. apply Hacc. lia. }
  exists x, w'. split; [done|].
  assert (H0 : String.length "" < size) by (simpl; lia).
  destruct (nanoid_loop_spec nanoid_fuel size "" w (Ok x) w' H0 eq_refl Hx) as [_ H]. by apply H.
Qed.

Lemma sol_length l : String.length (String.string_of_list_ascii l) = length l.
Proof. induction l; simpl; auto. Qed.

Lemma str_app_sol_cons id c l :
  (id +:+ String c "") +:+ String.string_of_list_ascii l = id +:+ String.string_of_list_ascii (c :: l).
Proof. by rewrite <- str_app_assoc. Qed.

Lemma picks_cons b bs :
  picks (b :: bs) = match pick b with Some c => c :: picks bs | None => picks bs end.
Proof. reflexivity. Qed.

(** The inner loop scans accepted characters until the size is reached. *)
Lemma fill_picks bs id size :
  String.length id < size ->
  fill bs id size =
  if size <=? String.length id + length (picks bs)
  then (Some (id +:+ String.string_of_list_ascii (take (size - String.length id) (picks bs))),
        id +:+ String.string_of_list_ascii (take (size - String.length id) (picks bs)))
  else (None, id +:+ String.string_of_list_ascii (picks bs)).
Proof.
  revert id. induction bs as [|b bs IH]; intros id Hlt; cbn [fill].
  - cbn [picks omap list_omap length String.string_of_list_ascii].
    rewrite (proj2 (Nat.leb_gt _ _)) by lia. by rewrite str_app_nil_r.
  - rewrite picks_cons. destruct (pick b) as [c|] eqn:Hp.
    + rewrite str_length_app. cbn [String.length length].
      destruct (Nat.leb_spec size (String.length id + 1)) as [Hs|Hs].
      * rewrite (proj2 (Nat.leb_le _ _)) by lia.
        replace (size - String.length id) with 1 by lia. done.
      * rewrite IH by (rewrite str_length_app; simpl; lia). rewrite str_length_app. cbn [String.length].
        replace (size - String.length id) with (S (size - (String.length id + 1))) by lia.
        replace (String.length id + 1 + length (picks bs)) with (String.length id + S (length (picks bs)))
          by lia.
        cbn [take]. by rewrite !str_app_sol_cons.
    + rewrite (proj2 (Nat.leb_gt _ _)) by lia. by apply IH.
Qed.

Lemma sol_app l1 l2 :
  String.string_of_list_ascii (l1 ++ l2) =
  String.string_of_list_ascii l1 +:+ String.string_of_list_ascii l2.
Proof. induction l1; simpl; [done|]. rewrite str_app_cons. by f_equal. Qed.

Lemma picks_app bs1 bs2 : picks (bs1 ++ bs2) = picks bs1 ++ picks bs2.
Proof. induction bs1 as [|b bs IH]; [done|]. rewrite <- app_comm_cons, !picks_cons, IH. by destruct (pick b). Qed.

Lemma stream_S w f ev :
  stream w (S f) =
  rev (batch w 0) ++ stream (log_event (with_rpos w (w_rpos w + nanoid_step default_size)) ev) f.
Proof.
  unfold stream. cbn [seq map concat]. f_equal. rewrite <- seq_shift, map_map.
  f_equal. apply map_ext. intros k. by rewrite batch_shift.
Qed.

(** The outer loop, against the reference: the first characters of the
    stream, whatever the batch boundaries. *)
Lemma nanoid_loop_picks fuel size id w :
  String.length id < size ->
  fst (exec (nanoid_loop fuel size id) w) =
  if size <=? String.length id + length (picks (stream w fuel))
  then Ok (id +:+ String.string_of_list_ascii (take (size - String.length id) (picks (stream w fuel))))
  else Err (XError "nanoid: entropy exhausted").
Proof.
  revert id w. induction fuel as [|f IH]; intros id w Hlt; cbn [nanoid_loop].
  - cbn. by rewrite (proj2 (Nat.leb_gt _ _)) by lia.
  - rewrite exec_mbind, exec_call. cbn [handle perform]. rewrite random_bytes_batch0.
    rewrite (stream_S w f (event_of (RandomBytes (nanoid_step default_size)))).
    set (w1 := log_event _ _). rewrite picks_app, length_app.
    rewrite fill_picks by done. set (P0 := picks (rev (batch w 0))). set (P1 := picks (stream w1 f)).
    destruct (Nat.leb_spec size (String.length id + length P0)) as [Hs|Hs].
    + rewrite (proj2 (Nat.leb_le _ _)) by lia. simpl. by rewrite take_app_le by lia.
    + rewrite IH by (rewrite str_length_app, sol_length; lia).
      rewrite str_length_app, sol_length. fold P1.
      replace (String.length id + length P0 + length P1) with (String.length id + (length P0 + length P1))
        by lia.
      destruct (size <=? _); [|done].
      rewrite take_app, (take_ge P0 (size - String.length id)) by lia. rewrite sol_app, str_app_assoc. replace (size - String.length id - length P0) with (size - (String.length id + length P0)) by lia.
      done.
Qed.

(** ** [generateUniqueSlug] *)

Lemma gus_loop_spec len i n w s w' :
  0 < len -> db_wf (w_db w) -> exec (gus_loop len i n) w = (Ok s, w') ->
  slug_index (w_db w) !! s = None /\ w_db w' = w_db w /\
  (exists j, i <= j < i + n /\ String.length s = len + Nat.div j 2) /\
  str_forallb in_alphabet s = true /\ db_online (w_db w) = true.
Proof.
  revert i w. induction n as [|n IH]; intros i w Hlen Hwf; cbn [gus_loop]; [done|].
  rewrite exec_mbind. destruct (exec (nanoid (len + Nat.div i 2)) w) as [[c|x] w1] eqn:Hn;
    [|by intros [=]].
  assert (H0 : String.length "" < len + Nat.div i 2) by (simpl; lia).
  destruct (nanoid_loop_spec _ _ _ _ _ _ H0 eq_refl Hn) as [(Hdb1 & _) Hc].
  destruct (Hc c eq_refl) as [Hclen Hcal].
  rewrite exec_mbind, exec_call. cbn [handle perform].
  destruct (find_unique_slug (w_db w1) c) as [[l|]|e] eqn:Hf; simpl; [| |by intros [=]].
  - intros Hrec.
    assert (Hwf2 : db_wf (w_db (log_event w1 (EvDbFind c)))) by (world_simpl; by rewrite Hdb1).
    destruct (IH (S i) _ Hlen Hwf2 Hrec) as (Hidx & Hdb & (j & Hj & Hjl) & Hal & Hon).
    world_simpl. rewrite Hdb1 in Hidx, Hdb, Hon. split; [done|]. split; [done|].
    split; [exists j; split; [lia|done]|done].
  - intros [= <- <-]. world_simpl. rewrite Hdb1 in Hf |- *.
    split; [by apply find_unique_slug_none|]. split; [done|]. split; [exists i; split; [lia|done]|].
    split; [done|]. unfold find_unique_slug in Hf. by destruct (db_online (w_db w)).
Qed.

(** Generation only reads the store and draws entropy, whatever its
    outcome. *)
Lemma gus_loop_frame len i n w r w' :
  0 < len -> exec (gus_loop len i n) w = (r, w') ->
  w_db w' = w_db w /\ w_now w' = w_now w /\ w_redis w' = w_redis w /\ w_tasks w' = w_tasks w.
Proof.
  revert i w. induction n as [|n IH]; intros i w Hlen; cbn [gus_loop]; [by intros [= _ <-]|].
  rewrite exec_mbind. destruct (exec (nanoid (len + Nat.div i 2)) w) as [r1 w1] eqn:Hn.
  assert (H0 : String.length "" < len + Nat.div i 2) by (simpl; lia).
  destruct (nanoid_loop_spec _ _ _ _ _ _ H0 eq_refl Hn) as [(Hdb1 & Hr1 & Ht1 & Hnow1 & _) _].
  destruct r1 as [c|x]; [|by intros [= _ <-]].
  rewrite exec_mbind, exec_call. cbn [handle perform].
  destruct (find_unique_slug (w_db w1) c) as [[l|]|e]; simpl.
  - intros Hrec. destruct (IH (S i) _ Hlen Hrec) as (H1 & H2 & H3 & H4). world_simpl.
    repeat split; congruence.
  - intros [= _ <-]. world_simpl. repeat split; congruence.
  - intros [= _ <-]. world_simpl. repeat split; congruence.
Qed.

(** C23: a slug [generateUniqueSlug(length, retries)] returns was free in the
    store when it was checked (the store is only read), has [length +
    floor(i/2)] characters for the try [i < retries] that produced it,
    and is made of the 62-character alphabet. *)
Theorem generateUniqueSlug_spec len retries w s w' :
  0 < len -> db_wf (w_db w) -> exec (generateUniqueSlug len retries) w = (Ok s, w') ->
  slug_index (w_db w) !! s = None /\ w_db w' = w_db w /\
  len <= String.length s <= len + Nat.div (retries - 1) 2 /\
  str_forallb in_alphabet s = true.
Proof.
  intros Hlen Hwf Hex.
  destruct (gus_loop_spec len 0 retries w s w' Hlen Hwf Hex) as (Hidx & Hdb & (j & Hj & Hl) & Hal & _).
  repeat split; try done; rewrite Hl; [lia|].
  apply Nat.add_le_mono_l, Nat.Div0.div_le_mono. lia.
Qed.

(** With enough accepted bytes in the fuel's batches,
    [generateSlugAlphabet(size)] (its batches read from the last byte,
    its rejected bytes skipped, its return in the middle of a batch)
    returns exactly the first [size] accepted characters of the byte
    stream. *)
Lemma nanoid_first_accepted size w :
  0 < size -> size <= length (picks (stream w nanoid_fuel)) ->
  fst (exec (nanoid size) w) = Ok (String.string_of_list_ascii (take size (picks (stream w nanoid_fuel)))).
Proof.
  intros Hsize Hp. unfold nanoid. rewrite nanoid_loop_picks by (simpl; lia).
  cbn [String.length]. rewrite (proj2 (Nat.leb_le _ _)) by lia. by rewrite Nat.sub_0_r, str_app_nil.
Qed.

(** ** Witnesses on the sample world *)

Lemma nanoid_returns_witness :
  exists x w', exec (nanoid 6) sample_world = (Ok x, w') /\
    String.length x = 6 /\ str_forallb in_alphabet x = true.
Proof.
  apply nanoid_returns; [vm_compute; lia|].
  intros k Hk. do 6 (destruct k as [|k]; [vm_compute; reflexivity|]). lia.
Defined.

Lemma generateUniqueSlug_spec_witness :
  slug_index sample_db !! "OpEf4V" = None /\ w_db (snd (exec (generateUniqueSlug 6 5) sample_world)) = sample_db /\
  6 <= String.length "OpEf4V" <= 6 + Nat.div (5 - 1) 2 /\ str_forallb in_alphabet "OpEf4V" = true.
Proof.
  apply (generateUniqueSlug_spec 6 5 sample_world); [lia|exact sample_db_wf|].
  vm_compute. reflexivity.
Defined.

