(* ===== verification/Shorten.v ===== *)
(** * Shorten: ShortenService, [POST /api/shorten]
    (src/src/app/api/shorten/route.ts lines 5-72)

    The handler parses the JSON body (a malformed body makes [req.json()]
    throw), destructures [originalUrl] and [customSlug] (a [null] body
    throws a [TypeError]), answers 400 when [originalUrl] is falsy or
    fails [isValidUrl], and then:
    - with a truthy [customSlug]: 400 when its [length] compares below 3
      or above 30, 409 when the store already holds it, else the link is
      created under it;
    - otherwise: [generateUniqueSlug(6, 5)], whose failure is caught and
      answered with a 500 JSON error.
    [prisma.link.create] then stores the link (its own errors, a slug
    taken since the check included, reach the outer [catch]: 500), and the
    201 response carries [baseUrl/slug].  Prisma rejects arguments that
    are not strings ([prisma_string]).  Body values are [JsVal]s, so the
    model covers what a client can send, not only what the TypeScript
    types claim. *)

From S2P Require Import Prelude Js Url Store Cache Http World Tracker Redirect SlugGen.

Definition json_error (status : Z) (msg : string) : Response := RJson status (JBError msg).

(** A Prisma [String] argument. *)
Definition prisma_string (v : JsVal) : M string :=
  match v with JStr s => ret s | _ => throw XPrismaValidation end.

(** [v.p], throwing on null and undefined. *)
Definition get_prop (v : JsVal) (p : string) : M JsVal := of_option (js_get_prop v p) XTypeError.

(** [process.env.NEXT_PUBLIC_BASE_URL || 'http://localhost:3000'] *)
Definition base_url (env : gmap string string) : string :=
  js_or (env !! "NEXT_PUBLIC_BASE_URL") "http://localhost:3000".

(** Lines 57-77: create the link and answer 201. *)
Definition create_and_respond (env : gmap string string) (ou slug : JsVal) : M Response :=
  url <- prisma_string ou ;;
  s <- prisma_string slug ;;
  link <- call (DbCreate s url) ;;
  let shortUrl := base_url env +:+ "/" +:+ Store.slug link in
  ret (RJson 201 (JBShortened shortUrl (Store.slug link) (Store.originalUrl link))).

(** Lines 30-46: the custom slug branch. *)
Definition custom_branch (env : gmap string string) (ou cs : JsVal) : M Response :=
  len <- get_prop cs "length" ;;
  if js_lt_num len 3 || js_gt_num len 30 then
    ret (json_error 400 "Custom slug must be between 3 and 30 characters")
  else
    s <- prisma_string cs ;;
    existing <- call (DbFindSlug s) ;;
    match existing with
    | Some _ => ret (json_error 409 "Custom slug is already taken")
    | None => create_and_respond env ou cs
    end.

(** Lines 47-55: the generated slug branch; [inl] is the early [return]. *)
Definition generated_branch (env : gmap string string) (ou : JsVal) : M Response :=
  generated <- try_catch (g <- generateUniqueSlug 6 5 ;; ret (inr g))
                         (fun _ => call (Console "Error generating slug:") ;;;
                                   ret (inl (json_error 500 "Failed to generate short link. Please try again."))) ;;
  match generated with
  | inl resp => ret resp
  | inr g => create_and_respond env ou (JStr g)
  end.

(** Lines 6-75: the body of the [try] block. *)
Definition shorten_body (env : gmap string string) (req : Request) : M Response :=
  body <- of_option (req_body req) XJson ;;
  ou <- get_prop body "originalUrl" ;;
  cs <- get_prop body "customSlug" ;;
  if negb (js_truthy ou) then ret (json_error 400 "Missing originalUrl")
  else if negb (isValidUrl (js_to_string ou)) then ret (json_error 400 "Invalid URL format")
  else if js_truthy cs then custom_branch env ou cs
  else generated_branch env ou.

Definition POST (env : gmap string string) (req : Request) : M Response :=
  try_catch (shorten_body env req)
            (fun _ => call (Console "[Shorten API Error]") ;;; ret (json_error 500 "Internal Server Error")).

(** A request whose body is the JSON object [fields]. *)
Definition post_request (fields : list (string * JsVal)) : Request :=
  mkRequest "http://localhost:3000/api/shorten" ∅ None (Some (JObj fields)).


(** ** Lemmas *)

Lemma isValidUrl_nonempty u : isValidUrl u = true -> js_str_truthy u = true.
Proof. intros H. apply js_str_truthy_iff. intros ->. done. Qed.

Lemma length_ok_num (c : string) :
  3 <= String.length c <= 30 ->
  js_lt_num (JNum (Z.of_nat (String.length c))) 3 || js_gt_num (JNum (Z.of_nat (String.length c))) 30 = false.
Proof.
  intros H. unfold js_lt_num, js_gt_num. simpl.
  destruct (Z.ltb_spec (Z.of_nat (String.length c)) 3); [lia|].
  destruct (Z.ltb_spec 30 (Z.of_nat (String.length c))); [lia|done].
Qed.

(** The validation prefix for a body with a string URL and a string
    custom slug. *)
Lemma POST_custom_unfold env u c w :
  isValidUrl u = true -> c <> "" ->
  exec (POST env (post_request [("originalUrl", JStr u); ("customSlug", JStr c)])) w =
  exec (try_catch (custom_branch env (JStr u) (JStr c))
          (fun _ => call (Console "[Shorten API Error]") ;;; ret (json_error 500 "Internal Server Error"))) w.
Proof.
  intros Hu Hc. unfold POST, shorten_body, get_prop. cbn [req_body post_request of_option].
  rewrite !mbind_ret. cbn [js_get_prop assoc_last default]. simpl. rewrite !mbind_ret.
  cbn [js_truthy js_to_string]. rewrite (isValidUrl_nonempty u Hu), Hu.
  apply js_str_truthy_iff in Hc. by rewrite Hc.
Qed.

Lemma find_unique_slug_free db s :
  db_online db = true -> slug_index db !! s = None -> find_unique_slug db s = Ok None.
Proof. intros Hon Hi. unfold find_unique_slug. by rewrite Hon, Hi. Qed.

(** The custom-slug path to the creation: the store's [create] is what
    changes the world, Redis is not touched. *)
Lemma POST_custom_exec env u c w :
  isValidUrl u = true -> 3 <= String.length c <= 30 ->
  db_online (w_db w) = true -> slug_index (w_db w) !! c = None ->
  exists l db' w', create_link (w_db w) c u (w_now w) = Ok (l, db') /\
    exec (POST env (post_request [("originalUrl", JStr u); ("customSlug", JStr c)])) w =
    (Ok (RJson 201 (JBShortened (base_url env +:+ "/" +:+ c) c u)), w') /\
    w_db w' = db' /\ w_redis w' = w_redis w.
Proof.
  intros Hu Hlen Hon Hfree. rewrite POST_custom_unfold by (done || (intros ->; simpl in *; lia)).
  unfold custom_branch, get_prop. cbn [js_get_prop of_option]. rewrite mbind_ret. simpl.
  rewrite length_ok_num by done. cbv beta iota.
  rewrite exec_try_catch, mbind_ret, exec_mbind, exec_call. cbn [handle perform].
  rewrite find_unique_slug_free by done.
  simpl. unfold handle, perform. world_simpl. unfold create_link. rewrite Hon, Hfree. simpl.
  do 3 eexists. split; [reflexivity|]. split; [reflexivity|]. done.
Qed.

(** C6: a valid URL with a free custom slug of 3 to 30 characters is
    stored under that slug and answered 201 with [baseUrl/slug]; the
    store then resolves the slug to the URL. *)
Theorem POST_custom_created env u c w :
  isValidUrl u = true -> 3 <= String.length c <= 30 ->
  db_online (w_db w) = true -> slug_index (w_db w) !! c = None ->
  exists w', exec (POST env (post_request [("originalUrl", JStr u); ("customSlug", JStr c)])) w =
             (Ok (RJson 201 (JBShortened (base_url env +:+ "/" +:+ c) c u)), w') /\
    find_unique_slug (w_db w') c = Ok (Some (mkLink (next_id (w_db w)) c u 0 (w_now w))).
Proof.
  intros Hu Hlen Hon Hfree.
  destruct (POST_custom_exec env u c w Hu Hlen Hon Hfree) as (l & db' & w' & Hc & Hex & Hdb & _).
  exists w'. split; [done|]. rewrite Hdb, (create_link_find _ _ _ _ _ _ Hc).
  apply create_link_ok in Hc as (_ & _ & -> & _). done.
Qed.

(** C21: a custom slug the store already holds is answered 409 and the
    store is left unchanged. *)
Theorem POST_custom_conflict env u c w :
  isValidUrl u = true -> 3 <= String.length c <= 30 -> db_wf (w_db w) ->
  db_online (w_db w) = true -> is_Some (slug_index (w_db w) !! c) ->
  exists w', exec (POST env (post_request [("originalUrl", JStr u); ("customSlug", JStr c)])) w =
             (Ok (json_error 409 "Custom slug is already taken"), w') /\ w_db w' = w_db w.
Proof.
  intros Hu Hlen Hwf Hon [id Hid]. rewrite POST_custom_unfold by (done || (intros ->; simpl in *; lia)).
  unfold custom_branch, get_prop. cbn [js_get_prop of_option]. rewrite mbind_ret. simpl.
  rewrite length_ok_num by done. cbv beta iota.
  rewrite exec_try_catch, mbind_ret, exec_mbind, exec_call. cbn [handle perform].
  pose proof Hid as Hid'. apply (wf_index _ Hwf) in Hid' as (l & Hl & _).
  unfold find_unique_slug. rewrite Hon, Hid. simpl. rewrite Hl. simpl. by eexists.
Qed.


(** The validation prefix for a body with a string URL and no custom
    slug ([customSlug] reads as [undefined]). *)
Lemma POST_generated_unfold env u w :
  isValidUrl u = true ->
  exec (POST env (post_request [("originalUrl", JStr u)])) w =
  exec (try_catch (generated_branch env (JStr u))
          (fun _ => call (Console "[Shorten API Error]") ;;; ret (json_error 500 "Internal Server Error"))) w.
Proof.
  intros Hu. unfold POST, shorten_body, get_prop. cbn [req_body post_request of_option].
  rewrite !mbind_ret. cbn [js_get_prop assoc_last default]. simpl. rewrite !mbind_ret.
  cbn [js_truthy js_to_string]. by rewrite (isValidUrl_nonempty u Hu), Hu.
Qed.

(** C22: the generated-slug path: with a valid URL and no custom slug,
    [POST] either creates the link under a fresh slug of 6 to 8
    characters of the alphabet and answers 201, or (the store down or
    every try taken) answers the generation 500 with the store
    unchanged.  Run alone, the creation never meets a taken slug: the
    generic 500 is not reachable on this path. *)
Theorem POST_generated env u w :
  isValidUrl u = true -> db_wf (w_db w) ->
  exists r w', exec (POST env (post_request [("originalUrl", JStr u)])) w = (Ok r, w') /\
  ((exists s, r = RJson 201 (JBShortened (base_url env +:+ "/" +:+ s) s u) /\
      slug_index (w_db w) !! s = None /\ 6 <= String.length s <= 8 /\
      str_forallb in_alphabet s = true /\
      find_unique_slug (w_db w') s = Ok (Some (mkLink (next_id (w_db w)) s u 0 (w_now w)))) \/
   (r = json_error 500 "Failed to generate short link. Please try again." /\ w_db w' = w_db w)).
Proof.
  intros Hu Hwf. rewrite POST_generated_unfold by done.
  unfold generated_branch. rewrite exec_try_catch, exec_mbind, exec_try_catch, exec_mbind.
  destruct (exec (generateUniqueSlug 6 5) w) as [[s|x] w1] eqn:Hg.
  - destruct (gus_loop_spec 6 0 5 w s w1) as (Hfree & Hdb & (j & Hj & Hlen) & Hal & Hon);
      [lia|done|done|].
    destruct (gus_loop_frame 6 0 5 w (Ok s) w1) as (_ & Hnow & _); [lia|done|].
    rewrite exec_ret. cbv beta iota. unfold create_and_respond, prisma_string. rewrite !mbind_ret, exec_mbind, exec_call.
    unfold handle, perform. rewrite Hdb, Hnow. unfold create_link. rewrite Hon, Hfree. simpl.
    do 2 eexists. split; [reflexivity|]. left. exists s.
    assert (Hj2 : j / 2 <= 4 / 2) by (apply Nat.Div0.div_le_mono; lia). change (4 / 2) with 2 in Hj2.
    repeat split; [done|lia|lia|done|].
    unfold find_unique_slug. cbn [w_db log_event with_db db_online slug_index links].
    rewrite lookup_insert_eq. simpl. by rewrite lookup_insert_eq.
  - destruct (gus_loop_frame 6 0 5 w (Err x) w1) as (Hdb & _); [lia|done|].
    autorewrite with exec_rw. simpl. do 2 eexists. split; [reflexivity|]. right. by world_simpl.
Qed.

(** C31: input rejection: a URL string [isValidUrl] rejects is answered
    400, "Missing originalUrl" when it is empty and "Invalid URL
    format" otherwise; no call is made, so nothing is stored. *)
Theorem POST_rejects_invalid env u w :
  isValidUrl u = false ->
  exec (POST env (post_request [("originalUrl", JStr u)])) w =
  (Ok (json_error 400 (if js_str_truthy u then "Invalid URL format" else "Missing originalUrl")), w).
Proof.
  intros Hinv. unfold POST, shorten_body, get_prop. cbn [req_body post_request of_option].
  rewrite !mbind_ret. cbn [js_get_prop assoc_last default]. simpl. rewrite !mbind_ret.
  cbn [js_truthy js_to_string]. destruct (js_str_truthy u); [by rewrite Hinv|done].
Qed.

(** C39: a custom slug that is a JSON number has no [length], so both
    comparisons with [undefined] are false and the 3..30 check passes;
    Prisma then rejects the non-string slug and the client gets the
    generic 500 instead of the 400 the validation is meant to give. *)
Theorem POST_custom_number_500 env u n w :
  isValidUrl u = true -> n <> 0%Z ->
  exec (POST env (post_request [("originalUrl", JStr u); ("customSlug", JNum n)])) w =
  (Ok (json_error 500 "Internal Server Error"), log_event w (EvConsole "[Shorten API Error]")).
Proof.
  intros Hu Hn. unfold POST, shorten_body, get_prop. cbn [req_body post_request of_option].
  rewrite !mbind_ret. cbn [js_get_prop assoc_last default]. simpl. rewrite !mbind_ret.
  cbn [js_truthy js_to_string]. rewrite (isValidUrl_nonempty u Hu), Hu.
  apply Z.eqb_neq in Hn. simpl. rewrite Hn. reflexivity.
Qed.

(** C8: round trip: a valid URL shortened under a free custom slug is
    then resolved to that URL by [GET], whether the redirect is served
    from the cache or from the store, as long as the cache was coherent
    and the stored URLs valid before. *)
Theorem shorten_then_resolve env redis_on u c w req :
  isValidUrl u = true -> 3 <= String.length c <= 30 ->
  db_wf (w_db w) -> db_online (w_db w) = true -> slug_index (w_db w) !! c = None ->
  cache_coherent w -> urls_valid (w_db w) ->
  exists w1,
    exec (POST env (post_request [("originalUrl", JStr u); ("customSlug", JStr c)])) w =
    (Ok (RJson 201 (JBShortened (base_url env +:+ "/" +:+ c) c u)), w1) /\
    fst (exec (GET redis_on c req) w1) = Ok (RRedirect 301 (LocAbs u)).
Proof.
  intros Hu Hlen Hwf Hon Hfree Hcoh Hval.
  destruct (POST_custom_exec env u c w Hu Hlen Hon Hfree) as (l & db' & w1 & Hc & Hex & Hdb & Hr).
  exists w1. split; [done|].
  pose proof (create_link_ok _ _ _ _ _ _ Hc) as (_ & _ & Hl & Hdb').
  assert (Hwf1 : db_wf (w_db w1)) by (rewrite Hdb; by eapply create_link_wf).
  rewrite (GET_found_response redis_on c req w1 l); [by rewrite Hl| | |done| |].
  - intros ->. simpl in Hlen. lia.
  - apply (coherent_grow w); [done|done|done| |done]. rewrite Hdb. by eapply create_link_le.
  - rewrite Hdb. by apply (create_urls_valid (w_db w) c u (w_now w) l).
  - rewrite Hdb. by apply (create_link_find _ _ _ _ _ _ Hc).
Qed.

(** C26: custom slug length: a non-empty custom slug (a string) shorter
    than 3 or longer than 30 characters is answered 400 "Custom slug
    must be between 3 and 30 characters", before any call: nothing is
    looked up, nothing is stored. *)
Theorem POST_custom_length_400 env u c w :
  isValidUrl u = true -> c <> "" -> (String.length c < 3 \/ 30 < String.length c) ->
  exec (POST env (post_request [("originalUrl", JStr u); ("customSlug", JStr c)])) w =
  (Ok (json_error 400 "Custom slug must be between 3 and 30 characters"), w).
Proof.
  intros Hu Hc Hlen. rewrite POST_custom_unfold by done.
  unfold custom_branch, get_prop. cbn [js_get_prop of_option]. rewrite mbind_ret. simpl.
  replace (js_lt_num _ 3 || js_gt_num _ 30) with true; [reflexivity|].
  unfold js_lt_num, js_gt_num. simpl. symmetry. apply orb_true_iff.
  destruct Hlen; [left|right]; apply Z.ltb_lt; lia.
Qed.

(** C37: a request whose body is not JSON makes [req.json()] reject; the
    outer [catch] logs it and answers the JSON 500 "Internal Server
    Error"; nothing is stored. *)
Theorem POST_malformed_body env req w :
  req_body req = None ->
  exec (POST env req) w =
  (Ok (json_error 500 "Internal Server Error"), log_event w (EvConsole "[Shorten API Error]")).
Proof. intros Hb. unfold POST, shorten_body. rewrite Hb. reflexivity. Qed.

Lemma POST_custom_length_400_witness :
  exec (POST ∅ (post_request [("originalUrl", JStr "https://example.com"); ("customSlug", JStr "ab")]))
       sample_world =
  (Ok (json_error 400 "Custom slug must be between 3 and 30 characters"), sample_world).
Proof. apply POST_custom_length_400; [reflexivity|discriminate|simpl; lia]. Defined.

Lemma POST_malformed_body_witness :
  exec (POST ∅ (mkRequest "http://localhost:3000/api/shorten" ∅ None None)) sample_world =
  (Ok (json_error 500 "Internal Server Error"), log_event sample_world (EvConsole "[Shorten API Error]")).
Proof. apply POST_malformed_body. reflexivity. Defined.

Lemma POST_custom_number_500_witness :
  exec (POST ∅ (post_request [("originalUrl", JStr "https://example.com"); ("customSlug", JNum 12345)]))
       sample_world =
  (Ok (json_error 500 "Internal Server Error"), log_event sample_world (EvConsole "[Shorten API Error]")).
Proof. apply POST_custom_number_500; [reflexivity|lia]. Defined.

Lemma POST_custom_created_witness :
  exists w', exec (POST ∅ (post_request [("originalUrl", JStr "https://example.com/x"); ("customSlug", JStr "a b/c")]))
                   sample_world =
             (Ok (RJson 201 (JBShortened (base_url ∅ +:+ "/" +:+ "a b/c") "a b/c" "https://example.com/x")), w') /\
    find_unique_slug (w_db w') "a b/c" =
    Ok (Some (mkLink (next_id (w_db sample_world)) "a b/c" "https://example.com/x" 0 (w_now sample_world))).
Proof. apply POST_custom_created; [reflexivity|simpl; lia|reflexivity|reflexivity]. Defined.

Lemma POST_custom_conflict_witness :
  exists w', exec (POST ∅ (post_request [("originalUrl", JStr "https://example.com"); ("customSlug", JStr "abc")]))
                   sample_world =
             (Ok (json_error 409 "Custom slug is already taken"), w') /\ w_db w' = w_db sample_world.
Proof.
  apply POST_custom_conflict; [reflexivity|simpl; lia|exact sample_db_wf|reflexivity|by eexists].
Defined.

Lemma POST_generated_witness :
  exists r w', exec (POST ∅ (post_request [("originalUrl", JStr "https://example.com/x")])) sample_world =
               (Ok r, w') /\
  ((exists s, r = RJson 201 (JBShortened (base_url ∅ +:+ "/" +:+ s) s "https://example.com/x") /\
      slug_index (w_db sample_world) !! s = None /\ 6 <= String.length s <= 8 /\
      str_forallb in_alphabet s = true /\
      find_unique_slug (w_db w') s =
      Ok (Some (mkLink (next_id (w_db sample_world)) s "https://example.com/x" 0 (w_now sample_world)))) \/
   (r = json_error 500 "Failed to generate short link. Please try again." /\ w_db w' = w_db sample_world)).
Proof. apply POST_generated; [reflexivity|exact sample_db_wf]. Defined.

Lemma POST_rejects_invalid_witness :
  exec (POST ∅ (post_request [("originalUrl", JStr "ftp://example.com")])) sample_world =
  (Ok (json_error 400 "Invalid URL format"), sample_world).
Proof. apply (POST_rejects_invalid ∅ "ftp://example.com"). reflexivity. Defined.

Lemma shorten_then_resolve_witness :
  exists w1,
    exec (POST ∅ (post_request [("originalUrl", JStr "https://example.com/x"); ("customSlug", JStr "xyz")]))
         cached_world =
    (Ok (RJson 201 (JBShortened (base_url ∅ +:+ "/" +:+ "xyz") "xyz" "https://example.com/x")), w1) /\
    fst (exec (GET true "xyz" sample_req) w1) = Ok (RRedirect 301 (LocAbs "https://example.com/x")).
Proof.
  apply shorten_then_resolve;
    [reflexivity|simpl; lia|exact sample_db_wf|reflexivity|reflexivity
    |exact cached_world_coherent|exact sample_urls_valid].
Defined.
