(* ===== verification/System.v ===== *)
(** * System: the deployed server, requests and detached tasks interleaved

    Next.js runs the route handlers of many requests in one event loop:
    a handler runs without interruption up to its next [await], and any
    other handler or detached [trackClickAsync] promise may run there.
    Here every pending handler or task is a [thread], a [prog] whose next
    node is the call it awaits; a [step] either admits a request, starts a
    detached task queued by [Spawn], performs the next call of one thread
    (any one: the scheduler is arbitrary), delivers a finished thread's
    result, lets time pass, or takes the store or Redis down or up.

    Treating every call as a possible switch point (also [Spawn] and
    [console], which do not yield in JavaScript) only adds schedules: the
    invariants proved over [step] (in [Coherence] and [Accounting]) hold
    a fortiori for the real ones, and the race of
    [custom_slug_race] switches only at genuine [await]s.

    [run_sched] is an executable scheduler, a list of choices replayed
    from a state; [run_sched_sound] shows that whatever it reaches is
    reachable by [step]s. *)

From S2P Require Import Prelude Js Url Store Cache Http World Sha256 Tracker Redirect SlugGen Shorten.

Inductive Reply := RHttp (r : Response) | RTaskDone.

Definition thread := prog (result Reply exn).

Definition http_thread (m : M Response) : thread := r <- m ;; ret (RHttp r).

Definition task_thread (t : Task) : thread :=
  match t with TrackClick s req id => trackClickAsync s req id ;;; ret RTaskDone end.

(** The deployment: whether lib/redis.ts created a client, and the
    environment the shorten route reads. *)
Record Config := mkConfig { cfg_redis : bool; cfg_env : gmap string string }.

Inductive Incoming := InGet (slug : string) (req : Request) | InPost (req : Request).

Definition start (c : Config) (i : Incoming) : thread :=
  match i with
  | InGet s req => http_thread (GET (cfg_redis c) s req)
  | InPost req => http_thread (POST (cfg_env c) req)
  end.

Record Sys := mkSys {
  s_world : World;
  s_threads : list thread;
  s_out : list (result Reply exn)
}.

Definition with_now (w : World) (t : Z) : World :=
  mkWorld (w_db w) (w_redis w) t (w_entropy w) (w_rpos w) (w_tasks w) (w_log w).

Inductive step (c : Config) : Sys -> Sys -> Prop :=
| StArrive i w ts out :
    step c (mkSys w ts out) (mkSys w (ts ++ [start c i]) out)
| StDetach t rest w ts out :
    w_tasks w = t :: rest ->
    step c (mkSys w ts out) (mkSys (with_tasks w rest) (ts ++ [task_thread t]) out)
| StCall i R (e : eff R) k w ts out :
    ts !! i = Some (Vis e k) ->
    step c (mkSys w ts out) (mkSys (snd (handle e w)) (<[i := k (fst (handle e w))]> ts) out)
| StDone i r w ts out :
    ts !! i = Some (Ret r) ->
    step c (mkSys w ts out) (mkSys w (delete i ts) (out ++ [r]))
| StTick d w ts out :
    (0 <= d)%Z -> step c (mkSys w ts out) (mkSys (with_now w (w_now w + d)) ts out)
| StDbOnline b w ts out :
    step c (mkSys w ts out) (mkSys (with_db w (set_online (w_db w) b)) ts out)
| StRedisOnline b w ts out :
    step c (mkSys w ts out) (mkSys (with_redis w (redis_set_online (w_redis w) b)) ts out).

Definition reachable (c : Config) : Sys -> Sys -> Prop := rtc (step c).

(** ** An executable scheduler *)

Inductive Choice :=
| CArrive (i : Incoming)
| CDetach
| CRun (i : nat)
| CDone (i : nat)
| CTick (d : Z)
| CDb (b : bool)
| CRedis (b : bool).

Definition run_choice (c : Config) (ch : Choice) (s : Sys) : option Sys :=
  let '(mkSys w ts out) := s in
  match ch with
  | CArrive i => Some (mkSys w (ts ++ [start c i]) out)
  | CDetach =>
      match w_tasks w with
      | t :: rest => Some (mkSys (with_tasks w rest) (ts ++ [task_thread t]) out)
      | [] => None
      end
  | CRun i =>
      match ts !! i with
      | Some (Vis e k) => Some (mkSys (snd (handle e w)) (<[i := k (fst (handle e w))]> ts) out)
      | _ => None
      end
  | CDone i =>
      match ts !! i with
      | Some (Ret r) => Some (mkSys w (delete i ts) (out ++ [r]))
      | _ => None
      end
  | CTick d => if (0 <=? d)%Z then Some (mkSys (with_now w (w_now w + d)) ts out) else None
  | CDb b => Some (mkSys (with_db w (set_online (w_db w) b)) ts out)
  | CRedis b => Some (mkSys (with_redis w (redis_set_online (w_redis w) b)) ts out)
  end.

Fixpoint run_sched (c : Config) (chs : list Choice) (s : Sys) : option Sys :=
  match chs with
  | [] => Some s
  | ch :: chs => match run_choice c ch s with Some s' => run_sched c chs s' | None => None end
  end.

(** ** Scenarios on the sample world *)

Definition sample_cfg : Config := mkConfig false ∅.

Definition post_custom (u c : string) : Incoming :=
  InPost (post_request [("originalUrl", JStr u); ("customSlug", JStr c)]).

Definition s0 : Sys := mkSys sample_world [] [].

(** Thread 0 performs [n] calls and delivers its result. *)
Definition drain (n : nat) : list Choice := repeat (CRun 0) n ++ [CDone 0].

(** Two clients ask for the free custom slug ["xyz"]; both checks run
    before either creation. *)
Definition race_sched : list Choice :=
  [CArrive (post_custom "https://example.com/a" "xyz"); CArrive (post_custom "https://example.com/b" "xyz");
   CRun 0; CRun 1; CRun 0; CRun 1; CRun 1; CDone 0; CDone 0].

(** The same two requests, one after the other. *)
Definition serial_sched : list Choice :=
  CArrive (post_custom "https://example.com/a" "xyz") :: drain 2 ++
  CArrive (post_custom "https://example.com/b" "xyz") :: drain 1.

(** A visit of ["abc"] on the store path, then its detached click. *)
Definition click_sched : list Choice :=
  CArrive (InGet "abc" sample_req) :: drain 3 ++ CDetach :: drain 2.

Definition after (chs : list Choice) : Sys := default s0 (run_sched sample_cfg chs s0).

Definition clicked_link : Link := mkLink 1 "abc" "https://example.com" 1 0.

(** ** Steps keep the store well formed and only let it grow *)

Lemma run_choice_sound c ch s s' : run_choice c ch s = Some s' -> step c s s'.
Proof.
  destruct s as [w ts out], ch; simpl; intros H.
  - injection H as <-. constructor.
  - destruct (w_tasks w) as [|t rest] eqn:E; [done|]. injection H as <-. by constructor.
  - destruct (ts !! i) as [[r|R e k]|] eqn:E; try done. injection H as <-. by constructor.
  - destruct (ts !! i) as [[r|R e k]|] eqn:E; try done. injection H as <-. by constructor.
  - destruct (Z.leb_spec 0 d); [|done]. injection H as <-. by constructor.
  - injection H as <-. constructor.
  - injection H as <-. constructor.
Qed.

Lemma run_sched_sound c chs s s' : run_sched c chs s = Some s' -> reachable c s s'.
Proof.
  revert s. induction chs as [|ch chs IH]; intros s H; simpl in H.
  - injection H as <-. apply rtc_refl.
  - destruct (run_choice c ch s) as [s1|] eqn:E; [|done].
    eapply rtc_l; [by apply (run_choice_sound c ch)|]. by apply IH.
Qed.

Lemma step_db_wf c s s' : step c s s' -> db_wf (w_db (s_world s)) -> db_wf (w_db (s_world s')).
Proof. destruct 1; simpl; intros Hwf; eauto using handle_db_wf, set_online_wf. Qed.

Lemma step_db_le c s s' :
  step c s s' -> db_wf (w_db (s_world s)) -> db_le (w_db (s_world s)) (w_db (s_world s')).
Proof. destruct 1; simpl; intros Hwf; try reflexivity; eauto using handle_db_le, set_online_le. Qed.

Lemma reachable_db_wf c s s' :
  reachable c s s' -> db_wf (w_db (s_world s)) -> db_wf (w_db (s_world s')).
Proof. induction 1; eauto using step_db_wf. Qed.

Lemma reachable_db_le c s s' :
  reachable c s s' -> db_wf (w_db (s_world s)) -> db_le (w_db (s_world s)) (w_db (s_world s')).
Proof.
  induction 1 as [|s1 s2 s3 Hs _ IH]; intros Hwf; [reflexivity|].
  etransitivity; [by eapply step_db_le|]. apply IH. by eapply step_db_wf.
Qed.

#[export] Hint Resolve run_sched_sound reachable_db_wf reachable_db_le : okg.

(** ** Running one thread to its end *)

(** Thread [i] alone performs its calls one after the other, exactly as
    [exec] does. *)
Lemma run_thread c i p w ts out :
  ts !! i = Some p ->
  reachable c (mkSys w ts out) (mkSys (snd (exec p w)) (<[i := Ret (fst (exec p w))]> ts) out).
Proof.
  revert w ts. induction p as [a|R e k IH]; intros w ts Hi; simpl.
  - rewrite list_insert_id by done. apply rtc_refl.
  - destruct (handle e w) as [r w'] eqn:Eh.
    eapply rtc_l; [by apply (StCall c i R e k)|]. rewrite Eh. simpl.
    replace (<[i:=Ret (fst (exec (k r) w'))]> ts)
      with (<[i:=Ret (fst (exec (k r) w'))]> (<[i:=k r]> ts)) by apply list_insert_insert_eq.
    apply IH. apply list_lookup_insert_eq. by eapply lookup_lt_Some.
Qed.

Lemma run_thread_done c i p w ts out :
  ts !! i = Some p ->
  reachable c (mkSys w ts out)
    (mkSys (snd (exec p w)) (delete i (<[i := Ret (fst (exec p w))]> ts)) (out ++ [fst (exec p w)])).
Proof.
  intros Hi. eapply rtc_r; [by apply run_thread|]. apply StDone.
  apply list_lookup_insert_eq. by eapply lookup_lt_Some.
Qed.

Lemma exec_http_thread m w :
  exec (http_thread m) w =
  (match fst (exec m w) with Ok r => Ok (RHttp r) | Err x => Err x end, snd (exec m w)).
Proof. unfold http_thread. rewrite exec_mbind. by destruct (exec m w) as [[r|x] w']. Qed.

Lemma delete_insert_snoc {A} (ts : list A) x y : delete (length ts) (<[length ts := x]> (ts ++ [y])) = ts.
Proof. induction ts as [|a ts IH]; simpl; [done|]. by rewrite IH. Qed.

Lemma start_responds c i w : exists r, fst (exec (start c i) w) = Ok (RHttp r).
Proof.
  assert (Hh : forall (msg : string) (r : Response) x w',
             exists a w'', exec ((fun _ : exn => call (Console msg) ;;; ret r) x) w' = (Ok a, w''))
    by (intros; autorewrite with exec_rw; simpl; eauto).
  destruct i; unfold start; rewrite exec_http_thread.
  - destruct (exec_try_catch_total (get_body (cfg_redis c) slug req) _ w (Hh "[Redirect Error]" (RText 500 "Internal Server Error"))) as (r & w' & Hr).
    unfold GET. rewrite Hr. eauto.
  - destruct (exec_try_catch_total (shorten_body (cfg_env c) req) _ w (Hh "[Shorten API Error]" (json_error 500 "Internal Server Error"))) as (r & w' & Hr).
    unfold POST. rewrite Hr. eauto.
Qed.

(** ** Theorems *)

(** C27: every request is answered: from any state, whatever the other
    pending handlers and tasks are, an arriving request can be run to
    its end, which delivers an HTTP response (never an exception) and
    leaves the other threads as they were. *)
Theorem request_answered c (i : Incoming) w ts out :
  exists w' r, reachable c (mkSys w ts out) (mkSys w' ts (out ++ [Ok (RHttp r)])).
Proof.
  destruct (start_responds c i w) as [r Hr]. exists (snd (exec (start c i) w)), r.
  eapply rtc_l; [apply StArrive|].
  pose proof (run_thread_done c (length ts) (start c i) w (ts ++ [start c i]) out) as H.
  rewrite delete_insert_snoc, Hr in H. apply H. by apply list_lookup_middle.
Qed.

(** C16: the custom-slug race: two clients asking for the same free
    custom slug.  Run one after the other, the second gets the 409 the
    handler is written to give; but when both existence checks run
    before either creation, the second creation violates the unique
    index and the second client gets a 500, not a 409. *)
Theorem custom_slug_race :
  slug_index (w_db sample_world) !! "xyz" = None /\
  s_threads (after serial_sched) = [] /\
  s_out (after serial_sched) =
    [Ok (RHttp (RJson 201 (JBShortened "http://localhost:3000/xyz" "xyz" "https://example.com/a")));
     Ok (RHttp (json_error 409 "Custom slug is already taken"))] /\
  s_threads (after race_sched) = [] /\
  s_out (after race_sched) =
    [Ok (RHttp (RJson 201 (JBShortened "http://localhost:3000/xyz" "xyz" "https://example.com/a")));
     Ok (RHttp (json_error 500 "Internal Server Error"))] /\
  reachable sample_cfg s0 (after serial_sched) /\ reachable sample_cfg s0 (after race_sched).
Proof.
  split; [reflexivity|]. do 4 (split; [vm_compute; reflexivity|]).
  split; [apply (run_sched_sound _ serial_sched)|apply (run_sched_sound _ race_sched)];
    vm_compute; reflexivity.
Qed.

