(* ===== verification/Coherence.v ===== *)
(** * Coherence: the cache and the stored URLs under every interleaving

    Spec section 3 requires that a cached [link:<slug>] hold the URL the
    store holds for the slug ([Redirect.cache_coherent]); the resolver's
    contract also needs every stored URL to be valid
    ([Redirect.urls_valid]).  Under interleaving a handler writes Redis
    with a URL it read from the store earlier, and other handlers run in
    between; links are never removed nor changed, so what a handler
    learnt stays true.

    [wsafe K p] says that every write [p] may still perform is justified:
    a [CacheSet k v] by a fact [K k v] the thread learnt from a
    [DbFindSlug] answer (or knew before), a [DbCreate s u] by
    [isValidUrl u].  [known_in db K] says the facts hold in the store.
    [sys_safe] is the system invariant: coherent cache, well-formed
    store, valid URLs, and every thread safe with facts that hold.  Every
    handler and task starts safe ([start_wsafe], [task_wsafe]) and every
    step keeps [sys_safe] ([step_sys_safe]). *)

From S2P Require Import Prelude Js Url Store Cache Http World Sha256 Tracker Redirect SlugGen Shorten System.

(** Facts [(k, v)]: [k] caches [v]. *)
Definition Knowledge := string -> string -> Prop.

Definition write_ok {R} (e : eff R) (K : Knowledge) : Prop :=
  match e with
  | CacheSet k v _ => K k v
  | DbCreate _ u => isValidUrl u = true
  | _ => True
  end.

(** What an answer teaches: a found link's URL for its slug's key. *)
Definition learn {R} (e : eff R) : result R exn -> Knowledge -> Knowledge :=
  match e in eff R return result R exn -> Knowledge -> Knowledge with
  | DbFindSlug s => fun r K k v =>
      K k v \/ match r with Ok (Some l) => k = cache_key s /\ v = originalUrl l | _ => False end
  | _ => fun _ K => K
  end.

Fixpoint wsafe {A} (K : Knowledge) (p : prog A) : Prop :=
  match p with
  | Ret _ => True
  | Vis e k => write_ok e K /\ forall r, wsafe (learn e r K) (k r)
  end.

(** Calls that write neither Redis nor new links. *)
Definition no_write {R} (e : eff R) : Prop :=
  match e with CacheSet _ _ _ | DbCreate _ _ => False | _ => True end.

Fixpoint wfree {A} (p : prog A) : Prop :=
  match p with
  | Ret _ => True
  | Vis e k => no_write e /\ forall r, wfree (k r)
  end.

Definition known_in (db : Db) (K : Knowledge) : Prop :=
  forall k v, K k v -> exists s, k = cache_key s /\ url_of db s v.

Definition sys_safe (s : Sys) : Prop :=
  cache_coherent (s_world s) /\ db_wf (w_db (s_world s)) /\ urls_valid (w_db (s_world s)) /\
  Forall (fun p => exists K, known_in (w_db (s_world s)) K /\ wsafe K p) (s_threads s).

(** ** Composing safe programs *)

Definition sub (K K' : Knowledge) : Prop := forall k v, K k v -> K' k v.

Lemma learn_ext {R} (e : eff R) r K : sub K (learn e r K).
Proof. intros k v H. destruct e; simpl; auto. Qed.

Lemma learn_mono {R} (e : eff R) r K K' : sub K K' -> sub (learn e r K) (learn e r K').
Proof. intros H k v. destruct e; simpl; firstorder. Qed.

Lemma write_ok_mono {R} (e : eff R) K K' : sub K K' -> write_ok e K -> write_ok e K'.
Proof. intros H. destruct e; simpl; auto. Qed.

Lemma wsafe_mono {A} (p : prog A) K K' : sub K K' -> wsafe K p -> wsafe K' p.
Proof.
  revert K K'. induction p as [a|R e k IH]; intros K K' Hs; simpl; [done|].
  intros [Hw Hk]. split; [by eapply write_ok_mono|]. intros r. eapply IH; [|apply Hk].
  by apply learn_mono.
Qed.

Lemma wfree_wsafe {A} (p : prog A) K : wfree p -> wsafe K p.
Proof.
  revert K. induction p as [a|R e k IH]; intros K; simpl; [done|].
  intros [Hn Hk]. split; [destruct e; simpl in *; done|]. intros r. by apply IH.
Qed.

Lemma wsafe_pbind {A B} (p : prog A) (f : A -> prog B) K :
  wsafe K p -> (forall a K', sub K K' -> wsafe K' (f a)) -> wsafe K (pbind p f).
Proof.
  revert K. induction p as [a|R e k IH]; intros K; simpl.
  - intros _ Hf. apply Hf. by intros ??.
  - intros [Hw Hk] Hf. split; [done|]. intros r. apply IH; [apply Hk|].
    intros a K' Hs. apply Hf. intros k' v Hkv. apply Hs, learn_ext, Hkv.
Qed.

Lemma wfree_pbind {A B} (p : prog A) (f : A -> prog B) :
  wfree p -> (forall a, wfree (f a)) -> wfree (pbind p f).
Proof.
  induction p as [a|R e k IH]; simpl; [auto|]. intros [Hn Hk] Hf. split; [done|]. auto.
Qed.

Lemma wsafe_mbind {A B} (m : M A) (f : A -> M B) K :
  wsafe K m -> (forall a K', sub K K' -> wsafe K' (f a)) -> wsafe K (mbind m f).
Proof. intros Hm Hf. apply wsafe_pbind; [done|]. intros [a|x] K' Hs; simpl; auto. Qed.

Lemma wsafe_try_catch {A} (m : M A) (h : exn -> M A) K :
  wsafe K m -> (forall x K', sub K K' -> wsafe K' (h x)) -> wsafe K (try_catch m h).
Proof. intros Hm Hh. apply wsafe_pbind; [done|]. intros [a|x] K' Hs; simpl; auto. Qed.

Lemma wfree_mbind {A B} (m : M A) (f : A -> M B) :
  wfree m -> (forall a, wfree (f a)) -> wfree (mbind m f).
Proof. intros Hm Hf. apply wfree_pbind; [done|]. intros [a|x]; simpl; auto. Qed.

Lemma wfree_try_catch {A} (m : M A) (h : exn -> M A) :
  wfree m -> (forall x, wfree (h x)) -> wfree (try_catch m h).
Proof. intros Hm Hh. apply wfree_pbind; [done|]. intros [a|x]; simpl; auto. Qed.

Lemma wfree_call {R} (e : eff R) : no_write e -> wfree (call e).
Proof. intros Hn. simpl. split; [done|]. by intros r. Qed.

Lemma wfree_ret {A} (a : A) : wfree (ret a).
Proof. done. Qed.

Lemma wfree_throw {A} x : wfree (@throw A x).
Proof. done. Qed.

Lemma wfree_of_option {A} (o : option A) x : wfree (of_option o x).
Proof. by destruct o. Qed.

#[export] Hint Resolve wfree_ret wfree_throw wfree_of_option : okg.

(** Proves [wfree] of a program built from binds, catches, branches and
    calls that write nothing. *)
Ltac wfree_tac :=
  repeat first
    [ progress intros
    | apply wfree_mbind
    | apply wfree_try_catch
    | apply wfree_call; exact I
    | solve [eauto with okg]
    | match goal with |- wfree (match ?x with _ => _ end) => destruct x end
    | match goal with |- wfree (if ?b then _ else _) => destruct b end ].

(** ** The handlers' writes are justified *)

Lemma cache_lookup_wfree b s req : wfree (cache_lookup b s req).
Proof. unfold cache_lookup. wfree_tac. Qed.

Lemma serve_link_wsafe K b s req l :
  K (cache_key s) (originalUrl l) -> wsafe K (serve_link b s req l).
Proof.
  intros Hk. unfold serve_link, cache_fill. apply wsafe_mbind.
  - destruct b; [|done]. apply wsafe_try_catch.
    + simpl. split; [done|]. by intros r.
    + intros x K' _. apply wfree_wsafe. wfree_tac.
  - intros _ K' _. apply wfree_wsafe. wfree_tac.
Qed.

Lemma GET_wsafe K b s req : wsafe K (GET b s req).
Proof.
  unfold GET, get_body. apply wsafe_try_catch.
  - apply wsafe_mbind; [apply wfree_wsafe; wfree_tac|]. intros _ K1 _.
    destruct (negb (js_str_truthy s)); [done|]. unfold resolve_slug.
    apply wsafe_mbind; [apply wfree_wsafe, cache_lookup_wfree|]. intros [r|] K2 _; [done|].
    simpl. split; [done|]. intros [[l|]|x]; simpl; [|done|done].
    apply serve_link_wsafe. simpl. by right.
  - intros x K' _. apply wfree_wsafe. wfree_tac.
Qed.

Lemma trackClickAsync_wfree s req id : wfree (trackClickAsync s req id).
Proof. unfold trackClickAsync, track_body, target_link_id. cbv zeta. wfree_tac. Qed.

Lemma task_wsafe K t : wsafe K (task_thread t).
Proof.
  destruct t as [s req id]. apply wfree_wsafe. unfold task_thread.
  apply wfree_mbind; [apply trackClickAsync_wfree|]. wfree_tac.
Qed.

Lemma nanoid_loop_wfree fuel size id : wfree (nanoid_loop fuel size id).
Proof. revert id. induction fuel as [|f IH]; intros id; cbn [nanoid_loop]; [done|]. wfree_tac; auto. Qed.

Lemma gus_loop_wfree len i n : wfree (gus_loop len i n).
Proof.
  revert i. induction n as [|n IH]; intros i; cbn [gus_loop]; [done|].
  apply wfree_mbind; [apply nanoid_loop_wfree|]. wfree_tac; auto.
Qed.

Lemma create_and_respond_wsafe K env ou sl :
  isValidUrl (js_to_string ou) = true -> wsafe K (create_and_respond env ou sl).
Proof.
  intros Hv. unfold create_and_respond, prisma_string.
  destruct ou as [| | | |u| |]; try done. destruct sl; try done.
  simpl. split; [done|]. by intros [l|x].
Qed.

Lemma POST_wsafe K env req : wsafe K (POST env req).
Proof.
  unfold POST, shorten_body. apply wsafe_try_catch; [|intros; apply wfree_wsafe; wfree_tac].
  apply wsafe_mbind; [apply wfree_wsafe; wfree_tac|]. intros body K1 _.
  apply wsafe_mbind; [apply wfree_wsafe; unfold get_prop; wfree_tac|]. intros ou K2 _.
  apply wsafe_mbind; [apply wfree_wsafe; unfold get_prop; wfree_tac|]. intros cs K3 _.
  destruct (negb (js_truthy ou)); [done|].
  destruct (isValidUrl (js_to_string ou)) eqn:Hv; [|done]. simpl.
  destruct (js_truthy cs).
  - unfold custom_branch. apply wsafe_mbind; [apply wfree_wsafe; unfold get_prop; wfree_tac|].
    intros len K4 _. destruct (_ || _); [done|].
    apply wsafe_mbind; [apply wfree_wsafe; unfold prisma_string; wfree_tac|]. intros s K5 _.
    simpl. split; [done|]. intros [[l|]|x]; simpl; [done| |done].
    by apply create_and_respond_wsafe.
  - unfold generated_branch. apply wsafe_mbind.
    + apply wfree_wsafe, wfree_try_catch; [apply wfree_mbind; [apply gus_loop_wfree|wfree_tac]|].
      wfree_tac.
    + intros [resp|g] K4 _; [done|]. by apply create_and_respond_wsafe.
Qed.

Lemma start_wsafe K c i : wsafe K (start c i).
Proof.
  destruct i; unfold start, http_thread; apply wsafe_mbind;
    [apply GET_wsafe| |apply POST_wsafe|]; intros; done.
Qed.

(** ** Every call keeps the invariant *)

Lemma known_grow db db' K :
  db_wf db -> db_wf db' -> db_le db db' -> known_in db K -> known_in db' K.
Proof.
  intros Hwf Hwf' Hle Hk k v Hkv. destruct (Hk k v Hkv) as (s & -> & Hu).
  exists s. split; [done|]. by apply (url_of_grow db).
Qed.

Lemma known_learn {R} (e : eff R) w K :
  db_wf (w_db w) -> known_in (w_db w) K ->
  known_in (w_db (snd (handle e w))) (learn e (fst (handle e w)) K).
Proof.
  intros Hwf Hk.
  assert (Hgrow : known_in (w_db (snd (handle e w))) K)
    by (eapply known_grow; [done|by apply handle_db_wf|by apply handle_db_le|done]).
  destruct e; try exact Hgrow. simpl in *.
  intros k v [Hkv|Hr]; [by apply Hk|].
  destruct (find_unique_slug (w_db w) s) as [[l|]|x] eqn:Hf; simpl in Hr; try done.
  destruct Hr as [-> ->]. exists s. split; [done|].
  destruct (find_unique_slug_sound _ _ _ Hwf Hf) as [Hs Hl].
  exists l. split; [apply (wf_index _ Hwf); eauto|done].
Qed.

Lemma handle_coherent {R} (e : eff R) w K :
  cache_coherent w -> db_wf (w_db w) -> known_in (w_db w) K -> write_ok e K ->
  cache_coherent (snd (handle e w)).
Proof.
  intros Hcoh Hwf Hk Hw.
  assert (Hredis : w_redis (snd (handle e w)) = w_redis w -> cache_coherent (snd (handle e w)))
    by (intros; eapply coherent_grow; [done|done|by apply handle_db_wf|by apply handle_db_le|done]).
  destruct e; try (apply Hredis; unfold handle; simpl;
                   repeat case_match; simplify_eq; done).
  simpl in Hw. destruct (Hk k v Hw) as (s0 & -> & Hu).
  unfold handle, perform, redis_set. simpl.
  destruct (r_online (w_redis w)); simpl; [|done].
  intros s v' exp Hv. cbn in Hv. destruct (decide (cache_key s = cache_key s0)) as [E|Hne].
  - rewrite E, lookup_insert_eq in Hv. injection Hv as <- _.
    apply cache_key_inj in E as ->. done.
  - rewrite lookup_insert_ne in Hv by done. by eapply Hcoh.
Qed.

Lemma handle_urls_valid {R} (e : eff R) w K :
  urls_valid (w_db w) -> write_ok e K -> urls_valid (w_db (snd (handle e w))).
Proof.
  intros Hval Hw. unfold handle. destruct e; simpl; try (repeat case_match; simplify_eq; done).
  - destruct (create_link _ _ _ _) as [[l db']|] eqn:Hc; simpl; [|done].
    by eapply create_urls_valid.
  - destruct (click_txn _ _ _ _ _) as [db'|] eqn:Hc; simpl; [|done].
    by eapply click_txn_urls_valid.
Qed.

(** ** The invariant of the whole server *)

Lemma threads_known_grow db db' (ts : list thread) :
  db_wf db -> db_wf db' -> db_le db db' ->
  Forall (fun p => exists K, known_in db K /\ wsafe K p) ts ->
  Forall (fun p => exists K, known_in db' K /\ wsafe K p) ts.
Proof.
  intros Hwf Hwf' Hle Hts. apply (Forall_impl _ _ _ Hts). intros p (K & Hk & Hs).
  exists K. split; [|done]. by apply (known_grow db).
Qed.

Lemma fresh_thread_safe db (p : thread) : wsafe (fun _ _ => False) p -> exists K, known_in db K /\ wsafe K p.
Proof. intros Hp. exists (fun _ _ => False). split; [by intros ??|done]. Qed.

(** The four parts of [sys_safe], as four goals. *)
Ltac sys_safe_split := refine (conj _ (conj _ (conj _ _))).

Lemma step_sys_safe c s s' : step c s s' -> sys_safe s -> sys_safe s'.
Proof.
  destruct 1 as [i w ts out|t rest w ts out Ht|i R e k w ts out Hi|i r w ts out Hi
                |d w ts out Hd|b w ts out|b w ts out];
    intros (Hcoh & Hwf & Hval & Hts); cbn [s_world s_threads] in *.
  - sys_safe_split; [done|done|done|]. apply Forall_app. split; [done|].
    apply Forall_singleton, fresh_thread_safe, start_wsafe.
  - sys_safe_split; [done|done|done|]. apply Forall_app. split; [done|].
    apply Forall_singleton, fresh_thread_safe, task_wsafe.
  - destruct (Forall_lookup_1 _ _ _ _ Hts Hi) as (K & Hk & Hw & Hsafe).
    split; [by apply (handle_coherent e w K)|].
    split; [by apply handle_db_wf|]. split; [by apply (handle_urls_valid e w K)|].
    apply Forall_insert.
    + apply (threads_known_grow (w_db w)); [done|by apply handle_db_wf|by apply handle_db_le|done].
    + exists (learn e (fst (handle e w)) K). split; [by apply known_learn|apply Hsafe].
  - sys_safe_split; [done|done|done|]. by apply Forall_delete.
  - sys_safe_split; done.
  - assert (Hle : db_le (w_db w) (set_online (w_db w) b)) by apply set_online_le.
    assert (Hwf' : db_wf (set_online (w_db w) b)) by by apply set_online_wf.
    split; [by apply (coherent_grow w)|]. split; [done|]. split; [exact Hval|].
    by apply (threads_known_grow (w_db w)).
  - sys_safe_split; done.
Qed.

Lemma reachable_sys_safe c s s' : reachable c s s' -> sys_safe s -> sys_safe s'.
Proof. induction 1; eauto using step_sys_safe. Qed.

Lemma initial_sys_safe w out :
  cache_coherent w -> db_wf (w_db w) -> urls_valid (w_db w) -> sys_safe (mkSys w [] out).
Proof. intros Hc Hw Hv. sys_safe_split; done. Qed.

(** ** Theorems *)

(** C9: the server's invariant under every interleaving: from a coherent
    start with valid stored URLs and no pending handler, every state the
    server reaches (any arrivals, any scheduling of handlers and detached
    tasks at their awaits, clock ticks, store and Redis outages) is
    [sys_safe]: every [link:<slug>] entry of Redis holds the URL the
    store holds for [slug], the store is well formed, every stored URL
    passes [isValidUrl], and every pending handler's remaining writes are
    justified by what it read. *)
Theorem sys_cache_coherent c w out s' :
  cache_coherent w -> db_wf (w_db w) -> urls_valid (w_db w) ->
  reachable c (mkSys w [] out) s' -> sys_safe s'.
Proof.
  intros Hc Hw Hv Hr. exact (reachable_sys_safe c _ _ Hr (initial_sys_safe w out Hc Hw Hv)).
Qed.

(** C7: the resolver refines its contract in every state reached from a
    [sys_safe] one: whatever ran before, a [GET] of a non-empty slug run
    while the store is up answers exactly [resolve_spec] of the store: a
    301 to the stored URL, or the not-found redirect.  The cache,
    whatever it holds, never changes the answer. *)
Theorem sys_resolution c s s' sl req :
  sys_safe s -> reachable c s s' -> sl <> "" -> db_online (w_db (s_world s')) = true ->
  fst (exec (GET (cfg_redis c) sl req) (s_world s')) = Ok (resolve_spec (w_db (s_world s')) sl).
Proof.
  intros Hs Hr Hne Hon.
  destruct (reachable_sys_safe c _ _ Hr Hs) as (Hc' & Hw' & Hv' & _).
  by apply GET_resolve_spec.
Qed.

(** ** Witnesses *)

Lemma sys_cache_coherent_witness : sys_safe (after click_sched).
Proof.
  apply (sys_cache_coherent sample_cfg sample_world []);
    [exact sample_world_coherent|exact sample_db_wf|exact sample_urls_valid
    |apply (run_sched_sound _ click_sched); vm_compute; reflexivity].
Defined.

Lemma sys_resolution_witness :
  fst (exec (GET (cfg_redis sample_cfg) "abc" sample_req) (s_world (after race_sched))) =
  Ok (resolve_spec (w_db (s_world (after race_sched))) "abc").
Proof.
  apply (sys_resolution sample_cfg s0);
    [apply initial_sys_safe; [exact sample_world_coherent|exact sample_db_wf|exact sample_urls_valid]
    |apply (run_sched_sound _ race_sched); vm_compute; reflexivity|discriminate|vm_compute; reflexivity].
Defined.
