(* ===== verification/Accounting.v ===== *)
(** * Accounting: what the click logs hold and how many there are, under
    every interleaving

    The redirect route counts a visit by queueing [trackClickAsync]
    (src/src/app/[slug]/route.ts, lines 22 and 51), and the task commits
    one click log in its transaction (lines 86-104) unless the visitor is
    a bot.  This file shows what that gives the whole server:
    - every click log row comes from one request that is not a bot's: its
      [ipHash] is the SHA-256 digest of that request's client address and
      its [userAgent] that request's agent ([sys_logs_private]);
    - the click logs grow by at most one row per [GET] request received
      (plus the tracking tasks already queued) ([sys_clicks_bounded]).

    The second needs the cache to be coherent: a Redis hit whose URL
    [NextResponse.redirect] rejects has queued a task before the inner
    [catch] falls back to the store, which queues a second one
    ([GET_double_track]).  With [Coherence.sys_safe] every cached URL is a
    stored, valid one, so a [GET] queues at most one task.

    [twp n p Q] is a weakest precondition for click budgets: along every
    path of [p] whose answers are plausible ([answer_ok]), every click
    transaction carries a private row ([call_ok]), the clicks and the
    queued tasks cost at most [n] together ([cost]), and [Q] holds of the
    budget left and the result.  [tracked n p] is [twp] with no
    postcondition.  The system is relabelled ([lstep]: the same steps as
    [System.step], an arrival carrying its request) so that a trace lists
    the requests that arrived ([ltrace]). *)

From S2P Require Import Prelude Js Url Store Cache Http World Sha256 Tracker Redirect SlugGen Shorten System Coherence.

(** ** Click budgets of programs *)

(** A click transaction, or a detached tracking task, which may commit
    one click later. *)
Definition cost {R} (e : eff R) : nat :=
  match e with DbClickTxn _ _ _ | Spawn _ => 1 | _ => 0 end.

(** A click row that a request which is not a bot's produced. *)
Definition log_private (iph ua : string) : Prop :=
  exists req, is_bot (user_agent req) = false /\ iph = sha256_hex (client_ip req) /\ ua = user_agent req.

Definition call_ok {R} (e : eff R) : Prop :=
  match e with DbClickTxn _ iph ua => log_private iph ua | _ => True end.

(** What a coherent server may answer: a Redis hit on a [link:] key is a
    valid URL; queueing a task succeeds. *)
Definition answer_ok {R} (e : eff R) : result R exn -> Prop :=
  match e in eff R return result R exn -> Prop with
  | CacheGet k => fun r =>
      match r with Ok (Some u) => forall s, k = cache_key s -> isValidUrl u = true | _ => True end
  | Spawn _ => fun r => r = Ok tt
  | _ => fun _ => True
  end.

Fixpoint twp {A} (n : nat) (p : prog A) (Q : nat -> A -> Prop) : Prop :=
  match p with
  | Ret a => Q n a
  | Vis e k => call_ok e /\ cost e <= n /\ forall r, answer_ok e r -> twp (n - cost e) (k r) Q
  end.

Definition tracked {A} (n : nat) (p : prog A) : Prop := twp n p (fun _ _ => True).

(** ** The budget calculus *)

Lemma twp_conseq {A} n (p : prog A) (Q Q' : nat -> A -> Prop) :
  (forall m a, Q m a -> Q' m a) -> twp n p Q -> twp n p Q'.
Proof.
  intros HQ. revert n. induction p as [a|R e k IH]; intros n; simpl; [auto|].
  intros (Hok & Hc & Hk). split_and!; auto.
Qed.

Lemma twp_pbind {A B} n (p : prog A) (f : A -> prog B) Q :
  twp n p (fun m a => twp m (f a) Q) -> twp n (pbind p f) Q.
Proof.
  revert n. induction p as [a|R e k IH]; intros n; simpl; [done|].
  intros (Hok & Hc & Hk). split_and!; auto.
Qed.

Lemma twp_mbind {A B} n (m : M A) (f : A -> M B) Q :
  twp n m (fun j r => match r with Ok a => twp j (f a) Q | Err x => Q j (Err x) end) ->
  twp n (mbind m f) Q.
Proof. intros H. apply twp_pbind. revert H. apply twp_conseq. by intros j [a|x]. Qed.

Lemma twp_try_catch {A} n (m : M A) (h : exn -> M A) Q :
  twp n m (fun j r => match r with Ok a => Q j (Ok a) | Err x => twp j (h x) Q end) ->
  twp n (try_catch m h) Q.
Proof. intros H. apply twp_pbind. revert H. apply twp_conseq. by intros j [a|x]. Qed.

Lemma twp_call {R} n (e : eff R) (Q : nat -> result R exn -> Prop) :
  call_ok e -> cost e <= n -> (forall r, answer_ok e r -> Q (n - cost e) r) ->
  @twp (result R exn) n (call e) Q.
Proof. intros Hok Hc HQ. simpl. split_and!; auto. Qed.

(** A budget can be raised, and what is not spent is left over. *)
Lemma tracked_shift {A} n k (p : prog A) : tracked n p -> twp (n + k) p (fun j _ => k <= j).
Proof.
  revert n. induction p as [a|R e kk IH]; intros n; simpl; [lia|].
  intros (Hok & Hc & Hk). split_and!; [done|lia|]. intros r Hr.
  replace (n + k - cost e) with (n - cost e + k) by lia. apply IH, Hk, Hr.
Qed.

Lemma tracked_mono {A} n m (p : prog A) : n <= m -> tracked n p -> tracked m p.
Proof.
  intros Hle Hp. replace m with (n + (m - n)) by lia.
  eapply twp_conseq, tracked_shift, Hp. done.
Qed.

Lemma tracked_mbind {A B} n k (m : M A) (f : A -> M B) :
  tracked n m -> (forall a, tracked k (f a)) -> tracked (n + k) (mbind m f).
Proof.
  intros Hm Hf. apply twp_mbind. eapply twp_conseq, tracked_shift, Hm.
  intros j [a|x] Hj; [|done]. eapply tracked_mono, Hf. done.
Qed.

Lemma tracked_try_catch {A} n (m : M A) (h : exn -> M A) :
  tracked n m -> (forall x, tracked 0 (h x)) -> tracked n (try_catch m h).
Proof.
  intros Hm Hh. apply twp_try_catch. revert Hm. apply twp_conseq.
  intros j [a|x] _; [done|]. eapply tracked_mono, Hh. lia.
Qed.

Lemma tracked_call {R} n (e : eff R) : call_ok e -> cost e <= n -> tracked n (call e).
Proof. intros Hok Hc. by apply twp_call. Qed.

Lemma tracked_ret {A} n (a : A) : tracked n (ret a).
Proof. done. Qed.

Lemma tracked_throw {A} n x : tracked n (@throw A x).
Proof. done. Qed.

Lemma tracked_of_option {A} n (o : option A) x : tracked n (of_option o x).
Proof. by destruct o. Qed.

#[export] Hint Resolve tracked_ret tracked_throw tracked_of_option : okg.

(** Proves [tracked 0] of a program that neither clicks nor queues. *)
Ltac tracked0_tac :=
  repeat first
    [ progress intros
    | apply (tracked_mbind 0 0)
    | apply tracked_try_catch
    | apply tracked_call; [exact I|simpl; lia]
    | solve [eauto with okg]
    | match goal with |- tracked _ (match ?x with _ => _ end) => destruct x end
    | match goal with |- tracked _ (if ?b then _ else _) => destruct b end ].

(** ** The handlers' budgets *)

Lemma serve_link_tracked b s req l : tracked 1 (serve_link b s req l).
Proof.
  unfold serve_link, cache_fill. apply (tracked_mbind 0 1); [tracked0_tac|].
  intros _. apply (tracked_mbind 1 0); [by apply tracked_call|]. tracked0_tac.
Qed.

(** The cache lookup spends the budget only on a hit, and a hit on a
    coherent cache is answered. *)
Lemma cache_lookup_twp b s req (Q : nat -> result (option Response) exn -> Prop) :
  Q 1 (Ok None) -> (forall j r, Q j (Ok (Some r))) -> (forall j x, Q j (Err x)) ->
  twp 1 (cache_lookup b s req) Q.
Proof.
  intros HN HS HE. unfold cache_lookup. destruct b; [|done].
  apply twp_try_catch, twp_mbind, twp_call; [done|simpl; lia|].
  intros [[u|]|x] Hu; simpl; [|done|split_and!; [done|lia|intros [] _; simpl; auto]].
  destruct (js_str_truthy u); [|done].
  apply twp_mbind, twp_call; [done|simpl; lia|]. intros r ->. simpl.
  rewrite (next_redirect_valid u 301 (Hu s eq_refl)). simpl. auto.
Qed.

Lemma resolve_slug_tracked b s req : tracked 1 (resolve_slug b s req).
Proof.
  unfold resolve_slug. apply twp_mbind, cache_lookup_twp; [|done|done].
  apply twp_mbind, twp_call; [done|simpl; lia|]. intros [[l|]|x] _; [|done|done].
  apply serve_link_tracked.
Qed.

Lemma GET_tracked b s req : tracked 1 (GET b s req).
Proof.
  unfold GET, get_body. apply tracked_try_catch; [|tracked0_tac].
  apply (tracked_mbind 0 1); [tracked0_tac|]. intros _.
  destruct (negb (js_str_truthy s)); [done|]. apply resolve_slug_tracked.
Qed.

Lemma trackClickAsync_tracked s req id : tracked 1 (trackClickAsync s req id).
Proof.
  unfold trackClickAsync, track_body. apply tracked_try_catch; [|tracked0_tac].
  destruct (is_bot (user_agent req)) eqn:Hb; [done|].
  apply (tracked_mbind 0 1); [unfold target_link_id; tracked0_tac|].
  intros [id'|]; [|done]. apply (tracked_mbind 0 1); [tracked0_tac|]. intros _.
  apply tracked_call; [|done]. by exists req.
Qed.

Lemma task_tracked t : tracked 1 (task_thread t).
Proof.
  destruct t as [s req id]. apply (tracked_mbind 1 0); [apply trackClickAsync_tracked|]. done.
Qed.

Lemma nanoid_loop_tracked fuel size id : tracked 0 (nanoid_loop fuel size id).
Proof. revert id. induction fuel as [|f IH]; intros id; cbn [nanoid_loop]; [done|]. tracked0_tac; auto. Qed.

Lemma gus_loop_tracked len i n : tracked 0 (gus_loop len i n).
Proof.
  revert i. induction n as [|n IH]; intros i; cbn [gus_loop]; [done|].
  apply (tracked_mbind 0 0); [apply nanoid_loop_tracked|]. tracked0_tac; auto.
Qed.

Lemma POST_tracked env req : tracked 0 (POST env req).
Proof.
  unfold POST, shorten_body, custom_branch, generated_branch, create_and_respond, get_prop, prisma_string.
  tracked0_tac; apply gus_loop_tracked.
Qed.

Definition is_get (i : Incoming) : bool := match i with InGet _ _ => true | InPost _ => false end.

(** The [GET] requests among arrivals. *)
Definition gets (ins : list Incoming) : nat := length (List.filter is_get ins).

Lemma start_tracked c i : tracked (gets [i]) (start c i).
Proof.
  destruct i as [s req|req]; unfold start, http_thread; simpl.
  - apply (tracked_mbind 1 0); [apply GET_tracked|done].
  - apply (tracked_mbind 0 0); [apply POST_tracked|done].
Qed.

(** ** One call *)

Definition private_logs (db : Db) : Prop :=
  Forall (fun c => log_private (ipHash c) (userAgent c)) (click_logs db).

(** A coherent server answers plausibly. *)
Lemma handle_answer_ok {R} (e : eff R) w :
  cache_coherent w -> urls_valid (w_db w) -> answer_ok e (fst (handle e w)).
Proof.
  intros Hcoh Hval. destruct e; simpl; try done.
  unfold handle, perform, redis_get. simpl.
  destruct (r_online (w_redis w)); [|done]. simpl.
  destruct (r_data (w_redis w) !! k) as [[v exp]|] eqn:E; [|done].
  destruct (w_now w <? exp)%Z; [|done]. intros s ->.
  destruct (Hcoh s v exp E) as (l & _ & Hl & <-). exact (Hval _ l Hl).
Qed.

(** A call appends at most [cost e] click rows and queued tasks, and the
    rows it appends are private when the call is [call_ok]. *)
Lemma handle_logs {R} (e : eff R) w :
  call_ok e ->
  exists new nt, click_logs (w_db (snd (handle e w))) = click_logs (w_db w) ++ new /\
    w_tasks (snd (handle e w)) = w_tasks w ++ nt /\ length new + length nt <= cost e /\
    Forall (fun c => log_private (ipHash c) (userAgent c)) new.
Proof.
  intros Hok. unfold handle, perform.
  assert (Hnone : forall w', w_db w' = w_db w -> w_tasks w' = w_tasks w ->
    exists new nt, click_logs (w_db w') = click_logs (w_db w) ++ new /\ w_tasks w' = w_tasks w ++ nt /\
      length new + length nt <= cost e /\ Forall (fun c => log_private (ipHash c) (userAgent c)) new).
  { intros w' -> ->. exists [], []. rewrite !app_nil_r. split_and!; [done|done|simpl; lia|done]. }
  destruct e as [s|s url|id iph ua|k|k v ex|n|t|m|]; cbn [fst snd].
  - by apply Hnone.
  - destruct (create_link (w_db w) s url (w_now w)) as [[l db']|err] eqn:E; [|by apply Hnone].
    apply create_link_ok in E as (_ & _ & _ & ->). world_simpl.
    exists [], []. rewrite !app_nil_r. split_and!; [done|done|simpl; lia|done].
  - destruct (click_txn (w_db w) id iph ua (w_now w)) as [db'|err] eqn:E; [|by apply Hnone].
    apply click_txn_ok in E as (_ & l & _ & ->). world_simpl.
    exists [mkClickLog (next_id (w_db w)) id iph ua (w_now w)], [].
    rewrite app_nil_r. split_and!; [done|done|simpl; lia|]. apply Forall_singleton. exact Hok.
  - destruct (redis_get _ _ _); by apply Hnone.
  - destruct (redis_set _ _ _ _ _); by apply Hnone.
  - by apply Hnone.
  - world_simpl. exists [], [t]. rewrite app_nil_r. split_and!; [done|done|simpl; lia|done].
  - by apply Hnone.
  - by apply Hnone.
Qed.

(** ** The system with its arrivals labelled *)

(** [System.step], each arrival labelled with its request. *)
Inductive lstep (c : Config) : Sys -> option Incoming -> Sys -> Prop :=
| LArrive i w ts out :
    lstep c (mkSys w ts out) (Some i) (mkSys w (ts ++ [start c i]) out)
| LDetach t rest w ts out :
    w_tasks w = t :: rest ->
    lstep c (mkSys w ts out) None (mkSys (with_tasks w rest) (ts ++ [task_thread t]) out)
| LCall i R (e : eff R) k w ts out :
    ts !! i = Some (Vis e k) ->
    lstep c (mkSys w ts out) None (mkSys (snd (handle e w)) (<[i := k (fst (handle e w))]> ts) out)
| LDone i r w ts out :
    ts !! i = Some (Ret r) ->
    lstep c (mkSys w ts out) None (mkSys w (delete i ts) (out ++ [r]))
| LTick d w ts out :
    (0 <= d)%Z -> lstep c (mkSys w ts out) None (mkSys (with_now w (w_now w + d)) ts out)
| LDbOnline b w ts out :
    lstep c (mkSys w ts out) None (mkSys (with_db w (set_online (w_db w) b)) ts out)
| LRedisOnline b w ts out :
    lstep c (mkSys w ts out) None (mkSys (with_redis w (redis_set_online (w_redis w) b)) ts out).

Lemma lstep_step c s o s' : lstep c s o s' -> step c s s'.
Proof. destruct 1; econstructor; eauto. Qed.


(** A run and the requests that arrived during it, in order. *)
Inductive ltrace (c : Config) : Sys -> list Incoming -> Sys -> Prop :=
| LtNil s : ltrace c s [] s
| LtStep s o s1 ins s' : lstep c s o s1 -> ltrace c s1 ins s' -> ltrace c s (option_list o ++ ins) s'.


(** The executable scheduler, with the requests its choices admit. *)
Definition arrivals (chs : list Choice) : list Incoming :=
  omap (fun ch => match ch with CArrive i => Some i | _ => None end) chs.

Lemma run_sched_ltrace c chs s s' : run_sched c chs s = Some s' -> ltrace c s (arrivals chs) s'.
Proof.
  revert s. induction chs as [|ch chs IH]; intros s H; simpl in H; [injection H as <-; constructor|].
  destruct (run_choice c ch s) as [s1|] eqn:E; [|done]. specialize (IH s1 H).
  destruct s as [w ts out], ch; simpl in E.
  - injection E as <-. by eapply (LtStep c _ (Some i) _ (arrivals chs) s'); [constructor|].
  - destruct (w_tasks w) as [|t rest] eqn:Ht; [done|]. injection E as <-.
    by eapply (LtStep c _ None _ (arrivals chs) s'); [constructor|].
  - destruct (ts !! i) as [[r|R e k]|] eqn:Hi; try done. injection E as <-.
    by eapply (LtStep c _ None _ (arrivals chs) s'); [econstructor|].
  - destruct (ts !! i) as [[r|R e k]|] eqn:Hi; try done. injection E as <-.
    by eapply (LtStep c _ None _ (arrivals chs) s'); [econstructor|].
  - destruct (0 <=? d)%Z eqn:Hd; [|done]. injection E as <-.
    eapply (LtStep c _ None _ (arrivals chs) s'); [constructor; by apply Z.leb_le|done].
  - injection E as <-. by eapply (LtStep c _ None _ (arrivals chs) s'); [constructor|].
  - injection E as <-. by eapply (LtStep c _ None _ (arrivals chs) s'); [constructor|].
Qed.

(** ** The invariant *)

Lemma sum_list_snoc (l : list nat) x : sum_list (l ++ [x]) = sum_list l + x.
Proof. induction l as [|a l IH]; simpl; lia. Qed.

Lemma sum_list_insert (l : list nat) i x y : l !! i = Some x -> sum_list (<[i:=y]> l) + x = sum_list l + y.
Proof.
  revert i. induction l as [|a l IH]; intros [|i] H; simpl in *; try done.
  - injection H as ->. lia.
  - specialize (IH i H). lia.
Qed.

Lemma sum_list_delete (l : list nat) i x : l !! i = Some x -> sum_list (delete i l) + x = sum_list l.
Proof.
  revert i. induction l as [|a l IH]; intros [|i] H; simpl in *; try done.
  - injection H as ->. lia.
  - specialize (IH i H). lia.
Qed.

Lemma gets_app l1 l2 : gets (l1 ++ l2) = gets l1 + gets l2.
Proof. unfold gets. by rewrite List.filter_app, length_app. Qed.

(** The rows appended since [logs0] are private, and the rows, the
    threads' budgets and the queued tasks add up to at most [b]. *)
Definition acct (logs0 : list ClickLog) (b : nat) (s : Sys) : Prop :=
  (exists new, click_logs (w_db (s_world s)) = logs0 ++ new /\
               Forall (fun c => log_private (ipHash c) (userAgent c)) new) /\
  exists ns, Forall2 (fun n (t : thread) => tracked n t) ns (s_threads s) /\
    length (click_logs (w_db (s_world s))) + sum_list ns + length (w_tasks (s_world s)) <= b.

Lemma lstep_acct c logs0 b s o s' :
  sys_safe s -> acct logs0 b s -> lstep c s o s' -> acct logs0 (b + gets (option_list o)) s'.
Proof.
  intros (Hcoh & _ & Hval & _) Ha Hs. assert (Hb0 : b + gets (option_list None) = b) by (unfold gets; simpl; lia).
  destruct Hs as [i w ts out|t rest w ts out Ht|i R e k w ts out Hi|i r w ts out Hi
                 |d w ts out Hd|bb w ts out|bb w ts out];
    destruct Ha as [Hpriv (ns & Hns & Hb)]; unfold acct; cbn [s_world s_threads] in *; try rewrite Hb0.
  - split; [done|]. exists (ns ++ [gets [i]]). split.
    + apply Forall2_app; [done|]. constructor; [apply start_tracked|constructor].
    + rewrite sum_list_snoc. change (option_list (Some i)) with [i]. lia.
  - split; [done|]. exists (ns ++ [1]). split.
    + apply Forall2_app; [done|]. constructor; [apply task_tracked|constructor].
    + world_simpl. rewrite sum_list_snoc. rewrite Ht in Hb. simpl in Hb. lia.
  - destruct (Forall2_lookup_r _ _ _ _ _ Hns Hi) as (n & Hn & (Hok & Hc & Hk)).
    destruct (handle_logs e w Hok) as (new & nt & Hl & Htk & Hlen & Hnew).
    split.
    + destruct Hpriv as (new0 & Hl0 & Hp0). exists (new0 ++ new). rewrite Hl, Hl0, app_assoc.
      split; [done|]. by apply Forall_app.
    + exists (<[i := n - cost e]> ns). split.
      * apply Forall2_insert; [done|]. apply Hk, handle_answer_ok; done.
      * pose proof (sum_list_insert ns i n (n - cost e) Hn). rewrite Hl, Htk, !length_app. lia.
  - destruct (Forall2_lookup_r _ _ _ _ _ Hns Hi) as (n & Hn & _).
    split; [done|]. exists (delete i ns). split; [by apply Forall2_delete|].
    pose proof (sum_list_delete ns i n Hn). lia.
  - unfold with_now. cbn [w_db w_tasks]. split; [done|]. exists ns. split; [done|lia].
  - unfold with_db, set_online. cbn [w_db w_tasks click_logs]. split; [done|]. exists ns. split; [done|lia].
  - unfold with_redis. cbn [w_db w_tasks]. split; [done|]. exists ns. split; [done|lia].
Qed.

Lemma ltrace_acct c logs0 b s ins s' :
  sys_safe s -> acct logs0 b s -> ltrace c s ins s' -> acct logs0 (b + gets ins) s'.
Proof.
  intros Hs Ha Ht. revert b Hs Ha. induction Ht as [s|s o s1 ins s' Hst _ IH]; intros b Hs Ha.
  - simpl. by rewrite Nat.add_0_r.
  - rewrite gets_app, Nat.add_assoc. apply IH; [by eapply step_sys_safe, Hs; eapply lstep_step|].
    by eapply lstep_acct.
Qed.

Lemma initial_acct w out :
  acct (click_logs (w_db w)) (length (click_logs (w_db w)) + length (w_tasks w)) (mkSys w [] out).
Proof.
  split; [exists []; by rewrite app_nil_r|]. exists []. split; [constructor|]. simpl. lia.
Qed.

(** ** A visit counted twice *)



(** ** Theorems *)


(** C14: click accounting under every interleaving: from a coherent
    start with valid stored URLs and no pending handler, along any run,
    the click log grows by at most one row per [GET] request that
    arrived during the run, plus one per tracking task already queued:
    no visit is counted twice, whatever the scheduling, the outages and
    the state of the cache. *)
Theorem sys_clicks_bounded c w out ins s' :
  cache_coherent w -> db_wf (w_db w) -> urls_valid (w_db w) ->
  ltrace c (mkSys w [] out) ins s' ->
  length (click_logs (w_db (s_world s'))) <= length (click_logs (w_db w)) + length (w_tasks w) + gets ins.
Proof.
  intros Hc Hw Hv Ht.
  destruct (ltrace_acct c _ _ _ _ _ (initial_sys_safe w out Hc Hw Hv) (initial_acct w out) Ht)
    as [_ (ns & _ & Hb)].
  lia.
Qed.

(** ** Witnesses *)


Lemma sys_clicks_bounded_witness :
  length (click_logs (w_db (s_world (after click_sched)))) <=
    length (click_logs (w_db sample_world)) + length (w_tasks sample_world) + gets (arrivals click_sched).
Proof.
  apply (sys_clicks_bounded sample_cfg sample_world []);
    [exact sample_world_coherent|exact sample_db_wf|exact sample_urls_valid
    |apply (run_sched_ltrace _ click_sched); vm_compute; reflexivity].
Defined.
