(* ===== verification/Client.v ===== *)
(** * Client: the shortener form, [Home] (src/src/app/page.tsx)

    The page keeps eight pieces of React state (lines 10-17): the URL and
    custom alias inputs, whether the alias input is shown, [loading], the
    error message, the result, the QR code and [copied].  Its handlers
    change them:
    - the inputs' [onChange] (lines 113, 137), the two alias buttons
      (lines 126, 143-146);
    - [handleSubmit] (lines 19-77): it resets the outputs, builds the JSON
      payload (the alias only when shown and non-blank, trimmed), awaits
      [fetch('/api/shorten')], parses the JSON answer (a body that is not
      JSON is reported as servers unreachable), shows [data.data] on a 2xx
      answer and clears the form, shows [data.error] (or a default)
      otherwise, and finally clears [loading];
    - [handleCopy] (lines 79-85): copies the short URL and shows "Copied!"
      for two seconds.
    The submit button is disabled while loading or with an empty URL
    (line 116); HTML fires the form's submit event, and so
    [handleSubmit], only while that button is enabled ([submit_start]).

    [handleSubmit] is split at its [await fetch]: [handleSubmit_start] is
    what runs before it, [submit_finish] what runs after, on the state as
    it is then (the alias buttons stay enabled while loading).  Every
    submission issues its own [fetch], so the requests in flight are a
    list; the guard of line 116 is what keeps it to one request
    ([ui_loading_inflight]).  The QR code and
    the two-second reset are callbacks that run later: they are queued in
    [pending] and fired by [EFire], in any order, between any events.

    Characters are UTF-16 code units below 256; [js_trim] removes those
    that are JavaScript white space or line terminators (TAB, LF, VT, FF,
    CR, SP, NBSP).  [JSON.stringify] followed by the server's
    [req.json()] gives back the same object with its keys in order, so the
    payload reaches [POST] as the [JsVal] object built here. *)

From S2P Require Import Prelude Js Url Store Cache Http World Tracker Redirect SlugGen Shorten.

(** ** State *)

(** [data.data] of a 201 answer. *)
Record ShortResult := mkShortResult {
  res_shortUrl : string;
  res_originalUrl : string;
  res_slug : string
}.

(** A generated QR image: [QRCode.toDataURL(text)]. *)
Inductive QrCode := QrOf (text : string).

(** Callbacks queued for later: the QR code's promise, the copy reset. *)
Inductive Pending := PQr (text : string) | PCopyReset.

Record UiState := mkUi {
  ui_url : string;
  ui_customSlug : string;
  ui_showCustom : bool;
  ui_loading : bool;
  ui_error : string;
  ui_result : option ShortResult;
  ui_qrCode : option QrCode;
  ui_copied : bool;
  ui_clipboard : option string;
  ui_pending : list Pending
}.

Definition initial_ui : UiState := mkUi "" "" false false "" None None false None [].

(** ** [String.prototype.trim] *)

Definition is_js_space (c : Ascii.ascii) : bool :=
  let n := Ascii.nat_of_ascii c in
  ((9 <=? n) && (n <=? 13)) || (n =? 32) || (n =? 160).

(** Leading white space dropped. *)
Fixpoint drop_space (l : list Ascii.ascii) : list Ascii.ascii :=
  match l with
  | c :: l' => if is_js_space c then drop_space l' else l
  | [] => []
  end.

(** Both ends: the leading spaces, then (on the reversed rest) the
    trailing ones. *)
Definition js_trim (s : string) : string :=
  String.string_of_list_ascii
    (rev (drop_space (rev (drop_space (String.list_ascii_of_string s))))).

(** ** The handlers *)

Inductive UiEvent :=
| EUrl (v : string)          (** line 113 *)
| ECustom (v : string)       (** line 137 *)
| EShowCustom                (** line 126 *)
| ERemoveCustom              (** lines 143-146 *)
| ECopy                      (** [handleCopy], lines 79-85 *)
| EFire (i : nat).           (** the [i]-th pending callback runs *)

(** Lines 79-85. *)
Definition handleCopy (st : UiState) : UiState :=
  match ui_result st with
  | Some r =>
      mkUi (ui_url st) (ui_customSlug st) (ui_showCustom st) (ui_loading st) (ui_error st)
           (ui_result st) (ui_qrCode st) true (Some (res_shortUrl r)) (ui_pending st ++ [PCopyReset])
  | None => st
  end.

(** A queued callback: [setQrCode(url)] or [setCopied(false)]. *)
Definition run_pending (p : Pending) (st : UiState) : UiState :=
  match p with
  | PQr text =>
      mkUi (ui_url st) (ui_customSlug st) (ui_showCustom st) (ui_loading st) (ui_error st)
           (ui_result st) (Some (QrOf text)) (ui_copied st) (ui_clipboard st) (ui_pending st)
  | PCopyReset =>
      mkUi (ui_url st) (ui_customSlug st) (ui_showCustom st) (ui_loading st) (ui_error st)
           (ui_result st) (ui_qrCode st) false (ui_clipboard st) (ui_pending st)
  end.

Definition ui_event (ev : UiEvent) (st : UiState) : UiState :=
  match ev with
  | EUrl v => if ui_loading st then st else
      mkUi v (ui_customSlug st) (ui_showCustom st) (ui_loading st) (ui_error st)
           (ui_result st) (ui_qrCode st) (ui_copied st) (ui_clipboard st) (ui_pending st)
  | ECustom v => if ui_loading st then st else
      mkUi (ui_url st) v (ui_showCustom st) (ui_loading st) (ui_error st)
           (ui_result st) (ui_qrCode st) (ui_copied st) (ui_clipboard st) (ui_pending st)
  | EShowCustom =>
      mkUi (ui_url st) (ui_customSlug st) true (ui_loading st) (ui_error st)
           (ui_result st) (ui_qrCode st) (ui_copied st) (ui_clipboard st) (ui_pending st)
  | ERemoveCustom =>
      mkUi (ui_url st) "" false (ui_loading st) (ui_error st)
           (ui_result st) (ui_qrCode st) (ui_copied st) (ui_clipboard st) (ui_pending st)
  | ECopy => handleCopy st
  | EFire i =>
      match ui_pending st !! i with
      | Some p => run_pending p
          (mkUi (ui_url st) (ui_customSlug st) (ui_showCustom st) (ui_loading st) (ui_error st)
                (ui_result st) (ui_qrCode st) (ui_copied st) (ui_clipboard st) (delete i (ui_pending st)))
      | None => st
      end
  end.

(** Lines 27-30: the payload object. *)
Definition payload (st : UiState) : list (string * JsVal) :=
  [("originalUrl", JStr (ui_url st))] ++
  (if ui_showCustom st && js_str_truthy (js_trim (ui_customSlug st))
   then [("customSlug", JStr (js_trim (ui_customSlug st)))] else []).

(** Line 116: [disabled={loading || !url}]. *)
Definition can_submit (st : UiState) : bool := negb (ui_loading st) && js_str_truthy (ui_url st).

(** Lines 20-36 up to the [await fetch]: the resets and the request.
    [handleSubmit] itself has no guard. *)
Definition handleSubmit_start (st : UiState) : UiState * Request :=
  (mkUi (ui_url st) (ui_customSlug st) (ui_showCustom st) true "" None None false
        (ui_clipboard st) (ui_pending st),
   post_request (payload st)).

(** The form's submit event (line 105, [onSubmit={handleSubmit}]): a
    click on the submit button or an implicit submission (Enter in an
    input), both of which HTML suppresses while the form's default
    button, the [Button] of line 116, is disabled. *)
Definition submit_start (st : UiState) : option (UiState * Request) :=
  if can_submit st then Some (handleSubmit_start st) else None.

(** What [fetch] gives back: a rejection (network failure) or a response. *)
Inductive FetchOutcome := FNetError (msg : string) | FResp (r : Response).

(** Lines 38-49: the thrown message, or [data.data] of a 2xx answer
    ([None] when it has no [data]). *)
Definition fetch_result (o : FetchOutcome) : result (option ShortResult) string :=
  match o with
  | FNetError m => Err m
  | FResp (RJson status body) =>
      if (200 <=? status)%Z && (status <? 300)%Z then
        Ok (match body with
            | JBShortened su sl ou => Some (mkShortResult su ou sl)
            | JBError _ => None
            end)
      else
        Err (match body with
             | JBError m => if js_str_truthy m then m else "Failed to shorten URL"
             | JBShortened _ _ _ => "Failed to shorten URL"
             end)
  | FResp _ => Err "Our servers are currently unreachable. Please try again later."
  end.

(** Lines 38-76 after the [await]: success clears the form and queues the
    QR code, failure shows the message; [finally] clears [loading]. *)
Definition submit_finish (st : UiState) (o : FetchOutcome) : UiState :=
  match fetch_result o with
  | Ok r =>
      mkUi "" "" false false (ui_error st) r (ui_qrCode st) (ui_copied st) (ui_clipboard st)
           (ui_pending st ++ match r with Some r' => [PQr (res_shortUrl r')] | None => [] end)
  | Err m =>
      mkUi (ui_url st) (ui_customSlug st) (ui_showCustom st) false
           (if js_str_truthy m then m else "An unexpected error occurred.")
           (ui_result st) (ui_qrCode st) (ui_copied st) (ui_clipboard st) (ui_pending st)
  end.

(** What the browser receives for the server's answer: an uncaught
    exception becomes Next.js's plain 500 page. *)
Definition outcome_of (r : result Response exn) : FetchOutcome :=
  match r with
  | Ok resp => FResp resp
  | Err _ => FResp (RText 500 "Internal Server Error")
  end.

(** A submission served by [POST] with nothing in between. *)
Definition submit_with_server (env : gmap string string) (st : UiState) (w : World)
    : option (UiState * World) :=
  match submit_start st with
  | Some (st1, req) =>
      let '(r, w') := exec (POST env req) w in Some (submit_finish st1 (outcome_of r), w')
  | None => None
  end.

(** ** The page and the server together

    A configuration is the page's state, the request in flight (its
    [fetch] not yet answered) and the server's world.  Events happen at
    any time; a submission starts a request; the server answers it by
    running [POST] (other clients are the [System] model's concern). *)

Record Cl := mkCl { cl_ui : UiState; cl_inflight : list Request; cl_world : World }.

Inductive cstep (env : gmap string string) : Cl -> Cl -> Prop :=
| CsEvent ev st f w : cstep env (mkCl st f w) (mkCl (ui_event ev st) f w)
| CsSubmit st st1 req f w :
    submit_start st = Some (st1, req) -> cstep env (mkCl st f w) (mkCl st1 (f ++ [req]) w)
| CsAnswer st f i req w :
    f !! i = Some req ->
    cstep env (mkCl st f w)
              (mkCl (submit_finish st (outcome_of (fst (exec (POST env req) w)))) (delete i f)
                    (snd (exec (POST env req) w))).

(** An executable run of the page: events, submissions and answers (to
    the oldest request in flight). *)
Inductive CAction := AEv (ev : UiEvent) | ASubmit | AAnswer.

Definition run_caction (env : gmap string string) (a : CAction) (c : Cl) : option Cl :=
  let '(mkCl st f w) := c in
  match a, f with
  | AEv ev, _ => Some (mkCl (ui_event ev st) f w)
  | ASubmit, _ =>
      match submit_start st with Some (st1, req) => Some (mkCl st1 (f ++ [req]) w) | None => None end
  | AAnswer, req :: f' =>
      Some (mkCl (submit_finish st (outcome_of (fst (exec (POST env req) w)))) f'
                 (snd (exec (POST env req) w)))
  | _, _ => None
  end.

Fixpoint run_cactions (env : gmap string string) (l : list CAction) (c : Cl) : option Cl :=
  match l with
  | [] => Some c
  | a :: l' => match run_caction env a c with Some c' => run_cactions env l' c' | None => None end
  end.

(** Two shortenings in a row; the first one's QR callback fires while the
    second request is in flight. *)
Definition stale_qr_run : list CAction :=
  [AEv (EUrl "https://example.com/one"); AEv EShowCustom; AEv (ECustom "one"); ASubmit; AAnswer;
   AEv (EUrl "https://example.com/two"); AEv EShowCustom; AEv (ECustom "two"); ASubmit;
   AEv (EFire 0); AAnswer].

Definition stale_qr_state : Cl :=
  default (mkCl initial_ui [] sample_world)
          (run_cactions ∅ stale_qr_run (mkCl initial_ui [] sample_world)).

(** ** Lemmas *)

Lemma drop_space_split l : exists a, l = a ++ drop_space l /\ forallb is_js_space a = true.
Proof.
  induction l as [|c l (a & Ha & Hs)]; [by exists []|]. simpl.
  destruct (is_js_space c) eqn:Hc; [|by exists []].
  exists (c :: a). simpl. rewrite Hc, Hs. by rewrite <- Ha.
Qed.

Lemma drop_space_head l : match drop_space l with [] => True | c :: _ => is_js_space c = false end.
Proof. induction l as [|c l IH]; simpl; [done|]. by destruct (is_js_space c) eqn:Hc. Qed.

Lemma list_of_js_trim s :
  String.list_ascii_of_string (js_trim s) =
  rev (drop_space (rev (drop_space (String.list_ascii_of_string s)))).
Proof. apply String.list_ascii_of_string_of_list_ascii. Qed.

Lemma run_cactions_sound env l c c' : run_cactions env l c = Some c' -> rtc (cstep env) c c'.
Proof.
  revert c. induction l as [|a l IH]; intros c H; simpl in H; [injection H as <-; apply rtc_refl|].
  destruct (run_caction env a c) as [c1|] eqn:E; [|done]. eapply rtc_l; [|by apply IH].
  destruct c as [st f w], a; simpl in E.
  - injection E as <-. constructor.
  - destruct (submit_start st) as [[st1 req]|] eqn:Hs; [|done]. injection E as <-. by constructor.
  - destruct f as [|req f]; [done|]. injection E as <-. by apply (CsAnswer env st (req :: f) 0 req).
Qed.

(** Every handler but [handleSubmit] leaves [loading] alone. *)
Lemma ui_event_loading ev st : ui_loading (ui_event ev st) = ui_loading st.
Proof.
  destruct ev; simpl; try case_if; try done.
  - unfold handleCopy. by destruct (ui_result st).
  - destruct (ui_pending st !! i) as [[]|]; done.
Qed.

(** ** Theorems *)

(** [String.prototype.trim]: the trimmed alias is the input with a
    run of white space removed at each end, and it neither starts nor
    ends with white space. *)
Theorem js_trim_spec s :
  exists a b,
    String.list_ascii_of_string s = a ++ String.list_ascii_of_string (js_trim s) ++ b /\
    forallb is_js_space a = true /\ forallb is_js_space b = true /\
    match head (String.list_ascii_of_string (js_trim s)) with
    | Some c => is_js_space c = false | None => True end /\
    match last (String.list_ascii_of_string (js_trim s)) with
    | Some c => is_js_space c = false | None => True end.
Proof.
  rewrite !list_of_js_trim. set (l := String.list_ascii_of_string s).
  destruct (drop_space_split l) as (a & Ha & Hsa).
  set (d1 := drop_space l) in *.
  destruct (drop_space_split (rev d1)) as (b & Hb & Hsb).
  set (d2 := drop_space (rev d1)) in *.
  assert (Hd1 : d1 = rev d2 ++ rev b) by (rewrite <- rev_app_distr, <- Hb; by rewrite rev_involutive).
  exists a, (rev b). split; [by rewrite Ha, Hd1, app_assoc|].
  split; [done|]. split; [by rewrite forallb_rev|].
  pose proof (drop_space_head l) as Hh1. pose proof (drop_space_head (rev d1)) as Hh2.
  fold d1 in Hh1. fold d2 in Hh2. split.
  - destruct (rev d2) as [|c t] eqn:E; [done|]. simpl. rewrite Hd1 in Hh1. done.
  - destruct d2 as [|c t]; [done|]. simpl. by rewrite last_snoc.
Qed.

(** C11: what the page sends is well typed for the server: the body is the
    payload object, [originalUrl] is the (non-empty) URL input as a
    string, and [customSlug] is either absent (it reads as [undefined])
    or a non-empty trimmed string.  A number or an object never reaches
    the length check from this page. *)
Theorem submit_payload_typed st st1 req :
  submit_start st = Some (st1, req) ->
  req_body req = Some (JObj (payload st)) /\
  js_get_prop (JObj (payload st)) "originalUrl" = Some (JStr (ui_url st)) /\ ui_url st <> "" /\
  (js_get_prop (JObj (payload st)) "customSlug" = Some JUndefined \/
   exists c, js_get_prop (JObj (payload st)) "customSlug" = Some (JStr c) /\
             c = js_trim (ui_customSlug st) /\ c <> "").
Proof.
  unfold submit_start, can_submit. destruct (negb (ui_loading st) && js_str_truthy (ui_url st)) eqn:Hc;
    [|done].
  intros [= <- <-]. apply andb_prop in Hc as [_ Hu]. apply js_str_truthy_iff in Hu.
  split; [done|]. unfold payload.
  destruct (ui_showCustom st && js_str_truthy (js_trim (ui_customSlug st))) eqn:Hs; cbn.
  - split; [done|]. split; [done|]. right. eexists. split; [reflexivity|]. split; [done|].
    apply andb_prop in Hs as [_ Ht]. by apply js_str_truthy_iff.
  - split; [done|]. split; [done|]. by left.
Qed.

(** C12: [loading] mirrors the requests in flight: in every
    configuration reached from the initial page, whatever the order of
    events, submissions and answers, the flag is set exactly when a
    request awaits its answer, and at most one request is in flight. *)
Theorem ui_loading_inflight env w c :
  rtc (cstep env) (mkCl initial_ui [] w) c ->
  (ui_loading (cl_ui c) = true <-> cl_inflight c <> []) /\ (length (cl_inflight c) <= 1)%nat.
Proof.
  remember (mkCl initial_ui [] w) as c0 eqn:E.
  assert (H0 : (ui_loading (cl_ui c0) = true <-> cl_inflight c0 <> []) /\ (length (cl_inflight c0) <= 1)%nat)
    by (subst; simpl; split; [split; [done|by intros []]|lia]).
  clear E. induction 1 as [c0|c0 c1 c2 Hs _ IH]; [done|]. apply IH. clear IH.
  destruct Hs as [ev st f w'|st st1 req f w' Hst|st f i req w' Hi]; simpl in *.
  - by rewrite ui_event_loading.
  - unfold submit_start, can_submit, handleSubmit_start in Hst. destruct (ui_loading st) eqn:Hl; [done|].
    destruct H0 as [[_ Hf] _]. destruct f; [|by discriminate (Hf ltac:(done))].
    destruct (js_str_truthy _); [|done]. injection Hst as <- <-. simpl. split; [|lia].
    split; [done|]. by intros _.
  - destruct H0 as [_ Hlen]. destruct f as [|r [|r' f]]; simpl in Hlen; [done| |lia].
    destruct i; [|done]. simpl. split; [|lia].
    unfold submit_finish. destruct (fetch_result _); simpl; split; done.
Qed.

(** The page's request when the alias is shown and non-blank. *)
Lemma payload_custom st c :
  ui_showCustom st = true -> js_trim (ui_customSlug st) = c -> c <> "" ->
  payload st = [("originalUrl", JStr (ui_url st)); ("customSlug", JStr c)].
Proof.
  intros Hs Ht Hne. unfold payload. rewrite Hs, Ht. apply js_str_truthy_iff in Hne. by rewrite Hne.
Qed.

Lemma submit_with_server_unfold env st w :
  can_submit st = true ->
  submit_with_server env st w =
  Some (submit_finish (mkUi (ui_url st) (ui_customSlug st) (ui_showCustom st) true "" None None false
                            (ui_clipboard st) (ui_pending st))
                      (outcome_of (fst (exec (POST env (post_request (payload st))) w))),
        snd (exec (POST env (post_request (payload st))) w)).
Proof.
  intros Hc. unfold submit_with_server, submit_start, handleSubmit_start. rewrite Hc.
  by destruct (exec (POST env (post_request (payload st))) w).
Qed.

(** C10: the form and the server together: a submission of a valid URL
    with a free alias of 3 to 30 characters (after trimming) stores the
    link, shows the short URL, the original URL and the alias, clears
    the form and [loading], shows no error, and queues the QR code of the
    short URL. *)
Theorem ui_submit_created env st w c :
  can_submit st = true -> ui_showCustom st = true -> js_trim (ui_customSlug st) = c ->
  isValidUrl (ui_url st) = true -> 3 <= String.length c <= 30 ->
  db_online (w_db w) = true -> slug_index (w_db w) !! c = None ->
  exists st' w', submit_with_server env st w = Some (st', w') /\
    ui_result st' = Some (mkShortResult (base_url env +:+ "/" +:+ c) (ui_url st) c) /\
    ui_url st' = "" /\ ui_customSlug st' = "" /\ ui_showCustom st' = false /\
    ui_loading st' = false /\ ui_error st' = "" /\
    ui_pending st' = ui_pending st ++ [PQr (base_url env +:+ "/" +:+ c)] /\
    find_unique_slug (w_db w') c = Ok (Some (mkLink (next_id (w_db w)) c (ui_url st) 0 (w_now w))).
Proof.
  intros Hc Hs Ht Hu Hlen Hon Hfree.
  rewrite submit_with_server_unfold, (payload_custom st c) by (done || (intros ->; simpl in Hlen; lia)).
  destruct (POST_custom_exec env (ui_url st) c w Hu Hlen Hon Hfree) as (l & db' & w' & Hcr & -> & Hdb & _).
  do 2 eexists. split; [reflexivity|]. cbn. repeat split.
  rewrite Hdb, (create_link_find _ _ _ _ _ _ Hcr). by apply create_link_ok in Hcr as (_ & _ & -> & _).
Qed.

(** C32: error display: when the server answers a non-2xx JSON error with
    a message, the page shows that message, keeps both inputs and the
    alias toggle as they were, shows no result, and clears [loading]. *)
Theorem ui_submit_error env st w status m w' :
  can_submit st = true ->
  exec (POST env (post_request (payload st))) w = (Ok (RJson status (JBError m)), w') ->
  ~ (200 <= status < 300)%Z -> m <> "" ->
  exists st', submit_with_server env st w = Some (st', w') /\
    ui_error st' = m /\ ui_url st' = ui_url st /\ ui_customSlug st' = ui_customSlug st /\
    ui_showCustom st' = ui_showCustom st /\ ui_result st' = None /\ ui_loading st' = false.
Proof.
  intros Hc Hex Hst Hm. rewrite submit_with_server_unfold, Hex by done. cbn.
  assert (E : ((200 <=? status)%Z && (status <? 300)%Z) = false)
    by (destruct (Z.leb_spec 200 status), (Z.ltb_spec status 300); simpl; lia).
  unfold submit_finish, fetch_result. rewrite E. apply js_str_truthy_iff in Hm. rewrite Hm. cbn.
  rewrite Hm. by eexists.
Qed.

(** C35: failures without a JSON answer: when the server answers with a
    body that is not JSON (Next.js's plain 500 page), the page shows
    "Our servers are currently unreachable. Please try again later.";
    when [fetch] itself rejects, it shows the rejection's message, or
    "An unexpected error occurred." for an empty one.  Either way the
    inputs are kept, no result is shown and [loading] is cleared. *)
Theorem ui_submit_unreachable st st1 req :
  submit_start st = Some (st1, req) ->
  (forall status txt,
     let st' := submit_finish st1 (FResp (RText status txt)) in
     ui_error st' = "Our servers are currently unreachable. Please try again later." /\
     ui_url st' = ui_url st /\ ui_customSlug st' = ui_customSlug st /\
     ui_result st' = None /\ ui_loading st' = false) /\
  (forall m,
     let st' := submit_finish st1 (FNetError m) in
     ui_error st' = (if js_str_truthy m then m else "An unexpected error occurred.") /\
     ui_url st' = ui_url st /\ ui_customSlug st' = ui_customSlug st /\
     ui_result st' = None /\ ui_loading st' = false).
Proof.
  unfold submit_start, handleSubmit_start. destruct (can_submit st); [|done].
  intros [= <- _]. split; intros; unfold submit_finish, fetch_result; cbn; [done|].
  by destruct (js_str_truthy m).
Qed.

(** C17: a stale QR code: the QR promise of a first shortening can resolve
    after a second submission has cleared the QR code, so when the second
    answer arrives the page shows the second short link next to the QR
    code of the first (and "Download QR" names it after the second slug),
    until the second promise resolves.  The run is a sequence of steps of
    the page and the server. *)
Theorem ui_stale_qr :
  rtc (cstep ∅) (mkCl initial_ui [] sample_world) stale_qr_state /\
  ui_result (cl_ui stale_qr_state) =
    Some (mkShortResult "http://localhost:3000/two" "https://example.com/two" "two") /\
  ui_qrCode (cl_ui stale_qr_state) = Some (QrOf "http://localhost:3000/one").
Proof.
  split; [apply (run_cactions_sound ∅ stale_qr_run); vm_compute; reflexivity|].
  split; vm_compute; reflexivity.
Qed.


(** ** Witnesses *)

Definition form_state : UiState :=
  mkUi "https://example.com/x" " xyz " true false "" None None false None [].

Lemma ui_submit_created_witness :
  exists st' w', submit_with_server ∅ form_state sample_world = Some (st', w') /\
    ui_result st' = Some (mkShortResult (base_url ∅ +:+ "/" +:+ "xyz") (ui_url form_state) "xyz") /\
    ui_url st' = "" /\ ui_customSlug st' = "" /\ ui_showCustom st' = false /\
    ui_loading st' = false /\ ui_error st' = "" /\
    ui_pending st' = ui_pending form_state ++ [PQr (base_url ∅ +:+ "/" +:+ "xyz")] /\
    find_unique_slug (w_db w') "xyz" =
    Ok (Some (mkLink (next_id (w_db sample_world)) "xyz" (ui_url form_state) 0 (w_now sample_world))).
Proof.
  apply ui_submit_created; [reflexivity|reflexivity|vm_compute; reflexivity|reflexivity
                           |simpl; lia|reflexivity|reflexivity].
Defined.

Lemma ui_submit_unreachable_witness :
  (forall status txt,
     let st' := submit_finish (fst (handleSubmit_start form_state)) (FResp (RText status txt)) in
     ui_error st' = "Our servers are currently unreachable. Please try again later." /\
     ui_url st' = ui_url form_state /\ ui_customSlug st' = ui_customSlug form_state /\
     ui_result st' = None /\ ui_loading st' = false) /\
  (forall m,
     let st' := submit_finish (fst (handleSubmit_start form_state)) (FNetError m) in
     ui_error st' = (if js_str_truthy m then m else "An unexpected error occurred.") /\
     ui_url st' = ui_url form_state /\ ui_customSlug st' = ui_customSlug form_state /\
     ui_result st' = None /\ ui_loading st' = false).
Proof. apply (ui_submit_unreachable form_state _ (snd (handleSubmit_start form_state))). reflexivity. Defined.

Definition taken_state : UiState :=
  mkUi "https://example.com/x" "abc" true false "" None None false None [].

Lemma ui_submit_error_witness :
  exists st', submit_with_server ∅ taken_state sample_world =
              Some (st', snd (exec (POST ∅ (post_request (payload taken_state))) sample_world)) /\
    ui_error st' = "Custom slug is already taken" /\ ui_url st' = ui_url taken_state /\
    ui_customSlug st' = ui_customSlug taken_state /\ ui_showCustom st' = ui_showCustom taken_state /\
    ui_result st' = None /\ ui_loading st' = false.
Proof.
  apply (ui_submit_error ∅ taken_state sample_world 409);
    [reflexivity|vm_compute; reflexivity|lia|discriminate].
Defined.

Lemma submit_payload_typed_witness :
  req_body (post_request (payload form_state)) = Some (JObj (payload form_state)) /\
  js_get_prop (JObj (payload form_state)) "originalUrl" = Some (JStr (ui_url form_state)) /\
  ui_url form_state <> "" /\
  (js_get_prop (JObj (payload form_state)) "customSlug" = Some JUndefined \/
   exists c, js_get_prop (JObj (payload form_state)) "customSlug" = Some (JStr c) /\
             c = js_trim (ui_customSlug form_state) /\ c <> "").
Proof.
  apply (submit_payload_typed form_state
           (mkUi "https://example.com/x" " xyz " true true "" None None false None [])).
  vm_compute. reflexivity.
Defined.

Lemma ui_loading_inflight_witness :
  (ui_loading (cl_ui stale_qr_state) = true <-> cl_inflight stale_qr_state <> []) /\
  (length (cl_inflight stale_qr_state) <= 1)%nat.
Proof.
  apply (ui_loading_inflight ∅ sample_world).
  apply (run_cactions_sound ∅ stale_qr_run). vm_compute. reflexivity.
Defined.
