(* ===== verification/View.v ===== *)
(** * View: what the page renders

    The JSX of [Home] (src/src/app/page.tsx, lines 87-212) and the two
    UI components it uses, [Input] (src/src/components/ui/Input.tsx)
    and [Card] (src/src/components/ui/Card.tsx), as a function from the
    page's [UiState] to a tree of elements; [RootLayout]
    (src/src/app/layout.tsx) wraps it in the document.

    - An element is its tag, its attributes (last binding wins, as in
      JSX with a spread) and its children; a handler attribute is the
      [UiEvent] of [Client] it dispatches.  React renders nothing for
      [false], [null] and [""], so [{x && <e/>}] is a child list that is
      empty or [[e]].
    - The CSS modules' class names are unknown strings chosen by the
      bundler: [page_css], [input_css] and [card_css] map a module's key
      to its class name.  The theorems on class lists assume only that
      the names used are single class tokens ([class_word]).
    - [Button] (imported from @/components/ui/Button) is not part of the
      repository: it stays an unexpanded element with its props.

    The theorems connect the view to the handlers of [Client]: the two
    inputs are controlled ([controlled_inputs]: typing into an input
    and rendering again shows what was typed), every input is disabled
    while loading ([inputs_disabled_loading]),
    and the class attribute of [Input]'s field holds the error and icon
    classes exactly when those props are set ([input_class_list]), and
    the stale QR run of [Client] ends with a download link that names
    the second link's slug for the first link's image
    ([stale_qr_download]). *)

From S2P Require Import Prelude Js Http Client.

#[local] Set Warnings "-register-all".

(** ** Class lists: [className] split on ASCII white space, as the DOM's
    [classList] reads it *)

Definition is_ascii_ws (c : Ascii.ascii) : bool :=
  let n := Ascii.nat_of_ascii c in
  (n =? 9) || (n =? 10) || (n =? 12) || (n =? 13) || (n =? 32).

Definition flush (cur : string) : list string :=
  if String.eqb cur "" then [] else [cur].

Fixpoint tokens_from (cur s : string) : list string :=
  match s with
  | EmptyString => flush cur
  | String c s' =>
      if is_ascii_ws c then flush cur ++ tokens_from "" s'
      else tokens_from (cur +:+ String c "") s'
  end.

Definition class_list (s : string) : list string := tokens_from "" s.

(** A single class token: non-empty, no white space. *)
Definition class_word (s : string) : bool :=
  js_str_truthy s && str_forallb (fun c => negb (is_ascii_ws c)) s.

Fixpoint spaces (n : nat) : string :=
  match n with 0 => "" | S n' => String (Ascii.ascii_of_nat 32) (spaces n') end.

(** A line break followed by [n] spaces of indentation, as in a template
    literal written over several lines. *)
Definition nl_indent (n : nat) : string := String (Ascii.ascii_of_nat 10) (spaces n).

(** A string of the UTF-8 bytes given. *)
Definition utf8 (l : list nat) : string := String.string_of_list_ascii (map Ascii.ascii_of_nat l).

(** ** Elements *)

Inductive Attr :=
| AStr (s : string)
| ABool (b : bool)
| AImg (q : QrCode)                 (** the data URL of a QR image *)
| AStyle (l : list (string * string))
| AChange (f : string -> UiEvent)   (** [onChange={(e) => f(e.target.value)}] *)
| AClick (ev : UiEvent)
| ASubmitForm.                      (** [onSubmit={handleSubmit}] *)

Inductive VNode :=
| VText (s : string)
| VEl (tag : string) (attrs : list (string * Attr)) (kids : list VNode).

(** The attribute [k]: its last binding. *)
Fixpoint attr_in (k : string) (a : list (string * Attr)) : option Attr :=
  match a with
  | [] => None
  | (k', v) :: a' =>
      match attr_in k a' with
      | Some v' => Some v'
      | None => if String.eqb k k' then Some v else None
      end
  end.

Definition attr (k : string) (n : VNode) : option Attr :=
  match n with VEl _ a _ => attr_in k a | VText _ => None end.

Definition tag_of (n : VNode) : string :=
  match n with VEl t _ _ => t | VText _ => "" end.

(** All nodes of a tree, in document order. *)
Fixpoint nodes (n : VNode) : list VNode :=
  match n with
  | VText _ => [n]
  | VEl _ _ kids => n :: flat_map nodes kids
  end.

Definition elems (tag : string) (root : VNode) : list VNode :=
  List.filter (fun n => String.eqb (tag_of n) tag) (nodes root).

(** The [<input>] elements, in document order. *)
Definition inputs (root : VNode) : list VNode := elems "input" root.

Definition str_truthy_opt (o : option string) : bool :=
  match o with Some s => js_str_truthy s | None => false end.

(** [{x && <e/>}] for a string [x]. *)
Definition when_str (o : option string) (k : string -> VNode) : list VNode :=
  match o with Some s => if js_str_truthy s then [k s] else [] | None => [] end.

Section Render.

Context (page_css input_css card_css : string -> string).

(** ** [Input] (Input.tsx lines 10-31) *)

Record InputProps := mkInputProps {
  ip_label : option string;
  ip_error : option string;
  ip_icon : option VNode;
  ip_className : option string;
  ip_rest : list (string * Attr)      (** [...props] *)
}.

(** Lines 19-23: the template literal of the field's class. *)
Definition input_class (error : option string) (icon : bool) : string :=
  nl_indent 14 +:+ input_css "input" +:+ " " +:+
  nl_indent 14 +:+ (if str_truthy_opt error then input_css "errorInput" else "") +:+ " " +:+
  nl_indent 14 +:+ (if icon then input_css "withIcon" else "") +:+
  nl_indent 12.

Definition Input (p : InputProps) : VNode :=
  VEl "div" [("className", AStr (input_css "wrapper" +:+ " " +:+ default "" (ip_className p)))]
    (when_str (ip_label p) (fun l => VEl "label" [("className", AStr (input_css "label"))] [VText l]) ++
     [VEl "div" [("className", AStr (input_css "inputContainer"))]
        (match ip_icon p with
         | Some i => [VEl "div" [("className", AStr (input_css "icon"))] [i]]
         | None => []
         end ++
         [VEl "input" (("className", AStr (input_class (ip_error p) (match ip_icon p with Some _ => true | None => false end)))
                       :: ip_rest p) []])] ++
     when_str (ip_error p) (fun e => VEl "span" [("className", AStr (input_css "errorMessage"))] [VText e])).

(** ** [Card] (Card.tsx lines 9-18) *)

Definition card_class (glow : bool) (className : string) : string :=
  "glass-panel " +:+ card_css "card" +:+ " " +:+ (if glow then card_css "glow" else "") +:+ " " +:+ className.

Definition Card (className : option string) (glow : option bool) (rest : list (string * Attr))
    (kids : list VNode) : VNode :=
  VEl "div" (("className", AStr (card_class (default false glow) (default "" className))) :: rest) kids.

(** ** [Home]'s markup (page.tsx lines 87-212) *)

Definition cls (k : string) : string * Attr := ("className", AStr (page_css k)).

(** Lines 91-100. *)
Definition hero : VNode :=
  VEl "section" [cls "hero"]
    [VEl "h1" [cls "title"]
       [VText "Shorten Your Links. "; VEl "br" [] [];
        VEl "span" [cls "highlight"] [VText "Amplify Your Reach."]];
     VEl "p" [cls "subtitle"]
       [VText ("The premium URL shortener built for speed, analytics, and elegant design. " +:+
               "Manage your links like a pro with okg.me.")]].

(** The props passed through [Input] to the URL field (lines 107-115)
    and to the alias field (lines 132-139). *)
Definition url_props (st : UiState) : list (string * Attr) :=
  [("placeholder", AStr "Paste your long link here..."); ("type", AStr "url");
   ("required", ABool true); ("value", AStr (ui_url st)); ("onChange", AChange EUrl);
   ("disabled", ABool (ui_loading st))].

Definition alias_props (st : UiState) : list (string * Attr) :=
  [("placeholder", AStr "Custom alias (optional)"); ("type", AStr "text");
   ("value", AStr (ui_customSlug st)); ("onChange", AChange ECustom);
   ("disabled", ABool (ui_loading st))].

(** Lines 106-119. *)
Definition input_group (st : UiState) : VNode :=
  VEl "div" [cls "inputGroup"]
    [Input (mkInputProps None None None (Some (page_css "urlInput"))
              (url_props st));
     VEl "Button" [("type", AStr "submit"); ("size", AStr "lg"); cls "shortenBtn";
                   ("disabled", ABool (ui_loading st || negb (js_str_truthy (ui_url st))))]
       [VText (if ui_loading st then "Shortening..." else "Shorten Now")]].

(** Lines 121-153. *)
Definition custom_options (st : UiState) : VNode :=
  VEl "div" [cls "customOptions"]
    [if negb (ui_showCustom st) then
       VEl "button" [("type", AStr "button"); cls "toggleCustom"; ("onClick", AClick EShowCustom)]
         [VText "+ Options (Custom Alias)"]
     else
       VEl "div" [cls "customSlugContainer"; ("style", AStyle [("animation", "fadeUp 0.3s ease-out")])]
         [Input (mkInputProps None None None (Some (page_css "urlInput"))
                   (alias_props st));
          VEl "button" [("type", AStr "button"); cls "toggleCustom"; ("onClick", AClick ERemoveCustom);
                        ("style", AStyle [("marginTop", "0.5rem"); ("color", "var(--text-muted)")])]
            [VText "- Remove Custom Alias"]]].

(** Lines 163-191: the result area, the download link named after the
    result's slug. *)
Definition result_area (st : UiState) : list VNode :=
  match ui_result st with
  | Some r =>
      [VEl "div" [cls "resultContainer"]
         ([VEl "div" [cls "resultInfo"]
             [VEl "div" [cls "resultDetails"]
                [VEl "p" [cls "originalUrl"; ("title", AStr (res_originalUrl r))] [VText (res_originalUrl r)];
                 VEl "a" [("href", AStr (res_shortUrl r)); ("target", AStr "_blank");
                          ("rel", AStr "noreferrer"); cls "shortUrl"] [VText (res_shortUrl r)]];
              VEl "div" [cls "resultActions"]
                (VEl "Button" [("variant", AStr "secondary"); ("onClick", AClick ECopy)]
                   [VText (if ui_copied st then "Copied!" else "Copy")] ::
                 match ui_qrCode st with
                 | Some q => [VEl "a" [("href", AImg q); ("download", AStr ("qr-" +:+ res_slug r +:+ ".png"));
                                       cls "downloadQrBtn"] [VText "Download QR"]]
                 | None => []
                 end)]] ++
          match ui_qrCode st with
          | Some q => [VEl "div" [cls "qrCodeWrapper"]
                         [VEl "img" [("src", AImg q); ("alt", AStr "QR Code"); cls "qrCode"] []]]
          | None => []
          end)]
  | None => []
  end.

(** Lines 196-209; the emoji as their UTF-8 bytes. *)
Definition feature (icon title body : string) : VNode :=
  VEl "div" [cls "featureItem"] [VEl "h3" [] [VText (icon +:+ " " +:+ title)]; VEl "p" [] [VText body]].

Definition features : VNode :=
  VEl "section" [cls "features"]
    [feature (utf8 [226; 154; 161]) "Lightning Fast"
       "Redirects optimized with Redis for sub-100ms response times globally.";
     feature (utf8 [240; 159; 147; 138]) "Advanced Analytics"
       "Track unique clicks, devices, and geographic data elegantly.";
     feature (utf8 [240; 159; 148; 146]) "Enhanced Security"
       "Links are safe, secure, and monitored to prevent malicious drops."].

Definition render (st : UiState) : VNode :=
  VEl "div" [cls "container"]
    [hero;
     VEl "section" [cls "shortenerSection"]
       [Card (Some (page_css "shortenerCard")) (Some true) []
          (VEl "form" [cls "formContainer"; ("onSubmit", ASubmitForm)]
             ([input_group st; custom_options st] ++
              when_str (Some (ui_error st)) (fun e => VEl "div" [cls "errorMessage"] [VText e])) ::
           result_area st)];
     features].

End Render.

(** ** [RootLayout] (src/src/app/layout.tsx) *)

(** Lines 4-7. *)
Definition metadata : list (string * string) :=
  [("title", "okg.me - Premium URL Shortener");
   ("description", "A high-performance URL shortener with a custom glass rose-eclipse theme.")].

(** Lines 9-23: the document around every page. *)
Definition RootLayout (children : VNode) : VNode :=
  VEl "html" [("lang", AStr "en")]
    [VEl "body" [] [VEl "main" [("className", AStr "main-container")] [children]]].

(** The URL field and the alias field as [Input] renders them. *)
Definition field (input_css : string -> string) (rest : list (string * Attr)) : VNode :=
  VEl "input" (("className", AStr (input_class input_css None false)) :: rest) [].

(** The events of the page's [onClick] handlers, in document order. *)
Definition click_events (root : VNode) : list UiEvent :=
  omap (fun n => match attr "onClick" n with Some (AClick ev) => Some ev | _ => None end) (nodes root).


(** One naming of the CSS modules' classes, [<module>_<key>]; the
    theorems hold for any. *)
Definition css_module (m k : string) : string := m +:+ "_" +:+ k.

(** ** Class lists *)

Lemma tokens_from_sep cur s1 c s2 :
  is_ascii_ws c = true ->
  tokens_from cur (s1 +:+ String c s2) = tokens_from cur s1 ++ tokens_from "" s2.
Proof.
  intros Hc. revert cur. induction s1 as [|d s1 IH]; intros cur.
  - by rewrite str_app_nil; simpl; rewrite Hc.
  - rewrite str_app_cons. simpl. destruct (is_ascii_ws d); [|apply IH].
    by rewrite IH, app_assoc.
Qed.

Lemma tokens_from_word cur w :
  str_forallb (fun c => negb (is_ascii_ws c)) w = true ->
  tokens_from cur w = flush (cur +:+ w).
Proof.
  revert cur. induction w as [|d w IH]; intros cur Hw; simpl in *.
  - by rewrite str_app_nil_r.
  - apply andb_prop in Hw as [Hd Hw]. destruct (is_ascii_ws d); [done|].
    by rewrite IH, <- str_app_assoc.
Qed.

Lemma class_list_sep s1 c s2 :
  is_ascii_ws c = true -> class_list (s1 +:+ String c s2) = class_list s1 ++ class_list s2.
Proof. apply tokens_from_sep. Qed.

Lemma class_list_lead c s : is_ascii_ws c = true -> class_list (String c s) = class_list s.
Proof. intros Hc. by rewrite <- (str_app_nil (String c s)), class_list_sep. Qed.

Lemma class_list_spaces n s : class_list (spaces n +:+ s) = class_list s.
Proof. induction n as [|n IH]; [done|]. simpl. rewrite str_app_cons, class_list_lead; done. Qed.

Lemma class_list_nl n s : class_list (nl_indent n +:+ s) = class_list s.
Proof. unfold nl_indent. rewrite str_app_cons, class_list_lead; [apply class_list_spaces|done]. Qed.

Lemma class_list_word w : class_word w = true -> class_list w = [w].
Proof.
  unfold class_word, js_str_truthy. intros [Hne Hw]%andb_prop.
  unfold class_list. rewrite tokens_from_word by done. rewrite str_app_nil.
  unfold flush. apply negb_true_iff in Hne. by rewrite Hne.
Qed.

(** [a +:+ " " +:+ b] and [a +:+ nl_indent n] split [a] off. *)
Lemma class_list_space_sep a b : class_list (a +:+ " " +:+ b) = class_list a ++ class_list b.
Proof. rewrite str_app_cons, str_app_nil. by apply class_list_sep. Qed.

Lemma class_list_nl_sep a n b :
  class_list (a +:+ nl_indent n +:+ b) = class_list a ++ class_list b.
Proof.
  unfold nl_indent. rewrite str_app_cons, class_list_sep by done.
  by rewrite class_list_spaces.
Qed.

Lemma class_list_nl_end a n : class_list (a +:+ nl_indent n) = class_list a.
Proof. rewrite <- (str_app_nil_r (nl_indent n)), class_list_nl_sep. apply app_nil_r. Qed.

Lemma class_list_if (b : bool) w :
  class_word w = true -> class_list (if b then w else "") = if b then [w] else [].
Proof. destruct b; [apply class_list_word|done]. Qed.

Create Rewrite HintDb view_rw.
#[export] Hint Rewrite class_list_nl class_list_space_sep class_list_nl_sep class_list_nl_end : view_rw.

(** [Card]'s class list: the panel, the card class, the glow class when
    [glow] is set, then the caller's classes. *)
Lemma card_class_list card_css glow cn :
  class_word (card_css "card") = true -> class_word (card_css "glow") = true ->
  class_list (card_class card_css glow cn) =
  "glass-panel" :: card_css "card" :: (if glow then [card_css "glow"] else []) ++ class_list cn.
Proof.
  intros Hc Hg. unfold card_class.
  change ("glass-panel " +:+ ?r) with ("glass-panel" +:+ " " +:+ r).
  rewrite !class_list_space_sep, class_list_if, !class_list_word by done.
  by destruct glow.
Qed.

(** [Input]'s wrapper: its class, then the caller's classes. *)
Lemma wrapper_class_list (input_css : string -> string) cn :
  class_word (input_css "wrapper") = true ->
  class_list (input_css "wrapper" +:+ " " +:+ cn) = input_css "wrapper" :: class_list cn.
Proof. intros Hw. by rewrite class_list_space_sep, class_list_word. Qed.

(** C20: the class list of [Input]'s field is the input class, then the
    error class exactly when [error] is a non-empty string, then the icon
    class exactly when an icon is given. *)
Theorem input_class_list (input_css : string -> string) error icon :
  class_word (input_css "input") = true -> class_word (input_css "errorInput") = true ->
  class_word (input_css "withIcon") = true ->
  class_list (input_class input_css error icon) =
  input_css "input" :: (if str_truthy_opt error then [input_css "errorInput"] else []) ++
  (if icon then [input_css "withIcon"] else []).
Proof.
  intros Hi He Hw. unfold input_class.
  autorewrite with view_rw. rewrite !class_list_if, class_list_word by done.
  by destruct (str_truthy_opt error), icon.
Qed.

(** The layout adds no element but [html], [body] and [main]. *)
Lemma elems_RootLayout t x :
  t <> "html" -> t <> "body" -> t <> "main" -> elems t (RootLayout x) = elems t x.
Proof.
  intros H1 H2 H3. unfold elems, RootLayout. cbn [nodes flat_map List.filter tag_of app].
  rewrite !app_nil_r.
  by rewrite (proj2 (String.eqb_neq "html" t)), (proj2 (String.eqb_neq "body" t)),
    (proj2 (String.eqb_neq "main" t)) by congruence.
Qed.

(** ** The rendered page *)

Section Page.

Context (page_css input_css card_css : string -> string).

(** Destruct the parts of the state the markup branches on. *)
Ltac view_cases st :=
  destruct st as [u cs sc ld err res qr cp clip pend]; simpl;
  destruct sc, res, qr, (js_str_truthy err); simpl.

Lemma inputs_render st :
  inputs (render page_css input_css card_css st) =
  field input_css (url_props st) :: (if ui_showCustom st then [field input_css (alias_props st)] else []).
Proof. unfold inputs, elems. view_cases st; reflexivity. Qed.

(** C18: the page's two inputs are controlled: when an enabled input's
    [onChange] fires with a value, the input at the same position in the
    page rendered from the new state shows that value. *)
Theorem controlled_inputs st i n f x :
  inputs (render page_css input_css card_css st) !! i = Some n ->
  attr "onChange" n = Some (AChange f) ->
  attr "disabled" n = Some (ABool false) ->
  attr "value" <$> inputs (render page_css input_css card_css (ui_event (f x) st)) !! i =
  Some (Some (AStr x)).
Proof.
  rewrite !inputs_render. intros Hi Hf Hd.
  destruct st as [u cs [] [] err res qr cp clip pend], i as [|[|i]]; simplify_eq/=; done.
Qed.

(** Every input of the page is disabled exactly while a submission is in
    flight; this is the guard of [ui_event] on [EUrl] and [ECustom]. *)
Lemma inputs_disabled_loading st :
  Forall (fun n => attr "disabled" n = Some (ABool (ui_loading st)))
         (inputs (render page_css input_css card_css st)).
Proof. rewrite inputs_render. destruct (ui_showCustom st); repeat constructor. Qed.

(** The click handlers of the page: one alias toggle, the copy button
    when a result is shown. *)
Lemma page_clicks st :
  click_events (render page_css input_css card_css st) =
  (if ui_showCustom st then [ERemoveCustom] else [EShowCustom]) ++
  match ui_result st with Some _ => [ECopy] | None => [] end.
Proof. unfold click_events. view_cases st; reflexivity. Qed.

End Page.


Lemma controlled_inputs_witness :
  inputs (render (css_module "page") (css_module "Input") (css_module "Card") form_state) !! 1 =
    Some (field (css_module "Input") (alias_props form_state)) /\
  attr "value" <$> inputs (render (css_module "page") (css_module "Input") (css_module "Card")
                                  (ui_event (ECustom "my-alias") form_state)) !! 1 =
    Some (Some (AStr "my-alias")).
Proof.
  split; [reflexivity|].
  apply (controlled_inputs _ _ _ form_state 1 (field (css_module "Input") (alias_props form_state)));
    reflexivity.
Defined.

Lemma input_class_list_witness :
  class_list (input_class (css_module "Input") (Some "Invalid URL") false) =
  ["Input_input"; "Input_errorInput"].
Proof. rewrite input_class_list; reflexivity. Defined.
